(* ===== verification/_CoqProject ===== *)
-Q . S2P
Prelude.v
GoStr.v
GoPath.v
GoOS.v
Wire.v
Codec.v
Dedupe.v
Chan.v
Broker.v
Server.v
Config.v
Ipc.v
Clip.v
GoTime.v
Sinks.v
Daemon.v
Handlers.v
Conn.v
Serve.v
RoomServe.v
Flags.v
Proc.v
Cli.v
Tui.v
TuiLoop.v
TuiProps.v
Remote.v
Room.v
Local.v
Handoff.v
Rooms.v
Delivery.v
Network.v
NetworkDelivery.v
Chat.v
ProbeConfig.v
ProbeIpc.v
ProbeCodec.v
ProbeDaemon.v
ProbeHandlers.v
ProbeSinks.v
ProbeWire.v
ProbeAgree.v
ProbeCli.v
ProbeLocal.v
ProbeTui.v
ProbeTuiProps.v
ProbeServe.v
GoNet.v
Dialing.v
Lan.v
LanProps.v
Mesh.v
ProbeMain.v
ProbeHandoff.v
ProbeRoom.v
MeshRoom.v
LanRoom.v
