(* ===== verification/Prelude.v ===== *)
(** * clipboard-handoff: a verification library of room-go

    The repository hands clipboard items (text, images, files) from one machine to another.  Its
    Go implementation, [room-go], is three processes: a relay ([room server]) that fans frames out
    to the SSH sessions of a room; a resident daemon on every machine, which keeps one session to
    the relay, buffers what comes in and routes it to the clipboard and to files; and the command
    [room], a thin client of the daemon over a local socket.  This library translates that program
    into Rocq functions and step relations and proves what makes each part, and the whole, correct.
    The repository also keeps its experiments, one daemon behind several transports; that daemon
    and its two transports, LAN and libp2p, are modelled too.  Paths below are under [src/room-go],
    those that begin with shared-go, lan-go or libp2p-mesh under [src/experiments].

    ** The files

    Models of the Go library, as far as the program uses it (no entry in the map, since they are
    not the program's code):
    - [Prelude] (this file): results, the notation of the development, tactics ([split_match],
      [breflect]), the hint databases [handoff] and [golen], the newest [n] elements of a list, and
      reachability by [steps];
    - [GoStr]: byte strings, UTF-8, strconv, hex, fixed-width integers with their wrap-around;
    - [GoPath]: path/filepath; a path resolves to a rooted flag and a list of components;
    - [GoOS]: package os on a finite map from paths to nodes, with a set of paths that refuse
      access, so that every call can fail;
    - [GoTime]: instants, written as RFC 3339 and as a short local stamp;
    - [GoNet]: decimal numbers, IP addresses as text, host and port;
    - [Chan]: buffered channels, with the panic of a send on a closed one.

    The program, one file per component:
    - [Wire] (internal/wire/wire.go): envelopes, framing, type sniffing, PNG, digests;
    - [Codec]: concrete codecs and a concrete digest, which meet the laws the parameters assume, for
      the examples only;
    - [Broker] (internal/broker/broker.go): rooms and the fan-out of one frame;
    - [Server] (internal/server/server.go): the host key, authentication, and the two goroutines of
      each session as labelled steps ([step_fn], [run]); an interleaving is a list of labels;
    - [Config] (internal/config/config.go): settings on disk and the identity key;
    - [Ipc] (internal/ipc/ipc.go and detach_unix.go): requests, responses, the socket path, dialling
      and spawning;
    - [Clip] (internal/clip/clip.go): the clipboard behind its once-only initialisation;
    - [Dedupe] (internal/daemon/dedupe.go): the window of seen message ids;
    - [Sinks] (internal/daemon/session.go): the folder and the text file, and undoing a session;
    - [Daemon] (internal/daemon/daemon.go and the clear helpers of session.go): the state of the
      daemon as one record, [ingest], the buffer, subscribers, start and stop;
    - [Handlers] (internal/daemon/handlers.go): one function per request and [handleConn];
    - [Conn] (internal/daemon/conn.go): the connection loops as labelled steps over the shared
      record of the live session, together with requests ([cstep], [crun]);
    - [Serve] (the accept loop, the shutdown watcher and the goroutine of each connection, in
      internal/daemon/daemon.go and handlers.go): the process of a daemon as labelled steps
      ([sstep], [srun]) over the class [Server] of what they ask of a daemon; [RoomServe]: its
      instance for room-go, with the loops of [Conn] in the background;
    - [Flags] (cmd/room/flagset.go), on a model of packages flag and strconv;
    - [Proc]: the process of a command as a state monad with panics; the class [Peer] is what a
      command knows of the process behind the socket, [PeerSends] what it relies on;
    - [Cli] (cmd/room/main.go): the commands; [Remote] (cmd/room/remote.go): [room remote], on the
      class [Machine] of what it drives; [Room]: [dispatch] and [main];
    - [Local]: the daemon of [Handlers] as an instance of [Peer];
    - [Handoff]: the end-to-end theorems; [Rooms]: any number of daemons on the relay, against the
      abstract room ([feed]); [Network]: the same with each daemon a process of [RoomServe] and with
      the clients behind it; [Delivery]: what does arrive, as long as no queue is full;
      [NetworkDelivery]: the same from process to process;
    - [Tui] (internal/tui/view.go): the state of the terminal UI and how it is drawn, on the class
      [Widgets] of what bubbletea and lipgloss provide; [TuiLoop] (internal/tui/tui.go and
      client.go): [Update] over messages, the commands it asks for and what they do ([exec]), the
      subscription ([streamItems]); [TuiProps]: theorems on [Update] alone; [Chat]: the UI on the
      daemons.

    The experiments:
    - [ProbeConfig], [ProbeIpc], [ProbeDaemon], [ProbeHandlers] (shared-go/config, ipc and
      transport, daemon/daemon.go and sinks.go, daemon/handlers.go): the daemon, which takes its
      transport as a class [Transport]; where a Go file is a copy of room-go's (wire, dedupe, clip)
      they use the model of the original;
    - [ProbeWire] (shared-go/wire/wire.go, daemon/dedupe.go, clip/clip.go): these copies, translated
      by themselves and proved equal to the originals ([probe_wire_agrees]);
    - [ProbeCodec]: concrete codecs for the examples;
    - [ProbeSinks]: what its sinks do to the files; [ProbeAgree]: how far it is room-go's daemon;
    - [ProbeCli] (shared-go/cli/cli.go and remote.go, and [cmdTUI] of tui.go): the commands, in the
      process monad of [Proc]; [ProbeLocal]: the daemon as an instance of [Peer], and what every
      command line ends with;
    - [ProbeTui] (shared-go/cli/tui.go): its terminal UI; [Update] runs in the process monad, with
      the part that touches only the model as the function [step]; the time zone is a parameter;
      [ProbeTuiProps]: its theorems;
    - [ProbeServe]: the instance of [Serve] for this daemon, over any transport;
    - [Dialing]: the set of peers that are being dialed, which both transports keep;
    - [Lan] (lan-go/internal/lantransport/lantransport.go): discovery, the peer table, dialling and
      serving connections as labelled steps ([lan_step]), the identity; an instance of [Transport];
      [LanProps]: its theorems;
    - [Mesh] (libp2p-mesh/internal/meshtransport/meshtransport.go): the same for libp2p: the
      topic, discovery and dialling ([mesh_step]), the key, with libp2p's answers as parameters;
    - [ProbeMain] (lan-go/cmd/lan/main.go, libp2p-mesh/cmd/libp2p-mesh/main.go): the two programs, and
      what the daemon of each boots with;
    - [ProbeHandoff]: a file from [send] on one machine to [recv --out] on another, for any
      transport ([file_handoff]) and for these two;
    - [ProbeRoom]: any number of daemons as processes of [ProbeServe], over a transport of the class
      [Ledger]; [MeshRoom] and [LanRoom]: its two instances, and what their clients are shown.

    ** How state and operations correspond

    A Go struct is a record; its methods take the record and give it back.  What a mutex protects
    is one atomic function; where the code leaves a critical section and enters another, the model
    has two functions ([recv_latest] and [recv_subscribe]) or steps of a relation ([Server], [Conn]).
    Pointers that are shared (sessions, channels, SSH pipes) are names in a heap that is part of
    the state.  Errors are values of [result] or [option]; an error of package os carries its
    operation, path and errno.  Strings and []byte are both [string]; integers are [Z], reduced
    where the code converts to a fixed width.  Third-party code is a class with no body (CBOR,
    BLAKE3, image codecs, MIME table, JSON, SSH keys, authorized_keys, the clipboard library, the
    programs [room remote] runs, bubbletea's widgets, TLS, mDNS, QUIC and libp2p); what the theorems need of
    it is a second class of laws ([CborLaws], [CborSound], [Blake3Law], [JsonLaws], [SshKeyLaws],
    [StateJsonLaws], [MachineLaws], [WidgetLaws], [Libp2pLaws]), and every such theorem has a witness at a
    concrete instance.  Where Go leaves the order of evaluation open ([return m, m.f()]) the class
    [Compiler] decides, and the theorems hold for both orders or say which.

    ** What is shown

    - End to end: [handoff_text] (what is piped into [send] is what [recv] prints elsewhere),
      [chat_message] (what is typed into the UI is a bubble elsewhere), [room_feeds_members] (what
      a daemon keeps is a feed of the abstract room: envelopes other daemons of its room were asked
      to send, whole, in order, none twice, under every interleaving), [processes_feed] (the same
      for what a client that follows a daemon is sent, every daemon being a process with clients of
      its own), [room_delivers] (nothing is lost as long as no queue is full), [processes_deliver] (so that the
      text of every [send] one daemon acknowledged is written to a client that follows another,
      both being processes), [relay_end_to_end] (under
      every interleaving and broken connection a client only decodes frames of other sessions of
      its room, intact, in order, never twice), [lan_file_handoff] and [mesh_file_handoff] (a file
      on either mesh, byte for byte), [mesh_room] and [lan_room] (a room of processes on either: only
      what others were asked to send is shown, and every text that arrives is); [lan_delivery].
    - Receiving: [ingest_spec], [Seen_refines_window], [recv_spec]; [ingest_all_spec] (the buffer is
      the last 64 accepted items), [latest_newest], [Seen_bounded_no_repeat].
    - The process: [room_process_ok] (the daemon's invariant, who holds which subscription, what
      each connection was sent, and when [Run] returns nil); [probe_process_ok], [handleReq_ok].
    - Files: [routeSinks_confined] (whatever the sender calls a file, it lands directly in
      save_dir and overwrites nothing), [clear_all_reverts], [clear_needs_consent];
      [clearSinks_reverts], [dedupPath_total].
    - Clipboard: [clipboard_policy], [chat_copy]; [lastCopy_tracks].
    - Relay: [Broadcast_spec], [relay_state_ok], [relay_drains_and_leaves], and [relay_can_panic],
      a run in which it crashes; [relay_crash_only_closed].
    - Requests, settings, keys: [handleSend_spec], [SetKey_spec];
      [SetKey_persists], [handleReq_rejects], [Signer_stable], [hostKey_stable].
    - Wire: [frame_stream_roundtrip], [broken_stream_prefix]; [ReadFrame_bounds], [Classify_spec].
    - Connections: [conn_record_single]; [join_second_loop], how it fails with two loops.
    - Commands: [main_exit_codes], [spawned_daemon_inherits], [remote_waits_end];
      [Dial_terminates].
    - Terminal UI: [tui_model_ok] (the shape of every model), [selection_visible],
      [quit_asks_first]; [composer_starts_deaf].  The earlier one of the experiments:
      [probe_tui_ok], [wrap_spec] (word wrap keeps the words and the width); [probe_quit_asks],
      [probe_selection_shown].
    - Experiments: [probe_ingest_agrees] and [probe_send_agrees] (equivalence with room-go's
      daemon), [probe_sinks_keep], [lan_mesh_ok] and [mesh_dials_once] (the invariants of the
      meshes), [lan_rediscovers] (a lost peer is dialed again by the next round of browsing),
      [lan_boots] (what [lan daemon] runs); [mesh_boots], [lan_rendezvous], [mesh_rendezvous],
      [lan_any_certificate], [probe_send_any_order], [lan_identity_stable], [mesh_identity_stable], [probe_exit_codes], [probe_sink_escapes],
      [probe_clear_pads].
    - Defects with a proof: [relay_can_panic], [recv_lost_wakeup], [recv_unknown_type_panics],
      [join_second_loop], [reopened_tunnel_forgets_server], [composer_starts_deaf],
      [probe_sink_escapes], [probe_clear_pads], [lan_any_certificate].

    ** Bounds and fuel

    Loops over a stream take the length of its bytes plus one as fuel: a frame takes at least its
    four-byte header ([recv_loop_frames], [read_frames_total]).  [dedupPath] takes one more than the
    number of nodes ([dedupPath_total]); [Dial] 68 rounds, [wait_listening] 26 and [wait_tunnel] 35,
    enough for their deadlines because every round sleeps ([Dial_terminates],
    [remote_waits_end]); [parseInterspersed] one more than the number of arguments
    ([parseInterspersed_total]), and so does [parse_loop] ([parse_loop_total]).  [findModuleDir] and
    [findRemoteHelper] take three more than the depth of the directory ([walk_up_fuel]).
    [load_keys] takes the length of the file plus one: a parsed key is not empty.  [waitForPeers]
    of the experiments takes 51 rounds of a tenth of a second ([waitForPeers_ends]), and its
    [dedupPath] ends for names with slashes too ([dedupPath_some]); [connectPeer] of the libp2p
    transport takes eight rounds ([connectPeer_ends]).

    ** What is not modelled

    Logging and notifications; permissions bits; the SSH, CBOR, JSON, TLS, libp2p and image
    libraries; the scheduler of bubbletea, which runs the commands of the UI, so that [tui.Run]
    stays an argument of [cmdTui]; [strings.TrimSpace] and [strings.ToLower] beyond ASCII; what only
    feeds the log ([short], [notify] of the experiments).  In the theorems on commands a connection
    is served at one moment ([Local.Moment]); its life among others is [Serve].  The theorems on the
    meshes of the experiments say nothing on the order of what is shown: a stream of QUIC, or a
    message of gossipsub, has none that the code relies on. *)
From Stdlib Require Export Lia Ascii String.
From stdpp Require Export base gmap strings pretty numbers.
From stdpp Require Export list.

(** A Go call that returns [(v, nil)] or [(_, err)]. *)
Inductive result (E A : Type) :=
| Ok (a : A)
| Err (e : E).
Arguments Ok {E A} a.
Arguments Err {E A} e.

Definition is_ok {E A} (r : result E A) : bool :=
  match r with Ok _ => true | Err _ => false end.

Create HintDb handoff.
Create HintDb golen.

(** Case analysis on the discriminee of the first [match] or [if] in sight. *)
Ltac split_match :=
  match goal with
  | |- context [match ?x with _ => _ end] => destruct x eqn:?
  | H : context [match ?x with _ => _ end] |- _ => destruct x eqn:?
  end.

(** Boolean tests of the code turned into the propositions they decide. *)
Ltac breflect :=
  repeat match goal with
  | H : (_ && _) = true |- _ => apply andb_true_iff in H as [? ?]
  | H : (_ || _) = false |- _ => apply orb_false_iff in H as [? ?]
  | H : negb _ = true |- _ => apply negb_true_iff in H
  | H : negb _ = false |- _ => apply negb_false_iff in H
  | H : bool_decide _ = true |- _ => apply bool_decide_eq_true in H
  | H : bool_decide _ = false |- _ => apply bool_decide_eq_false in H
  | H : String.eqb _ _ = true |- _ => apply String.eqb_eq in H
  | H : String.eqb _ _ = false |- _ => apply String.eqb_neq in H
  | H : (_ <? _)%Z = true |- _ => apply Z.ltb_lt in H
  | H : (_ <? _)%Z = false |- _ => apply Z.ltb_ge in H
  | H : (_ <=? _)%Z = true |- _ => apply Z.leb_le in H
  | H : (_ <=? _)%Z = false |- _ => apply Z.leb_gt in H
  | H : (_ =? _)%Z = true |- _ => apply Z.eqb_eq in H
  | H : (_ =? _)%Z = false |- _ => apply Z.eqb_neq in H
  | H : (_ <? _)%nat = true |- _ => apply Nat.ltb_lt in H
  | H : (_ <? _)%nat = false |- _ => apply Nat.ltb_ge in H
  | H : (_ <=? _)%nat = true |- _ => apply Nat.leb_le in H
  | H : (_ <=? _)%nat = false |- _ => apply Nat.leb_gt in H
  end.

(** ** Lists: the newest elements of a bounded buffer *)

(** [l[len(l)-n:]], the last [n] elements, and all of them when there are fewer. *)
Definition lastn {A} (n : nat) (l : list A) : list A := drop (length l - n) l.

Lemma length_lastn {A} n (l : list A) : length (lastn n l) = Nat.min n (length l).
Proof. unfold lastn. rewrite length_drop. lia. Qed.

Lemma lastn_all {A} n (l : list A) : length l <= n → lastn n l = l.
Proof. intros H. unfold lastn. by replace (length l - n) with 0 by lia. Qed.

Lemma lastn_lastn_app {A} n (l k : list A) : lastn n (lastn n l ++ k) = lastn n (l ++ k).
Proof.
  unfold lastn. rewrite !length_app, length_drop.
  destruct (decide (length l <= n)) as [Hle|Hgt].
  - replace (length l - n) with 0 by lia. by rewrite Nat.sub_0_r.
  - rewrite <- drop_app_le, drop_drop by lia. f_equal. lia.
Qed.

Lemma lastn_suffix {A} n (l : list A) : lastn n l `suffix_of` l.
Proof. exists (take (length l - n) l). symmetry. apply take_drop. Qed.

Lemma lastn_Forall {A} (P : A → Prop) n l : Forall P l → Forall P (lastn n l).
Proof. apply Forall_drop. Qed.

Lemma filter_none {A} (P : A → Prop) `{∀ x, Decision (P x)} l :
  (∀ x, x ∈ l → ¬ P x) → filter P l = [].
Proof.
  induction l as [|x l IH]; intros Hl; [done|].
  rewrite filter_cons, decide_False by (apply Hl; set_solver). apply IH. set_solver.
Qed.

Lemma sublist_map {A B} (f : A → B) l k : l `sublist_of` k → map f l `sublist_of` map f k.
Proof. induction 1; simpl; by constructor. Qed.

Lemma Forall2_elem_l {A B} (R : A → B → Prop) l k x : Forall2 R l k → x ∈ l → ∃ y, y ∈ k ∧ R x y.
Proof.
  induction 1 as [|a b l k Hab _ IH]; [by intros ?%elem_of_nil|].
  intros [->|Hin]%elem_of_cons; [exists b; by split; [left|]|].
  destruct (IH Hin) as (y & ? & ?). exists y. by split; [right|].
Qed.

Lemma Forall2_elem_r {A B} (R : A → B → Prop) l k y : Forall2 R l k → y ∈ k → ∃ x, x ∈ l ∧ R x y.
Proof. intros H Hy. by apply (Forall2_elem_l (flip R) k l y); [apply Forall2_flip|]. Qed.

Lemma sublist_filter {A} (P : A → Prop) `{∀ x, Decision (P x)} l k :
  l `sublist_of` k → filter P l `sublist_of` filter P k.
Proof.
  induction 1; rewrite ?filter_cons; repeat case_decide; by try constructor.
Qed.

(** A test of the images that another test of the elements passes. *)
Lemma sublist_filter_map {A B} (g : A → B) (P : B → Prop) (Q : A → Prop)
    `{∀ x, Decision (P x)} `{∀ x, Decision (Q x)} l :
  (∀ x, P (g x) → Q x) → filter P (map g l) `sublist_of` map g (filter Q l).
Proof.
  intros HQ. induction l as [|x l IH]; [done|]. cbn [map]. rewrite !filter_cons. case_decide as HP.
  - rewrite decide_True by auto. by apply sublist_skip.
  - case_decide; [by apply sublist_cons|done].
Qed.

#[export] Hint Resolve lastn_Forall lastn_suffix : handoff.
#[export] Hint Rewrite @length_lastn @length_app @length_drop @length_take : golen.

(** ** Reachability *)

(** The states a step relation reaches in zero or more steps. *)
Inductive steps {S} (R : S → S → Prop) : S → S → Prop :=
| steps_refl s : steps R s s
| steps_snoc s1 s2 s3 : steps R s1 s2 → R s2 s3 → steps R s1 s3.

Lemma steps_invariant {S} (R : S → S → Prop) (I : S → Prop) s s' :
  (∀ a b, I a → R a b → I b) → I s → steps R s s' → I s'.
Proof. intros HR Hs Hst. induction Hst; eauto. Qed.

Lemma steps_trans {S} (R : S → S → Prop) a b c : steps R a b → steps R b c → steps R a c.
Proof. intros Hab Hbc. induction Hbc; eauto using steps_snoc. Qed.

Lemma steps_one {S} (R : S → S → Prop) a b : R a b → steps R a b.
Proof. eauto using steps_snoc, steps_refl. Qed.

#[export] Hint Constructors steps : handoff.
