(* ===== verification/GoStr.v ===== *)
(** * Go's strings, bytes and encodings

    What the program uses of the standard library's [strings], [bytes],
    [strconv], [unicode/utf8], [encoding/binary] and [encoding/hex].  A Go
    [string] and a Go byte slice are both a Rocq [string], one [ascii] per byte, so that a
    conversion between the two is the identity, as it is in Go up to copying. *)
From S2P Require Import Prelude.
Open Scope string_scope.

#[global] Arguments String.append !_ _ / : simpl nomatch.

(** ** Slicing and searching *)

(** [len(s)], a Go [int]. *)
Definition len (s : string) : Z := Z.of_nat (String.length s).

Fixpoint str_take (n : nat) (s : string) : string :=
  match n, s with
  | S n, String c s => String c (str_take n s)
  | _, _ => ""
  end.

Fixpoint str_drop (n : nat) (s : string) : string :=
  match n, s with
  | S n, String _ s => str_drop n s
  | _, _ => s
  end.

(** [strings.HasPrefix] and [bytes.HasPrefix]. *)
Definition HasPrefix (s p : string) : bool := String.prefix p s.

(** [strings.Cut(s, c)] for a one-byte separator: what stands before and after its first
    occurrence; also [s[:i]] and [s[i+1:]] for [i := strings.Index(s, c)] when [i >= 0]. *)
Fixpoint Cut (c : ascii) (s : string) : option (string * string) :=
  match s with
  | "" => None
  | String d s =>
      if Ascii.eqb d c then Some ("", s)
      else match Cut c s with
           | Some (a, b) => Some (String d a, b)
           | None => None
           end
  end.

(** [s[:i]] and [s[i+1:]] for [i := strings.LastIndex(s, c)], when [i >= 0]. *)
Fixpoint CutLast (c : ascii) (s : string) : option (string * string) :=
  match s with
  | "" => None
  | String d s =>
      match CutLast c s with
      | Some (a, b) => Some (String d a, b)
      | None => if Ascii.eqb d c then Some ("", s) else None
      end
  end.

(** [strings.Contains(s, c)] for a one-byte [c]. *)
Definition ContainsByte (s : string) (c : ascii) : bool := bool_decide (is_Some (Cut c s)).

(** [strings.TrimSuffix]. *)
Definition TrimSuffix (s suffix : string) : string :=
  let n := (String.length s - String.length suffix)%nat in
  if String.eqb (str_drop n s) suffix then str_take n s else s.

(** [strconv.Itoa]. *)
Definition itoa (i : Z) : string := pretty i.

(** The eight ASCII white-space bytes [unicode.IsSpace] accepts below 0x80. *)
Definition is_space (c : ascii) : bool :=
  let n := N_of_ascii c in (((9 <=? n) && (n <=? 13)) || (n =? 32))%N.

Fixpoint trim_left (f : ascii → bool) (s : string) : string :=
  match s with
  | String c s' => if f c then trim_left f s' else s
  | "" => ""
  end.

Fixpoint trim_right (f : ascii → bool) (s : string) : string :=
  match s with
  | "" => ""
  | String c s =>
      match trim_right f s with
      | "" => if f c then "" else String c ""
      | s' => String c s'
      end
  end.

(** [strings.TrimSpace], on ASCII input. *)
Definition TrimSpace (s : string) : string := trim_right is_space (trim_left is_space s).

(** [strings.TrimRight(s, "\n")]. *)
Definition TrimNewlines (s : string) : string := trim_right (Ascii.eqb (ascii_of_N 10)) s.

(** [strings.Fields], on ASCII white space. *)
Fixpoint fields_from (word : string) (s : string) : list string :=
  match s with
  | "" => if String.eqb word "" then [] else [word]
  | String c s =>
      if is_space c
      then (if String.eqb word "" then [] else [word]) ++ fields_from "" s
      else fields_from (word +:+ String c "") s
  end.
Definition Fields (s : string) : list string := fields_from "" s.

(** [strings.Split(s, "\n")] and [strings.Join(ls, "\n")]. *)
Fixpoint split_lines (s : string) : list string :=
  match s with
  | "" => [""]
  | String c s =>
      if Ascii.eqb c (ascii_of_N 10) then "" :: split_lines s
      else match split_lines s with
           | l :: ls => String c l :: ls
           | [] => [String c ""]
           end
  end.

Fixpoint join_lines (ls : list string) : string :=
  match ls with
  | [] => ""
  | [l] => l
  | l :: ls => l +:+ String (ascii_of_N 10) "" +:+ join_lines ls
  end.

(** [strings.ToLower], on ASCII input. *)
Definition lower_byte (c : ascii) : ascii :=
  let n := N_of_ascii c in
  if ((65 <=? n) && (n <=? 90))%N then ascii_of_N (n + 32) else c.

Fixpoint ToLower (s : string) : string :=
  match s with "" => "" | String c s => String (lower_byte c) (ToLower s) end.

(** ** Decimals of quotients *)

(** The integer nearest to [n / d], ties to even. *)
Definition div_even (n d : Z) : Z :=
  (let q := n / d in
   let r := n mod d in
   if 2 * r <? d then q
   else if d <? 2 * r then q + 1
   else if Z.even q then q else q + 1)%Z.

(** [float64(n)] of a natural number: 53 bits, ties to even. *)
Definition float64 (n : Z) : Z :=
  (if n <? 2 ^ 53 then n
   else let u := 2 ^ (Z.log2 n - 52) in div_even n u * u)%Z.

(** [%.1f] of [n / d] for [n] and [d] such that the quotient is a [float64]. *)
Definition fmt_tenths (n d : Z) : string :=
  let t := div_even (10 * n) d in itoa (t / 10)%Z +:+ "." +:+ itoa (t mod 10)%Z.

(** ** encoding/hex *)

Definition hexdigit (n : N) : ascii :=
  ascii_of_N (if (n <? 10)%N then 48 + n else 87 + n).

(** [hex.EncodeToString]. *)
Fixpoint EncodeToString (s : string) : string :=
  match s with
  | "" => ""
  | String c s =>
      let n := N_of_ascii c in
      String (hexdigit (n / 16)) (String (hexdigit (n mod 16)) (EncodeToString s))
  end.

(** One byte of [strconv.Quote].  Bytes from 128 on stand for themselves, as the printable runes
    they encode do. *)
Definition quote_byte (c : ascii) : string :=
  let n := N_of_ascii c in
  if (n =? 34)%N then String "\" (String (ascii_of_N 34) "")
  else if (n =? 92)%N then "\\"
  else if (n =? 7)%N then "\a"
  else if (n =? 8)%N then "\b"
  else if (n =? 9)%N then "\t"
  else if (n =? 10)%N then "\n"
  else if (n =? 11)%N then "\v"
  else if (n =? 12)%N then "\f"
  else if (n =? 13)%N then "\r"
  else if (n <? 32)%N || (n =? 127)%N
  then String "\" (String "x" (String (hexdigit (n / 16)) (String (hexdigit (n mod 16)) "")))
  else String c "".

Fixpoint quote_bytes (s : string) : string :=
  match s with "" => "" | String c s => quote_byte c +:+ quote_bytes s end.

(** A newline. *)
Definition nl : string := String (ascii_of_N 10) "".

(** [%q]. *)
Definition Quote (s : string) : string :=
  let q := String (ascii_of_N 34) "" in q +:+ quote_bytes s +:+ q.

(** ** encoding/binary *)

Definition byte_of (z : Z) : ascii := ascii_of_N (Z.to_N (z mod 256)%Z).
Definition of_byte (c : ascii) : Z := Z.of_N (N_of_ascii c).

(** [binary.BigEndian.PutUint32] into a fresh four-byte array. *)
Definition PutUint32 (z : Z) : string :=
  String (byte_of (Z.shiftr z 24)) (String (byte_of (Z.shiftr z 16))
    (String (byte_of (Z.shiftr z 8)) (String (byte_of z) ""))).

(** [binary.BigEndian.Uint32] of a four-byte array. *)
Definition Uint32 (b : string) : Z :=
  match b with
  | String b0 (String b1 (String b2 (String b3 _))) =>
      Z.lor (of_byte b3) (Z.lor (Z.shiftl (of_byte b2) 8)
        (Z.lor (Z.shiftl (of_byte b1) 16) (Z.shiftl (of_byte b0) 24)))
  | _ => 0
  end.

(** Conversion to [uint32] and [uint16]: the low bits. *)
Definition uint32 (z : Z) : Z := (z mod 2 ^ 32)%Z.

(** The wrap-around of a conversion to [uint64]. *)
Definition uint64 (z : Z) : Z := (z mod 2 ^ 64)%Z.

(** Conversion of a [uint64] to [int64]: two's complement. *)
Definition int64 (z : Z) : Z :=
  let m := (z mod 2 ^ 64)%Z in if (m <? 2 ^ 63)%Z then m else (m - 2 ^ 64)%Z.

(** ** unicode/utf8 *)

(** Is [c] a continuation byte within [lo, hi]? *)
Definition cont (lo hi : N) (c : ascii) : bool :=
  let n := N_of_ascii c in ((lo <=? n) && (n <=? hi))%N.

(** [utf8.Valid]: the acceptance table of the standard library, byte by byte.  Overlong forms,
    surrogates and code points above U+10FFFF are refused through the range of the second byte. *)
Fixpoint Valid (s : string) : bool :=
  match s with
  | "" => true
  | String c0 s1 =>
      let n := N_of_ascii c0 in
      if (n <? 128)%N then Valid s1
      else if (n <? 194)%N then false
      else match s1 with
      | "" => false
      | String c1 s2 =>
          if (n <? 224)%N then cont 128 191 c1 && Valid s2
          else match s2 with
          | "" => false
          | String c2 s3 =>
              if (n <? 240)%N then
                cont (if (n =? 224)%N then 160 else 128)
                     (if (n =? 237)%N then 159 else 191) c1
                && cont 128 191 c2 && Valid s3
              else if (n <? 245)%N then
                match s3 with
                | "" => false
                | String c3 s4 =>
                    cont (if (n =? 240)%N then 144 else 128)
                         (if (n =? 244)%N then 143 else 191) c1
                    && cont 128 191 c2 && cont 128 191 c3 && Valid s4
                end
              else false
          end
      end
  end.

(** The bytes that follow the first byte of a valid sequence; 0 when there is none. *)
Definition rune_rest (c0 : ascii) (s : string) : nat :=
  let n := N_of_ascii c0 in
  if (n <? 194)%N then 0
  else if (n <? 224)%N then
    match s with String c1 _ => if cont 128 191 c1 then 1 else 0 | _ => 0 end
  else if (n <? 240)%N then
    match s with
    | String c1 (String c2 _) =>
        if cont (if (n =? 224)%N then 160 else 128) (if (n =? 237)%N then 159 else 191) c1
           && cont 128 191 c2 then 2 else 0
    | _ => 0
    end
  else if (n <? 245)%N then
    match s with
    | String c1 (String c2 (String c3 _)) =>
        if cont (if (n =? 240)%N then 144 else 128) (if (n =? 244)%N then 143 else 191) c1
           && cont 128 191 c2 && cont 128 191 c3 then 3 else 0
    | _ => 0
    end
  else 0.

(** [len([]rune(s))]: a byte that begins no valid sequence is a rune of its own.  [skip]: bytes of
    the present rune. *)
Fixpoint rune_count (skip : nat) (s : string) : Z :=
  match s with
  | "" => 0
  | String c s =>
      match skip with
      | S skip => rune_count skip s
      | O => 1 + rune_count (rune_rest c s) s
      end
  end.
Definition RuneCount (s : string) : Z := rune_count 0 s.

Example RuneCount_ex : map RuneCount [""; "abc"; "é🖼x"; String (ascii_of_N 195) "a"] = [0; 3; 3; 2]%Z.
Proof. vm_compute. reflexivity. Qed.

(** The specification: a Unicode scalar value and its UTF-8 encoding. *)
Definition scalar (r : N) : Prop := (r < 55296 ∨ 57344 ≤ r < 1114112)%N.

Definition encode_rune (r : N) : string :=
  (if r <? 128 then String (ascii_of_N r) ""
   else if r <? 2048 then
     String (ascii_of_N (192 + r / 64)) (String (ascii_of_N (128 + r mod 64)) "")
   else if r <? 65536 then
     String (ascii_of_N (224 + r / 4096))
       (String (ascii_of_N (128 + r / 64 mod 64)) (String (ascii_of_N (128 + r mod 64)) ""))
   else
     String (ascii_of_N (240 + r / 262144)) (String (ascii_of_N (128 + r / 4096 mod 64))
       (String (ascii_of_N (128 + r / 64 mod 64)) (String (ascii_of_N (128 + r mod 64)) ""))))%N.

Fixpoint encode_runes (rs : list N) : string :=
  match rs with [] => "" | r :: rs => encode_rune r ++ encode_runes rs end.

(** ** Lemmas *)

Lemma str_app_nil_r s : s ++ "" = s.
Proof. induction s; simpl; congruence. Qed.

Lemma str_app_assoc a b c : (a ++ b) ++ c = a ++ b ++ c.
Proof. induction a; simpl; congruence. Qed.

Lemma str_length_app a b : String.length (a ++ b) = (String.length a + String.length b)%nat.
Proof. induction a; simpl; congruence. Qed.

Lemma str_app_inj_l a b c : a ++ b = a ++ c → b = c.
Proof. induction a; simpl; [done|]. intros [=]. auto. Qed.

Lemma str_app_inj_r a b c : a ++ c = b ++ c → a = b.
Proof.
  revert b. induction a as [|x a IH]; intros [|y b] H; simpl in *; [done| | |].
  - apply (f_equal String.length) in H. simpl in H. rewrite str_length_app in H. lia.
  - apply (f_equal String.length) in H. simpl in H. rewrite str_length_app in H. lia.
  - injection H as -> H. f_equal. by apply IH.
Qed.

Lemma str_take_drop n s : str_take n s ++ str_drop n s = s.
Proof. revert s. induction n as [|n IH]; intros [|c s]; simpl; try done. by rewrite IH. Qed.

Lemma str_take_app a b : str_take (String.length a) (a ++ b) = a.
Proof. induction a as [|c a IH]; simpl; [by destruct b|by rewrite IH]. Qed.

Lemma str_drop_app a b : str_drop (String.length a) (a ++ b) = b.
Proof. induction a as [|c a IH]; simpl; [by destruct b|by rewrite IH]. Qed.

Lemma str_length_take n s : String.length (str_take n s) = Nat.min n (String.length s).
Proof. revert s. induction n as [|n IH]; intros [|c s]; simpl; auto. Qed.

Lemma str_length_drop n s : String.length (str_drop n s) = (String.length s - n)%nat.
Proof. revert s. induction n as [|n IH]; intros [|c s]; simpl; auto. Qed.

#[export] Hint Rewrite str_app_nil_r str_app_assoc str_length_app str_take_app str_drop_app
  str_length_take str_length_drop : golen.

Lemma len_nonneg s : (0 ≤ len s)%Z.
Proof. unfold len. lia. Qed.

Lemma len_app a b : len (a ++ b) = (len a + len b)%Z.
Proof. unfold len. rewrite str_length_app. lia. Qed.

Lemma len_zero s : len s = 0%Z ↔ s = "".
Proof. unfold len. destruct s; simpl; split; intros; try done; lia. Qed.

Lemma prefix_spec p s : HasPrefix s p = true ↔ ∃ r, s = p ++ r.
Proof.
  unfold HasPrefix. revert s. induction p as [|c p IH]; intros s; simpl.
  { split; [by exists s|]. intros _. by destruct s. }
  destruct s as [|d s]; simpl.
  { split; [done|]. intros [r Hr]. simpl in Hr. congruence. }
  destruct (ascii_dec c d) as [->|Hne].
  - rewrite IH. split; intros [r Hr]; exists r; congruence.
  - split; [done|]. intros [r Hr]. simpl in Hr. congruence.
Qed.

Lemma of_byte_range c : (0 ≤ of_byte c < 256)%Z.
Proof. unfold of_byte. pose proof (N_ascii_bounded c). lia. Qed.

Lemma of_byte_byte_of z : of_byte (byte_of z) = (z mod 256)%Z.
Proof.
  unfold of_byte, byte_of. pose proof (Z.mod_pos_bound z 256).
  rewrite N_ascii_embedding; lia.
Qed.

Lemma lor_shift a b n : (0 ≤ n → 0 ≤ a < 2 ^ n → Z.lor a (Z.shiftl b n) = a + b * 2 ^ n)%Z.
Proof.
  intros Hn Ha. rewrite <- Z.shiftl_mul_pow2, <- Z.add_lor_land by lia.
  replace (Z.land a (Z.shiftl b n)) with 0%Z; [lia|].
  apply Z.bits_inj_iff'. intros i Hi. rewrite Z.land_spec, Z.bits_0.
  destruct (Z.lt_ge_cases i n).
  - rewrite (Z.shiftl_spec_low b n i) by lia. by rewrite andb_false_r.
  - rewrite <- (Z.mod_small a (2 ^ n)), Z.mod_pow2_bits_high by lia. done.
Qed.

Lemma lor_shift_shift a b m n :
  (0 ≤ m ≤ n → Z.lor (Z.shiftl a m) (Z.shiftl b n) = Z.shiftl (Z.lor a (Z.shiftl b (n - m))) m)%Z.
Proof.
  intros Hmn. rewrite Z.shiftl_lor, Z.shiftl_shiftl by lia. do 2 f_equal. lia.
Qed.

(** Division and remainder by constants, for [lia]. *)
Ltac divlia := zify; Z.to_euclidean_division_equations; lia.

(** The four-byte header carries a [uint32] exactly. *)
Lemma Uint32_PutUint32 z s : (0 ≤ z < 2 ^ 32)%Z → Uint32 (PutUint32 z ++ s) = z.
Proof.
  intros Hz. unfold Uint32, PutUint32. simpl. rewrite !of_byte_byte_of, !Z.shiftr_div_pow2 by lia.
  pose proof (Z.mod_pos_bound (z / 2 ^ 16) 256). pose proof (Z.mod_pos_bound (z / 2 ^ 8) 256).
  pose proof (Z.mod_pos_bound z 256).
  rewrite (lor_shift_shift _ _ 16 24), (lor_shift_shift _ _ 8 16) by lia.
  rewrite !lor_shift by lia. divlia.
Qed.

Lemma length_PutUint32 z : String.length (PutUint32 z) = 4%nat.
Proof. done. Qed.

(** ** UTF-8: the acceptance table decides "is an encoding of scalar values" *)

Lemma cont_byte lo hi n :
  (n < 256)%N → cont lo hi (ascii_of_N n) = ((lo <=? n) && (n <=? hi))%N.
Proof. intros. unfold cont. by rewrite N_ascii_embedding. Qed.

Lemma cont_spec lo hi c : cont lo hi c = true ↔ (lo ≤ N_of_ascii c ≤ hi)%N.
Proof. unfold cont. rewrite andb_true_iff, !N.leb_le. done. Qed.

Ltac ndecide :=
  repeat match goal with
  | |- context [(?a =? ?b)%N] => destruct (N.eqb_spec a b); try (exfalso; lia)
  | |- context [(?a <? ?b)%N] => destruct (N.ltb_spec a b); try (exfalso; lia)
  | |- context [(?a <=? ?b)%N] => destruct (N.leb_spec a b); try (exfalso; lia)
  end.

Lemma Valid_two b0 b1 s :
  (194 ≤ b0 < 224 → 128 ≤ b1 ≤ 191)%N → (194 ≤ b0 < 224)%N →
  Valid (String (ascii_of_N b0) (String (ascii_of_N b1) s)) = Valid s.
Proof.
  intros H1 H0. specialize (H1 H0). cbn [Valid]. rewrite !N_ascii_embedding, cont_byte by lia.
  ndecide; done.
Qed.

Lemma Valid_three b0 b1 b2 s :
  (224 ≤ b0 < 240)%N → (128 ≤ b1 ≤ 191)%N → (128 ≤ b2 ≤ 191)%N →
  (b0 = 224 → 160 ≤ b1)%N → (b0 = 237 → b1 ≤ 159)%N →
  Valid (String (ascii_of_N b0) (String (ascii_of_N b1) (String (ascii_of_N b2) s))) = Valid s.
Proof.
  intros. cbn [Valid]. rewrite !N_ascii_embedding, !cont_byte by lia. ndecide; done.
Qed.

Lemma Valid_four b0 b1 b2 b3 s :
  (240 ≤ b0 < 245)%N → (128 ≤ b1 ≤ 191)%N → (128 ≤ b2 ≤ 191)%N → (128 ≤ b3 ≤ 191)%N →
  (b0 = 240 → 144 ≤ b1)%N → (b0 = 244 → b1 ≤ 143)%N →
  Valid (String (ascii_of_N b0) (String (ascii_of_N b1)
    (String (ascii_of_N b2) (String (ascii_of_N b3) s)))) = Valid s.
Proof.
  intros. cbn [Valid]. rewrite !N_ascii_embedding, !cont_byte by lia. ndecide; done.
Qed.

Lemma Valid_encode_rune r s : scalar r → Valid (encode_rune r ++ s) = Valid s.
Proof.
  intros Hr. unfold scalar in Hr. unfold encode_rune.
  destruct (N.ltb_spec r 128); [|destruct (N.ltb_spec r 2048); [|destruct (N.ltb_spec r 65536)]];
    cbn [String.append].
  - cbn [Valid]. rewrite N_ascii_embedding by lia. ndecide. done.
  - apply Valid_two; intros; divlia.
  - apply Valid_three; intros; divlia.
  - replace (r / 262144)%N with (r / 4096 / 64)%N by (rewrite N.Div0.div_div; done).
    assert (16 ≤ r / 4096 ≤ 271)%N by divlia.
    apply Valid_four; intros; divlia.
Qed.

Lemma encode_runes_Valid rs : Forall scalar rs → Valid (encode_runes rs) = true.
Proof. induction 1 as [|r rs Hr _ IH]; simpl; [done|]. by rewrite Valid_encode_rune. Qed.

(** The converse: the rune an accepted prefix encodes, read off its bytes. *)
Lemma encode_two b0 b1 s :
  (194 ≤ N_of_ascii b0 < 224)%N → cont 128 191 b1 = true →
  ∃ r, scalar r ∧ String b0 (String b1 s) = encode_rune r ++ s.
Proof.
  intros H0 H1%cont_spec. set (n0 := N_of_ascii b0) in *. set (n1 := N_of_ascii b1) in *.
  exists ((n0 - 192) * 64 + (n1 - 128))%N. split; [unfold scalar; lia|].
  unfold encode_rune. ndecide. simpl.
  replace (192 + _)%N with n0 by divlia. replace (128 + _)%N with n1 by divlia.
  unfold n0, n1. by rewrite !ascii_N_embedding.
Qed.

Lemma encode_three b0 b1 b2 s :
  (224 ≤ N_of_ascii b0 < 240)%N →
  cont (if (N_of_ascii b0 =? 224)%N then 160 else 128)
       (if (N_of_ascii b0 =? 237)%N then 159 else 191) b1 = true →
  cont 128 191 b2 = true →
  ∃ r, scalar r ∧ String b0 (String b1 (String b2 s)) = encode_rune r ++ s.
Proof.
  intros H0 H1%cont_spec H2%cont_spec.
  set (n0 := N_of_ascii b0) in *. set (n1 := N_of_ascii b1) in *. set (n2 := N_of_ascii b2) in *.
  assert (128 ≤ n1 ≤ 191 ∧ (n0 = 224 → 160 ≤ n1) ∧ (n0 = 237 → n1 ≤ 159))%N as (? & ? & ?).
  { revert H1. destruct (N.eqb_spec n0 224), (N.eqb_spec n0 237); lia. }
  set (q := ((n0 - 224) * 64 + (n1 - 128))%N).
  exists (q * 64 + (n2 - 128))%N. split; [unfold scalar, q; lia|].
  unfold encode_rune. assert (32 ≤ q < 1024)%N by (unfold q; lia). ndecide. simpl.
  replace (224 + _)%N with (224 + q / 64)%N by divlia.
  replace (128 + _ / 64 mod 64)%N with (128 + q mod 64)%N by divlia.
  replace (128 + (q * 64 + _) mod 64)%N with n2 by divlia.
  replace (224 + q / 64)%N with n0 by (unfold q; divlia).
  replace (128 + q mod 64)%N with n1 by (unfold q; divlia).
  unfold n0, n1, n2. by rewrite !ascii_N_embedding.
Qed.

Lemma encode_four b0 b1 b2 b3 s :
  (240 ≤ N_of_ascii b0 < 245)%N →
  cont (if (N_of_ascii b0 =? 240)%N then 144 else 128)
       (if (N_of_ascii b0 =? 244)%N then 143 else 191) b1 = true →
  cont 128 191 b2 = true → cont 128 191 b3 = true →
  ∃ r, scalar r ∧ String b0 (String b1 (String b2 (String b3 s))) = encode_rune r ++ s.
Proof.
  intros H0 H1%cont_spec H2%cont_spec H3%cont_spec.
  set (n0 := N_of_ascii b0) in *. set (n1 := N_of_ascii b1) in *.
  set (n2 := N_of_ascii b2) in *. set (n3 := N_of_ascii b3) in *.
  assert (128 ≤ n1 ≤ 191 ∧ (n0 = 240 → 144 ≤ n1) ∧ (n0 = 244 → n1 ≤ 143))%N as (? & ? & ?).
  { revert H1. destruct (N.eqb_spec n0 240), (N.eqb_spec n0 244); lia. }
  set (q := ((n0 - 240) * 64 + (n1 - 128))%N). set (p := (q * 64 + (n2 - 128))%N).
  exists (p * 64 + (n3 - 128))%N.
  assert (16 ≤ q < 272)%N by (unfold q; lia). assert (1024 ≤ p < 17408)%N by (unfold p; lia).
  split; [unfold scalar; lia|]. unfold encode_rune. ndecide. simpl.
  replace ((p * 64 + (n3 - 128)) / 262144)%N with (q / 64)%N by (unfold p; divlia).
  replace ((p * 64 + (n3 - 128)) / 4096)%N with q by (unfold p; divlia).
  replace ((p * 64 + (n3 - 128)) / 64)%N with p by divlia.
  replace (128 + (p * 64 + _) mod 64)%N with n3 by divlia.
  replace (p mod 64)%N with (n2 - 128)%N by (unfold p; divlia).
  replace (q mod 64)%N with (n1 - 128)%N by (unfold q; divlia).
  replace (q / 64)%N with (n0 - 240)%N by (unfold q; divlia).
  replace (240 + (n0 - 240))%N with n0 by lia.
  replace (128 + (n1 - 128))%N with n1 by lia. replace (128 + (n2 - 128))%N with n2 by lia.
  unfold n0, n1, n2, n3. by rewrite !ascii_N_embedding.
Qed.

Lemma Valid_cons c0 s1 : Valid (String c0 s1) = true →
  ∃ r s', scalar r ∧ String c0 s1 = encode_rune r ++ s' ∧ Valid s' = true ∧
          (String.length s' <= String.length s1)%nat.
Proof.
  cbn [Valid]. intros H.
  destruct (N.ltb_spec (N_of_ascii c0) 128) as [Hlt|Hge].
  { exists (N_of_ascii c0), s1. unfold encode_rune, scalar. ndecide. simpl.
    rewrite ascii_N_embedding. split_and!; try done; lia. }
  destruct (N.ltb_spec (N_of_ascii c0) 194); [done|].
  destruct s1 as [|c1 s2]; [done|].
  destruct (N.ltb_spec (N_of_ascii c0) 224).
  { breflect. destruct (encode_two c0 c1 s2) as (r & ? & ?); [lia|done|].
    exists r, s2. simpl. split_and!; try done; lia. }
  destruct s2 as [|c2 s3]; [done|].
  destruct (N.ltb_spec (N_of_ascii c0) 240).
  { breflect. destruct (encode_three c0 c1 c2 s3) as (r & ? & ?); [lia|done|done|].
    exists r, s3. simpl. split_and!; try done; lia. }
  destruct (N.ltb_spec (N_of_ascii c0) 245); [|done].
  destruct s3 as [|c3 s4]; [done|]. breflect.
  destruct (encode_four c0 c1 c2 c3 s4) as (r & ? & ?); [lia|done|done|done|].
  exists r, s4. simpl. split_and!; try done; lia.
Qed.

Lemma Valid_decode s : Valid s = true → ∃ rs, Forall scalar rs ∧ s = encode_runes rs.
Proof.
  remember (String.length s) as n eqn:Hn. assert (String.length s <= n)%nat as Hle by lia. clear Hn.
  revert s Hle. induction n as [|n IH]; intros [|c s] Hle Hv; simpl in Hle; try lia.
  1,2: by exists [].
  destruct (Valid_cons c s Hv) as (r & s' & Hr & -> & Hv' & Hl).
  destruct (IH s') as (rs & Hrs & ->); [lia|done|]. exists (r :: rs). eauto.
Qed.

(** [utf8.Valid] accepts exactly the encodings of sequences of Unicode scalar values. *)
Lemma Valid_spec s : Valid s = true ↔ ∃ rs, Forall scalar rs ∧ s = encode_runes rs.
Proof.
  split; [apply Valid_decode|]. intros (rs & Hrs & ->). by apply encode_runes_Valid.
Qed.

Lemma length_hex s : String.length (EncodeToString s) = (2 * String.length s)%nat.
Proof. induction s as [|c s IH]; simpl; [done|]. rewrite IH. lia. Qed.

(** ** Lines *)

(** Every line of a text is without a newline, and there is at least one. *)
Definition no_newline (l : string) : Prop := Cut (ascii_of_N 10) l = None.

Lemma split_lines_nonempty s : split_lines s ≠ [].
Proof. destruct s as [|c s]; cbn; [done|]. destruct (Ascii.eqb _ _); [done|]. by destruct (split_lines s). Qed.

Lemma split_lines_clean s : Forall no_newline (split_lines s).
Proof.
  induction s as [|c s IH]; cbn [split_lines]; [by repeat constructor|].
  destruct (Ascii.eqb c (ascii_of_N 10)) eqn:E; [by constructor|].
  destruct (split_lines s) as [|l ls].
  - constructor; [|done]. unfold no_newline. cbn [Cut]. by rewrite E.
  - apply Forall_cons in IH as [Hl Hls]. constructor; [|done].
    unfold no_newline in *. cbn [Cut]. by rewrite E, Hl.
Qed.

Lemma split_line_app l s :
  no_newline l → split_lines (l +:+ String (ascii_of_N 10) s) = l :: split_lines s.
Proof.
  unfold no_newline. induction l as [|c l IH]; [done|]. cbn [Cut String.append split_lines].
  destruct (Ascii.eqb c (ascii_of_N 10)); [done|].
  destruct (Cut _ l) as [[? ?]|]; [done|]. intros _. by rewrite IH.
Qed.

Lemma split_line l : no_newline l → split_lines l = [l].
Proof.
  unfold no_newline. induction l as [|c l IH]; [done|]. cbn [Cut split_lines].
  destruct (Ascii.eqb c (ascii_of_N 10)); [done|].
  destruct (Cut _ l) as [[? ?]|]; [done|]. intros _. by rewrite IH.
Qed.

Lemma split_join_lines ls :
  Forall no_newline ls → ls ≠ [] → split_lines (join_lines ls) = ls.
Proof.
  induction 1 as [|l ls Hl Hls IH]; [done|]. intros _. destruct ls as [|l' ls].
  - by apply split_line.
  - change (join_lines (l :: l' :: ls)) with (l +:+ String (ascii_of_N 10) (join_lines (l' :: ls))).
    rewrite split_line_app by done. by rewrite IH.
Qed.

Lemma split_lines_app a b :
  split_lines (a ++ String (ascii_of_N 10) b) = (split_lines a ++ split_lines b)%list.
Proof.
  induction a as [|c a IH]; [done|]. cbn [String.append split_lines]. rewrite IH.
  destruct (Ascii.eqb c (ascii_of_N 10)); [done|].
  pose proof (split_lines_nonempty a). by destruct (split_lines a).
Qed.

Lemma split_lines_join ls : ls ≠ [] → split_lines (join_lines ls) = flat_map split_lines ls.
Proof.
  induction ls as [|l ls IH]; [done|]. intros _. destruct ls as [|l' ls].
  - cbn [join_lines flat_map]. by rewrite app_nil_r.
  - change (join_lines (l :: l' :: ls)) with (l +:+ String (ascii_of_N 10) (join_lines (l' :: ls))).
    rewrite split_lines_app, IH by done. done.
Qed.

(** Text without a newline in front stays on the first line. *)
Lemma split_lines_prefix w out l ls :
  no_newline w → split_lines out = l :: ls → split_lines (w ++ out) = (w ++ l)%string :: ls.
Proof.
  unfold no_newline. intros Hn Hs. induction w as [|c w IH]; [done|]. cbn [Cut] in Hn.
  cbn [String.append split_lines]. destruct (Ascii.eqb c (ascii_of_N 10)); [done|].
  rewrite IH; [done|]. by destruct (Cut _ w) as [[]|].
Qed.

(** ** Words *)

Definition no_spaces (w : string) : bool := forallb (λ c, negb (is_space c)) (list_ascii_of_string w).
Definition is_word (w : string) : Prop := w ≠ "" ∧ no_spaces w = true.
(** Empty, or white space first. *)
Definition spaced_off (s : string) : Prop := match s with "" => True | String c _ => is_space c = true end.

Lemma no_spaces_cons c w : no_spaces (String c w) = negb (is_space c) && no_spaces w.
Proof. done. Qed.

Lemma no_spaces_app a b : no_spaces (a ++ b) = no_spaces a && no_spaces b.
Proof.
  induction a as [|c a IH]; [done|]. cbn [String.append]. rewrite !no_spaces_cons, IH.
  by rewrite andb_assoc.
Qed.

Lemma fields_from_words word s : no_spaces word = true → Forall is_word (fields_from word s).
Proof.
  assert (∀ w, no_spaces w = true → Forall is_word (if String.eqb w "" then [] else [w])) as Hw.
  { intros w Hw. destruct (String.eqb_spec w ""); [constructor|by repeat constructor]. }
  revert word. induction s as [|c s IH]; intros word Hn; cbn [fields_from]; [by apply Hw|].
  destruct (is_space c) eqn:E; [apply Forall_app; split; [by apply Hw|by apply IH]|].
  apply IH. by rewrite no_spaces_app, Hn, no_spaces_cons, E.
Qed.

Lemma Fields_words s : Forall is_word (Fields s).
Proof. by apply fields_from_words. Qed.

Lemma fields_from_app word w s :
  no_spaces w = true → fields_from word (w ++ s) = fields_from (word ++ w) s.
Proof.
  revert word. induction w as [|c w IH]; intros word Hn; [by rewrite str_app_nil_r|].
  rewrite no_spaces_cons in Hn. apply andb_true_iff in Hn as [Hc Hn].
  cbn [String.append fields_from]. destruct (is_space c); [done|]. rewrite IH by done.
  f_equal. by rewrite str_app_assoc.
Qed.

(** A word, then white space or nothing. *)
Lemma Fields_word w s : is_word w → spaced_off s → Fields (w ++ s) = w :: Fields s.
Proof.
  intros [Hne Hn] Hs. unfold Fields. rewrite fields_from_app by done. cbn [String.append].
  apply String.eqb_neq in Hne. destruct s as [|c s]; cbn [fields_from]; [by rewrite Hne|].
  cbn in Hs. rewrite Hs, Hne. done.
Qed.

Lemma Fields_space c s : is_space c = true → Fields (String c s) = Fields s.
Proof. intros Hc. unfold Fields. cbn [fields_from]. by rewrite Hc. Qed.

Lemma fields_from_split word a c s :
  is_space c = true → fields_from word (a ++ String c s) = (fields_from word a ++ Fields s)%list.
Proof.
  intros Hc. revert word. induction a as [|d a IH]; intros word; cbn [String.append fields_from].
  - by rewrite Hc.
  - destruct (is_space d); rewrite IH; [by rewrite app_assoc|done].
Qed.

(** The words of a text are those of its lines. *)
Lemma Fields_join ls : Fields (join_lines ls) = flat_map Fields ls.
Proof.
  induction ls as [|l ls IH]; [done|]. destruct ls as [|l' ls]; [cbn; by rewrite app_nil_r|].
  change (join_lines (l :: l' :: ls)) with (l +:+ String (ascii_of_N 10) (join_lines (l' :: ls))).
  unfold Fields at 1. rewrite fields_from_split by done. by rewrite IH.
Qed.

Lemma join_split_lines s : join_lines (split_lines s) = s.
Proof.
  induction s as [|c s IH]; [done|]. cbn [split_lines]. pose proof (split_lines_nonempty s) as Hne.
  destruct (Ascii.eqb_spec c (ascii_of_N 10)) as [->|]; destruct (split_lines s) as [|l ls]; try done.
  - change (join_lines ("" :: l :: ls)) with (String (ascii_of_N 10) (join_lines (l :: ls))).
    by rewrite IH.
  - destruct ls as [|l' ls].
    + change (join_lines [String c l]) with (String c (join_lines [l])). by rewrite IH.
    + change (join_lines (String c l :: l' :: ls)) with (String c (join_lines (l :: l' :: ls))).
      by rewrite IH.
Qed.

Lemma Fields_lines s : Fields s = flat_map Fields (split_lines s).
Proof. by rewrite <-Fields_join, join_split_lines. Qed.

Lemma word_no_newline w : is_word w → no_newline w.
Proof.
  intros [_ Hn]. unfold no_newline. induction w as [|c w IH]; [done|].
  rewrite no_spaces_cons in Hn. apply andb_true_iff in Hn as [Hc Hn]. cbn [Cut].
  destruct (Ascii.eqb_spec c (ascii_of_N 10)) as [->|]; [done|]. by rewrite IH.
Qed.

(** ** Counting runes *)

Definition is_ascii (c : ascii) : bool := (N_of_ascii c <? 128)%N.

Lemma cont_ascii lo hi c : is_ascii c = true → (128 <= lo)%N → cont lo hi c = false.
Proof.
  unfold is_ascii, cont. intros Hc Hl. apply andb_false_iff. left. apply N.leb_gt.
  apply N.ltb_lt in Hc. lia.
Qed.

Lemma space_ascii c : is_space c = true → is_ascii c = true.
Proof.
  unfold is_space, is_ascii. intros Hc. apply N.ltb_lt.
  apply orb_true_iff in Hc as [[Ha%N.leb_le Hb%N.leb_le]%andb_true_iff|Hc%N.eqb_eq]; lia.
Qed.

Lemma RuneCount_ascii c s : is_ascii c = true → RuneCount (String c s) = (1 + RuneCount s)%Z.
Proof.
  unfold is_ascii, RuneCount. intros Hc%N.ltb_lt. cbn [rune_count]. unfold rune_rest.
  destruct (N.ltb_spec (N_of_ascii c) 194); [done|lia].
Qed.

(** A sequence does not reach over an ASCII byte. *)
Lemma rune_rest_app c0 a c s :
  is_ascii c = true →
  rune_rest c0 (a ++ String c s) = rune_rest c0 a ∧ (rune_rest c0 a <= String.length a)%nat.
Proof.
  intros Hc. assert (∀ lo hi, (128 <= lo)%N → cont lo hi c = false) as Hx
    by (intros; by apply cont_ascii).
  assert (∀ b : bool, (128 <= if b then 160 else 128)%N ∧ (128 <= if b then 144 else 128)%N) as Hb
    by (intros []; lia).
  unfold rune_rest. destruct (_ <? 194)%N; [split; [done|lia]|].
  destruct (_ <? 224)%N; [|destruct (_ <? 240)%N; [|destruct (_ <? 245)%N; [|split; [done|lia]]]];
    (destruct a as [|c1 [|c2 [|c3 a]]]; cbn [String.append String.length];
     rewrite ?Hx by (lia || apply Hb); rewrite ?andb_false_r, ?andb_false_l;
     repeat case_match; try (split; [done|lia])).
Qed.

(** An ASCII byte ends whatever sequence is before it. *)
Lemma RuneCount_app a c s :
  is_ascii c = true → RuneCount (a ++ String c s) = (RuneCount a + RuneCount (String c s))%Z.
Proof.
  intros Hc. unfold RuneCount.
  assert (∀ k, (k <= String.length a)%nat →
    rune_count k (a ++ String c s) = (rune_count k a + rune_count 0 (String c s))%Z) as Hk.
  { induction a as [|c0 a IH]; intros k Hk; cbn [String.length] in Hk.
    - by replace k with 0%nat by lia.
    - cbn [String.append rune_count]. destruct k as [|k]; [|apply IH; lia].
      destruct (rune_rest_app c0 a c s Hc) as [-> Hr]. rewrite IH by done. cbn [rune_count]. lia. }
  apply Hk. lia.
Qed.
