(* ===== verification/GoPath.v ===== *)
(** * Go's path/filepath on Unix

    [Clean], [Join], [Base], [Ext] and [Dir] as the program uses them.  A path string denotes a
    [cpath]: whether it is rooted, and its components after lexical cleaning.  The file system of
    [GoOS] is keyed by [cpath], so two spellings of one path name one file. *)
From S2P Require Import Prelude GoStr.
Open Scope string_scope.
Open Scope list_scope.

Definition slash : ascii := "/"%char.
Definition dot : ascii := "."%char.

(** ** Splitting at slashes *)

Fixpoint split_slash (s : string) : list string :=
  match s with
  | "" => [""]
  | String c s =>
      if Ascii.eqb c slash then "" :: split_slash s
      else match split_slash s with
           | h :: t => String c h :: t
           | [] => [String c ""]
           end
  end.

Fixpoint join_slash (l : list string) : string :=
  match l with
  | [] => ""
  | [c] => c
  | c :: l => c +:+ "/" +:+ join_slash l
  end.

(** ** Lexical cleaning *)

Notation cpath := (prod bool (list string)).

(** One component of the input, against the components kept so far (innermost first). *)
Definition clean_step (rooted : bool) (stk : list string) (c : string) : list string :=
  if String.eqb c "" || String.eqb c "." then stk
  else if String.eqb c ".." then
    match stk with
    | [] => if rooted then [] else [".."]
    | h :: t => if String.eqb h ".." then ".." :: stk else t
    end
  else c :: stk.

Definition rooted (s : string) : bool :=
  match s with String c _ => Ascii.eqb c slash | "" => false end.

Definition resolve (s : string) : cpath :=
  (rooted s, reverse (foldl (clean_step (rooted s)) [] (split_slash s))).

Definition render (p : cpath) : string :=
  match p with
  | (true, cs) => "/" +:+ join_slash cs
  | (false, []) => "."
  | (false, cs) => join_slash cs
  end.

(** [filepath.Clean]. *)
Definition Clean (s : string) : string := render (resolve s).

(** [filepath.Join(a, b)]: empty elements are ignored. *)
Definition Join (a b : string) : string :=
  if String.eqb a "" then (if String.eqb b "" then "" else Clean b)
  else Clean (a +:+ "/" +:+ b).

(** [filepath.Base]: the last element, after trailing slashes are stripped. *)
Definition Base (s : string) : string :=
  if String.eqb s "" then "."
  else match last (filter (λ c, c ≠ "") (split_slash s)) with
       | Some c => c
       | None => "/"
       end.

(** [filepath.Ext]: from the last dot of the last element. *)
Definition Ext (s : string) : string :=
  match CutLast dot (default "" (last (split_slash s))) with
  | Some (_, b) => "." +:+ b
  | None => ""
  end.

(** [filepath.Dir]: everything up to the last slash, cleaned. *)
Definition Dir (s : string) : string :=
  match removelast (split_slash s) with
  | [] => Clean ""
  | cs => Clean (join_slash cs +:+ "/")
  end.

(** ** Components *)

(** A component without a slash that lexical cleaning leaves alone. *)
Definition no_slash (c : string) : Prop := Cut slash c = None.
Definition ordinary (c : string) : Prop := no_slash c ∧ c ≠ "" ∧ c ≠ "." ∧ c ≠ "..".

#[export] Instance no_slash_dec c : Decision (no_slash c).
Proof. unfold no_slash. apply _. Defined.
#[export] Instance ordinary_dec c : Decision (ordinary c).
Proof. unfold ordinary. apply _. Defined.

Lemma no_slash_cons c s : no_slash (String c s) ↔ c ≠ slash ∧ no_slash s.
Proof.
  unfold no_slash. cbn [Cut]. destruct (Ascii.eqb_spec c slash) as [->|Hne].
  - split; [done|]. tauto.
  - destruct (Cut slash s) as [[a b]|]; split; intros; try done; by destruct_and?.
Qed.

Lemma no_slash_app a b : no_slash (a +:+ b) ↔ no_slash a ∧ no_slash b.
Proof.
  induction a as [|c a IH]; simpl.
  - split; [by split|tauto].
  - rewrite !no_slash_cons, IH. tauto.
Qed.

Lemma split_slash_nonnil s : split_slash s ≠ [].
Proof. destruct s as [|c s]; simpl; [done|]. destruct (Ascii.eqb c slash); [done|].
  by destruct (split_slash s). Qed.

Lemma split_slash_no_slash s : Forall no_slash (split_slash s).
Proof.
  induction s as [|c s IH]; simpl; [by repeat constructor|].
  destruct (Ascii.eqb_spec c slash); [by constructor|].
  destruct (split_slash s) as [|h t] eqn:E; inversion IH; subst.
  - by repeat constructor; apply no_slash_cons.
  - constructor; [|done]. by apply no_slash_cons.
Qed.

Lemma split_slash_one c : no_slash c → split_slash c = [c].
Proof.
  induction c as [|a c IH]; [done|]. intros [Ha Hc]%no_slash_cons. simpl.
  destruct (Ascii.eqb_spec a slash); [done|]. by rewrite IH.
Qed.

Lemma split_slash_app s t : split_slash (s +:+ "/" +:+ t) = split_slash s ++ split_slash t.
Proof.
  change ("/" +:+ t) with (String slash t).
  induction s as [|c s IH]; simpl; [done|].
  rewrite IH. destruct (Ascii.eqb c slash); [done|].
  pose proof (split_slash_nonnil s). by destruct (split_slash s).
Qed.

Lemma split_join l : l ≠ [] → Forall no_slash l → split_slash (join_slash l) = l.
Proof.
  intros Hl HF. induction HF as [|c l Hc HF IH]; [done|].
  destruct l as [|d l]; [by apply split_slash_one|].
  change (join_slash (c :: d :: l)) with (c +:+ "/" +:+ join_slash (d :: l)).
  rewrite split_slash_app, split_slash_one, IH by done. done.
Qed.

(** ** Cleaned paths *)

(** What [resolve] yields: ordinary components, after leading [..] when unrooted. *)
Definition canonical (p : cpath) : Prop :=
  ∃ n cs, p.2 = replicate n ".." ++ cs ∧ Forall ordinary cs ∧ (p.1 = true → n = 0%nat).

Definition stack_ok (r : bool) (stk : list string) : Prop :=
  ∃ n cs, stk = cs ++ replicate n ".." ∧ Forall ordinary cs ∧ (r = true → n = 0%nat).

Lemma clean_step_ok r stk c :
  stack_ok r stk → no_slash c → stack_ok r (clean_step r stk c).
Proof.
  intros (n & cs & -> & Hcs & Hn) Hc. unfold clean_step.
  destruct (String.eqb_spec c ""); [by exists n, cs|].
  destruct (String.eqb_spec c "."); [by exists n, cs|]. simpl.
  destruct (String.eqb_spec c "..") as [->|].
  - destruct cs as [|h t]; simpl.
    + destruct n as [|n]; simpl.
      * destruct r; [by exists 0%nat, []|]. by exists 1%nat, [].
      * destruct r; [by specialize (Hn eq_refl)|]. by exists (S (S n)), [].
    + inversion Hcs as [|?? Hh Ht]; subst. destruct (String.eqb_spec h "..") as [->|].
      * destruct Hh. tauto.
      * by exists n, t.
  - exists n, (c :: cs). split_and!; [done| |done]. constructor; [|done]. by split_and!.
Qed.

Lemma clean_fold_ok r stk cs :
  stack_ok r stk → Forall no_slash cs → stack_ok r (foldl (clean_step r) stk cs).
Proof.
  intros Hs HF. revert stk Hs. induction HF as [|c cs Hc _ IH]; intros stk Hs; simpl; [done|].
  apply IH. by apply clean_step_ok.
Qed.

Lemma resolve_canonical s : canonical (resolve s).
Proof.
  unfold canonical, resolve. simpl.
  destruct (clean_fold_ok (rooted s) [] (split_slash s)) as (n & cs & -> & Hcs & Hn).
  - by exists 0%nat, [].
  - apply split_slash_no_slash.
  - exists n, (reverse cs). rewrite reverse_app, reverse_replicate.
    split_and!; [done| |done]. by apply Forall_reverse.
Qed.

Lemma clean_fold_ordinary r stk cs :
  Forall ordinary cs → foldl (clean_step r) stk cs = reverse cs ++ stk.
Proof.
  intros HF. revert stk. induction HF as [|c cs (_ & H1 & H2 & H3) _ IH]; intros stk; simpl; [done|].
  rewrite IH, reverse_cons, <- app_assoc. simpl. f_equal. unfold clean_step.
  destruct (String.eqb_spec c ""); [done|]. destruct (String.eqb_spec c "."); [done|].
  by destruct (String.eqb_spec c "..").
Qed.

Lemma clean_fold_dotdot n cs :
  foldl (clean_step false) [] (replicate n ".." ++ cs)
  = foldl (clean_step false) (replicate n "..") cs.
Proof.
  assert (∀ n k, foldl (clean_step false) (replicate k "..") (replicate n "..")
                 = replicate (n + k) "..") as H.
  { clear. induction n as [|n IH]; intros k; simpl; [done|].
    replace (clean_step false (replicate k "..") "..") with (replicate (S k) "..").
    - rewrite IH. change (".." :: replicate (n + k) "..") with (replicate (S (n + k)) "..").
      f_equal. lia.
    - by destruct k. }
  rewrite foldl_app. specialize (H n 0%nat). simpl in H. by rewrite H, Nat.add_0_r.
Qed.

Lemma no_slash_dotdot n : Forall no_slash (replicate n "..").
Proof. apply Forall_replicate. done. Qed.

Lemma canonical_no_slash p : canonical p → Forall no_slash p.2.
Proof.
  intros (n & cs & -> & Hcs & _). apply Forall_app. split; [apply no_slash_dotdot|].
  eapply Forall_impl; [exact Hcs|]. by intros ? (? & ? & ?).
Qed.

Lemma clean_fold_canonical r l :
  canonical (r, l) → foldl (clean_step r) [] l = reverse l.
Proof.
  intros (n & cs & Hl & Hcs & Hn). simpl in *. subst l. destruct r.
  - rewrite (Hn eq_refl). simpl. by rewrite clean_fold_ordinary, app_nil_r.
  - rewrite clean_fold_dotdot, clean_fold_ordinary by done.
    by rewrite reverse_app, reverse_replicate.
Qed.

Lemma join_not_rooted l : l ≠ [] → Forall no_slash l → Forall (λ c, c ≠ "") l →
  rooted (join_slash l) = false.
Proof.
  destruct l as [|c l]; [done|]. intros _ [Hc _]%Forall_cons [Hne _]%Forall_cons.
  destruct c as [|a c]; [done|]. apply no_slash_cons in Hc as [Ha _].
  destruct l; simpl; by destruct (Ascii.eqb_spec a slash).
Qed.

(** Rendering loses nothing: cleaning is idempotent. *)
Lemma resolve_render p : canonical p → resolve (render p) = p.
Proof.
  destruct p as [r l]. intros Hc. pose proof (canonical_no_slash _ Hc) as Hns.
  pose proof (clean_fold_canonical _ _ Hc) as Hf. simpl in Hns. unfold resolve, render.
  destruct r.
  - change (rooted ("/" +:+ join_slash l)) with true.
    change (split_slash ("/" +:+ join_slash l)) with ("" :: split_slash (join_slash l)).
    destruct l as [|c l]; [done|]. rewrite split_join by done.
    change (foldl (clean_step true) [] ("" :: c :: l)) with (foldl (clean_step true) [] (c :: l)).
    by rewrite Hf, reverse_involutive.
  - destruct l as [|c l]; [done|].
    assert (Forall (λ c, c ≠ "") (c :: l)) as Hne.
    { destruct Hc as (n & cs & Hl & Hcs & _). simpl in Hl. rewrite Hl. apply Forall_app. split.
      - by apply Forall_replicate.
      - eapply Forall_impl; [exact Hcs|]. by intros ? (? & ? & ?). }
    rewrite join_not_rooted, split_join by done. by rewrite Hf, reverse_involutive.
Qed.

Lemma resolve_Clean s : resolve (Clean s) = resolve s.
Proof. apply resolve_render, resolve_canonical. Qed.

Lemma rooted_app s t : s ≠ "" → rooted (s +:+ t) = rooted s.
Proof. by destruct s. Qed.

(** Joining an ordinary name to a directory appends one component. *)
Lemma resolve_Join d n :
  d ≠ "" → ordinary n → resolve (Join d n) = ((resolve d).1, (resolve d).2 ++ [n]).
Proof.
  intros Hd (Hs & H1 & H2 & H3). unfold Join. destruct (String.eqb_spec d ""); [done|].
  rewrite resolve_Clean. unfold resolve. rewrite rooted_app by done.
  rewrite split_slash_app, (split_slash_one n) by done. rewrite foldl_app. simpl. f_equal.
  unfold clean_step at 1. destruct (String.eqb_spec n ""); [done|].
  destruct (String.eqb_spec n "."); [done|]. destruct (String.eqb_spec n ".."); [done|]. simpl.
  by rewrite reverse_cons.
Qed.

Lemma canonical_snoc p n : canonical p → ordinary n → canonical (p.1, p.2 ++ [n]).
Proof.
  intros (k & cs & Hp & Hcs & Hr) Hn. exists k, (cs ++ [n]). cbn [fst snd].
  rewrite Hp, app_assoc. split_and!; [done| |done]. apply Forall_app. split; [done|].
  by apply Forall_singleton.
Qed.

Lemma join_slash_snoc l n e : join_slash (l ++ [n]) +:+ e = join_slash (l ++ [n +:+ e]).
Proof.
  assert (∀ c l, l ≠ [] → join_slash (c :: l) = c +:+ "/" +:+ join_slash l) as Hc.
  { intros c [|? ?] H; done. }
  assert (∀ m, l ++ [m] ≠ []) as Hne by (intros m; by destruct l).
  induction l as [|c l IH]; [done|]. cbn [app].
  assert (∀ m, l ++ [m] ≠ []) as Hne' by (intros m; by destruct l).
  rewrite !Hc, !str_app_assoc by done. do 2 f_equal. by apply IH.
Qed.

Lemma render_snoc p n e : render (p.1, p.2 ++ [n]) +:+ e = render (p.1, p.2 ++ [n +:+ e]).
Proof.
  destruct p as [[] l]; cbn [fst snd render].
  - by rewrite str_app_assoc, join_slash_snoc.
  - destruct l as [|c l]; cbn [app]; [done|]. apply (join_slash_snoc (c :: l)).
Qed.

(** A suffix put on a joined path lands in its last component. *)
Lemma resolve_Join_ext d n e :
  d ≠ "" → ordinary n → ordinary (n +:+ e) →
  resolve (Join d n +:+ e) = ((resolve d).1, (resolve d).2 ++ [n +:+ e]).
Proof.
  intros Hd Hn Hne.
  assert (Join d n = render ((resolve d).1, (resolve d).2 ++ [n])) as ->.
  { rewrite <- (resolve_Join d n) by done. unfold Join. destruct (String.eqb_spec d ""); [done|].
    by rewrite resolve_Clean. }
  rewrite render_snoc. apply resolve_render, canonical_snoc; [apply resolve_canonical|done].
Qed.

(** The same for a name that starts with a slash. *)
Lemma resolve_Join_slash d n :
  d ≠ "" → ordinary n →
  resolve (Join d ("/" +:+ n)) = ((resolve d).1, (resolve d).2 ++ [n]).
Proof.
  intros Hd Hn. rewrite <- (resolve_Join d n) by done. unfold Join.
  destruct (String.eqb_spec d ""); [done|]. rewrite !resolve_Clean. unfold resolve.
  rewrite !rooted_app, !split_slash_app by done. f_equal. f_equal. rewrite !foldl_app.
  change ("/" +:+ n) with ("" +:+ "/" +:+ n). by rewrite split_slash_app.
Qed.

(** Joining nothing, or a name cleaning drops, gives the directory. *)
Lemma resolve_Join_dir d n :
  d ≠ "" → n = "" ∨ n = "." ∨ n = "/" → resolve (Join d n) = resolve d.
Proof.
  intros Hd Hn. unfold Join. destruct (String.eqb_spec d ""); [done|]. rewrite resolve_Clean.
  unfold resolve. rewrite rooted_app, split_slash_app, foldl_app by done.
  by destruct Hn as [->|[->| ->]].
Qed.

(** Joining [..] climbs above the working directory, or gives a prefix of the directory. *)
Lemma resolve_Join_up d :
  d ≠ "" → (∃ n, (resolve (Join d "..")).2 = replicate n "..") ∨
           (resolve (Join d "..")).1 = (resolve d).1 ∧
           (resolve (Join d "..")).2 `prefix_of` (resolve d).2.
Proof.
  intros Hd. unfold Join. destruct (String.eqb_spec d ""); [done|]. rewrite resolve_Clean.
  unfold resolve. rewrite rooted_app, split_slash_app, foldl_app by done. cbn [fst snd].
  pose proof (clean_fold_ok (rooted d) [] (split_slash d)) as (k & cs & Hstk & Hcs & Hr).
  { exists 0%nat, []. by repeat split. }
  { apply split_slash_no_slash. }
  rewrite Hstk. change (split_slash "..") with [".."]. cbn [foldl]. destruct cs as [|c cs]; cbn [app].
  - left. destruct k as [|k]; cbn [replicate].
    + destruct (rooted d); [by exists 0%nat|by exists 1%nat].
    + exists (S (S k)). destruct (rooted d); [by specialize (Hr eq_refl)|].
      change (clean_step false (".." :: replicate k "..") "..") with (replicate (S (S k)) "..").
      apply reverse_replicate.
  - right. split; [done|]. apply Forall_cons in Hcs as [(_ & _ & _ & Hc) _].
    unfold clean_step. cbn [String.eqb orb]. simpl.
    destruct (String.eqb_spec c ".."); [done|]. rewrite reverse_cons. by apply prefix_app_r.
Qed.

(** A name without a slash is its stem and its extension. *)
Lemma CutLast_spec c s a b : CutLast c s = Some (a, b) → s = a +:+ String c b.
Proof.
  revert a. induction s as [|d s IH]; intros a; cbn [CutLast]; [done|].
  destruct (CutLast c s) as [[a' b']|].
  - intros [= <- <-]. simpl. by rewrite <- (IH a').
  - destruct (Ascii.eqb_spec d c) as [->|]; [|done]. by intros [= <- <-].
Qed.

Lemma TrimSuffix_app a b : TrimSuffix (a +:+ b) b = a.
Proof.
  unfold TrimSuffix. rewrite str_length_app.
  replace (String.length a + String.length b - String.length b)%nat with (String.length a) by lia.
  by rewrite str_drop_app, String.eqb_refl, str_take_app.
Qed.

Lemma Ext_stem n : no_slash n → TrimSuffix n (Ext n) +:+ Ext n = n.
Proof.
  intros Hn. unfold Ext. rewrite split_slash_one by done. cbn [last default from_option id].
  destruct (CutLast dot n) as [[a b]|] eqn:E.
  - apply CutLast_spec in E. unfold dot in E. rewrite E. cbn [String.append].
    by rewrite TrimSuffix_app.
  - pose proof (TrimSuffix_app n "") as H. by rewrite str_app_nil_r in H; rewrite H, str_app_nil_r.
Qed.

(** A name is one component, or a directory part, a slash and a component. *)
Lemma name_cases s : no_slash s ∨ ∃ pre n, s = pre +:+ "/" +:+ n ∧ no_slash n.
Proof.
  induction s as [|c s IH]; [by left|]. destruct IH as [Hs|(pre & n & -> & Hn)].
  - destruct (decide (c = slash)) as [->|Hc]; [by right; exists "", s|].
    left. by apply no_slash_cons.
  - right. by exists (String c pre), n.
Qed.

Lemma Ext_last pre n : no_slash n → Ext (pre +:+ "/" +:+ n) = Ext n.
Proof.
  intros Hn. unfold Ext. by rewrite split_slash_app, (split_slash_one n), last_snoc by done.
Qed.

Lemma stem_last pre n :
  no_slash n → TrimSuffix (pre +:+ "/" +:+ n) (Ext n) = pre +:+ "/" +:+ TrimSuffix n (Ext n).
Proof.
  intros Hn. rewrite <- (Ext_stem n) at 1 by done.
  rewrite <- !str_app_assoc. by rewrite TrimSuffix_app.
Qed.

Lemma resolve_Join_last d pre n :
  d ≠ "" → ordinary n →
  resolve (Join d (pre +:+ "/" +:+ n)) =
    ((resolve (Join d pre)).1, (resolve (Join d pre)).2 ++ [n]).
Proof.
  intros Hd (Hs & H1 & H2 & H3). unfold Join. destruct (String.eqb_spec d ""); [done|].
  rewrite !resolve_Clean. unfold resolve. rewrite !rooted_app, !split_slash_app by done.
  cbn [fst snd]. f_equal. rewrite (split_slash_one n), app_assoc, foldl_snoc by done.
  rewrite <- reverse_cons. f_equal. unfold clean_step at 1. destruct (String.eqb_spec n ""); [done|].
  destruct (String.eqb_spec n "."); [done|]. by destruct (String.eqb_spec n "..").
Qed.

(** A name that starts by going up names a sibling of the directory. *)
Lemma resolve_Join_sibling d x r l c :
  resolve d = (r, l ++ [c]) → c ≠ ".." → ordinary x →
  resolve (Join d ("../" +:+ x)) = (r, l ++ [x]).
Proof.
  intros Hr Hc Hx. assert (d ≠ "") as Hd by (intros ->; by destruct l).
  change ("../" +:+ x) with (".." +:+ "/" +:+ x). rewrite resolve_Join_last by done.
  assert (resolve (Join d "..") = (r, l)) as ->; [|done].
  unfold Join. destruct (String.eqb_spec d ""); [done|]. rewrite resolve_Clean.
  unfold resolve in *. rewrite rooted_app, split_slash_app, foldl_app by done.
  injection Hr as <- Hl. apply (f_equal reverse) in Hl. rewrite reverse_involutive, reverse_snoc in Hl.
  rewrite Hl. cbn. unfold clean_step. cbn. destruct (String.eqb_spec c ".."); [done|].
  f_equal. apply reverse_involutive.
Qed.

(** Decimal digits hold no slash. *)
Lemma digit_no_slash m : (m < 10)%N → pretty_N_char m ≠ slash.
Proof.
  intros Hm.
  assert (m = 0 ∨ m = 1 ∨ m = 2 ∨ m = 3 ∨ m = 4 ∨ m = 5 ∨ m = 6 ∨ m = 7 ∨ m = 8 ∨ m = 9)%N by lia.
  by destruct_or!; subst.
Qed.

Lemma no_slash_pretty_go (x : N) s : no_slash s → no_slash (pretty_N_go x s).
Proof.
  revert s. induction x as [x IH] using (well_founded_induction N.lt_wf_0). intros s Hs.
  destruct (decide (0 < x)%N) as [Hx|Hx].
  - rewrite pretty_N_go_step by done. apply IH.
    + by apply N.div_lt.
    + apply no_slash_cons. split; [|done]. apply digit_no_slash. by apply N.mod_lt.
  - assert (x = 0)%N as -> by lia. by rewrite pretty_N_go_0.
Qed.

Lemma no_slash_itoa i : no_slash (itoa i).
Proof.
  unfold itoa. destruct i as [|p|p]; [done| |].
  - unfold pretty, pretty_Z, pretty, pretty_positive, pretty, pretty_N.
    case_decide; [done|]. by apply no_slash_pretty_go.
  - unfold pretty, pretty_Z. apply no_slash_app. split; [done|].
    unfold pretty, pretty_positive, pretty, pretty_N.
    case_decide; [done|]. by apply no_slash_pretty_go.
Qed.

Lemma no_slash_hex s : no_slash (EncodeToString s).
Proof.
  assert (∀ n, (n < 16)%N → hexdigit n ≠ slash) as Hd.
  { intros n Hn. unfold hexdigit.
    assert (n = 0 ∨ n = 1 ∨ n = 2 ∨ n = 3 ∨ n = 4 ∨ n = 5 ∨ n = 6 ∨ n = 7 ∨ n = 8 ∨ n = 9 ∨
            n = 10 ∨ n = 11 ∨ n = 12 ∨ n = 13 ∨ n = 14 ∨ n = 15)%N by lia.
    by destruct_or!; subst. }
  induction s as [|c s IH]; [done|]. cbn [EncodeToString].
  pose proof (N_ascii_bounded c). apply no_slash_cons. split.
  { apply Hd. apply N.Div0.div_lt_upper_bound. lia. }
  apply no_slash_cons. split; [|done]. apply Hd. by apply N.mod_lt.
Qed.

Lemma no_slash_Ext s : no_slash (Ext s).
Proof.
  unfold Ext. destruct (CutLast dot _) as [[a b]|] eqn:E; [|done].
  apply no_slash_app. split; [done|].
  destruct (last (split_slash s)) as [c|] eqn:El; cbn [default from_option id] in E; [|done].
  apply list.last_Some_elem_of in El. pose proof (split_slash_no_slash s) as Hs.
  rewrite Forall_forall in Hs. specialize (Hs _ El). apply CutLast_spec in E. rewrite E in Hs.
  apply no_slash_app in Hs as [_ Hs]. by apply no_slash_cons in Hs as [_ ?].
Qed.

Lemma canonical_prefix r l k : canonical (r, l) → k `prefix_of` l → canonical (r, k).
Proof.
  intros (n & cs & Hp & Hcs & Hr) Hk. cbn [fst snd] in *. subst l.
  destruct (decide (length k <= n)%nat) as [Hl|Hl].
  - exists (length k), []. cbn [fst snd]. split_and!.
    + rewrite app_nil_r. destruct Hk as [t Ht].
      assert (k = take (length k) (replicate n ".." ++ cs)) as Hk' by (by rewrite Ht, take_app_length).
      rewrite Hk' at 1. rewrite take_app_le by (rewrite length_replicate; done).
      rewrite take_replicate. f_equal. lia.
    + constructor.
    + intros ->. specialize (Hr eq_refl). lia.
  - destruct Hk as [t Ht].
    assert (k = take (length k) (replicate n ".." ++ cs)) as Hk' by (by rewrite Ht, take_app_length).
    exists n, (take (length k - n) cs). cbn [fst snd]. split_and!; [|by apply Forall_take|done].
    rewrite Hk' at 1. rewrite take_app, length_replicate, take_ge; [done|].
    rewrite length_replicate. lia.
Qed.

(** The last component of a canonical path below an ordinary directory is ordinary. *)
Lemma canonical_below r l c n :
  canonical (r, l ++ [c; n]) → ordinary c → ordinary n.
Proof.
  intros (k & cs & Hp & Hcs & _) (_ & _ & _ & Hc). cbn [fst snd] in Hp.
  destruct cs as [|x cs _] using rev_ind.
  - rewrite app_nil_r in Hp. exfalso. apply Hc.
    assert (c ∈ replicate k "..") as Hin by (rewrite <- Hp; set_solver).
    by apply elem_of_replicate in Hin as [-> _].
  - rewrite app_assoc in Hp. change [c; n] with ([c] ++ [n]) in Hp. rewrite app_assoc in Hp.
    apply app_inj_tail in Hp as [_ ->]. apply Forall_app in Hcs as [_ Hcs].
    by rewrite Forall_singleton in Hcs.
Qed.

(** ** Going up *)

Lemma rooted_join cs : cs ≠ [] → Forall no_slash cs →
  rooted (join_slash cs +:+ "/") = match cs with "" :: _ => true | _ => false end.
Proof.
  destruct cs as [|c cs]; [done|]. intros _ [Hc _]%Forall_cons. destruct c as [|a c].
  - by destruct cs.
  - apply no_slash_cons in Hc as [Ha _]. apply Ascii.eqb_neq in Ha.
    destruct cs; cbn [join_slash String.append rooted]; by rewrite Ha.
Qed.

Lemma rooted_split s : rooted s = match split_slash s with "" :: _ :: _ => true | _ => false end.
Proof.
  destruct s as [|a s]; [done|]. cbn [split_slash rooted].
  pose proof (split_slash_nonnil s). by destruct (Ascii.eqb a slash), (split_slash s).
Qed.

Lemma split_last s : ∃ cs c, split_slash s = cs ++ [c] ∧ Forall no_slash cs.
Proof.
  destruct (exists_last (split_slash_nonnil s)) as (cs & c & E). exists cs, c. split; [done|].
  pose proof (split_slash_no_slash s) as H. rewrite E in H. by apply Forall_app in H as [? _].
Qed.

(** The directory of a path: its components but the last, cleaned. *)
Lemma Dir_resolve s cs c :
  split_slash s = cs ++ [c] → Forall no_slash cs →
  resolve (Dir s) = (rooted s, reverse (foldl (clean_step (rooted s)) [] cs)).
Proof.
  intros E Hns. unfold Dir. rewrite E, removelast_last, rooted_split, E.
  destruct cs as [|x cs]; [by destruct c|]. rewrite resolve_Clean. unfold resolve.
  assert (split_slash (join_slash (x :: cs) +:+ "/") = (x :: cs) ++ [""]) as ->.
  { change ("/") with ("/" +:+ ""). by rewrite split_slash_app, split_join. }
  rewrite rooted_join by done. cbn [app]. destruct (cs ++ [c]) eqn:E2; [by destruct cs|].
  rewrite app_comm_cons, foldl_snoc. by destruct x.
Qed.

Lemma Dir_render s : Dir s = render (resolve (Dir s)).
Proof. unfold Dir. destruct (removelast _); by rewrite resolve_Clean. Qed.

Lemma clean_step_length r stk c : (length stk <= S (length (clean_step r stk c)))%nat.
Proof.
  unfold clean_step. destruct (_ || _); [lia|]. destruct (String.eqb c ".."); [|cbn; lia].
  destruct stk as [|h t]; [cbn; lia|]. destruct (String.eqb h ".."); cbn; lia.
Qed.

Lemma Dir_length s : (length (resolve (Dir s)).2 <= S (length (resolve s).2))%nat.
Proof.
  destruct (split_last s) as (cs & c & E & Hns). rewrite (Dir_resolve s cs c E Hns).
  unfold resolve. rewrite E, foldl_snoc. cbn [snd]. rewrite !length_reverse. apply clean_step_length.
Qed.

Lemma split_render r l c :
  canonical (r, l ++ [c]) →
  split_slash (render (r, l ++ [c])) = (if r : bool then [""] else []) ++ l ++ [c].
Proof.
  intros Hc. pose proof (canonical_no_slash _ Hc) as Hns. cbn in Hns.
  assert (l ++ [c] ≠ []) as Hne by by destruct l.
  destruct r; cbn [render].
  - change ("/" +:+ join_slash (l ++ [c])) with ("" +:+ "/" +:+ join_slash (l ++ [c])).
    by rewrite split_slash_app, split_join.
  - destruct (l ++ [c]) eqn:E; [done|]. by rewrite split_join.
Qed.

(** The directory of a clean path is the path without its last component. *)
Lemma Dir_canonical r l c : canonical (r, l ++ [c]) → Dir (render (r, l ++ [c])) = render (r, l).
Proof.
  intros Hc. rewrite Dir_render. f_equal.
  pose proof (canonical_no_slash _ Hc) as Hns. cbn in Hns. apply Forall_app in Hns as [Hns _].
  rewrite (Dir_resolve _ ((if r then [""] else []) ++ l) c).
  - assert (rooted (render (r, l ++ [c])) = r) as ->.
    { change ((resolve (render (r, l ++ [c]))).1 = r). by rewrite resolve_render. }
    assert (foldl (clean_step r) [] ((if r then [""] else []) ++ l) = reverse l) as ->.
    { rewrite <-(clean_fold_canonical r l); [by destruct r|].
      eapply canonical_prefix; [exact Hc|by apply prefix_app_r]. }
    by rewrite reverse_involutive.
  - rewrite split_render by done. by rewrite app_assoc.
  - apply Forall_app. split; [|done]. destruct r; [by apply Forall_singleton|constructor].
Qed.

Lemma Dir_top r : Dir (render (r, [])) = render (r, []).
Proof. by destruct r. Qed.

(** The loop of the programs that look for a file upwards from a directory. *)
Fixpoint walk_up {A} (test : string → option A) (fuel : nat) (dir : string) : option A :=
  match fuel with
  | O => None
  | S fuel =>
      match test dir with
      | Some a => Some a
      | None => if String.eqb (Dir dir) dir then None else walk_up test fuel (Dir dir)
      end
  end.

Lemma walk_up_canonical {A} (test : string → option A) p n m :
  canonical p → (length p.2 < n)%nat → (length p.2 < m)%nat →
  walk_up test n (render p) = walk_up test m (render p).
Proof.
  destruct p as [r l]. cbn [snd]. revert n m. induction l as [|c l IH] using rev_ind; intros n m Hc Hn Hm.
  - destruct n, m; try lia. cbn [walk_up]. rewrite Dir_top, String.eqb_refl. done.
  - rewrite length_app in Hn, Hm. cbn in Hn, Hm. destruct n, m; try lia. cbn [walk_up].
    rewrite Dir_canonical by done. destruct (test _); [done|]. destruct (String.eqb _ _); [done|].
    apply IH; [|lia..]. eapply canonical_prefix; [exact Hc|by apply prefix_app_r].
Qed.

(** Three more rounds than the directory has components are enough, however it is spelled. *)
Lemma walk_up_fuel {A} (test : string → option A) d n :
  (length (resolve d).2 + 3 <= n)%nat →
  walk_up test n d = walk_up test (length (resolve d).2 + 3) d.
Proof.
  intros Hn. destruct n as [|n]; [lia|].
  destruct (length (resolve d).2 + 3)%nat as [|k] eqn:Ek; [lia|]. cbn [walk_up].
  destruct (test d); [done|]. destruct (String.eqb (Dir d) d); [done|].
  pose proof (Dir_length d). rewrite Dir_render.
  apply walk_up_canonical; [apply resolve_canonical|lia..].
Qed.
