(* ===== verification/GoOS.v ===== *)
(** * Go's os package over a file tree

    The file operations the program calls, on a finite tree of regular files and directories.
    Paths are resolved lexically ([GoPath.resolve]): the tree has no symbolic links, and
    relative paths are relative to a fixed working directory.  Permission bits are not modelled;
    [denied] is the set of paths the process may not touch, so every call can fail where the
    code checks for an error.  Each operation is total and returns the tree it leaves behind. *)
From S2P Require Import Prelude GoStr GoPath.
Open Scope string_scope.
Open Scope list_scope.

Inductive node := File (data : string) | Directory.

Record FS := mkFS { nodes : gmap cpath node; denied : gset cpath }.

Inductive errno := ENOENT | EACCES | ENOTDIR | EISDIR | ENOTEMPTY.

#[export] Instance node_eq_dec : EqDecision node.
Proof. solve_decision. Defined.
#[export] Instance errno_eq_dec : EqDecision errno.
Proof. solve_decision. Defined.

(** A [*fs.PathError]. *)
Record oserr := mkErr { err_op : string; err_path : string; err_no : errno }.

Definition errno_string (e : errno) : string :=
  match e with
  | ENOENT => "no such file or directory"
  | EACCES => "permission denied"
  | ENOTDIR => "not a directory"
  | EISDIR => "is a directory"
  | ENOTEMPTY => "directory not empty"
  end.

(** [err.Error()]. *)
Definition Error (e : oserr) : string :=
  err_op e +:+ " " +:+ err_path e +:+ ": " +:+ errno_string (err_no e).

(** [os.IsNotExist(err)]. *)
Definition IsNotExist (e : oserr) : bool := bool_decide (err_no e = ENOENT).

(** ** The tree *)

Definition set_nodes (fs : FS) (m : gmap cpath node) : FS := mkFS m (denied fs).

(** The root, the working directory and its ancestors always exist. *)
Definition top (p : cpath) : bool := forallb (String.eqb "..") p.2.

Definition node_at (fs : FS) (p : cpath) : option node :=
  if top p then Some Directory else nodes fs !! p.

Definition parent (p : cpath) : cpath := (p.1, removelast p.2).

(** [q] is [p] or below it. *)
Definition below (p q : cpath) : Prop := p.1 = q.1 ∧ p.2 `prefix_of` q.2.

#[export] Instance below_dec p q : Decision (below p q).
Proof. unfold below. apply _. Defined.

Definition is_file (o : option node) : bool :=
  match o with Some (File _) => true | _ => false end.
Definition is_dir (o : option node) : bool :=
  match o with Some Directory => true | _ => false end.

(** Why a path with no node is not there. *)
Definition missing (fs : FS) (p : cpath) : errno :=
  if is_file (node_at fs (parent p)) then ENOTDIR else ENOENT.

Definition put (fs : FS) (p : cpath) (n : node) : FS := set_nodes fs (<[p := n]> (nodes fs)).
Definition drop_node (fs : FS) (p : cpath) : FS := set_nodes fs (delete p (nodes fs)).

(** ** Operations *)

(** The size [Stat] reports for a directory. *)
Definition dir_size : Z := 4096.

Definition node_size (n : node) : Z :=
  match n with File d => len d | Directory => dir_size end.

(** [os.Stat]: the node, from which the code reads [Size()] and [IsDir()]. *)
Definition Stat (fs : FS) (path : string) : result oserr node :=
  let p := resolve path in
  match node_at fs p with
  | Some n => if decide (p ∈ denied fs) then Err (mkErr "stat" path EACCES) else Ok n
  | None => Err (mkErr "stat" path (missing fs p))
  end.

(** [os.ReadFile]. *)
Definition ReadFile (fs : FS) (path : string) : result oserr string :=
  let p := resolve path in
  if decide (p ∈ denied fs) then Err (mkErr "open" path EACCES)
  else match node_at fs p with
  | Some (File d) => Ok d
  | Some Directory => Err (mkErr "read" path EISDIR)
  | None => Err (mkErr "open" path (missing fs p))
  end.

(** Opening for writing with O_CREATE: the content the file starts from, or why not. *)
Definition open_create (fs : FS) (path : string) : result oserr string :=
  let p := resolve path in
  if decide (p ∈ denied fs) then Err (mkErr "open" path EACCES)
  else match node_at fs p with
  | Some (File d) => Ok d
  | Some Directory => Err (mkErr "open" path EISDIR)
  | None =>
      if is_dir (node_at fs (parent p)) then Ok ""
      else Err (mkErr "open" path (missing fs p))
  end.

(** [os.WriteFile]: O_WRONLY, O_CREATE and O_TRUNC. *)
Definition WriteFile (fs : FS) (path data : string) : result oserr unit * FS :=
  match open_create fs path with
  | Ok _ => (Ok (), put fs (resolve path) (File data))
  | Err e => (Err e, fs)
  end.

(** [os.OpenFile] with O_APPEND, O_CREATE and O_WRONLY, one [WriteString], then [Close]. *)
Definition AppendFile (fs : FS) (path data : string) : result oserr unit * FS :=
  match open_create fs path with
  | Ok old => (Ok (), put fs (resolve path) (File (old +:+ data)))
  | Err e => (Err e, fs)
  end.

Fixpoint zeros (n : nat) : string :=
  match n with O => "" | S n => String Ascii.zero (zeros n) end.

(** The content of a file cut or zero-extended to [size] bytes. *)
Definition resize (d : string) (size : Z) : string :=
  let n := Z.to_nat size in str_take n d +:+ zeros (n - String.length d).

(** [os.Truncate]. *)
Definition Truncate (fs : FS) (path : string) (size : Z) : result oserr unit * FS :=
  let p := resolve path in
  if decide (p ∈ denied fs) then (Err (mkErr "truncate" path EACCES), fs)
  else match node_at fs p with
  | Some (File d) => (Ok (), put fs p (File (resize d size)))
  | Some Directory => (Err (mkErr "truncate" path EISDIR), fs)
  | None => (Err (mkErr "truncate" path (missing fs p)), fs)
  end.

(** Does the directory [p] have an entry? *)
Definition has_child (fs : FS) (p : cpath) : bool :=
  bool_decide (filter (λ kv : cpath * node, kv.1 ≠ p ∧ below p kv.1) (nodes fs) ≠ ∅).

(** [os.Remove]: a file, or an empty directory. *)
Definition Remove (fs : FS) (path : string) : result oserr unit * FS :=
  let p := resolve path in
  if decide (p ∈ denied fs) then (Err (mkErr "remove" path EACCES), fs)
  else match node_at fs p with
  | Some (File _) => (Ok (), drop_node fs p)
  | Some Directory =>
      if has_child fs p then (Err (mkErr "remove" path ENOTEMPTY), fs)
      else (Ok (), drop_node fs p)
  | None => (Err (mkErr "remove" path (missing fs p)), fs)
  end.

(** [os.RemoveAll]: the path and everything below it; nothing there is not an error.  A path
    under a denied one stays. *)
Definition RemoveAll (fs : FS) (path : string) : result oserr unit * FS :=
  let p := resolve path in
  if decide (p ∈ denied fs) then (Err (mkErr "unlinkat" path EACCES), fs)
  else (Ok (), set_nodes fs (filter (λ kv : cpath * node, ¬ below p kv.1) (nodes fs))).

(** [os.Rename] of a file. *)
Definition Rename (fs : FS) (old new : string) : result oserr unit * FS :=
  let p := resolve old in let q := resolve new in
  if decide (p ∈ denied fs ∨ q ∈ denied fs) then (Err (mkErr "rename" old EACCES), fs)
  else match node_at fs p, node_at fs q with
  | Some (File d), Some Directory => (Err (mkErr "rename" old EISDIR), fs)
  | Some (File d), _ =>
      if is_dir (node_at fs (parent q)) then (Ok (), put (drop_node fs p) q (File d))
      else (Err (mkErr "rename" old (missing fs q)), fs)
  | Some Directory, _ => (Err (mkErr "rename" old EISDIR), fs)
  | None, _ => (Err (mkErr "rename" old (missing fs p)), fs)
  end.

(** The names of the entries of the directory [p]. *)
Definition children (fs : FS) (p : cpath) : list string :=
  omap (λ kv : cpath * node,
          if decide (kv.1.1 = p.1 ∧ removelast kv.1.2 = p.2) then last kv.1.2 else None)
       (map_to_list (nodes fs)).

(** [os.ReadDir]: the names of the entries.  Their order is not used. *)
Definition ReadDir (fs : FS) (path : string) : result oserr (list string) :=
  let p := resolve path in
  if decide (p ∈ denied fs) then Err (mkErr "open" path EACCES)
  else match node_at fs p with
  | Some Directory => Ok (children fs p)
  | Some (File _) => Err (mkErr "readdirent" path ENOTDIR)
  | None => Err (mkErr "open" path (missing fs p))
  end.

(** [os.MkdirAll]: the missing directories on the way to the path, from the top. *)
Fixpoint mkdir_from (fs : FS) (path : string) (r : bool) (pre cs : list string)
    : result oserr unit * FS :=
  match cs with
  | [] => (Ok (), fs)
  | c :: cs =>
      let p := (r, pre ++ [c]) in
      match node_at fs p with
      | Some Directory => mkdir_from fs path r (pre ++ [c]) cs
      | Some (File _) => (Err (mkErr "mkdir" path ENOTDIR), fs)
      | None =>
          if decide (p ∈ denied fs) then (Err (mkErr "mkdir" path EACCES), fs)
          else mkdir_from (put fs p Directory) path r (pre ++ [c]) cs
      end
  end.

Definition MkdirAll (fs : FS) (path : string) : result oserr unit * FS :=
  let p := resolve path in mkdir_from fs path p.1 [] p.2.

(** ** Frame lemmas: what each operation can change *)

Lemma put_same fs p n : nodes (put fs p n) !! p = Some n.
Proof. apply lookup_insert_eq. Qed.

Lemma put_other fs p q n : p ≠ q → nodes (put fs p n) !! q = nodes fs !! q.
Proof. apply lookup_insert_ne. Qed.

Lemma put_lookup fs p q n :
  nodes (put fs p n) !! q = if decide (p = q) then Some n else nodes fs !! q.
Proof. apply lookup_insert. Qed.

Lemma drop_same fs p : nodes (drop_node fs p) !! p = None.
Proof. apply lookup_delete_eq. Qed.

Lemma drop_other fs p q : p ≠ q → nodes (drop_node fs p) !! q = nodes fs !! q.
Proof. apply lookup_delete_ne. Qed.

#[export] Hint Rewrite put_same drop_same : handoff.

Lemma node_at_nodes fs p : top p = false → node_at fs p = nodes fs !! p.
Proof. unfold node_at. by intros ->. Qed.

Lemma node_at_file fs p d :
  node_at fs p = Some (File d) → top p = false ∧ nodes fs !! p = Some (File d).
Proof. unfold node_at. by destruct (top p). Qed.

Lemma node_at_none fs p : node_at fs p = None → top p = false ∧ nodes fs !! p = None.
Proof. unfold node_at. by destruct (top p). Qed.

Lemma node_at_put fs p q n : p ≠ q → node_at (put fs p n) q = node_at fs q.
Proof. intros Hne. unfold node_at. by rewrite put_other. Qed.

Lemma top_snoc r l c : c ≠ ".." → top (r, l ++ [c]) = false.
Proof.
  intros Hc. unfold top. cbn [snd]. rewrite forallb_app. cbn [forallb].
  destruct (String.eqb_spec ".." c); [by subst|]. by rewrite andb_false_r.
Qed.

Lemma open_create_ok fs path d :
  open_create fs path = Ok d →
  resolve path ∉ denied fs ∧
  (nodes fs !! resolve path = Some (File d) ∨ (nodes fs !! resolve path = None ∧ d = "")).
Proof.
  unfold open_create. case_decide; [done|]. intros H'. split; [done|].
  destruct (node_at fs (resolve path)) as [[d'|]|] eqn:E; [|done|].
  - left. injection H' as ->. by apply node_at_file in E as [_ ?].
  - right. destruct (is_dir _); [|done]. injection H' as <-. split; [|done].
    by apply node_at_none in E as [_ ?].
Qed.

Lemma open_create_top fs path d : open_create fs path = Ok d → top (resolve path) = false.
Proof. unfold open_create, node_at. case_decide; [done|]. by destruct (top _). Qed.

Lemma WriteFile_spec fs path data r fs' :
  WriteFile fs path data = (r, fs') →
  denied fs' = denied fs ∧
  ((∃ e, r = Err e ∧ fs' = fs) ∨
   (r = Ok () ∧ resolve path ∉ denied fs ∧ fs' = put fs (resolve path) (File data) ∧
    nodes fs !! resolve path ≠ Some Directory)).
Proof.
  unfold WriteFile. destruct (open_create fs path) as [d|e] eqn:E; intros [= <- <-].
  - apply open_create_ok in E as [? HE]. split; [done|]. right. split_and!; try done.
    destruct HE as [->|[-> _]]; done.
  - split; [done|]. left. eauto.
Qed.

Lemma AppendFile_spec fs path data r fs' :
  AppendFile fs path data = (r, fs') →
  denied fs' = denied fs ∧
  ((∃ e, r = Err e ∧ fs' = fs) ∨
   (∃ old, r = Ok () ∧ resolve path ∉ denied fs ∧
      fs' = put fs (resolve path) (File (old +:+ data)) ∧
      (nodes fs !! resolve path = Some (File old) ∨
       (nodes fs !! resolve path = None ∧ old = "")))).
Proof.
  unfold AppendFile. destruct (open_create fs path) as [d|e] eqn:E; intros [= <- <-].
  - apply open_create_ok in E as [? HE]. split; [done|]. right. exists d. by split_and!.
  - split; [done|]. left. eauto.
Qed.

Lemma AppendFile_top fs path data fs' :
  AppendFile fs path data = (Ok (), fs') → top (resolve path) = false.
Proof.
  unfold AppendFile. destruct (open_create fs path) eqn:E; [|by intros [=]].
  intros _. by eapply open_create_top.
Qed.

Lemma mkdir_from_spec fs path r pre cs res fs' :
  mkdir_from fs path r pre cs = (res, fs') →
  denied fs' = denied fs ∧
  (∀ q, nodes fs' !! q = nodes fs !! q ∨
        (nodes fs !! q = None ∧ nodes fs' !! q = Some Directory)).
Proof.
  revert fs pre. induction cs as [|c cs IH]; intros fs pre; simpl.
  { intros [= _ <-]. auto. }
  destruct (node_at fs (r, pre ++ [c])) as [[d|]|] eqn:E.
  - intros [= _ <-]. auto.
  - apply IH.
  - apply node_at_none in E as [_ E]. case_decide; [intros [= _ <-]; auto|]. intros H'. apply IH in H' as [-> Hq]. split; [done|].
    intros q. specialize (Hq q). rewrite put_lookup in Hq. case_decide as Hd; [|done].
    subst q. right. split; [done|]. destruct Hq as [->|[? ?]]; done.
Qed.

(** [MkdirAll] only adds directories, where there was nothing. *)
Lemma MkdirAll_spec fs path res fs' :
  MkdirAll fs path = (res, fs') →
  denied fs' = denied fs ∧
  (∀ q, nodes fs' !! q = nodes fs !! q ∨
        (nodes fs !! q = None ∧ nodes fs' !! q = Some Directory)).
Proof. apply mkdir_from_spec. Qed.

Lemma Truncate_spec fs path n r fs' :
  Truncate fs path n = (r, fs') →
  fs' = fs ∨ ∃ d, nodes fs !! resolve path = Some (File d) ∧ r = Ok () ∧
                  fs' = put fs (resolve path) (File (resize d n)).
Proof.
  unfold Truncate. case_decide; [intros [= _ <-]; auto|].
  destruct (node_at fs (resolve path)) as [[d|]|] eqn:E; intros [= <- <-]; auto.
  right. exists d. split_and!; [|done|done]. by apply node_at_file in E as [_ ?].
Qed.

Lemma resize_take d n : (Z.to_nat n <= String.length d)%nat → resize d n = str_take (Z.to_nat n) d.
Proof.
  intros H. unfold resize. replace (Z.to_nat n - String.length d)%nat with 0%nat by lia.
  apply str_app_nil_r.
Qed.

(** Cutting a grown file back to its old size restores its old content. *)
Lemma resize_grown d s : resize (d +:+ s) (len d) = d.
Proof.
  rewrite resize_take; unfold len; rewrite Nat2Z.id; [apply str_take_app|].
  rewrite str_length_app. lia.
Qed.

(** Reading back what was written. *)
Lemma WriteFile_ReadFile fs path data fs' :
  WriteFile fs path data = (Ok (), fs') → ReadFile fs' path = Ok data.
Proof.
  unfold WriteFile. destruct (open_create fs path) as [d|e] eqn:E; [|by intros [=]].
  intros [= <-]. pose proof (open_create_ok _ _ _ E) as [Hd _]. unfold ReadFile.
  cbn [denied put set_nodes]. rewrite decide_False by done.
  pose proof (open_create_top _ _ _ E) as Hne.
  rewrite node_at_nodes by done. by rewrite put_same.
Qed.

(** The content of every file is kept. *)
Definition files_kept (fs fs' : FS) : Prop :=
  ∀ q d, nodes fs !! q = Some (File d) → nodes fs' !! q = Some (File d).

Lemma MkdirAll_files_kept fs path res fs' : MkdirAll fs path = (res, fs') → files_kept fs fs'.
Proof.
  intros [_ Hq]%MkdirAll_spec q d Hd. destruct (Hq q) as [->|[Hn _]]; [done|]. congruence.
Qed.

(** Every directory is kept. *)
Definition dirs_kept (fs fs' : FS) : Prop :=
  ∀ q, nodes fs !! q = Some Directory → nodes fs' !! q = Some Directory.

Lemma dirs_kept_trans a b c : dirs_kept a b → dirs_kept b c → dirs_kept a c.
Proof. intros H1 H2 q Hq. by apply H2, H1. Qed.

Lemma dirs_kept_refl fs : dirs_kept fs fs.
Proof. by intros q. Qed.

Lemma WriteFile_dirs_kept fs path data r fs' : WriteFile fs path data = (r, fs') → dirs_kept fs fs'.
Proof.
  intros (_ & [(e & _ & ->)|(_ & _ & -> & Hd)])%WriteFile_spec; [apply dirs_kept_refl|].
  intros q Hq. rewrite put_other by congruence. done.
Qed.

Lemma Rename_spec fs old new r fs' :
  Rename fs old new = (r, fs') →
  (fs' = fs ∧ ∃ e, r = Err e) ∨
  ∃ d, r = Ok () ∧ nodes fs !! resolve old = Some (File d) ∧
       resolve old ∉ denied fs ∧ resolve new ∉ denied fs ∧ top (resolve new) = false ∧
       nodes fs !! resolve new ≠ Some Directory ∧
       fs' = put (drop_node fs (resolve old)) (resolve new) (File d).
Proof.
  unfold Rename. case_decide as Hd; [intros [= <- <-]; eauto|].
  destruct (node_at fs (resolve old)) as [[d|]|] eqn:Eo; [|intros [= <- <-]; eauto..].
  apply node_at_file in Eo as [_ Eo].
  destruct (node_at fs (resolve new)) as [[d'|]|] eqn:En; [|intros [= <- <-]; eauto|].
  all: destruct (is_dir _); intros [= <- <-]; [|eauto]; right; exists d.
  all: first [apply node_at_file in En as [Hne En] | apply node_at_none in En as [Hne En]].
  all: split; [done|]; split; [done|]; split; [naive_solver|]; split; [naive_solver|].
  all: split; [done|]; split; [by rewrite En|done].
Qed.

(** A file replaced through a temporary one beside it holds what was written. *)
Lemma replace_file fs tmp path b fs1 fs2 :
  resolve path ≠ resolve tmp →
  WriteFile fs tmp b = (Ok (), fs1) → Rename fs1 tmp path = (Ok (), fs2) →
  ReadFile fs2 path = Ok b.
Proof.
  intros Hne Ew Er.
  apply WriteFile_spec in Ew as (Hden & [(e & He & _)|(_ & _ & -> & _)]); [by inversion He|].
  apply Rename_spec in Er as [[_ [e He]]|(d & _ & Ho & _ & Hn & Hnil & _ & ->)]; [by inversion He|].
  rewrite put_same in Ho. injection Ho as <-. unfold ReadFile.
  cbn [denied put drop_node set_nodes] in *. rewrite decide_False by done.
  rewrite node_at_nodes by done. by rewrite put_same.
Qed.

Lemma Rename_dirs_kept fs old new r fs' : Rename fs old new = (r, fs') → dirs_kept fs fs'.
Proof.
  intros [[-> _]|(d & _ & Ho & _ & _ & _ & Hn & ->)]%Rename_spec; [apply dirs_kept_refl|].
  intros q Hq. rewrite put_other, drop_other by congruence. done.
Qed.

(** The directories on the way to a path. *)
Definition is_path (fs : FS) (p : cpath) : Prop :=
  ∀ pre, pre `prefix_of` p.2 → node_at fs (p.1, pre) = Some Directory.

Lemma node_at_dirs_kept fs fs' p :
  dirs_kept fs fs' → node_at fs p = Some Directory → node_at fs' p = Some Directory.
Proof. intros Hk. unfold node_at. destruct (top p); [done|]. apply Hk. Qed.

Lemma is_path_kept fs fs' p : dirs_kept fs fs' → is_path fs p → is_path fs' p.
Proof. intros Hk Hp pre Hpre. eapply node_at_dirs_kept; [done|]. by apply Hp. Qed.

Lemma mkdir_from_dirs_kept fs path r pre cs res fs' :
  mkdir_from fs path r pre cs = (res, fs') → dirs_kept fs fs'.
Proof.
  intros [_ Hq]%mkdir_from_spec q Hd. destruct (Hq q) as [->|[Hn _]]; [done|]. congruence.
Qed.

Lemma MkdirAll_dirs_kept fs path res fs' : MkdirAll fs path = (res, fs') → dirs_kept fs fs'.
Proof. apply mkdir_from_dirs_kept. Qed.

Lemma mkdir_from_path fs path r pre cs fs' :
  mkdir_from fs path r pre cs = (Ok (), fs') →
  ∀ k, (0 < k)%nat → (k <= length cs)%nat → node_at fs' (r, pre ++ take k cs) = Some Directory.
Proof.
  revert fs pre. induction cs as [|c cs IH]; intros fs pre Hm k Hk Hl; simpl in Hl; [lia|].
  destruct k as [|k]; [lia|]. cbn [take].
  assert (∀ fs0, node_at fs0 (r, pre ++ [c]) = Some Directory →
    mkdir_from fs0 path r (pre ++ [c]) cs = (Ok (), fs') →
    node_at fs' (r, pre ++ c :: take k cs) = Some Directory) as Hgo.
  { intros fs0 H0 Hm0. destruct k as [|k].
    - rewrite take_0. eapply node_at_dirs_kept; [by eapply mkdir_from_dirs_kept|done].
    - replace (pre ++ c :: take (S k) cs) with ((pre ++ [c]) ++ take (S k) cs)
        by by rewrite <- app_assoc.
      eapply IH; [done|lia..]. }
  cbn [mkdir_from] in Hm. destruct (node_at fs (r, pre ++ [c])) as [[d|]|] eqn:E.
  - by inversion Hm.
  - by eapply Hgo.
  - case_decide; [by inversion Hm|]. eapply Hgo; [|done].
    unfold node_at. by rewrite put_same; destruct (top _).
Qed.

Lemma top_nil r : top (r, []) = true.
Proof. done. Qed.

(** After it succeeds the path and everything on the way to it are directories. *)
Lemma MkdirAll_path fs path fs' : MkdirAll fs path = (Ok (), fs') → is_path fs' (resolve path).
Proof.
  intros Hm pre [suf Hpre]. unfold MkdirAll in Hm. destruct pre as [|c pre]; [done|].
  pose proof (mkdir_from_path _ _ _ _ _ _ Hm (length (c :: pre))) as Hk.
  rewrite Hpre in Hk. rewrite take_app_length, length_app in Hk. apply Hk; simpl; lia.
Qed.

Lemma MkdirAll_ok fs path fs' :
  MkdirAll fs path = (Ok (), fs') → node_at fs' (resolve path) = Some Directory.
Proof. intros Hp%MkdirAll_path. specialize (Hp _ (reflexivity _)). by destruct (resolve path). Qed.

Lemma mkdir_from_id fs path r pre cs :
  (∀ k, (0 < k)%nat → (k <= length cs)%nat → node_at fs (r, pre ++ take k cs) = Some Directory) →
  mkdir_from fs path r pre cs = (Ok (), fs).
Proof.
  revert pre. induction cs as [|c cs IH]; intros pre Hk; [done|]. cbn [mkdir_from].
  pose proof (Hk 1%nat) as H1. cbn [take] in H1. rewrite take_0 in H1.
  rewrite H1 by (simpl; lia). apply IH. intros k Hk0 Hl.
  rewrite <- app_assoc. apply (Hk (S k)); simpl; lia.
Qed.

Lemma MkdirAll_id fs path : is_path fs (resolve path) → MkdirAll fs path = (Ok (), fs).
Proof. intros Hp. apply mkdir_from_id. intros k Hk Hl. apply Hp, prefix_take. Qed.

(** ** Trees of canonical paths *)

Definition fs_wf (fs : FS) : Prop := ∀ q n, nodes fs !! q = Some n → canonical q.

Lemma fs_wf_put fs p n : fs_wf fs → canonical p → fs_wf (put fs p n).
Proof. intros Hf Hp q m. rewrite put_lookup. case_decide; [by subst|]. apply Hf. Qed.

Lemma fs_wf_WriteFile fs path data r fs' : fs_wf fs → WriteFile fs path data = (r, fs') → fs_wf fs'.
Proof.
  intros Hf (_ & [(e & _ & ->)|(_ & _ & -> & _)])%WriteFile_spec; [done|].
  apply fs_wf_put; [done|apply resolve_canonical].
Qed.

Lemma fs_wf_AppendFile fs path data r fs' : fs_wf fs → AppendFile fs path data = (r, fs') → fs_wf fs'.
Proof.
  intros Hf (_ & [(e & _ & ->)|(old & _ & _ & -> & _)])%AppendFile_spec; [done|].
  apply fs_wf_put; [done|apply resolve_canonical].
Qed.

Lemma fs_wf_mkdir_from fs path r pre cs res fs' :
  canonical (r, pre ++ cs) → fs_wf fs → mkdir_from fs path r pre cs = (res, fs') → fs_wf fs'.
Proof.
  revert fs pre. induction cs as [|c cs IH]; intros fs pre Hc Hf; cbn [mkdir_from].
  { by intros [= _ <-]. }
  assert (canonical (r, (pre ++ [c]) ++ cs)) as Hc' by by rewrite <- app_assoc.
  destruct (node_at fs _) as [[d|]|]; [by intros [= _ <-]|by apply IH|].
  case_decide; [by intros [= _ <-]|]. apply IH; [done|]. apply fs_wf_put; [done|].
  eapply canonical_prefix; [done|]. by eexists.
Qed.

Lemma fs_wf_MkdirAll fs path res fs' : fs_wf fs → MkdirAll fs path = (res, fs') → fs_wf fs'.
Proof.
  intros Hf. unfold MkdirAll. apply fs_wf_mkdir_from; [|done].
  pose proof (resolve_canonical path) as Hc. by destruct (resolve path).
Qed.

#[export] Hint Resolve fs_wf_WriteFile fs_wf_AppendFile fs_wf_MkdirAll fs_wf_put : handoff.

(** ** Removing a directory's entries *)

Lemma RemoveAll_lookup fs path q :
  nodes (RemoveAll fs path).2 !! q =
  if decide (resolve path ∈ denied fs) then nodes fs !! q
  else if decide (below (resolve path) q) then None else nodes fs !! q.
Proof.
  unfold RemoveAll. case_decide; [done|]. cbn [snd nodes set_nodes].
  rewrite map_lookup_filter. destruct (nodes fs !! q) as [n|]; simpl; [|by case_decide].
  case_guard as Hg; case_decide; done.
Qed.

Lemma RemoveAll_denied fs path : denied (RemoveAll fs path).2 = denied fs.
Proof. unfold RemoveAll. by case_decide. Qed.

Definition remove_entries (fs : FS) (dir : string) (names : list string) : FS :=
  foldl (λ fs name, (RemoveAll fs (Join dir name)).2) fs names.

Lemma remove_entries_kept fs dir names q :
  (∀ n, n ∈ names → ¬ below (resolve (Join dir n)) q) →
  nodes (remove_entries fs dir names) !! q = nodes fs !! q.
Proof.
  unfold remove_entries. revert fs. induction names as [|n names IH]; intros fs Hn; [done|].
  cbn [foldl]. rewrite IH by set_solver. rewrite RemoveAll_lookup.
  case_decide; [done|]. rewrite decide_False; [done|]. set_solver.
Qed.

Lemma remove_entries_none fs dir names q :
  nodes fs !! q = None → nodes (remove_entries fs dir names) !! q = None.
Proof.
  unfold remove_entries. revert fs. induction names as [|m l IH]; intros f Hf; [done|].
  cbn [foldl]. apply IH. rewrite RemoveAll_lookup. repeat case_decide; done.
Qed.

Lemma remove_entries_gone fs dir names n q :
  n ∈ names → resolve (Join dir n) ∉ denied fs → below (resolve (Join dir n)) q →
  nodes (remove_entries fs dir names) !! q = None.
Proof.
  unfold remove_entries. intros Hn Hd Hb.
  revert fs Hd. induction Hn as [n l|n m l Hn IH]; intros fs Hd; cbn [foldl].
  - apply remove_entries_none. rewrite RemoveAll_lookup. by rewrite decide_False, decide_True.
  - apply IH; [done|]. by rewrite RemoveAll_denied.
Qed.

Lemma remove_entries_denied fs dir names : denied (remove_entries fs dir names) = denied fs.
Proof.
  unfold remove_entries. revert fs. induction names as [|n names IH]; intros fs; [done|].
  cbn [foldl]. by rewrite IH, RemoveAll_denied.
Qed.

Lemma children_spec fs p n :
  n ∈ children fs p ↔ is_Some (nodes fs !! (p.1, p.2 ++ [n])).
Proof.
  unfold children. rewrite list_elem_of_omap. split.
  - intros ([q m] & Hin & Hq). cbn [fst snd] in Hq. apply elem_of_map_to_list in Hin.
    case_decide as Hd; [|done]. destruct Hd as [H1 H2]. destruct q as [r l]. cbn [fst snd] in *.
    destruct l as [|x l _] using rev_ind; [done|]. rewrite last_snoc in Hq. injection Hq as ->.
    rewrite removelast_last in H2. subst. by eexists.
  - intros [m Hm]. exists ((p.1, p.2 ++ [n]), m). rewrite elem_of_map_to_list.
    split; [done|]. cbn [fst snd]. rewrite removelast_last, last_snoc. by rewrite decide_True.
Qed.
