(* ===== verification/Wire.v ===== *)
(** * wire.go: envelopes, framing, sniffing, hashing

    The message model of [room-go/internal/wire/wire.go].  The CBOR codec and BLAKE3 are
    third-party and the image codecs are far larger than their use here: all three are
    interfaces ([Cbor], [Blake3], [ImageCodec]) with the laws the code relies on.  Byte streams
    ([io.Reader], [io.Writer]) are the bytes that are left, or that were accepted, and how the
    stream ends. *)
From S2P Require Import Prelude GoStr GoPath.
Open Scope string_scope.
Open Scope list_scope.

(** ** What is not ours *)

(** [github.com/fxamacker/cbor/v2] at one Go type. *)
Class Cbor (A : Type) := {
  cbor_Marshal : A → result string string;
  cbor_Unmarshal : string → result string A;
}.

(** Its documented contract on the values [wf] describes: they encode, and decode back. *)
Class CborLaws (A : Type) `{Cbor A} (wf : A → Prop) := {
  cbor_total : ∀ a, wf a → ∃ b, cbor_Marshal a = Ok b;
  cbor_roundtrip : ∀ a b, wf a → cbor_Marshal a = Ok b → cbor_Unmarshal b = Ok a;
}.

(** The half of it that needs no condition: what was encoded decodes back. *)
Class CborSound (A : Type) `{Cbor A} :=
  cbor_sound : ∀ a b, cbor_Marshal a = Ok b → cbor_Unmarshal b = Ok a.

(** [lukechampine.com/blake3]: [Sum256], 32 bytes. *)
Class Blake3 := Sum256 : string → string.

(** A digest has 32 bytes. *)
Class Blake3Law `{Blake3} := Sum256_len : ∀ s, String.length (Sum256 s) = 32%nat.

(** [image/jpeg] and [image/png], and the host's MIME table. *)
Class ImageCodec := {
  image : Type;
  jpeg_Decode : string → result string image;
  png_Encode : image → result string string;
  png_DecodeConfig : string → result string (Z * Z);
}.
Class MimeTable := TypeByExtension : string → string.

(** ** Data *)

Definition Version : Z := 1.
Definition MaxFrame : Z := Z.shiftl 32 20.

Record Blob := mkBlob { Hash : string; Size : Z; Blob_W : Z; Blob_H : Z }.

Record Envelope := mkEnvelope {
  V : Z;
  MsgID : string;
  Type_ : string;
  Mime : string;
  Sender : string;
  DeviceName : string;
  TS : Z;
  Filename : string;
  Text : string;
  Blob_ : option Blob;
  BlobData : string;
}.

#[export] Instance Blob_eq_dec : EqDecision Blob.
Proof. solve_decision. Defined.
#[export] Instance Envelope_eq_dec : EqDecision Envelope.
Proof. solve_decision. Defined.

Definition TypeText := "text".
Definition TypeImage := "image".
Definition TypeFile := "file".
Definition MimeText := "text/plain; charset=utf-8".
Definition MimePNG := "image/png".
Definition MimeJPEG := "image/jpeg".
Definition MimeOctet := "application/octet-stream".

Definition Marshal `{Cbor Envelope} (e : Envelope) : result string string := cbor_Marshal e.
Definition Unmarshal `{Cbor Envelope} (b : string) : result string Envelope := cbor_Unmarshal b.

(** ** Streams *)

Inductive ioerr := EOF | ErrUnexpectedEOF | ErrIO (msg : string).

(** The bytes an [io.Reader] still delivers, and the error it returns after them. *)
Record reader := mkReader { r_buf : string; r_end : ioerr }.

(** The bytes an [io.Writer] accepted, and how many more it accepts before its connection
    breaks ([None]: it never does). *)
Record writer := mkWriter { w_buf : string; w_left : option nat }.

(** [w.Write(p)]: all of it, or what fits and an error. *)
Definition Write (w : writer) (p : string) : result ioerr unit * writer :=
  match w_left w with
  | None => (Ok (), mkWriter (w_buf w +:+ p) None)
  | Some n =>
      if (String.length p <=? n)%nat
      then (Ok (), mkWriter (w_buf w +:+ p) (Some (n - String.length p)%nat))
      else (Err (ErrIO "broken pipe"), mkWriter (w_buf w +:+ str_take n p) (Some 0%nat))
  end.

(** [io.ReadFull] into a buffer of [n] bytes. *)
Definition ReadFull (r : reader) (n : Z) : result ioerr string * reader :=
  if (n <=? len (r_buf r))%Z
  then (Ok (str_take (Z.to_nat n) (r_buf r)), mkReader (str_drop (Z.to_nat n) (r_buf r)) (r_end r))
  else (Err (match r_end r with
             | EOF => if String.eqb (r_buf r) "" then EOF else ErrUnexpectedEOF
             | e => e
             end), mkReader "" (r_end r)).

(** ** Framing *)

Inductive frame_err := FrameTooLarge (n : Z) | FrameIO (e : ioerr).

Definition frame_err_string (e : frame_err) : string :=
  match e with
  | FrameTooLarge n => "frame too large: " +:+ itoa n +:+ " > " +:+ itoa MaxFrame
  | FrameIO EOF => "EOF"
  | FrameIO ErrUnexpectedEOF => "unexpected EOF"
  | FrameIO (ErrIO m) => m
  end.

Definition WriteFrame (w : writer) (p : string) : result frame_err unit * writer :=
  if (MaxFrame <? len p)%Z then (Err (FrameTooLarge (len p)), w)
  else
    let hdr := PutUint32 (uint32 (len p)) in
    match Write w hdr with
    | (Err e, w) => (Err (FrameIO e), w)
    | (Ok _, w) =>
        match Write w p with
        | (Err e, w) => (Err (FrameIO e), w)
        | (Ok _, w) => (Ok (), w)
        end
    end.

Definition ReadFrame (r : reader) : result frame_err string * reader :=
  match ReadFull r 4 with
  | (Err e, r) => (Err (FrameIO e), r)
  | (Ok hdr, r) =>
      let n := Uint32 hdr in
      if (MaxFrame <? n)%Z then (Err (FrameTooLarge n), r)
      else
        match ReadFull r n with
        | (Err e, r) => (Err (FrameIO e), r)
        | (Ok p, r) => (Ok p, r)
        end
  end.

(** The loop of every frame reader of the program ([server.relayMiddleware],
    [daemon.recvLoop]): frames until the first error.  Each frame takes at least its header,
    so the length of the stream is enough fuel. *)
Fixpoint read_frames (fuel : nat) (r : reader) : list string * option frame_err :=
  match fuel with
  | O => ([], None)
  | S fuel =>
      match ReadFrame r with
      | (Err e, _) => ([], Some e)
      | (Ok p, r) => let '(ps, e) := read_frames fuel r in (p :: ps, e)
      end
  end.

Definition ReadFrames (r : reader) : list string * option frame_err :=
  read_frames (S (String.length (r_buf r))) r.

Fixpoint WriteFrames (w : writer) (ps : list string) : result frame_err unit * writer :=
  match ps with
  | [] => (Ok (), w)
  | p :: ps =>
      match WriteFrame w p with
      | (Err e, w) => (Err e, w)
      | (Ok _, w) => WriteFrames w ps
      end
  end.

(** ** Sniffing *)

Definition bytes_of (l : list N) : string := string_of_list_ascii (map ascii_of_N l).

Definition pngMagic : string := bytes_of [137; 80; 78; 71; 13; 10; 26; 10]%N.
Definition jpegMagic : string := bytes_of [255; 216; 255]%N.

Inductive Kind := KindText | KindPNG | KindJPEG.

#[export] Instance Kind_eq_dec : EqDecision Kind.
Proof. solve_decision. Defined.

Definition Sniff (b : string) : result string Kind :=
  if HasPrefix b pngMagic then Ok KindPNG
  else if HasPrefix b jpegMagic then Ok KindJPEG
  else if Valid b then Ok KindText
  else Err "unrecognized content: not PNG, JPEG, or valid UTF-8".

Definition Classify (b : string) (forceFile : bool) : string :=
  if HasPrefix b pngMagic || HasPrefix b jpegMagic then TypeImage
  else if forceFile then TypeFile
  else if Valid b then TypeText
  else TypeFile.

Definition MimeForFilename `{MimeTable} (name : string) : string :=
  let ext := Ext name in
  if negb (String.eqb ext "") then
    let t := TypeByExtension ext in
    if negb (String.eqb t "") then TrimSpace t else MimeOctet
  else MimeOctet.

Definition ToPNG `{ImageCodec} (kind : Kind) (b : string) : result string string :=
  match kind with
  | KindPNG => Ok b
  | KindJPEG =>
      match jpeg_Decode b with
      | Err e => Err ("decode jpeg: " +:+ e)
      | Ok img =>
          match png_Encode img with
          | Err e => Err ("encode png: " +:+ e)
          | Ok out => Ok out
          end
      end
  | KindText => Err "not an image"
  end.

Definition PNGDims `{ImageCodec} (b : string) : result string (Z * Z) :=
  match png_DecodeConfig b with
  | Err e => Err e
  | Ok (w, h) => Ok (uint32 w, uint32 h)
  end.

Definition HashHex `{Blake3} (b : string) : string := EncodeToString (Sum256 b).

(** ** Framing: lemmas *)

Definition frame_bytes (p : string) : string := PutUint32 (len p) +:+ p.
Definition fits (p : string) : Prop := (len p ≤ MaxFrame)%Z.

#[export] Instance fits_dec p : Decision (fits p).
Proof. unfold fits. apply _. Defined.

Lemma MaxFrame_val : MaxFrame = 33554432%Z.
Proof. done. Qed.

Lemma uint32_fits p : fits p → uint32 (len p) = len p.
Proof.
  unfold fits, uint32. rewrite MaxFrame_val. intros. pose proof (len_nonneg p).
  apply Z.mod_small. lia.
Qed.

Lemma len_frame p : String.length (frame_bytes p) = (4 + String.length p)%nat.
Proof. unfold frame_bytes. by rewrite str_length_app. Qed.

Lemma ReadFull_app a b e : ReadFull (mkReader (a +:+ b) e) (len a) = (Ok a, mkReader b e).
Proof.
  unfold ReadFull. simpl. rewrite len_app. pose proof (len_nonneg b).
  destruct (Z.leb_spec (len a) (len a + len b)); [|lia].
  unfold len. by rewrite Nat2Z.id, str_take_app, str_drop_app.
Qed.

Lemma ReadFull_ok r n p r' :
  ReadFull r n = (Ok p, r') → (0 ≤ n)%Z → r_buf r = p +:+ r_buf r' ∧ r_end r' = r_end r ∧ len p = n.
Proof.
  unfold ReadFull. destruct (Z.leb_spec n (len (r_buf r))) as [Hle|]; intros [= <- <-] Hn.
  simpl. split_and!; [by rewrite str_take_drop|done|].
  unfold len in *. rewrite str_length_take. lia.
Qed.

Lemma ReadFull_short r n e r' :
  ReadFull r n = (Err e, r') → (len (r_buf r) < n)%Z.
Proof. unfold ReadFull. destruct (Z.leb_spec n (len (r_buf r))); [done|]. done. Qed.

Lemma ReadFrame_frame p s e :
  fits p → ReadFrame (mkReader (frame_bytes p +:+ s) e) = (Ok p, mkReader s e).
Proof.
  intros Hp. unfold ReadFrame, frame_bytes. rewrite str_app_assoc.
  rewrite (ReadFull_app (PutUint32 (len p))).
  assert (Uint32 (PutUint32 (len p)) = len p) as ->.
  { rewrite <- (str_app_nil_r (PutUint32 _)). apply Uint32_PutUint32.
    pose proof (len_nonneg p). unfold fits in Hp. rewrite MaxFrame_val in Hp. lia. }
  destruct (Z.ltb_spec MaxFrame (len p)); [unfold fits in Hp; lia|].
  by rewrite ReadFull_app.
Qed.

Lemma Uint32_nonneg b : (0 ≤ Uint32 b)%Z.
Proof.
  unfold Uint32. destruct b as [|b0 [|b1 [|b2 [|b3 ?]]]]; try lia.
  rewrite !Z.lor_nonneg, !Z.shiftl_nonneg.
  pose proof (of_byte_range b0). pose proof (of_byte_range b1).
  pose proof (of_byte_range b2). pose proof (of_byte_range b3). lia.
Qed.

(** A frame that is read is not longer than [MaxFrame] and was on the stream, behind its
    header. *)
Lemma ReadFrame_ok r p r' :
  ReadFrame r = (Ok p, r') →
  fits p ∧ r_end r' = r_end r ∧ ∃ hdr, len hdr = 4%Z ∧ r_buf r = hdr +:+ p +:+ r_buf r'.
Proof.
  unfold ReadFrame. destruct (ReadFull r 4) as [[hdr|e] r1] eqn:E1; [|done].
  destruct (Z.ltb_spec MaxFrame (Uint32 hdr)); [done|].
  destruct (ReadFull r1 (Uint32 hdr)) as [[q|e] r2] eqn:E2; [|done]. intros [= <- <-].
  apply ReadFull_ok in E1 as (Hb1 & He1 & Hl1); [|lia].
  apply ReadFull_ok in E2 as (Hb2 & He2 & Hl2); [|apply Uint32_nonneg].
  split_and!; [unfold fits; lia|congruence|]. exists hdr. by rewrite Hb1, Hb2.
Qed.

Lemma Write_unlimited s p : Write (mkWriter s None) p = (Ok (), mkWriter (s +:+ p) None).
Proof. done. Qed.

Lemma WriteFrame_unlimited s p :
  fits p → WriteFrame (mkWriter s None) p = (Ok (), mkWriter (s +:+ frame_bytes p) None).
Proof.
  intros Hp. unfold WriteFrame. destruct (Z.ltb_spec MaxFrame (len p)); [unfold fits in Hp; lia|].
  rewrite uint32_fits, !Write_unlimited by done. unfold frame_bytes. by rewrite str_app_assoc.
Qed.

Fixpoint frames_bytes (ps : list string) : string :=
  match ps with [] => "" | p :: ps => frame_bytes p +:+ frames_bytes ps end.

Lemma frames_bytes_app ps qs : frames_bytes (ps ++ qs) = frames_bytes ps +:+ frames_bytes qs.
Proof. induction ps as [|p ps IH]; simpl; [done|]. by rewrite IH, str_app_assoc. Qed.

Lemma WriteFrames_unlimited s ps :
  Forall fits ps → WriteFrames (mkWriter s None) ps = (Ok (), mkWriter (s +:+ frames_bytes ps) None).
Proof.
  intros HF. revert s. induction HF as [|p ps Hp _ IH]; intros s; simpl.
  - by rewrite str_app_nil_r.
  - rewrite WriteFrame_unlimited, IH, str_app_assoc by done. done.
Qed.

Lemma read_frames_frames ps s e n :
  Forall fits ps → (length ps <= n)%nat →
  read_frames n (mkReader (frames_bytes ps +:+ s) e) =
    let '(qs, r) := read_frames (n - length ps) (mkReader s e) in (ps ++ qs, r).
Proof.
  intros HF. revert n. induction HF as [|p ps Hp _ IH]; intros n Hn; cbn [length frames_bytes] in *.
  - rewrite Nat.sub_0_r. simpl. by destruct read_frames.
  - destruct n as [|n]; [lia|]. cbn [read_frames]. rewrite str_app_assoc, ReadFrame_frame, IH by (done || lia).
    simpl. by destruct read_frames.
Qed.

(** More fuel than bytes never runs out: [ReadFrames] always ends with an error. *)
Lemma read_frames_total n r :
  (String.length (r_buf r) < n)%nat → ∃ ps e, read_frames n r = (ps, Some e).
Proof.
  revert r. induction n as [|n IH]; intros r Hn; [lia|]. simpl.
  destruct (ReadFrame r) as [[p|e] r'] eqn:E; [|by eauto].
  apply ReadFrame_ok in E as (_ & _ & hdr & Hl & Hb). unfold len in Hl.
  apply (f_equal String.length) in Hb. rewrite !str_length_app in Hb.
  destruct (IH r') as (ps & e & ->); [lia|]. eauto.
Qed.

Lemma length_frames_bytes ps : (length ps <= String.length (frames_bytes ps))%nat.
Proof.
  induction ps as [|p ps IH]; cbn [frames_bytes length]; [lia|].
  rewrite str_length_app, len_frame. lia.
Qed.

(** What the writer holds after a failed [WriteFrame] is a strict prefix of the frame. *)
Lemma WriteFrame_torn w p e w' :
  WriteFrame w p = (Err (FrameIO e), w') →
  ∃ a b, frame_bytes p = a +:+ b ∧ b ≠ "" ∧ w_buf w' = w_buf w +:+ a.
Proof.
  unfold WriteFrame. destruct (Z.ltb_spec MaxFrame (len p)) as [|Hf]; [done|].
  rewrite uint32_fits by done. unfold Write at 1.
  destruct (w_left w) as [n|]; [|done].
  destruct (Nat.leb_spec (String.length (PutUint32 (len p))) n) as [Hn|Hn].
  - unfold Write. cbn [w_buf w_left].
    destruct (Nat.leb_spec (String.length p) (n - String.length (PutUint32 (len p)))) as [|Hk];
      [by intros [=]|]. intros [= _ <-]. cbn [w_buf].
    exists (PutUint32 (len p) +:+ str_take (n - String.length (PutUint32 (len p))) p).
    exists (str_drop (n - String.length (PutUint32 (len p))) p). split_and!.
    + unfold frame_bytes. by rewrite str_app_assoc, str_take_drop.
    + intros Hd. apply (f_equal String.length) in Hd. rewrite str_length_drop in Hd.
      cbn [String.length] in Hd. lia.
    + by rewrite str_app_assoc.
  - intros [= _ <-]. cbn [w_buf].
    exists (str_take n (PutUint32 (len p))), (str_drop n (PutUint32 (len p)) +:+ p). split_and!.
    + by rewrite <- str_app_assoc, str_take_drop.
    + intros Hd. apply (f_equal String.length) in Hd. rewrite str_length_app, str_length_drop in Hd.
      cbn [String.length] in Hd. lia.
    + done.
Qed.

Lemma ReadFrame_prefix_err p a b e :
  fits p → frame_bytes p = a +:+ b → b ≠ "" →
  ∃ err r, ReadFrame (mkReader a e) = (Err err, r).
Proof.
  intros Hp Hab Hb. destruct (ReadFrame (mkReader a e)) as [[q|err] r] eqn:E; [|eauto].
  exfalso. unfold ReadFrame in E.
  destruct (ReadFull (mkReader a e) 4) as [[hdr|?] r1] eqn:E1; [|done].
  apply ReadFull_ok in E1 as (Hb1 & He1 & Hl1); [|lia]. simpl in Hb1. subst a.
  unfold frame_bytes in Hab. rewrite str_app_assoc in Hab.
  assert (hdr = PutUint32 (len p)) as ->.
  { apply (f_equal (str_take 4)) in Hab.
    assert (String.length hdr = 4%nat) as H4 by (unfold len in Hl1; lia).
    rewrite <- H4 in Hab at 2. rewrite str_take_app in Hab.
    by rewrite <- (str_take_app (PutUint32 (len p)) p). }
  apply str_app_inj_l in Hab.
  assert (Uint32 (PutUint32 (len p)) = len p) as Hu.
  { rewrite <- (str_app_nil_r (PutUint32 _)). apply Uint32_PutUint32.
    pose proof (len_nonneg p). unfold fits in Hp. rewrite MaxFrame_val in Hp. lia. }
  rewrite Hu in E. destruct (Z.ltb_spec MaxFrame (len p)); [done|].
  destruct (ReadFull r1 (len p)) as [[q2|?] r2] eqn:E2; [|done].
  apply ReadFull_ok in E2 as (Hb2 & _ & Hl2); [|apply len_nonneg].
  rewrite Hb2, str_app_assoc in Hab. apply (f_equal len) in Hab. rewrite !len_app in Hab.
  pose proof (len_nonneg (r_buf r2)). pose proof (len_nonneg b).
  assert (len b = 0%Z) as Hz by lia. by apply len_zero in Hz.
Qed.

(** Complete frames and a torn one: the reader gets the complete ones, then an error. *)
Lemma read_back_torn qs t e :
  Forall fits qs → (t = "" ∨ ∃ p b, fits p ∧ frame_bytes p = t +:+ b ∧ b ≠ "") →
  ∃ err, ReadFrames (mkReader (frames_bytes qs +:+ t) e) = (qs, Some err).
Proof.
  intros HF Ht.
  assert (∃ err r', ReadFrame (mkReader t e) = (Err err, r')) as (err & r' & Ht').
  { destruct Ht as [->|(p & b & Hp & Hpb & Hne)].
    - unfold ReadFrame, ReadFull. simpl. eauto.
    - eapply ReadFrame_prefix_err; eauto. }
  exists err. unfold ReadFrames. cbn [r_buf].
  pose proof (length_frames_bytes qs) as Hl. rewrite str_length_app.
  rewrite read_frames_frames by (done || lia).
  destruct (_ - length qs)%nat eqn:E; [lia|]. cbn [read_frames]. by rewrite Ht', app_nil_r.
Qed.

Lemma WriteFrames_app w ps qs :
  WriteFrames w (ps ++ qs) =
    match WriteFrames w ps with
    | (Ok _, w') => WriteFrames w' qs
    | (Err e, w') => (Err e, w')
    end.
Proof.
  revert w. induction ps as [|p ps IH]; intros w; [done|]. cbn [app WriteFrames].
  destruct (WriteFrame w p) as [[[]|e] w']; [apply IH|done].
Qed.

Lemma ReadFrame_shrinks r p r' :
  ReadFrame r = (Ok p, r') → (String.length (r_buf r') < String.length (r_buf r))%nat.
Proof.
  intros (_ & _ & hdr & Hl & Hb)%ReadFrame_ok. unfold len in Hl.
  apply (f_equal String.length) in Hb. rewrite !str_length_app in Hb. lia.
Qed.

Lemma read_frames_fuel n m r :
  (String.length (r_buf r) < n)%nat → (String.length (r_buf r) < m)%nat →
  read_frames n r = read_frames m r.
Proof.
  revert m r. induction n as [|n IH]; intros [|m] r Hn Hm; try lia. cbn [read_frames].
  destruct (ReadFrame r) as [[p|e] r'] eqn:E; [|done].
  apply ReadFrame_shrinks in E. by rewrite (IH m) by lia.
Qed.

(** The frames of a stream are its next frame and the frames of the rest. *)
Lemma ReadFrames_next r p r' :
  ReadFrame r = (Ok p, r') → (ReadFrames r).1 = p :: (ReadFrames r').1.
Proof.
  intros E. unfold ReadFrames at 1. cbn [read_frames]. rewrite E.
  rewrite (read_frames_fuel _ (S (String.length (r_buf r')))).
  - fold (ReadFrames r'). by destruct (ReadFrames r').
  - by apply ReadFrame_shrinks in E.
  - lia.
Qed.

Lemma ReadFrames_end r e r' : ReadFrame r = (Err e, r') → (ReadFrames r).1 = [].
Proof. intros E. unfold ReadFrames. cbn [read_frames]. by rewrite E. Qed.

(** A connection that breaks anywhere leaves complete frames and at most one torn one. *)
Lemma WriteFrames_broken w ps r w' :
  Forall fits ps → WriteFrames w ps = (r, w') →
  ∃ k t, w_buf w' = w_buf w +:+ frames_bytes (take k ps) +:+ t ∧
    (r = Ok () → k = length ps ∧ t = "") ∧
    (t = "" ∨ ∃ p b, fits p ∧ frame_bytes p = t +:+ b ∧ b ≠ "").
Proof.
  intros HF. revert w. induction HF as [|p ps Hp _ IH]; intros w; cbn [WriteFrames].
  { intros [= <- <-]. exists 0%nat, "". simpl. rewrite str_app_nil_r. auto. }
  destruct (WriteFrame w p) as [[[]|e] w1] eqn:E.
  - intros Hw. apply IH in Hw as (k & t & Hb & Hok & Ht). exists (S k), t.
    assert (w_buf w1 = w_buf w +:+ frame_bytes p) as H1.
    { revert E. unfold WriteFrame. destruct (Z.ltb_spec MaxFrame (len p)); [done|].
      rewrite uint32_fits by done. unfold Write, frame_bytes.
      destruct (w_left w) as [n|]; cbn [w_buf w_left].
      - destruct (Nat.leb (String.length (PutUint32 (len p))) n); [|done]. cbn [w_buf w_left].
        destruct (Nat.leb _ _); [|by intros [=]]. intros [= <-]. by rewrite str_app_assoc.
      - intros [= <-]. by rewrite str_app_assoc. }
    rewrite Hb, H1. cbn [take frames_bytes]. rewrite !str_app_assoc. split_and!; [done| |done].
    intros Hr. destruct (Hok Hr) as [-> ->]. done.
  - intros [= <- <-]. destruct e as [n|e].
    { unfold WriteFrame in E. destruct (Z.ltb_spec MaxFrame (len p)); [unfold fits in Hp; lia|].
      destruct (Write w _) as [[]]; [|done]. by destruct (Write w0 p) as [[]]. }
    apply WriteFrame_torn in E as (a & b & Hab & Hne & Hbuf). exists 0%nat, a.
    rewrite Hbuf. simpl. split_and!; [done|done|]. right. by exists p, b.
Qed.

Lemma Valid_not_png r : Valid (pngMagic +:+ r) = false.
Proof. done. Qed.

Lemma Valid_not_jpeg r : Valid (jpegMagic +:+ r) = false.
Proof. done. Qed.

Lemma Valid_not_image b :
  Valid b = true → HasPrefix b pngMagic = false ∧ HasPrefix b jpegMagic = false.
Proof.
  intros Hv. split; apply not_true_iff_false; rewrite prefix_spec; intros [r ->].
  - by rewrite Valid_not_png in Hv.
  - by rewrite Valid_not_jpeg in Hv.
Qed.

(** ** Properties *)

(** C35. A sequence of frames, each within [MaxFrame], written by [WriteFrame] to one connection
    is read back by [ReadFrame] frame for frame, and the reader then sees a clean end of
    stream. *)
Theorem frame_stream_roundtrip ps :
  Forall fits ps →
  ∃ w', WriteFrames (mkWriter "" None) ps = (Ok (), w') ∧
        ReadFrames (mkReader (w_buf w') EOF) = (ps, Some (FrameIO EOF)).
Proof.
  intros HF. eexists. rewrite WriteFrames_unlimited by done. split; [done|].
  unfold ReadFrames. cbn [w_buf r_buf String.append].
  pose proof (length_frames_bytes ps) as Hl.
  rewrite <- (str_app_nil_r (frames_bytes ps)) at 2.
  rewrite read_frames_frames by (done || lia).
  destruct (S (String.length (frames_bytes ps)) - length ps)%nat eqn:E; [lia|].
  simpl. by rewrite app_nil_r.
Qed.

Lemma frame_stream_roundtrip_witness :
  Forall fits ["hi"; ""] ∧ ∃ w', WriteFrames (mkWriter "" None) ["hi"; ""] = (Ok (), w') ∧
        ReadFrames (mkReader (w_buf w') EOF) = (["hi"; ""], Some (FrameIO EOF)).
Proof.
  assert (Forall fits ["hi"; ""]) as HF.
  { apply (bool_decide_unpack _). vm_compute. exact I. }
  split; [exact HF|]. exact (frame_stream_roundtrip ["hi"; ""] HF).
Defined.

(** Wherever a connection breaks while frames are written (its writer accepts only some
    number of bytes), a peer that reads what arrived gets an unaltered prefix of the frames and
    then an error: a torn frame is never delivered. *)
Theorem broken_stream_prefix lim ps r w' e :
  Forall fits ps → WriteFrames (mkWriter "" lim) ps = (r, w') →
  ∃ k err, ReadFrames (mkReader (w_buf w') e) = (take k ps, Some err) ∧
           (r = Ok () → take k ps = ps).
Proof.
  intros HF Hw. destruct (WriteFrames_broken _ _ _ _ HF Hw) as (k & t & Hb & Hok & Ht).
  cbn [w_buf String.append] in Hb. exists k. rewrite Hb.
  destruct (read_back_torn (take k ps) t e) as [err ->]; [by apply Forall_take|done|].
  exists err. split; [done|].
  intros Hr. destruct (Hok Hr) as [-> _]. by rewrite take_ge.
Qed.

Lemma broken_stream_prefix_witness :
  ∃ w', WriteFrames (mkWriter "" (Some 9%nat)) ["hi"; "there"] = (Err (FrameIO (ErrIO "broken pipe")), w') ∧
  ∃ k err, ReadFrames (mkReader (w_buf w') EOF) = (take k ["hi"; "there"], Some err) ∧
    (Err (E := frame_err) (A := unit) (FrameIO (ErrIO "broken pipe")) = Ok () →
     take k ["hi"; "there"] = ["hi"; "there"]).
Proof.
  eexists. split; [vm_compute; reflexivity|].
  eapply (broken_stream_prefix (Some 9%nat) ["hi"; "there"]); [|vm_compute; reflexivity].
  apply (bool_decide_unpack _). vm_compute. exact I.
Defined.

(** [ReadFrame] never returns a payload above [MaxFrame], takes from the stream exactly the
    four-byte header and the payload, and refuses a header that declares more than [MaxFrame]
    before it reads (or allocates) any payload. *)
Theorem ReadFrame_bounds r :
  (∀ p r', ReadFrame r = (Ok p, r') →
     (len p ≤ MaxFrame)%Z ∧ len (r_buf r) = (4 + len p + len (r_buf r'))%Z) ∧
  (∀ n s, (MaxFrame < n < 2 ^ 32)%Z →
     ReadFrame (mkReader (PutUint32 n +:+ s) (r_end r)) = (Err (FrameTooLarge n), mkReader s (r_end r))).
Proof.
  split.
  - intros p r' Hr. apply ReadFrame_ok in Hr as (Hp & _ & hdr & Hl & ->).
    rewrite !len_app. unfold fits in Hp. lia.
  - intros n s Hn. unfold ReadFrame. rewrite (ReadFull_app (PutUint32 n)).
    assert (Uint32 (PutUint32 n) = n) as ->.
    { rewrite <- (str_app_nil_r (PutUint32 n)). apply Uint32_PutUint32.
      rewrite MaxFrame_val in Hn. lia. }
    destruct (Z.ltb_spec MaxFrame n); [done|lia].
Qed.

(** The [--auto] rules: a payload is sent as text exactly when it is the UTF-8 encoding of a
    sequence of Unicode scalar values, as an image exactly when it starts with a PNG or JPEG
    signature, as a file otherwise; [Sniff] agrees with [Classify] on all three. *)
Theorem Classify_spec b :
  (Classify b false = TypeText ↔ ∃ rs, Forall scalar rs ∧ b = encode_runes rs) ∧
  (Classify b false = TypeImage ↔ ∃ r, b = pngMagic +:+ r ∨ b = jpegMagic +:+ r) ∧
  (Classify b false = TypeText ↔ Sniff b = Ok KindText) ∧
  (Classify b false = TypeImage ↔ Sniff b = Ok KindPNG ∨ Sniff b = Ok KindJPEG) ∧
  (Classify b false = TypeFile ↔ is_ok (Sniff b) = false).
Proof.
  rewrite <- Valid_spec.
  assert ((∃ r, b = pngMagic +:+ r ∨ b = jpegMagic +:+ r) ↔
          HasPrefix b pngMagic = true ∨ HasPrefix b jpegMagic = true) as ->.
  { rewrite !prefix_spec. naive_solver. }
  pose proof (Valid_not_image b). unfold Classify, Sniff.
  destruct (HasPrefix b pngMagic), (HasPrefix b jpegMagic), (Valid b); simpl; naive_solver.
Qed.
