(* ===== verification/Codec.v ===== *)
(** * A concrete codec

    CBOR is third-party, so the development takes it as a parameter with laws.  This file gives a
    codec that meets the laws, for the examples: a record is its fields, each as one frame of
    [Wire].  It says nothing of the bytes CBOR produces. *)
From S2P Require Import Prelude GoStr GoPath Wire.
Open Scope string_scope.
Open Scope list_scope.

Definition enc_fields (l : list string) : string := frames_bytes l.
Definition dec_fields (b : string) : list string := (ReadFrames (mkReader b EOF)).1.

Lemma dec_enc_fields l : Forall fits l → dec_fields (enc_fields l) = l.
Proof.
  intros Hl. unfold dec_fields, enc_fields.
  destruct (read_back_torn l "" EOF Hl (or_introl eq_refl)) as [err Hr].
  rewrite str_app_nil_r in Hr. by rewrite Hr.
Qed.

Definition u32 (z : Z) : Prop := (0 ≤ z < 2 ^ 32)%Z.

#[export] Instance u32_dec z : Decision (u32 z).
Proof. unfold u32. apply _. Defined.

Definition enc_bool (b : bool) : string := if b then "1" else "".
Definition dec_bool (s : string) : bool := negb (String.eqb s "").

Lemma dec_enc_bool b : dec_bool (enc_bool b) = b.
Proof. by destruct b. Qed.

(** An optional record: nothing, or a byte and its encoding. *)
Definition enc_option {A} (enc : A → string) (o : option A) : string :=
  match o with None => "" | Some a => "1" +:+ enc a end.
Definition dec_option {A} (dec : string → option A) (s : string) : option (option A) :=
  match s with
  | "" => Some None
  | String _ s => match dec s with Some a => Some (Some a) | None => None end
  end.

Lemma dec_enc_option {A} (enc : A → string) (dec : string → option A) o :
  (∀ a, o = Some a → dec (enc a) = Some a) → dec_option dec (enc_option enc o) = Some o.
Proof. destruct o as [a|]; simpl; [|done]. intros H. by rewrite H. Qed.

(** ** Envelopes *)

Definition blob_fields (b : Blob) : list string :=
  [Hash b; PutUint32 (Size b); PutUint32 (Blob_W b); PutUint32 (Blob_H b)].
Definition enc_blob (b : Blob) : string := enc_fields (blob_fields b).
Definition dec_blob (s : string) : option Blob :=
  match dec_fields s with
  | [h; n; w; d] => Some (mkBlob h (Uint32 n) (Uint32 w) (Uint32 d))
  | _ => None
  end.

Definition env_fields (e : Envelope) : list string :=
  [PutUint32 (V e); MsgID e; Type_ e; Mime e; Sender e; DeviceName e; PutUint32 (TS e);
   Filename e; Text e; enc_option enc_blob (Blob_ e); BlobData e].
Definition enc_env (e : Envelope) : string := enc_fields (env_fields e).
Definition dec_env (s : string) : option Envelope :=
  match dec_fields s with
  | [v; id; ty; mi; se; dn; ts; fn; tx; bl; bd] =>
      match dec_option dec_blob bl with
      | Some bl => Some (mkEnvelope (Uint32 v) id ty mi se dn (Uint32 ts) fn tx bl bd)
      | None => None
      end
  | _ => None
  end.

Definition blob_wf (b : Blob) : Prop :=
  Forall fits (blob_fields b) ∧ u32 (Size b) ∧ u32 (Blob_W b) ∧ u32 (Blob_H b).
Definition env_wf (e : Envelope) : Prop :=
  Forall fits (env_fields e) ∧ u32 (V e) ∧ u32 (TS e) ∧
  match Blob_ e with Some b => blob_wf b | None => True end.

#[export] Instance blob_wf_dec b : Decision (blob_wf b).
Proof. unfold blob_wf. apply _. Defined.
#[export] Instance env_wf_dec e : Decision (env_wf e).
Proof. unfold env_wf. destruct (Blob_ e); apply _. Defined.

Lemma dec_enc_u32 z : u32 z → Uint32 (PutUint32 z) = z.
Proof. apply Uint32_PutUint32. Qed.

Lemma dec_enc_blob b : blob_wf b → dec_blob (enc_blob b) = Some b.
Proof.
  intros (Hf & H1 & H2 & H3). unfold dec_blob, enc_blob. rewrite dec_enc_fields by done.
  cbn [blob_fields]. rewrite !dec_enc_u32 by done. by destruct b.
Qed.

Lemma dec_enc_env e : env_wf e → dec_env (enc_env e) = Some e.
Proof.
  intros (Hf & H1 & H2 & Hb). unfold dec_env, enc_env. rewrite dec_enc_fields by done.
  cbn [env_fields]. rewrite dec_enc_option.
  - rewrite !dec_enc_u32 by done. by destruct e.
  - intros b E. rewrite E in Hb. by apply dec_enc_blob.
Qed.

Definition of_dec {A} (o : option A) : result string A :=
  match o with Some a => Ok a | None => Err "cbor: cannot unmarshal" end.

Definition frame_cbor : Cbor Envelope := {|
  cbor_Marshal e := Ok (enc_env e);
  cbor_Unmarshal b := of_dec (dec_env b) |}.

Lemma frame_cbor_laws : @CborLaws Envelope frame_cbor env_wf.
Proof.
  split.
  - intros e _. by eexists.
  - intros e b Hwf Hb. cbn [cbor_Marshal frame_cbor] in Hb.
    assert (b = enc_env e) as -> by congruence. cbn [cbor_Unmarshal frame_cbor].
    by rewrite dec_enc_env.
Qed.

(** A codec that refuses what it could not give back. *)
Section guarded.
Context {A : Type} (wf : A → Prop) `{∀ a, Decision (wf a)}.
Context (enc : A → string) (dec : string → option A) (dec_enc : ∀ a, wf a → dec (enc a) = Some a).

Definition guarded : Cbor A := {|
  cbor_Marshal a := if decide (wf a) then Ok (enc a) else Err "cbor: value out of range";
  cbor_Unmarshal b := of_dec (dec b) |}.

Lemma guarded_sound : @CborSound A guarded.
Proof.
  intros a b. cbn. case_decide; [|done]. intros [= <-]. by rewrite dec_enc.
Qed.
End guarded.

Definition strict_env : Cbor Envelope := guarded env_wf enc_env dec_env.
Lemma strict_env_sound : @CborSound Envelope strict_env.
Proof. apply guarded_sound, dec_enc_env. Qed.

(** ** A concrete digest: the first 32 bytes, padded *)

Definition pad_blake3 : Blake3 := λ s, str_take 32 (s +:+ "................................").

Lemma pad_blake3_law : @Blake3Law pad_blake3.
Proof.
  intros s. unfold Sum256, pad_blake3. rewrite str_length_take, str_length_app. cbn [String.length]. lia.
Qed.
