(* ===== verification/Dedupe.v ===== *)
(** * dedupe.go: the bounded set of message ids already processed

    [room-go/internal/daemon/dedupe.go] (and its twin in [experiments/shared-go/daemon]).  The
    mutex makes each [Seen] one atomic step, so a run of the set is a list of calls. *)
From S2P Require Import Prelude.
Open Scope string_scope.
Open Scope list_scope.

Record Dedupe := mkDedupe { seen : gset string; order : list string; cap : Z }.

Definition NewDedupe (capN : Z) : Dedupe :=
  let capN := if (capN <=? 0)%Z then 1024%Z else capN in mkDedupe ∅ [] capN.

(** [Seen]: the answer and the set it leaves. *)
Definition Seen (d : Dedupe) (id : string) : bool * Dedupe :=
  if decide (id ∈ seen d) then (true, d)
  else
    let d := mkDedupe ({[id]} ∪ seen d) (order d ++ [id]) (cap d) in
    if (cap d <? Z.of_nat (length (order d)))%Z then
      match order d with
      | old :: rest => (false, mkDedupe (seen d ∖ {[old]}) rest (cap d))
      | [] => (false, d)
      end
    else (false, d).

(** A sequence of calls: their answers and the final set. *)
Fixpoint Seen_all (d : Dedupe) (ids : list string) : list bool * Dedupe :=
  match ids with
  | [] => ([], d)
  | id :: ids =>
      let '(b, d) := Seen d id in let '(bs, d) := Seen_all d ids in (b :: bs, d)
  end.

(** ** The specification: a window over the ids accepted so far *)

Definition window (c : nat) (acc : list string) (id : string) : bool :=
  bool_decide (id ∈ lastn c acc).

Fixpoint window_run (c : nat) (acc ids : list string) : list bool * list string :=
  match ids with
  | [] => ([], acc)
  | id :: ids =>
      let b := window c acc id in
      let '(bs, acc) := window_run c (if b then acc else acc ++ [id]) ids in (b :: bs, acc)
  end.

(** ** Invariant *)

Record dedupe_wf (d : Dedupe) : Prop := mkDedupeWf {
  dedupe_wf_seen : seen d = list_to_set (order d);
  dedupe_wf_nodup : NoDup (order d);
  dedupe_wf_cap : (0 < cap d)%Z;
  dedupe_wf_len : (Z.of_nat (length (order d)) ≤ cap d)%Z;
}.

Lemma NewDedupe_wf c : dedupe_wf (NewDedupe c).
Proof.
  unfold NewDedupe. destruct (Z.leb_spec c 0); split; simpl; try done; try lia; constructor.
Qed.

Lemma Seen_known d id : id ∈ seen d → Seen d id = (true, d).
Proof. intros H. unfold Seen. by rewrite decide_True. Qed.

(** The evicted form of [Seen] on a fresh id: the order keeps its last [cap] ids. *)
Lemma Seen_fresh d id :
  dedupe_wf d → id ∉ seen d →
  ∃ d', Seen d id = (false, d') ∧ dedupe_wf d' ∧ cap d' = cap d ∧
        order d' = lastn (Z.to_nat (cap d)) (order d ++ [id]).
Proof.
  intros [Hs Hn Hc Hl] Hid. unfold Seen. rewrite decide_False by done.
  assert (id ∉ order d) as Hid' by (rewrite Hs in Hid; set_solver).
  cbn [order cap seen]. rewrite length_app. cbn [length].
  destruct (Z.ltb_spec (cap d) (Z.of_nat (length (order d) + 1))) as [Hlt|Hge].
  - destruct (order d) as [|o r] eqn:E; [simpl in *; lia|]. cbn [app].
    eexists. split_and!; [done| |done|].
    + apply NoDup_cons in Hn as [Hor Hnr]. split; cbn [order seen cap].
      * rewrite Hs, list_to_set_app_L. set_solver.
      * apply NoDup_app. split_and!; [done| |repeat constructor; set_solver].
        intros x Hx Hx'. set_solver.
      * done.
      * rewrite length_app. simpl in *. lia.
    + cbn [order]. unfold lastn. simpl in *. rewrite length_app. simpl.
      replace (S (length r + 1) - _)%nat with 1%nat by lia. done.
  - eexists. split_and!; [done| |done|].
    + split; cbn [order seen cap]; [rewrite Hs, list_to_set_app_L; set_solver| |done|].
      * apply NoDup_app. split_and!; [done| |repeat constructor; set_solver]. set_solver.
      * rewrite length_app. simpl. lia.
    + cbn [order]. rewrite lastn_all; [done|]. rewrite length_app. simpl. lia.
Qed.

Lemma Seen_wf d id : dedupe_wf d → dedupe_wf (Seen d id).2.
Proof.
  intros Hw. destruct (decide (id ∈ seen d)) as [Hin|Hout].
  - by rewrite Seen_known.
  - by destruct (Seen_fresh d id Hw Hout) as (d' & -> & ? & _).
Qed.

#[export] Hint Resolve NewDedupe_wf Seen_wf : handoff.

(** After any call the id is in the set. *)
Lemma Seen_marks d id : dedupe_wf d → id ∈ seen (Seen d id).2.
Proof.
  intros Hw. destruct (decide (id ∈ seen d)) as [Hin|Hout]; [by rewrite Seen_known|].
  destruct (Seen_fresh d id Hw Hout) as (d' & -> & [Hs _ _ _] & _ & Ho). cbn [snd].
  rewrite Hs, Ho, elem_of_list_to_set. destruct Hw as [_ _ Hc _]. unfold lastn.
  rewrite length_app. cbn [length]. rewrite drop_app_le by lia. set_solver.
Qed.

Lemma Seen_only d id x : dedupe_wf d → x ∈ seen (Seen d id).2 → x ∈ seen d ∨ x = id.
Proof.
  intros Hw. destruct (decide (id ∈ seen d)) as [Hin|Hout]; [by rewrite Seen_known; [left|]|].
  destruct (Seen_fresh d id Hw Hout) as (d' & -> & [Hs _ _ _] & _ & Ho). cbn [snd].
  rewrite Hs, Ho, elem_of_list_to_set. destruct Hw as [Hs0 _ _ _]. rewrite Hs0, elem_of_list_to_set.
  intros Hx. unfold lastn in Hx. apply (sublist_subseteq _ _ (sublist_drop _ _)) in Hx.
  apply elem_of_app in Hx as [?|Hx%list_elem_of_singleton]; auto.
Qed.

(** One call refines one step of the window over all ids accepted so far. *)
Lemma Seen_window d acc id c :
  dedupe_wf d → c = Z.to_nat (cap d) → order d = lastn c acc →
  let '(b, d') := Seen d id in
  b = window c acc id ∧ dedupe_wf d' ∧ cap d' = cap d ∧
  order d' = lastn c (if b then acc else acc ++ [id]).
Proof.
  intros Hw -> Ho. pose proof Hw as [Hs _ _ _]. unfold window.
  destruct (decide (id ∈ seen d)) as [Hin|Hout].
  - rewrite Seen_known by done. rewrite Hs, Ho, elem_of_list_to_set in Hin.
    rewrite bool_decide_eq_true_2 by done. done.
  - destruct (Seen_fresh d id Hw Hout) as (d' & -> & Hw' & Hc & Ho').
    rewrite Hs, Ho, elem_of_list_to_set in Hout. rewrite bool_decide_eq_false_2 by done.
    split_and!; try done. by rewrite Ho', Ho, lastn_lastn_app.
Qed.

Lemma Seen_all_window d acc ids c :
  dedupe_wf d → c = Z.to_nat (cap d) → order d = lastn c acc →
  let '(bs, d') := Seen_all d ids in
  let '(bs', acc') := window_run c acc ids in
  bs = bs' ∧ dedupe_wf d' ∧ order d' = lastn c acc'.
Proof.
  revert d acc. induction ids as [|id ids IH]; intros d acc Hw Hc Ho; simpl; [done|].
  pose proof (Seen_window d acc id c Hw Hc Ho) as Hone.
  destruct (Seen d id) as [b d']. destruct Hone as (-> & Hw' & Hc' & Ho').
  specialize (IH d' _ Hw' (eq_trans Hc (f_equal Z.to_nat (eq_sym Hc'))) Ho').
  destruct (Seen_all d' ids), (window_run c _ ids). naive_solver.
Qed.

(** Ids the window accepts twice are more than [c] acceptances apart. *)
Definition spaced (c : nat) (acc : list string) : Prop :=
  ∀ i j x, acc !! i = Some x → acc !! j = Some x → i < j → c < j - i.

Lemma spaced_snoc c acc id : spaced c acc → window c acc id = false → spaced c (acc ++ [id]).
Proof.
  intros Hsp Hw i j x Hi Hj Hij. unfold window in Hw. apply bool_decide_eq_false in Hw.
  destruct (decide (j < length acc)).
  - rewrite lookup_app_l in Hj by lia. rewrite lookup_app_l in Hi by lia. eauto.
  - pose proof (lookup_lt_Some _ _ _ Hj) as Hlt. rewrite length_app in Hlt. simpl in Hlt.
    assert (j = length acc) as -> by lia.
    rewrite list_lookup_middle in Hj by done. injection Hj as <-.
    rewrite lookup_app_l in Hi by lia.
    destruct (decide (length acc - c <= i)); [|lia]. exfalso. apply Hw.
    unfold lastn. apply list_elem_of_lookup. exists (i - (length acc - c)).
    rewrite lookup_drop. by replace (length acc - c + (i - (length acc - c))) with i by lia.
Qed.

Lemma window_run_spaced c acc ids : spaced c acc → spaced c (window_run c acc ids).2.
Proof.
  revert acc. induction ids as [|id ids IH]; intros acc Hsp; simpl; [done|].
  destruct (window c acc id) eqn:E.
  - specialize (IH acc Hsp). by destruct (window_run c acc ids).
  - specialize (IH _ (spaced_snoc _ _ _ Hsp E)). by destruct (window_run c (acc ++ [id]) ids).
Qed.

(** ** Properties *)

(** C37. A dedupe set answers a whole run of calls exactly as a sliding window over the ids it
    accepted: an id is reported as seen iff it is among the last [cap] accepted ids ([cap] is the
    argument of [NewDedupe], or 1024 for a non-positive one). *)
Theorem Seen_refines_window capN ids :
  let c := Z.to_nat (if (capN <=? 0)%Z then 1024%Z else capN) in
  (Seen_all (NewDedupe capN) ids).1 = (window_run c [] ids).1.
Proof.
  intros c. pose proof (Seen_all_window (NewDedupe capN) [] ids c) as Hrun.
  destruct (Seen_all (NewDedupe capN) ids), (window_run c [] ids).
  apply Hrun; [apply NewDedupe_wf| |done].
  unfold c, NewDedupe. by destruct (capN <=? 0)%Z.
Qed.

(** In every run the set stays bounded by its capacity, its map and its order list hold the
    same ids without repetition, and an id is accepted a second time only after more than [cap]
    further acceptances. *)
Theorem Seen_bounded_no_repeat capN ids :
  let c := Z.to_nat (if (capN <=? 0)%Z then 1024%Z else capN) in
  let d := (Seen_all (NewDedupe capN) ids).2 in
  seen d = list_to_set (order d) ∧ NoDup (order d) ∧ (length (order d) ≤ c)%nat ∧
  spaced c (window_run c [] ids).2.
Proof.
  intros c d.
  assert (Z.to_nat (cap (NewDedupe capN)) = c) as Hc by (unfold c, NewDedupe; by destruct (_ <=? _)%Z).
  pose proof (Seen_all_window (NewDedupe capN) [] ids c) as Hrun. unfold d.
  pose proof (window_run_spaced c [] ids) as Hsp.
  destruct (Seen_all (NewDedupe capN) ids) as [bs d'], (window_run c [] ids) as [bs' acc'].
  destruct Hrun as (_ & [Hs Hn Hp Hl] & Ho); [apply NewDedupe_wf|done|done|].
  split_and!; [done|done| |].
  - cbn [snd]. rewrite Ho, length_lastn. lia.
  - apply Hsp. intros i j x Hi. by rewrite lookup_nil in Hi.
Qed.
