(* ===== verification/Chan.v ===== *)
(** * Buffered Go channels

    A channel is its queue, its capacity and whether it is closed.  Channels that several
    goroutines hold are named by the heap that holds them. *)
From S2P Require Import Prelude.
Open Scope list_scope.

Record chan (A : Type) := mkChan { queue : list A; chan_cap : nat; closed : bool }.
Arguments mkChan {A} _ _ _.
Arguments queue {A} _.
Arguments chan_cap {A} _.
Arguments closed {A} _.

Definition make_chan {A} (n : nat) : chan A := mkChan [] n false.
Definition close {A} (c : chan A) : chan A := mkChan (queue c) (chan_cap c) true.

(** [select { case c <- x: ... default: ... }].  A send on a closed channel panics even with a
    default case. *)
Inductive send_result (A : Type) := Sent (c : chan A) | Full | SendPanic.
Arguments Sent {A} c.
Arguments Full {A}.
Arguments SendPanic {A}.

Definition try_send {A} (c : chan A) (x : A) : send_result A :=
  if closed c then SendPanic
  else if (length (queue c) <? chan_cap c)%nat
  then Sent (mkChan (queue c ++ [x]) (chan_cap c) false)
  else Full.

Lemma try_send_open {A} (c : chan A) x :
  closed c = false → ∃ c', closed c' = false ∧ chan_cap c' = chan_cap c ∧
    ((length (queue c) < chan_cap c)%nat ∧ try_send c x = Sent c' ∧ queue c' = queue c ++ [x] ∨
     (chan_cap c <= length (queue c))%nat ∧ try_send c x = Full ∧ c' = c).
Proof.
  intros Hc. unfold try_send. rewrite Hc.
  destruct (Nat.ltb_spec (length (queue c)) (chan_cap c)).
  - exists (mkChan (queue c ++ [x]) (chan_cap c) false). split_and!; [done..|]. by left.
  - exists c. split_and!; [done..|]. by right.
Qed.
