(* ===== verification/Broker.v ===== *)
(** * broker.go: rooms and the fan-out of frames

    [room-go/internal/broker/broker.go].  A [*Session] is an identity [sid] into a heap of
    session objects, because the broker's map, the sender's loop and the snapshot of a broadcast
    alias them. *)
From S2P Require Import Prelude Chan.
Open Scope string_scope.
Open Scope list_scope.

(** ** Sessions and the broker *)

Definition sid : Type := nat.

Record Session := mkSession { Room : string; FP : string; Out : chan string }.

Definition set_Out (s : Session) (c : chan string) : Session := mkSession (Room s) (FP s) c.

Record Broker := mkBroker { rooms : gmap string (gset sid) }.

Definition New : Broker := mkBroker ∅.

Definition Register (b : Broker) (s : sid) (room : string) : Broker :=
  let set := default ∅ (rooms b !! room) in
  mkBroker (<[room := {[s]} ∪ set]> (rooms b)).

Definition Unregister (b : Broker) (s : sid) (room : string) : Broker :=
  match rooms b !! room with
  | None => b
  | Some set =>
      let set := set ∖ {[s]} in
      if (size set =? 0)%nat then mkBroker (delete room (rooms b))
      else mkBroker (<[room := set]> (rooms b))
  end.

(** The snapshot [Broadcast] takes under the read lock: the room without the sender. *)
Definition targets (b : Broker) (room : string) (from : sid) : gset sid :=
  default ∅ (rooms b !! room) ∖ {[from]}.

(** One iteration of the delivery loop.  [None]: the send panicked. *)
Definition deliver (heap : gmap sid Session) (t : sid) (frame : string)
    : option (Z * gmap sid Session) :=
  match heap !! t with
  | None => Some (0%Z, heap)
  | Some s =>
      match try_send (Out s) frame with
      | Sent c => Some (1%Z, <[t := set_Out s c]> heap)
      | Full => Some (0%Z, heap)
      | SendPanic => None
      end
  end.

Fixpoint deliver_all (heap : gmap sid Session) (ts : list sid) (frame : string)
    : option (Z * gmap sid Session) :=
  match ts with
  | [] => Some (0%Z, heap)
  | t :: ts =>
      match deliver heap t frame with
      | None => None
      | Some (n, heap) =>
          match deliver_all heap ts frame with
          | None => None
          | Some (m, heap) => Some ((n + m)%Z, heap)
          end
      end
  end.

Definition Broadcast (b : Broker) (heap : gmap sid Session) (room : string) (from : sid)
    (frame : string) : option (Z * gmap sid Session) :=
  deliver_all heap (elements (targets b room from)) frame.

Definition RoomCount (b : Broker) (room : string) : Z :=
  Z.of_nat (size (default ∅ (rooms b !! room))).

(** ** Lemmas *)

Lemma Register_room b s room r x :
  x ∈ default ∅ (rooms (Register b s room) !! r) ↔
  (x = s ∧ r = room) ∨ x ∈ default ∅ (rooms b !! r).
Proof.
  unfold Register. cbn [rooms]. rewrite lookup_insert. case_decide as Hd; simpl.
  - subst r. set_solver.
  - split; [tauto|]. intros [[_ ->]|?]; done.
Qed.

Lemma Unregister_room b s room r x :
  x ∈ default ∅ (rooms (Unregister b s room) !! r) ↔
  x ∈ default ∅ (rooms b !! r) ∧ ¬ (x = s ∧ r = room).
Proof.
  unfold Unregister. destruct (rooms b !! room) as [set|] eqn:E.
  - destruct (Nat.eqb_spec (size (set ∖ {[s]})) 0) as [Hz|Hz]; cbn [rooms].
    + rewrite lookup_delete. apply size_empty_inv in Hz. case_decide as Hd; simpl.
      * subst r. rewrite E. simpl. set_solver.
      * naive_solver.
    + rewrite lookup_insert. case_decide as Hd; simpl.
      * subst r. rewrite E. simpl. set_solver.
      * naive_solver.
  - split; [|tauto]. intros Hx. split; [done|]. intros [-> ->]. rewrite E in Hx. set_solver.
Qed.

(** No room of the broker is empty: the map does not leak rooms. *)
Definition no_empty_room (b : Broker) : Prop := ∀ r set, rooms b !! r = Some set → set ≠ ∅.

Lemma Register_no_empty b s room : no_empty_room b → no_empty_room (Register b s room).
Proof.
  intros H r set. unfold Register. cbn [rooms]. rewrite lookup_insert. case_decide.
  - intros [= <-]. set_solver.
  - apply H.
Qed.

Lemma Unregister_no_empty b s room : no_empty_room b → no_empty_room (Unregister b s room).
Proof.
  intros H r set. unfold Unregister. destruct (rooms b !! room) as [set'|] eqn:E; [|apply H].
  destruct (Nat.eqb_spec (size (set' ∖ {[s]})) 0) as [Hz|Hz]; cbn [rooms].
  - rewrite lookup_delete. case_decide; [done|]. apply H.
  - rewrite lookup_insert. case_decide; [|apply H]. intros [= <-] He. rewrite He in Hz. done.
Qed.

#[export] Hint Resolve Register_no_empty Unregister_no_empty : handoff.

(** A session accepts the frame when its queue has room. *)
Definition has_room (s : Session) : bool := (length (queue (Out s)) <? chan_cap (Out s))%nat.
Definition push (s : Session) (frame : string) : Session :=
  set_Out s (mkChan (queue (Out s) ++ [frame]) (chan_cap (Out s)) false).

Definition open_session (heap : gmap sid Session) (t : sid) : Prop :=
  ∀ s, heap !! t = Some s → closed (Out s) = false.

Lemma deliver_open heap t frame :
  open_session heap t →
  deliver heap t frame = Some (match heap !! t with
    | Some s => if has_room s then (1%Z, <[t := push s frame]> heap) else (0%Z, heap)
    | None => (0%Z, heap) end).
Proof.
  intros Ho. unfold deliver. destruct (heap !! t) as [s|] eqn:E; [|done].
  unfold try_send. rewrite (Ho s E). unfold has_room, push. by destruct (_ <? _)%nat.
Qed.

Lemma deliver_other heap t frame n heap' t' :
  deliver heap t frame = Some (n, heap') → t' ≠ t → heap' !! t' = heap !! t'.
Proof.
  unfold deliver. destruct (heap !! t) as [s|]; [|by intros [= _ <-]].
  destruct (try_send (Out s) frame); intros [= _ <-]; [|done].
  intros. by rewrite lookup_insert_ne.
Qed.

(** What a fan-out does to every session, whatever the order of the targets. *)
Definition after_broadcast (heap : gmap sid Session) (ts : list sid) (frame : string) (t : sid)
    : option Session :=
  match heap !! t with
  | Some s => Some (if decide (t ∈ ts) then if has_room s then push s frame else s else s)
  | None => None
  end.

Definition can_take (heap : gmap sid Session) (t : sid) : bool :=
  match heap !! t with Some s => has_room s | None => false end.

Definition takers (heap : gmap sid Session) (ts : list sid) : list sid :=
  filter (λ t, can_take heap t = true) ts.

Lemma takers_ext h1 h2 ts : (∀ t, t ∈ ts → h1 !! t = h2 !! t) → takers h1 ts = takers h2 ts.
Proof.
  unfold takers. induction ts as [|t ts IH]; intros H; [done|]. rewrite !filter_cons.
  rewrite IH by set_solver. unfold can_take. by rewrite (H t) by set_solver.
Qed.

Lemma deliver_all_open heap ts frame :
  NoDup ts → Forall (open_session heap) ts →
  ∃ heap', deliver_all heap ts frame = Some (Z.of_nat (length (takers heap ts)), heap') ∧
           ∀ t, heap' !! t = after_broadcast heap ts frame t.
Proof.
  revert heap. induction ts as [|t ts IH]; intros heap Hn Hf; simpl.
  { exists heap. split; [done|]. intros t. unfold after_broadcast.
    destruct (heap !! t); [|done]. by rewrite decide_False by set_solver. }
  apply NoDup_cons in Hn as [Ht Hn]. apply Forall_cons in Hf as [Ho Hf].
  rewrite deliver_open by done.
  set (h := match heap !! t with
    | Some s => if has_room s then (1%Z, <[t := push s frame]> heap) else (0%Z, heap)
    | None => (0%Z, heap) end).
  assert (∀ t', t' ≠ t → h.2 !! t' = heap !! t') as Hother.
  { intros t' Hne. unfold h. destruct (heap !! t) as [s|]; [|done].
    destruct (has_room s); [|done]. by apply lookup_insert_ne. }
  destruct (IH h.2 Hn) as (heap' & Hd & Hall).
  { apply Forall_forall. intros t' Ht' s Hs. rewrite Hother in Hs by set_solver.
    rewrite Forall_forall in Hf. by eapply Hf. }
  assert (takers h.2 ts = takers heap ts) as Htk.
  { apply takers_ext. intros t' Ht'. apply Hother. set_solver. }
  destruct h as [n h'] eqn:Eh. cbn [fst snd] in *. rewrite Hd. exists heap'. split.
  - do 2 f_equal. rewrite Htk. unfold takers. rewrite filter_cons.
    assert (n = if can_take heap t then 1%Z else 0%Z) as ->.
    { unfold can_take. unfold h in Eh. destruct (heap !! t) as [s|]; [|by injection Eh as <- _].
      destruct (has_room s); by injection Eh as <- _. }
    destruct (can_take heap t); case_decide; try done. simpl. lia.
  - intros t'. rewrite Hall. unfold after_broadcast.
    destruct (decide (t' = t)) as [->|Hne].
    + assert (h' !! t = match heap !! t with
        | Some s => Some (if has_room s then push s frame else s) | None => None end) as ->.
      { unfold h in Eh. destruct (heap !! t) as [s|] eqn:E; [|by injection Eh as _ <-].
        destruct (has_room s); injection Eh as _ <-; [by rewrite lookup_insert_eq|done]. }
      destruct (heap !! t) as [s|]; [|done]. f_equal.
      destruct (decide (t ∈ ts)); [done|]. by rewrite decide_True by set_solver.
    + rewrite Hother by done. destruct (heap !! t'); [|done]. f_equal.
      destruct (decide (t' ∈ ts)); [by rewrite decide_True by set_solver|].
      by rewrite decide_False by set_solver.
Qed.

Lemma targets_elem b room from t :
  t ∈ targets b room from ↔ t ∈ default ∅ (rooms b !! room) ∧ t ≠ from.
Proof. unfold targets. set_solver. Qed.

Lemma Broadcast_open b heap room from frame :
  Forall (open_session heap) (elements (targets b room from)) →
  ∃ heap', Broadcast b heap room from frame
           = Some (Z.of_nat (length (takers heap (elements (targets b room from)))), heap') ∧
    ∀ t, heap' !! t = after_broadcast heap (elements (targets b room from)) frame t.
Proof. intros H. apply deliver_all_open; [apply NoDup_elements|done]. Qed.

(** ** Example: three sessions in a room, one of them full, and one elsewhere *)

Definition demo_session (room : string) (q : list string) (cap : nat) : Session :=
  mkSession room "" (mkChan q cap false).
Definition demo_heap : gmap sid Session :=
  <[1 := demo_session "lab" [] 2]> (<[2 := demo_session "lab" ["x"] 2]>
  (<[3 := demo_session "lab" ["x"; "y"] 2]> (<[4 := demo_session "home" [] 2]> ∅))).
Definition demo_broker : Broker :=
  Register (Register (Register (Register New 1 "lab") 2 "lab") 3 "lab") 4 "home".

Lemma demo_open : map_Forall (λ _ s, closed (Out s) = false) demo_heap.
Proof. refine (bool_decide_unpack _ _). vm_compute. exact I. Qed.

(** C26. [Broadcast] on open sessions does not panic.  It returns the number of sessions of the
    room, the sender left out, whose queue had a free slot; exactly those get the frame at the end
    of their queue, whatever the iteration order of the room; the sender, the full sessions and
    the sessions outside the room keep their state; and no queue outgrows its capacity. *)
Theorem Broadcast_spec b heap room from frame
    (Hopen : map_Forall (λ _ s, closed (Out s) = false) heap) :
  ∃ n heap', Broadcast b heap room from frame = Some (n, heap') ∧
    n = Z.of_nat (length (takers heap (elements (targets b room from)))) ∧
    dom heap' = dom heap ∧
    heap' !! from = heap !! from ∧
    ∀ t s, heap !! t = Some s →
      ∃ s', heap' !! t = Some s' ∧
        (s' = s ∨ queue (Out s') = queue (Out s) ++ [frame] ∧
                  (length (queue (Out s')) <= chan_cap (Out s))%nat) ∧
        (s' ≠ s ↔ t ∈ default ∅ (rooms b !! room) ∧ t ≠ from ∧
                  (length (queue (Out s)) < chan_cap (Out s))%nat).
Proof.
  destruct (Broadcast_open b heap room from frame) as (heap' & E & Hall).
  { apply Forall_forall. intros t _ s Hs. by apply Hopen in Hs. }
  exists (Z.of_nat (length (takers heap (elements (targets b room from))))), heap'.
  split_and!; [done|done| | |].
  - apply set_eq. intros t. rewrite !elem_of_dom, Hall. unfold after_broadcast.
    destruct (heap !! t); by split.
  - rewrite Hall. unfold after_broadcast. destruct (heap !! from); [|done].
    rewrite decide_False; [done|]. rewrite elem_of_elements, targets_elem. naive_solver.
  - intros t s Hs. rewrite Hall. unfold after_broadcast. rewrite Hs. eexists. split; [done|].
    pose proof (Hopen _ _ Hs) as Hc. unfold has_room.
    assert (push s frame ≠ s) as Hpush.
    { intros Hp. apply (f_equal (λ x, length (queue (Out x)))) in Hp. simpl in Hp.
      rewrite length_app in Hp. simpl in Hp. lia. }
    case_decide as Hd; rewrite elem_of_elements, targets_elem in Hd.
    + destruct (Nat.ltb_spec (length (queue (Out s))) (chan_cap (Out s))).
      * split; [right; simpl; rewrite length_app; simpl; split; [done|lia]|]. tauto.
      * split; [by left|]. split; [done|]. lia.
    + split; [by left|]. split; [done|]. tauto.
Qed.

Lemma Broadcast_spec_witness :
  ∃ n heap', Broadcast demo_broker demo_heap "lab" 1 "f" = Some (n, heap') ∧ n = 1%Z.
Proof.
  destruct (Broadcast_spec demo_broker demo_heap "lab" 1 "f" demo_open)
    as (n & heap' & E & -> & _).
  eexists _, heap'. split; [exact E|]. vm_compute. reflexivity.
Defined.
