(* ===== verification/Server.v ===== *)
(** * server.go: rooms over SSH

    [room-go/internal/server/server.go].  The relay of one session is two goroutines: the reader
    loop (read a frame, fan it out, at the end close the queue, wait for the writer and leave the
    room) and the writer (drain the queue into the SSH channel).  [step_fn] is one atomic action
    of one of them; a run is a list of labels, that is, an interleaving.  Frames are read with
    [Wire.ReadFrame] from the bytes the client sends and written with [Wire.WriteFrame]. *)
From S2P Require Import Prelude GoStr GoPath GoOS Wire Chan Broker.
Open Scope string_scope.
Open Scope list_scope.

(** ** The host key *)

(** [gen] is what key generation and its PEM encoding return. *)
Definition hostKeyPEM (fs : FS) (path : string) (gen : result string string)
    : result string string * FS :=
  match ReadFile fs path with
  | Ok b => (Ok b, fs)
  | Err e =>
      if negb (IsNotExist e) then (Err (Error e), fs)
      else
        let dir := Dir path in
        let '(mk, fs) :=
          if negb (String.eqb dir "") && negb (String.eqb dir ".")
          then MkdirAll fs dir else (Ok (), fs) in
        match mk with
        | Err e => (Err (Error e), fs)
        | Ok _ =>
            match gen with
            | Err e => (Err e, fs)
            | Ok pemBytes =>
                match WriteFile fs path pemBytes with
                | (Err e, fs) => (Err (Error e), fs)
                | (Ok _, fs) => (Ok pemBytes, fs)
                end
            end
        end
  end.

(** ** The server *)

Record ServerConfig := mkServerConfig {
  sc_Addr : string;
  sc_HostKey : string;
  sc_AuthorizedKeys : gmap string bool;
}.

(** [New]; [new]: [wish.NewServer] on the address, the host key and the allowed keys. *)
Definition server_New (new : string → string → gmap string bool → result string unit)
    (cfg : ServerConfig) (fs : FS) (gen : result string string) : result string unit * FS :=
  match hostKeyPEM fs (sc_HostKey cfg) gen with
  | (Err e, fs) => (Err ("host key: " +:+ e), fs)
  | (Ok pemBytes, fs) => (new (sc_Addr cfg) pemBytes (sc_AuthorizedKeys cfg), fs)
  end.

(** ** Authentication *)

(** [map[string]bool]: a missing key reads as [false]. *)
Definition publicKeyAuth (allowed : gmap string bool) (fp : string) : option string :=
  if (0 <? Z.of_nat (size allowed))%Z && negb (default false (allowed !! fp))
  then None else Some fp.

Definition relay_room (cmd : list string) : string :=
  match cmd with
  | c :: _ => if negb (String.eqb c "") then c else "default"
  | [] => "default"
  end.

(** ** The relay goroutines *)

(** Where the reader loop of a session is. *)
Inductive phase :=
| Reading                                    (** at [wire.ReadFrame(sess)] *)
| Got (frame : string)                       (** about to take the snapshot of [Broadcast] *)
| Fanning (frame : string) (rest : gset sid) (** in the delivery loop of [Broadcast] *)
| Draining                                   (** [s.Out] closed, at [<-done] *)
| Left.                                      (** unregistered *)

(** [inp]: what the client still sends; [out]: what was written to its channel.  The last two
    fields are history the code does not keep: all the client sends, and the frames written. *)
Record relay := mkRelay {
  at_ : phase;
  inp : reader;
  out : writer;
  writer_done : bool;
  inp0 : reader;
  got : list string;
}.

Record delivery := mkDelivery { d_from : sid; d_to : sid; d_frame : string }.

(** [log]: every frame a [Broadcast] queued, in order (history).  [crashed]: a goroutine
    panicked, which ends the process. *)
Record Sys := mkSys {
  allowed : gmap string bool;
  brk : Broker;
  heap : gmap sid Session;
  relays : gmap sid relay;
  log : list delivery;
  crashed : bool;
}.

Definition init (allowed : gmap string bool) : Sys := mkSys allowed New ∅ ∅ [] false.

Definition OutCap : nat := 256.

Definition set_at (r : relay) (p : phase) : relay :=
  mkRelay p (inp r) (out r) (writer_done r) (inp0 r) (got r).

(** [relayMiddleware] up to the reader loop, behind [publicKeyAuth]. *)
Definition join (st : Sys) (s : sid) (fp : string) (cmd : list string) (input : reader)
    (lim : option nat) : option Sys :=
  match publicKeyAuth (allowed st) fp, heap st !! s with
  | Some fp, None =>
      let room := relay_room cmd in
      Some (mkSys (allowed st) (Register (brk st) s room)
              (<[s := mkSession room fp (make_chan OutCap)]> (heap st))
              (<[s := mkRelay Reading input (mkWriter "" lim) false input []]> (relays st))
              (log st) (crashed st))
  | _, _ => None
  end.

Definition set_relay (st : Sys) (s : sid) (r : relay) : Sys :=
  mkSys (allowed st) (brk st) (heap st) (<[s := r]> (relays st)) (log st) (crashed st).

(** The reader loop: one frame, or the end of the loop and [close(s.Out)]. *)
Definition read (st : Sys) (s : sid) (r : relay) (ses : Session) : Sys :=
  match ReadFrame (inp r) with
  | (Ok frame, inp') =>
      set_relay st s (mkRelay (Got frame) inp' (out r) (writer_done r) (inp0 r) (got r ++ [frame]))
  | (Err _, inp') =>
      mkSys (allowed st) (brk st) (<[s := set_Out ses (close (Out ses))]> (heap st))
        (<[s := mkRelay Draining inp' (out r) (writer_done r) (inp0 r) (got r)]> (relays st))
        (log st) (crashed st)
  end.

(** The delivery loop of [Broadcast], one target at a time. *)
Definition deliver_one (st : Sys) (s : sid) (r : relay) (frame : string) (rest : gset sid) (t : sid)
    : Sys :=
  match deliver (heap st) t frame with
  | None => mkSys (allowed st) (brk st) (heap st) (relays st) (log st) true
  | Some (n, heap') =>
      mkSys (allowed st) (brk st) heap'
        (<[s := set_at r (Fanning frame (rest ∖ {[t]}))]> (relays st))
        (if (n =? 0)%Z then log st else log st ++ [mkDelivery s t frame]) (crashed st)
  end.

(** [for frame := range s.Out]: [WriteFrame] of the oldest frame, the end of the goroutine when
    that fails, and when the queue is empty and closed. *)
Definition write (st : Sys) (s : sid) (r : relay) (ses : Session) : option Sys :=
  match queue (Out ses) with
  | frame :: q =>
      let heap' := <[s := set_Out ses (mkChan q (chan_cap (Out ses)) (closed (Out ses)))]> (heap st) in
      let '(res, out') := WriteFrame (out r) frame in
      let r' := mkRelay (at_ r) (inp r) out' (negb (is_ok res)) (inp0 r) (got r) in
      Some (mkSys (allowed st) (brk st) heap' (<[s := r']> (relays st)) (log st) (crashed st))
  | [] =>
      if closed (Out ses)
      then Some (set_relay st s (mkRelay (at_ r) (inp r) (out r) true (inp0 r) (got r)))
      else None
  end.

Inductive label :=
| LJoin (s : sid) (fp : string) (cmd : list string) (input : reader) (lim : option nat)
| LRead (s : sid)
| LSnapshot (s : sid)
| LDeliver (s t : sid)
| LDelivered (s : sid)
| LWrite (s : sid)
| LLeave (s : sid).

Definition step_fn (st : Sys) (l : label) : option Sys :=
  if crashed st then None
  else
    match l with
    | LJoin s fp cmd input lim => join st s fp cmd input lim
    | LRead s =>
        match relays st !! s, heap st !! s with
        | Some r, Some ses => match at_ r with Reading => Some (read st s r ses) | _ => None end
        | _, _ => None
        end
    | LSnapshot s =>
        match relays st !! s, heap st !! s with
        | Some r, Some ses =>
            match at_ r with
            | Got frame =>
                Some (set_relay st s (set_at r (Fanning frame (targets (brk st) (Room ses) s))))
            | _ => None
            end
        | _, _ => None
        end
    | LDeliver s t =>
        match relays st !! s with
        | Some r =>
            match at_ r with
            | Fanning frame rest =>
                if decide (t ∈ rest) then Some (deliver_one st s r frame rest t) else None
            | _ => None
            end
        | None => None
        end
    | LDelivered s =>
        match relays st !! s with
        | Some r =>
            match at_ r with
            | Fanning _ rest =>
                if decide (rest = ∅) then Some (set_relay st s (set_at r Reading)) else None
            | _ => None
            end
        | None => None
        end
    | LWrite s =>
        match relays st !! s, heap st !! s with
        | Some r, Some ses => if writer_done r then None else write st s r ses
        | _, _ => None
        end
    | LLeave s =>
        match relays st !! s, heap st !! s with
        | Some r, Some ses =>
            match at_ r with
            | Draining =>
                if writer_done r
                then Some (mkSys (allowed st) (Unregister (brk st) s (Room ses)) (heap st)
                             (<[s := set_at r Left]> (relays st)) (log st) (crashed st))
                else None
            | _ => None
            end
        | _, _ => None
        end
    end.

Fixpoint run (st : Sys) (ls : list label) : option Sys :=
  match ls with
  | [] => Some st
  | l :: ls => match step_fn st l with Some st => run st ls | None => None end
  end.

Definition reaches (st st' : Sys) : Prop := ∃ ls, run st ls = Some st'.

(** ** What the history says *)

Definition frames_to (t : sid) (l : list delivery) : list string :=
  map d_frame (filter (λ d, d_to d = t) l).
Definition frames_between (s t : sid) (l : list delivery) : list string :=
  map d_frame (filter (λ d, d_from d = s ∧ d_to d = t) l).

(** The frame a reader loop is handling. *)
Definition current (r : relay) : option string :=
  match at_ r with Got f | Fanning f _ => Some f | _ => None end.

(** The frames [t] has had its turn for: all that were read, but for the one of the fan-out that
    has not come to [t] yet. *)
Definition settled (r : relay) (t : sid) : list string :=
  match at_ r with
  | Got _ => removelast (got r)
  | Fanning _ rest => if decide (t ∈ rest) then removelast (got r) else got r
  | _ => got r
  end.

Definition ended (p : phase) : bool :=
  match p with Draining | Left => true | _ => false end.

Lemma frames_to_snoc x l d :
  frames_to x (l ++ [d]) = frames_to x l ++ (if decide (d_to d = x) then [d_frame d] else []).
Proof.
  unfold frames_to. rewrite filter_app, map_app, filter_cons, filter_nil. by case_decide.
Qed.

Lemma frames_between_snoc x y l d :
  frames_between x y (l ++ [d]) =
  frames_between x y l ++ (if decide (d_from d = x ∧ d_to d = y) then [d_frame d] else []).
Proof.
  unfold frames_between. rewrite filter_app, map_app, filter_cons, filter_nil. by case_decide.
Qed.

Lemma settled_got r t : settled r t `sublist_of` got r.
Proof.
  assert (removelast (got r) `sublist_of` got r) as H.
  { destruct (got r) as [|x l] using rev_ind; [done|].
    rewrite removelast_last. by apply sublist_inserts_r. }
  unfold settled. destruct (at_ r); try done. by case_decide.
Qed.

(** What holds of one session and its relay in every reachable state. *)
Record relay_inv (st : Sys) (s : sid) (r : relay) (ses : Session) : Prop := {
  ri_cap : chan_cap (Out ses) = OutCap ∧ (length (queue (Out ses)) <= OutCap)%nat;
  ri_closed : closed (Out ses) = ended (at_ r);
  ri_member : s ∈ default ∅ (rooms (brk st) !! Room ses) ↔ at_ r ≠ Left;
  ri_auth : publicKeyAuth (allowed st) (FP ses) = Some (FP ses);
  ri_reads : (ReadFrames (inp0 r)).1 =
               got r ++ if ended (at_ r) then [] else (ReadFrames (inp r)).1;
  ri_current : ∀ f, current r = Some f → ∃ pre, got r = pre ++ [f];
  ri_targets : ∀ f rest t, at_ r = Fanning f rest → t ∈ rest →
                 t ≠ s ∧ ∃ ses', heap st !! t = Some ses' ∧ Room ses' = Room ses;
  ri_order : ∀ t, frames_between s t (log st) `sublist_of` settled r t;
  ri_stream : ∃ w lim res, frames_to s (log st) = w ++ queue (Out ses) ∧
                WriteFrames (mkWriter "" lim) w = (res, out r) ∧
                (writer_done r = false → res = Ok ());
}.

Record sys_inv (st : Sys) : Prop := {
  si_dom : ∀ s, is_Some (relays st !! s) ↔ is_Some (heap st !! s);
  si_relay : ∀ s r ses, relays st !! s = Some r → heap st !! s = Some ses → relay_inv st s r ses;
  si_rooms : ∀ room x, x ∈ default ∅ (rooms (brk st) !! room) →
               ∃ ses, heap st !! x = Some ses ∧ Room ses = room;
  si_log : ∀ d, d ∈ log st → d_from d ≠ d_to d ∧
             ∃ a b, heap st !! d_from d = Some a ∧ heap st !! d_to d = Some b ∧ Room a = Room b;
  si_noempty : no_empty_room (brk st);
}.

(** Sessions keep their room and identity. *)
Definition heap_ext (h h' : gmap sid Session) : Prop :=
  ∀ t a, h !! t = Some a → ∃ a', h' !! t = Some a' ∧ Room a' = Room a ∧ FP a' = FP a.

Lemma heap_ext_refl h : heap_ext h h.
Proof. intros t a H. eauto. Qed.

Lemma heap_ext_insert h t a c : h !! t = Some a → heap_ext h (<[t := set_Out a c]> h).
Proof.
  intros Ht x b Hx. rewrite lookup_insert. case_decide as Hd; [|by eauto].
  subst x. rewrite Ht in Hx. injection Hx as <-. by eexists.
Qed.

Lemma heap_ext_fresh h t a : h !! t = None → heap_ext h (<[t := a]> h).
Proof. intros Ht x b Hx. rewrite lookup_insert_ne by congruence. eauto. Qed.

#[local] Hint Resolve heap_ext_refl heap_ext_insert heap_ext_fresh : handoff.

(** A step that does not touch a session keeps what holds of it. *)
Lemma relay_inv_frame st st' s r ses :
  relay_inv st s r ses → allowed st' = allowed st → heap_ext (heap st) (heap st') →
  (s ∈ default ∅ (rooms (brk st') !! Room ses) ↔ s ∈ default ∅ (rooms (brk st) !! Room ses)) →
  (∀ t, frames_between s t (log st') = frames_between s t (log st)) →
  frames_to s (log st') = frames_to s (log st) →
  relay_inv st' s r ses.
Proof.
  intros [] Ha Hh Hm Hb Ht. split; try done.
  - by rewrite Hm.
  - by rewrite Ha.
  - intros f rest t E Hin. destruct (ri_targets0 f rest t E Hin) as (Hne & a & Hs & Hr).
    split; [done|]. destruct (Hh _ _ Hs) as (a' & ? & ? & _). exists a'. split; [done|congruence].
  - intros t. by rewrite Hb.
  - by rewrite Ht.
Qed.

Lemma si_log_frame st h :
  sys_inv st → heap_ext (heap st) h →
  ∀ d, d ∈ log st → d_from d ≠ d_to d ∧
    ∃ a b, h !! d_from d = Some a ∧ h !! d_to d = Some b ∧ Room a = Room b.
Proof.
  intros HI Hh d Hd. destruct (si_log _ HI d Hd) as (Hne & a & b & Ha & Hb & Hr).
  split; [done|]. destruct (Hh _ _ Ha) as (a' & ? & ? & _), (Hh _ _ Hb) as (b' & ? & ? & _).
  exists a', b'. split_and!; congruence.
Qed.

Lemma si_rooms_frame st h :
  sys_inv st → heap_ext (heap st) h →
  ∀ room x, x ∈ default ∅ (rooms (brk st) !! room) → ∃ ses, h !! x = Some ses ∧ Room ses = room.
Proof.
  intros HI Hh room x (a & Ha & Hr)%(si_rooms _ HI).
  destruct (Hh _ _ Ha) as (a' & ? & ? & _). exists a'. split; congruence.
Qed.

(** A step of one session that leaves the broker and the log alone. *)
Lemma sys_inv_local st s r ses r' c :
  sys_inv st → relays st !! s = Some r → heap st !! s = Some ses →
  let st' := mkSys (allowed st) (brk st) (<[s := set_Out ses c]> (heap st))
               (<[s := r']> (relays st)) (log st) (crashed st) in
  relay_inv st' s r' (set_Out ses c) → sys_inv st'.
Proof.
  intros HI Hr Hs st' Hinv.
  assert (heap_ext (heap st) (heap st')) as Hh by by apply heap_ext_insert.
  split.
  - intros x. simpl. rewrite !lookup_insert. case_decide; [by split|]. apply HI.
  - intros x rx sx. simpl. rewrite !lookup_insert. case_decide as Hd.
    + subst x. by intros [= <-] [= <-].
    + intros Hrx Hsx. eapply relay_inv_frame; [by eapply si_relay|done..].
  - by apply (si_rooms_frame st).
  - by apply (si_log_frame st).
  - apply HI.
Qed.

(** The same when the session object does not change either. *)
Lemma sys_inv_relay st s r ses r' :
  sys_inv st → relays st !! s = Some r → heap st !! s = Some ses →
  relay_inv (set_relay st s r') s r' ses → sys_inv (set_relay st s r').
Proof.
  intros HI Hr Hs Hinv.
  assert (set_relay st s r' = mkSys (allowed st) (brk st) (<[s := set_Out ses (Out ses)]> (heap st))
               (<[s := r']> (relays st)) (log st) (crashed st)) as ->.
  { unfold set_relay. f_equal. destruct ses. simpl. by rewrite insert_id. }
  eapply sys_inv_local; eauto. destruct ses. unfold set_Out. simpl in *.
  rewrite insert_id by done. exact Hinv.
Qed.

Lemma init_inv al : sys_inv (init al).
Proof.
  split; simpl.
  - intros s. rewrite !lookup_empty. by split.
  - intros s r ses. by rewrite lookup_empty.
  - intros room x. rewrite lookup_empty. simpl. set_solver.
  - intros d Hd. by apply elem_of_nil in Hd.
  - intros r set. simpl. by rewrite lookup_empty.
Qed.

Lemma publicKeyAuth_self al fp fp' : publicKeyAuth al fp = Some fp' → fp' = fp.
Proof. unfold publicKeyAuth. destruct (_ && _); [done|]. by intros [= ->]. Qed.

Lemma frames_to_absent st s :
  sys_inv st → heap st !! s = None →
  frames_to s (log st) = [] ∧ ∀ t, frames_between s t (log st) = [].
Proof.
  intros HI Hs.
  assert (∀ d, d ∈ log st → d_from d ≠ s ∧ d_to d ≠ s) as H.
  { intros d Hd. destruct (si_log _ HI d Hd) as (_ & a & b & Ha & Hb & _).
    split; intros E; rewrite E in *; congruence. }
  unfold frames_to, frames_between. split; [|intros t];
    (rewrite filter_none; [done|]); intros d Hd; apply H in Hd; naive_solver.
Qed.

Lemma join_inv st s fp cmd input lim st' :
  sys_inv st → join st s fp cmd input lim = Some st' → sys_inv st'.
Proof.
  intros HI. unfold join. destruct (publicKeyAuth (allowed st) fp) as [fp'|] eqn:Ha; [|done].
  destruct (heap st !! s) eqn:Hs; [done|]. intros [= <-].
  pose proof (publicKeyAuth_self _ _ _ Ha). subst fp'.
  set (ses := mkSession (relay_room cmd) fp (make_chan OutCap)).
  assert (heap_ext (heap st) (<[s := ses]> (heap st))) as Hh by by apply heap_ext_fresh.
  destruct (frames_to_absent st s HI Hs) as [Hto Hbt].
  split; cbn [allowed brk heap relays log crashed].
  - intros x. rewrite !lookup_insert. case_decide; [by split|]. apply HI.
  - intros x rx sx. rewrite !lookup_insert. case_decide as Hd.
    + subst x. intros [= <-] [= <-]. split; cbn [allowed brk heap relays log at_ got inp inp0 out
        writer_done Out Room FP ses make_chan queue chan_cap closed].
      * split; [done|]. simpl. lia.
      * done.
      * rewrite Register_room. split; [done|]. intros _. by left.
      * done.
      * done.
      * done.
      * done.
      * intros t. by rewrite Hbt.
      * exists [], lim, (Ok ()). by rewrite Hto.
    + intros Hrx Hsx. eapply relay_inv_frame; [by eapply si_relay|try done..].
      cbn [brk]. rewrite Register_room. naive_solver.
  - intros room x. rewrite Register_room. intros [[-> ->]|(a & Hx & Hr)%(si_rooms _ HI)].
    + exists ses. by rewrite lookup_insert_eq.
    + exists a. by rewrite lookup_insert_ne by congruence.
  - by apply (si_log_frame st).
  - apply Register_no_empty, HI.
Qed.

Lemma set_Out_id ses : set_Out ses (Out ses) = ses.
Proof. by destruct ses. Qed.

Lemma read_inv st s r ses :
  sys_inv st → relays st !! s = Some r → heap st !! s = Some ses → at_ r = Reading →
  sys_inv (read st s r ses).
Proof.
  intros HI Hr Hs Hat. pose proof (si_relay _ HI _ _ _ Hr Hs) as Hinv.
  pose proof (ri_reads _ _ _ _ Hinv) as Hrd.
  pose proof (ri_order _ _ _ _ Hinv) as Hord. pose proof (ri_closed _ _ _ _ Hinv) as Hcl.
  unfold settled in Hord. rewrite Hat in *. cbn [ended] in Hrd.
  unfold read. destruct (ReadFrame (inp r)) as [[frame|e] inp'] eqn:E.
  - eapply sys_inv_relay; [done..|]. destruct Hinv. split; try done; cbn [at_ got inp inp0].
    + by rewrite ri_member0, Hat.
    + rewrite Hrd, (ReadFrames_next _ _ _ E), <- app_assoc. done.
    + intros f [= ->]. by eexists.
    + intros t. unfold settled. cbn [at_ got]. rewrite removelast_last. apply Hord.
  - eapply sys_inv_local; [done..|]. destruct Hinv. split; try done; cbn [at_ got inp inp0].
    + by rewrite ri_member0, Hat.
    + by rewrite Hrd, (ReadFrames_end _ _ _ E).
Qed.

Lemma snapshot_inv st s r ses frame :
  sys_inv st → relays st !! s = Some r → heap st !! s = Some ses → at_ r = Got frame →
  sys_inv (set_relay st s (set_at r (Fanning frame (targets (brk st) (Room ses) s)))).
Proof.
  intros HI Hr Hs Hat. pose proof (si_relay _ HI _ _ _ Hr Hs) as [].
  rewrite Hat in *. unfold current, settled in *. rewrite Hat in *.
  eapply sys_inv_relay; [done..|]. split; try done; cbn [at_ set_at got].
  - by rewrite ri_member0.
  - intros f rest t [= <- <-]. rewrite targets_elem. intros [(a & Ha & Hra)%(si_rooms _ HI) Hne].
    split; [done|]. by exists a.
  - intros t. unfold settled. cbn [at_ set_at got]. destruct (decide _); [done|].
    etrans; [apply ri_order0|]. destruct (ri_current0 frame eq_refl) as [pre ->].
    rewrite removelast_last. by apply sublist_inserts_r.
Qed.

Lemma delivered_inv st s r ses frame :
  sys_inv st → relays st !! s = Some r → heap st !! s = Some ses → at_ r = Fanning frame ∅ →
  sys_inv (set_relay st s (set_at r Reading)).
Proof.
  intros HI Hr Hs Hat. pose proof (si_relay _ HI _ _ _ Hr Hs) as [].
  rewrite Hat in *. unfold settled in *. rewrite Hat in *.
  eapply sys_inv_relay; [done..|]. split; try done; cbn [at_ set_at got].
  by rewrite ri_member0.
Qed.

Lemma write_inv st s r ses st' :
  sys_inv st → relays st !! s = Some r → heap st !! s = Some ses → writer_done r = false →
  write st s r ses = Some st' → sys_inv st'.
Proof.
  intros HI Hr Hs Hwd. pose proof (si_relay _ HI _ _ _ Hr Hs) as [].
  destruct ri_stream0 as (w & lim & res & Hto & Hw & Hok).
  unfold write. destruct (queue (Out ses)) as [|frame q] eqn:Eq.
  - destruct (closed (Out ses)) eqn:Ec; [|done]. intros [= <-].
    eapply sys_inv_relay; [done..|]. split; try done; cbn [out at_ writer_done].
    + by rewrite Eq.
    + by rewrite Ec.
    + exists w, lim, res. by rewrite Eq.
  - destruct (WriteFrame (out r) frame) as [res' out'] eqn:Ew. intros [= <-].
    eapply sys_inv_local; [done..|]. split; try done; cbn [out at_ writer_done].
    + destruct ri_cap0 as [Hc Hq]. simpl in Hq |- *. split; [done|]. lia.
    + intros f rest t E Hin. destruct (ri_targets0 f rest t E Hin) as (Hne & a & Ha & Hra).
      split; [done|]. exists a. simpl. by rewrite lookup_insert_ne by congruence.
    + exists (w ++ [frame]), lim, res'. cbn [queue Out set_Out]. rewrite <- app_assoc. split_and!.
      * done.
      * rewrite WriteFrames_app, Hw, (Hok Hwd). cbn [WriteFrames]. rewrite Ew. by destruct res' as [[]|].
      * by destruct res' as [[]|].
Qed.

(** The queue a delivery leaves: unchanged, or longer by the frame. *)
Lemma deliver_cases h t frame n h' :
  deliver h t frame = Some (n, h') →
  (h' = h ∧ n = 0%Z) ∨
  ∃ ses, h !! t = Some ses ∧ n = 1%Z ∧ h' = <[t := push ses frame]> h ∧ closed (Out ses) = false ∧
         (length (queue (Out ses)) < chan_cap (Out ses))%nat.
Proof.
  unfold deliver. destruct (h !! t) as [ses|] eqn:E; [|intros [= <- <-]; by left].
  unfold try_send. destruct (closed (Out ses)) eqn:Ec; [done|].
  destruct (Nat.ltb_spec (length (queue (Out ses))) (chan_cap (Out ses))); intros [= <- <-].
  - right. by exists ses.
  - by left.
Qed.

(** The target of a delivery that is not made loses its turn. *)
Lemma skip_inv st s r ses frame rest t :
  sys_inv st → relays st !! s = Some r → heap st !! s = Some ses → at_ r = Fanning frame rest →
  sys_inv (set_relay st s (set_at r (Fanning frame (rest ∖ {[t]})))).
Proof.
  intros HI Hr Hs Hat. pose proof (si_relay _ HI _ _ _ Hr Hs) as [].
  rewrite Hat in *. unfold current, settled in *. rewrite Hat in *.
  eapply sys_inv_relay; [done..|]. split; try done; cbn [at_ set_at got].
  - by rewrite ri_member0.
  - intros f rest' t' [= <- <-] Hin. eapply ri_targets0; [done|]. set_solver.
  - intros t'. unfold settled. cbn [at_ set_at got].
    destruct (decide (t' ∈ rest ∖ {[t]})) as [Hd|Hd].
    + specialize (ri_order0 t'). by rewrite decide_True in ri_order0 by set_solver.
    + etrans; [apply ri_order0|]. case_decide; [|done].
      destruct (ri_current0 frame eq_refl) as [pre ->]. rewrite removelast_last.
      by apply sublist_inserts_r.
Qed.

Lemma set_at_set_at r p q : set_at (set_at r p) q = set_at r q.
Proof. done. Qed.

(** A delivery that is made, once the target has had its turn. *)
Definition pushed (st : Sys) (s t : sid) (r : relay) (st_t : Session) (frame : string) (rest : gset sid)
    : Sys :=
  mkSys (allowed st) (brk st) (<[t := push st_t frame]> (heap st))
    (<[s := set_at r (Fanning frame (rest ∖ {[t]}))]> (relays st))
    (log st ++ [mkDelivery s t frame]) (crashed st).

Lemma push_heap_ext st s t r st_t frame rest :
  heap st !! t = Some st_t → heap_ext (heap st) (heap (pushed st s t r st_t frame rest)).
Proof. intros Ht. by apply heap_ext_insert. Qed.

(** What holds of the session it is made to. *)
Lemma push_target st s t r rt st_t frame rest :
  sys_inv st → s ≠ t → relays st !! t = Some rt → heap st !! t = Some st_t →
  closed (Out st_t) = false → (length (queue (Out st_t)) < chan_cap (Out st_t))%nat →
  relay_inv (pushed st s t r st_t frame rest) t rt (push st_t frame).
Proof.
  intros HI Hne Hrt Ht Hcl Hlen. destruct (si_relay _ HI _ _ _ Hrt Ht).
  destruct ri_stream0 as (w & lim & res & Hto & Hw).
  split; try done; cbn [push set_Out Out queue chan_cap closed Room FP].
  - rewrite length_app. simpl. destruct ri_cap0. split; [done|]. lia.
  - by rewrite <- ri_closed0.
  - intros f rest' y E Hy. destruct (ri_targets0 f rest' y E Hy) as (? & a & Ha & Hra).
    split; [done|]. exists a. cbn [heap pushed]. by rewrite lookup_insert_ne by congruence.
  - intros y. cbn [log pushed]. rewrite frames_between_snoc. cbn [d_from d_to].
    rewrite decide_False by naive_solver. by rewrite app_nil_r.
  - exists w, lim, res. cbn [log pushed]. rewrite frames_to_snoc. cbn [d_to d_frame].
    rewrite decide_True by done. by rewrite Hto, app_assoc.
Qed.

(** What holds of every other session, the sender among them. *)
Lemma push_others st s r ses frame rest t st_t x rx sx :
  sys_inv st → relays st !! s = Some r → heap st !! s = Some ses → at_ r = Fanning frame rest →
  t ∈ rest → heap st !! t = Some st_t → x ≠ t → heap st !! x = Some sx →
  relays (pushed st s t r st_t frame rest) !! x = Some rx →
  relay_inv (pushed st s t r st_t frame rest) x rx sx.
Proof.
  intros HI Hr Hs Hat Hin Ht Hxt Hsx Hrx. cbn [relays pushed] in Hrx.
  pose proof (si_relay _ HI _ _ _ Hr Hs) as HIs.
  pose proof (push_heap_ext st s t r st_t frame rest Ht) as Hh.
  assert (relay_inv (set_relay st s (set_at r (Fanning frame (rest ∖ {[t]})))) x rx sx) as HIx
    by by apply (skip_inv st s r ses frame rest t HI Hr Hs Hat).
  destruct HIx. split; try done; cbn [allowed brk heap relays log set_relay pushed] in *.
  - intros f rest' y E Hy. destruct (ri_targets0 f rest' y E Hy) as (? & a & Ha & Hra).
    split; [done|]. destruct (Hh _ _ Ha) as (a' & ? & ? & _). exists a'. split; [done|congruence].
  - intros y. rewrite frames_between_snoc. cbn [d_from d_to d_frame].
    case_decide as Hd; [|by rewrite app_nil_r]. destruct Hd as [<- <-].
    rewrite lookup_insert_eq in Hrx. injection Hrx as <-.
    pose proof (ri_order _ _ _ _ HIs t) as Ho. unfold settled in Ho |- *.
    rewrite Hat in Ho. rewrite decide_True in Ho by done. cbn [at_ set_at got].
    rewrite decide_False by set_solver.
    destruct (ri_current0 frame eq_refl) as [pre Hpre]. cbn [got set_at] in Hpre.
    rewrite Hpre in Ho |- *. rewrite removelast_last in Ho. by apply sublist_app.
  - rewrite frames_to_snoc. cbn [d_to]. rewrite decide_False by congruence. by rewrite app_nil_r.
Qed.

Lemma push_inv st s r ses frame rest t st_t :
  sys_inv st → relays st !! s = Some r → heap st !! s = Some ses → at_ r = Fanning frame rest →
  t ∈ rest → heap st !! t = Some st_t → closed (Out st_t) = false →
  (length (queue (Out st_t)) < chan_cap (Out st_t))%nat →
  sys_inv (pushed st s t r st_t frame rest).
Proof.
  intros HI Hr Hs Hat Hin Ht Hcl Hlen.
  destruct (ri_targets _ _ _ _ (si_relay _ HI _ _ _ Hr Hs) _ _ _ Hat Hin) as (Hne & ses' & Ht' & Hroom).
  rewrite Ht in Ht'. injection Ht' as <-.
  pose proof (push_heap_ext st s t r st_t frame rest Ht) as Hh.
  split.
  - intros x. cbn [relays heap pushed]. rewrite !lookup_insert. pose proof (si_dom _ HI x) as Hd.
    repeat case_decide; subst; rewrite ?Hr, ?Hs, ?Ht in Hd; destruct Hd; split; eauto.
  - intros x rx sx Hrx Hsx. cbn [heap pushed] in Hsx. destruct (decide (x = t)) as [->|Hxt].
    + rewrite lookup_insert_eq in Hsx. injection Hsx as <-. cbn [relays pushed] in Hrx.
      rewrite lookup_insert_ne in Hrx by congruence. by apply push_target.
    + rewrite lookup_insert_ne in Hsx by congruence. by eapply push_others.
  - by apply (si_rooms_frame st).
  - intros d [Hd|Hd%list_elem_of_singleton]%elem_of_app; [by apply (si_log_frame st)|].
    subst d. cbn [d_from d_to heap pushed]. split; [done|]. exists ses, (push st_t frame).
    rewrite lookup_insert_ne by congruence. by rewrite lookup_insert_eq.
  - apply HI.
Qed.

Lemma crash_inv st : sys_inv st →
  sys_inv (mkSys (allowed st) (brk st) (heap st) (relays st) (log st) true).
Proof.
  intros []. split; try done. intros s r ses Hr Hs. destruct (si_relay0 s r ses Hr Hs). by split.
Qed.

Lemma deliver_one_inv st s r ses frame rest t :
  sys_inv st → relays st !! s = Some r → heap st !! s = Some ses → at_ r = Fanning frame rest →
  t ∈ rest → sys_inv (deliver_one st s r frame rest t).
Proof.
  intros HI Hr Hs Hat Hin. unfold deliver_one.
  destruct (deliver (heap st) t frame) as [[n h']|] eqn:E; [|by apply crash_inv].
  apply deliver_cases in E as [[-> ->]|(st_t & Ht & -> & -> & Hc & Hl)]; cbn.
  - by eapply skip_inv.
  - by eapply push_inv.
Qed.

Lemma leave_inv st s r ses :
  sys_inv st → relays st !! s = Some r → heap st !! s = Some ses → at_ r = Draining →
  sys_inv (mkSys (allowed st) (Unregister (brk st) s (Room ses)) (heap st)
             (<[s := set_at r Left]> (relays st)) (log st) (crashed st)).
Proof.
  intros HI Hr Hs Hat. split; cbn [allowed brk heap relays log crashed].
  - intros x. rewrite !lookup_insert. case_decide; [subst; split; eauto|]. apply HI.
  - intros x rx sx. rewrite lookup_insert. case_decide as Hd.
    + subst x. intros [= <-] Hs'. rewrite Hs in Hs'. injection Hs' as <-.
      destruct (si_relay _ HI _ _ _ Hr Hs). unfold settled in *. rewrite Hat in *.
      split; try done; cbn [allowed brk heap relays log crashed at_ set_at].
      * rewrite Unregister_room. naive_solver.
    + intros Hrx Hsx. eapply relay_inv_frame; [by eapply si_relay|try done..].
      { apply heap_ext_refl. }
      cbn [brk]. rewrite Unregister_room. naive_solver.
  - intros room x. rewrite Unregister_room. intros [Hx _]. by apply (si_rooms _ HI).
  - apply HI.
  - apply Unregister_no_empty, HI.
Qed.

Lemma step_fn_inv st l st' : sys_inv st → step_fn st l = Some st' → sys_inv st'.
Proof.
  intros HI. unfold step_fn. destruct (crashed st) eqn:Hcr; [done|].
  destruct l as [s fp cmd input lim|s|s|s t|s|s|s].
  { by apply join_inv. }
  all: destruct (relays st !! s) as [r|] eqn:Hr; [|done].
  all: assert (is_Some (heap st !! s)) as [ses Hs] by (apply (si_dom _ HI); eauto).
  all: rewrite ?Hs.
  - destruct (at_ r) eqn:Hat; try done. intros [= <-]. by apply read_inv.
  - destruct (at_ r) eqn:Hat; try done. intros [= <-]. by eapply snapshot_inv.
  - destruct (at_ r) eqn:Hat; try done. case_decide; [|done]. intros [= <-].
    by eapply deliver_one_inv.
  - destruct (at_ r) eqn:Hat; try done. case_decide; [|done]. intros [= <-]. subst.
    by eapply delivered_inv.
  - destruct (writer_done r) eqn:Hw; [done|]. by eapply write_inv.
  - destruct (at_ r) eqn:Hat; try done. destruct (writer_done r); [|done].
    intros [= <-]. rewrite <- Hcr. by apply leave_inv.
Qed.

Lemma run_inv st ls st' : sys_inv st → run st ls = Some st' → sys_inv st'.
Proof.
  revert st. induction ls as [|l ls IH]; intros st HI; simpl; [by intros [= <-]|].
  destruct (step_fn st l) eqn:E; [|done]. apply IH. by eapply step_fn_inv.
Qed.

Lemma reaches_inv al st : reaches (init al) st → sys_inv st.
Proof. intros [ls H]. eapply run_inv; [apply init_inv|done]. Qed.

Lemma run_app st ls1 ls2 :
  run st (ls1 ++ ls2) = match run st ls1 with Some st' => run st' ls2 | None => None end.
Proof.
  revert st. induction ls1 as [|l ls1 IH]; intros st; simpl; [done|].
  destruct (step_fn st l); [apply IH|done].
Qed.

Lemma ReadFrames_fit r : Forall fits (ReadFrames r).1.
Proof.
  unfold ReadFrames. generalize (S (String.length (r_buf r))). intros n. revert r.
  induction n as [|n IH]; intros r; [constructor|]. cbn [read_frames].
  destruct (ReadFrame r) as [[p|e] r'] eqn:E; [|constructor].
  apply ReadFrame_ok in E as [Hp _]. specialize (IH r'). destruct (read_frames n r').
  by constructor.
Qed.

Lemma inv_lookup st s ses :
  sys_inv st → heap st !! s = Some ses → ∃ r, relays st !! s = Some r ∧ relay_inv st s r ses.
Proof.
  intros HI Hs. assert (is_Some (relays st !! s)) as [r Hr] by (apply (si_dom _ HI); eauto).
  exists r. split; [done|]. by eapply si_relay.
Qed.

(** What one session was handed of another's frames is a sub-sequence of what that one sent. *)
Lemma frames_between_sent st s t r ses :
  sys_inv st → relays st !! s = Some r → heap st !! s = Some ses →
  frames_between s t (log st) `sublist_of` (ReadFrames (inp0 r)).1.
Proof.
  intros HI Hr Hs. destruct (si_relay _ HI _ _ _ Hr Hs).
  etrans; [apply ri_order0|]. etrans; [apply settled_got|].
  rewrite ri_reads0. by apply sublist_inserts_r.
Qed.

Lemma frames_to_fit st t : sys_inv st → Forall fits (frames_to t (log st)).
Proof.
  intros HI. apply Forall_forall. intros f Hf. unfold frames_to in Hf.
  apply list_elem_of_fmap in Hf as (d & -> & Hd). apply list_elem_of_filter in Hd as [_ Hd].
  destruct (si_log _ HI _ Hd) as (_ & a & b & Ha & _ & _).
  destruct (inv_lookup _ _ _ HI Ha) as (r & Hr & _).
  pose proof (frames_between_sent st (d_from d) (d_to d) r a HI Hr Ha) as Hsub.
  pose proof (ReadFrames_fit (inp0 r)) as HF. rewrite Forall_forall in HF. apply HF.
  eapply sublist_subseteq; [exact Hsub|]. unfold frames_between.
  apply list_elem_of_fmap. exists d. split; [done|]. by apply list_elem_of_filter.
Qed.

(** Why a process can panic: only a send to a session whose reader loop has ended. *)
Lemma step_crash st l st' :
  sys_inv st → crashed st = false → step_fn st l = Some st' → crashed st' = true →
  ∃ s t r, l = LDeliver s t ∧ relays st !! t = Some r ∧ ended (at_ r) = true.
Proof.
  intros HI Hc. unfold step_fn. rewrite Hc. intros Hst Hcr.
  destruct l as [s fp cmd input lim|s|s|s t|s|s|s]; repeat split_match; simplify_eq; simpl in *.
  all: try congruence.
  - unfold join in Hst. repeat split_match; simplify_eq. simpl in *. congruence.
  - unfold read in Hcr. repeat split_match; simpl in *; congruence.
  - unfold deliver_one in Hcr.
    match goal with H : context [deliver ?h ?x ?f] |- _ => destruct (deliver h x f) as [[n h']|] eqn:E end;
      simpl in Hcr; [congruence|].
    unfold deliver in E. destruct (heap st !! t) as [ses|] eqn:Ht; [|done].
    destruct (inv_lookup _ _ _ HI Ht) as (rt & Hrt & Hinv). exists s, t, rt.
    split_and!; [done|done|]. rewrite <- (ri_closed _ _ _ _ Hinv).
    unfold try_send in E. destruct (closed (Out ses)); [done|]. by destruct (_ <? _)%nat.
  - unfold write in Hst. repeat split_match; simplify_eq; simpl in *; congruence.
Qed.

(** A session that stopped reading drains its queue and its writer ends. *)
Lemma drain q st s r ses :
  crashed st = false → relays st !! s = Some r → heap st !! s = Some ses →
  at_ r = Draining → closed (Out ses) = true → queue (Out ses) = q →
  ∃ k st' r' ses', (k <= S (length q))%nat ∧ run st (replicate k (LWrite s)) = Some st' ∧
    crashed st' = false ∧ relays st' !! s = Some r' ∧ heap st' !! s = Some ses' ∧
    brk st' = brk st ∧ at_ r' = Draining ∧ writer_done r' = true ∧ Room ses' = Room ses ∧
    (writer_done r = false → Forall fits q → w_left (out r) = None →
       w_buf (out r') = w_buf (out r) +:+ frames_bytes q).
Proof.
  revert st r ses. induction q as [|f q IH]; intros st r ses Hc Hr Hs Hat Hcl Hq.
  all: destruct (writer_done r) eqn:Hw;
    [exists 0%nat, st, r, ses; split_and!; (lia || done)|].
  - exists 1%nat. unfold run, replicate, step_fn. rewrite Hc, Hr, Hs, Hw. unfold write.
    rewrite Hq, Hcl. eexists _, _, ses. split_and!; [done|done|done|apply lookup_insert_eq|done..|].
    intros _ _ _. cbn [out frames_bytes]. by rewrite str_app_nil_r.
  - assert (∃ st1 r1 ses1, step_fn st (LWrite s) = Some st1 ∧ crashed st1 = false ∧
      relays st1 !! s = Some r1 ∧ heap st1 !! s = Some ses1 ∧ at_ r1 = Draining ∧
      closed (Out ses1) = true ∧ queue (Out ses1) = q ∧ brk st1 = brk st ∧ Room ses1 = Room ses ∧
      (fits f → w_left (out r) = None → writer_done r1 = false ∧ w_left (out r1) = None ∧
         w_buf (out r1) = w_buf (out r) +:+ frame_bytes f))
      as (st1 & r1 & ses1 & Hst & Hc1 & Hr1 & Hs1 & Hat1 & Hcl1 & Hq1 & Hb & Hro & Hok).
    { unfold step_fn. rewrite Hc, Hr, Hs, Hw. unfold write. rewrite Hq, Hcl.
      destruct (WriteFrame (out r) f) as [res out'] eqn:Ew. eexists _, _, _.
      split_and!; [done|done|apply lookup_insert_eq|apply lookup_insert_eq|done..|].
      intros Hf Hl. destruct (out r) as [buf lft]. cbn in Hl. subst lft.
      rewrite WriteFrame_unlimited in Ew by done. by injection Ew as <- <-. }
    destruct (IH st1 r1 ses1) as (k & st' & r' & ses' & Hk & Hrun & Hc' & Hr' & Hs' & Hb' & Hat' &
      Hw' & Hro' & Hok'); [done..|].
    exists (S k), st', r', ses'. cbn [replicate run]. rewrite Hst. split_and!; try done.
    + cbn [length]. lia.
    + congruence.
    + congruence.
    + intros _ [Hf HF]%Forall_cons Hl. destruct (Hok Hf Hl) as (H1 & H2 & H3).
      rewrite (Hok' H1 HF H2), H3. cbn [frames_bytes]. by rewrite str_app_assoc.
Qed.

(** What a client decodes is a prefix of the frames queued for its session, wherever its
    connection broke. *)
Lemma client_decodes st t r e :
  sys_inv st → relays st !! t = Some r →
  ∃ k err, ReadFrames (mkReader (w_buf (out r)) e) = (take k (frames_to t (log st)), Some err).
Proof.
  intros HI Hr. assert (is_Some (heap st !! t)) as [ses Hs] by (apply (si_dom _ HI); eauto).
  destruct (ri_stream _ _ _ _ (si_relay _ HI _ _ _ Hr Hs)) as (w & lim & res & Hto & Hw & _).
  pose proof (frames_to_fit st t HI) as HF. rewrite Hto in HF. apply Forall_app in HF as [HF _].
  destruct (WriteFrames_broken _ _ _ _ HF Hw) as (k & tl & Hb & _ & Htl).
  cbn [w_buf String.append] in Hb. rewrite Hb.
  destruct (read_back_torn (take k w) tl e) as [err ->]; [by apply Forall_take|done|].
  exists (Nat.min k (length w)), err. rewrite Hto. f_equal.
  rewrite take_app_le by lia. destruct (decide (k <= length w)%nat).
  - by rewrite Nat.min_l by lia.
  - rewrite Nat.min_r by lia. rewrite !take_ge by lia. done.
Qed.

(** What a client decodes, as deliveries: from other sessions of its room, and of each sender a
    sub-sequence of what it sent. *)
Lemma relay_history al st t r e :
  reaches (init al) st → relays st !! t = Some r →
  ∃ ds err, ReadFrames (mkReader (w_buf (out r)) e) = (map d_frame ds, Some err) ∧
    (∀ d, d ∈ ds → d_to d = t ∧ d_from d ≠ t ∧ is_Some (relays st !! d_from d) ∧
       ∃ a b, heap st !! d_from d = Some a ∧ heap st !! t = Some b ∧ Room a = Room b) ∧
    ∀ s rs, relays st !! s = Some rs →
      map d_frame (filter (λ d, d_from d = s) ds) `sublist_of` (ReadFrames (inp0 rs)).1.
Proof.
  intros HI%reaches_inv Hr. destruct (client_decodes st t r e HI Hr) as (k & err & Hk).
  exists (take k (filter (λ d, d_to d = t) (log st))), err. split_and!.
  - rewrite Hk. unfold frames_to. by rewrite firstn_map.
  - intros d Hd%(sublist_subseteq _ _ (sublist_take _ k)).
    apply list_elem_of_filter in Hd as [<- Hd].
    destruct (si_log _ HI _ Hd) as (Hne & a & b & ?). split_and!; [done..| |by exists a, b].
    apply (si_dom _ HI). destruct_and!. by eexists.
  - intros s rs Hrs. assert (is_Some (heap st !! s)) as [ses Hs] by (apply (si_dom _ HI); eauto).
    etrans; [|by eapply (frames_between_sent st s t)]. unfold frames_between.
    apply sublist_map. rewrite <- list_filter_filter.
    apply sublist_filter, sublist_take.
Qed.

(** ** Example runs *)

Definition lab_join (s : sid) (sent : list string) : label :=
  LJoin s "SHA256:k" ["lab"] (mkReader (frames_bytes sent) EOF) None.

(** Session 1 relays one frame to session 2. *)
Definition demo_labels : list label :=
  [lab_join 1 ["hi"]; lab_join 2 []; LJoin 3 "SHA256:k" ["home"] (mkReader "" EOF) None;
   LRead 1; LSnapshot 1; LDeliver 1 2; LDelivered 1; LRead 1; LWrite 2].

(** Session 2 disconnects between the snapshot of session 1's broadcast and its delivery. *)
Definition panic_labels : list label :=
  [lab_join 1 ["hi"]; lab_join 2 []; LRead 1; LSnapshot 1; LRead 2; LDeliver 1 2].

Definition sys_after (ls : list label) : Sys :=
  match run (init ∅) ls with Some st => st | None => init ∅ end.

Lemma sys_after_reaches ls : is_Some (run (init ∅) ls) → reaches (init ∅) (sys_after ls).
Proof. intros [st H]. exists ls. unfold sys_after. by rewrite H. Qed.

(** C9. End to end through the server, in every reachable state of every interleaving, whatever
    bytes the clients send and wherever a connection breaks: what a client decodes from its
    channel is a list of deliveries to its session, each from another session of the same room,
    and the frames of one sender among them are a sub-sequence of the frames that sender sent,
    so they are intact, in order and never duplicated. *)
Theorem relay_end_to_end al st t r e :
  reaches (init al) st → relays st !! t = Some r →
  ∃ ds err, ReadFrames (mkReader (w_buf (out r)) e) = (map d_frame ds, Some err) ∧
    (∀ d, d ∈ ds → d_to d = t ∧ d_from d ≠ t ∧
       ∃ a b, heap st !! d_from d = Some a ∧ heap st !! t = Some b ∧ Room a = Room b) ∧
    ∀ s rs, relays st !! s = Some rs →
      map d_frame (filter (λ d, d_from d = s) ds) `sublist_of` (ReadFrames (inp0 rs)).1.
Proof.
  intros Hr Ht. destruct (relay_history al st t r e Hr Ht) as (ds & err & Hd & Hfrom & Hsent).
  exists ds, err. split_and!; [done| |done]. intros d Hin.
  by destruct (Hfrom d Hin) as (H1 & H2 & _ & H3).
Qed.

Lemma relay_end_to_end_witness :
  ∃ r, relays (sys_after demo_labels) !! 2 = Some r ∧ w_buf (out r) = frame_bytes "hi" ∧
  ∃ ds err, ReadFrames (mkReader (w_buf (out r)) EOF) = (map d_frame ds, Some err) ∧
    (∀ d, d ∈ ds → d_to d = 2 ∧ d_from d ≠ 2 ∧
       ∃ a b, heap (sys_after demo_labels) !! d_from d = Some a ∧
              heap (sys_after demo_labels) !! 2 = Some b ∧ Room a = Room b) ∧
    ∀ s rs, relays (sys_after demo_labels) !! s = Some rs →
      map d_frame (filter (λ d, d_from d = s) ds) `sublist_of` (ReadFrames (inp0 rs)).1.
Proof.
  eexists. split; [vm_compute; reflexivity|]. split; [vm_compute; reflexivity|].
  apply (relay_end_to_end ∅).
  - apply sys_after_reaches. vm_compute. by eexists.
  - vm_compute. reflexivity.
Defined.

(** C27. In every reachable state the broker's rooms are exactly the sessions that joined and have
    not left, no room is empty, every queue holds at most [OutCap] frames, and every session in
    the room map was let in by [publicKeyAuth] under the fingerprint it carries. *)
Theorem relay_state_ok al st :
  reaches (init al) st →
  no_empty_room (brk st) ∧
  (∀ room s, s ∈ default ∅ (rooms (brk st) !! room) ↔
     ∃ r ses, relays st !! s = Some r ∧ heap st !! s = Some ses ∧ Room ses = room ∧ at_ r ≠ Left) ∧
  ∀ s ses, heap st !! s = Some ses →
    (length (queue (Out ses)) <= OutCap)%nat ∧
    publicKeyAuth (allowed st) (FP ses) = Some (FP ses).
Proof.
  intros HI%reaches_inv. split_and!.
  - apply HI.
  - intros room s. split.
    + intros Hin. destruct (si_rooms _ HI _ _ Hin) as (ses & Hs & <-).
      destruct (inv_lookup _ _ _ HI Hs) as (r & Hr & []). exists r, ses.
      split_and!; [done..|]. by apply ri_member0.
    + intros (r & ses & Hr & Hs & <- & Hat). by apply (ri_member _ _ _ _ (si_relay _ HI _ _ _ Hr Hs)).
  - intros s ses Hs. destruct (inv_lookup _ _ _ HI Hs) as (r & Hr & []).
    split; [apply ri_cap0|done].
Qed.

Lemma relay_state_ok_witness :
  no_empty_room (brk (sys_after demo_labels)) ∧
  RoomCount (brk (sys_after demo_labels)) "lab" = 2%Z.
Proof.
  split; [|vm_compute; reflexivity].
  apply (relay_state_ok ∅). apply sys_after_reaches. vm_compute. by eexists.
Defined.

(** The only way a goroutine panics is a delivery to a session whose reader loop has ended and
    closed its queue; as long as no session of a snapshot disconnects, the relay cannot crash. *)
Theorem relay_crash_only_closed al st l st' :
  reaches (init al) st → crashed st = false → step_fn st l = Some st' → crashed st' = true →
  ∃ s t r, l = LDeliver s t ∧ relays st !! t = Some r ∧ (at_ r = Draining ∨ at_ r = Left).
Proof.
  intros HI%reaches_inv Hc Hst Hcr.
  destruct (step_crash st l st' HI Hc Hst Hcr) as (s & t & r & -> & Hr & He).
  exists s, t, r. split_and!; [done..|]. destruct (at_ r); auto; done.
Qed.

Lemma relay_crash_only_closed_witness :
  ∃ s t r, LDeliver 1 2 = LDeliver s t ∧
    relays (sys_after (take 5 panic_labels)) !! t = Some r ∧ (at_ r = Draining ∨ at_ r = Left).
Proof.
  apply (relay_crash_only_closed ∅ _ _ (sys_after panic_labels)).
  - apply sys_after_reaches. vm_compute. by eexists.
  - vm_compute. reflexivity.
  - vm_compute. reflexivity.
  - vm_compute. reflexivity.
Defined.

(** C40. The relay can panic: a session that disconnects between the snapshot of a broadcast and
    the delivery to it has closed its queue, and the send on the closed channel takes the server
    down. *)
Theorem relay_can_panic : ∃ st, reaches (init ∅) st ∧ crashed st = true.
Proof.
  exists (sys_after panic_labels). split; [|vm_compute; reflexivity].
  apply sys_after_reaches. vm_compute. by eexists.
Qed.

(** C39. A session whose client has gone can always leave on its own: its writer needs at most one
    step more than its queue is long, after which the session is in no room; and if its channel
    accepts them, every queued frame is written before that. *)
Theorem relay_drains_and_leaves al st s r ses :
  reaches (init al) st → crashed st = false →
  relays st !! s = Some r → heap st !! s = Some ses → at_ r = Draining →
  ∃ k st' r', (k <= S (length (queue (Out ses))))%nat ∧
    run st (replicate k (LWrite s) ++ [LLeave s]) = Some st' ∧ crashed st' = false ∧
    relays st' !! s = Some r' ∧ at_ r' = Left ∧
    (∀ room, s ∉ default ∅ (rooms (brk st') !! room)) ∧
    (writer_done r = false → w_left (out r) = None →
       w_buf (out r') = w_buf (out r) +:+ frames_bytes (queue (Out ses))).
Proof.
  intros HI%reaches_inv Hc Hr Hs Hat. pose proof (si_relay _ HI _ _ _ Hr Hs) as Hinv.
  destruct (drain (queue (Out ses)) st s r ses) as (k & st' & r' & ses' & Hk & Hrun & Hc' & Hr' &
    Hs' & Hb & Hat' & Hw' & Hro & Hok); try done.
  { rewrite (ri_closed _ _ _ _ Hinv), Hat. done. }
  set (st2 := mkSys (allowed st') (Unregister (brk st') s (Room ses')) (heap st')
                (<[s := set_at r' Left]> (relays st')) (log st') false).
  assert (step_fn st' (LLeave s) = Some st2) as Hleave.
  { unfold step_fn. by rewrite Hc', Hr', Hs', Hat', Hw'. }
  exists k, st2, (set_at r' Left). split; [done|]. rewrite run_app, Hrun. cbn [run].
  rewrite Hleave. split; [done|]. split; [done|]. split; [apply lookup_insert_eq|].
  split; [done|]. split.
  - intros room. cbn [brk st2]. rewrite Unregister_room. intros [Hin Hn]. rewrite Hb in Hin.
    destruct (si_rooms _ HI _ _ Hin) as (ses0 & Hs0 & Hr0). rewrite Hs in Hs0.
    injection Hs0 as <-. apply Hn. split; [done|congruence].
  - intros Hw Hl. apply Hok; [done| |done].
    destruct (ri_stream _ _ _ _ Hinv) as (w & lim & res & Hto & _).
    pose proof (frames_to_fit st s HI) as HF. rewrite Hto in HF. by apply Forall_app in HF as [_ HF].
Qed.

Lemma relay_drains_and_leaves_witness :
  let st := sys_after (take 8 demo_labels ++ [LRead 2]) in
  ∃ r ses, relays st !! 2 = Some r ∧ heap st !! 2 = Some ses ∧ queue (Out ses) = ["hi"] ∧
  ∃ k st' r', (k <= S (length (queue (Out ses))))%nat ∧
    run st (replicate k (LWrite 2) ++ [LLeave 2]) = Some st' ∧ crashed st' = false ∧
    relays st' !! 2 = Some r' ∧ at_ r' = Left ∧
    (∀ room, 2 ∉ default ∅ (rooms (brk st') !! room)) ∧
    (writer_done r = false → w_left (out r) = None →
       w_buf (out r') = w_buf (out r) +:+ frames_bytes (queue (Out ses))).
Proof.
  intros st. do 2 eexists. split; [vm_compute; reflexivity|]. split; [vm_compute; reflexivity|].
  split; [vm_compute; reflexivity|].
  apply (relay_drains_and_leaves ∅).
  - apply sys_after_reaches. vm_compute. by eexists.
  - vm_compute. reflexivity.
  - vm_compute. reflexivity.
  - vm_compute. reflexivity.
  - reflexivity.
Defined.

(** ** The host key persists *)

(** The host key is stable: a key that is there is used and nothing is written; a key that was
    generated is the one every later start loads, whatever key generation would give it then; and
    no existing file is ever changed. *)
Theorem hostKey_stable fs path gen r fs' :
  hostKeyPEM fs path gen = (r, fs') →
  (∀ b, ReadFile fs path = Ok b → r = Ok b ∧ fs' = fs) ∧
  (∀ b, r = Ok b → ∀ gen', hostKeyPEM fs' path gen' = (Ok b, fs')) ∧
  (∀ q d, nodes fs !! q = Some (File d) → nodes fs' !! q = Some (File d)).
Proof.
  unfold hostKeyPEM. destruct (ReadFile fs path) as [b|e] eqn:E.
  { intros [= <- <-]. split_and!; [naive_solver| |done]. intros b' [= <-] gen'. by rewrite E. }
  destruct (negb (IsNotExist e)) eqn:Ene.
  { intros [= <- <-]. by split_and!. }
  match goal with
  | |- context [if ?c then MkdirAll ?fs ?d else _] =>
      destruct (if c then MkdirAll fs d else (Ok (), fs)) as [mk fs1] eqn:Emk
  end.
  assert (files_kept fs fs1) as Hk1.
  { destruct (_ && _) in Emk; [by eapply MkdirAll_files_kept|]. injection Emk as _ <-. by intros q d. }
  destruct mk as [[]|e']; [|intros [= <- <-]; split_and!; [done|done|exact Hk1]].
  destruct gen as [pem|e']; [|intros [= <- <-]; split_and!; [done|done|exact Hk1]].
  destruct (WriteFile fs1 path pem) as [[[]|e'] fs2] eqn:Ew; intros [= <- <-].
  - split_and!; [done| |].
    + intros b [= <-] gen'. by rewrite (WriteFile_ReadFile _ _ _ _ Ew).
    + intros q d Hq. apply Hk1 in Hq as Hq1.
      apply WriteFile_spec in Ew as (_ & [(e0 & He0 & _)|(_ & Hden & -> & _)]); [by inversion He0|].
      rewrite put_lookup. case_decide as Hqp; [|done]. subst q. exfalso.
      unfold IsNotExist in Ene. apply negb_false_iff, bool_decide_eq_true in Ene.
      unfold ReadFile in E. unfold node_at in E.
      destruct (decide (resolve path ∈ denied fs)); [by injection E as <-|].
      destruct (top (resolve path)); [by injection E as <-|]. by rewrite Hq in E.
  - split_and!; [done|done|].
    apply WriteFile_spec in Ew as (_ & [(e0 & _ & ->)|(He0 & _)]); [exact Hk1|done].
Qed.

Lemma hostKey_stable_witness :
  ∃ fs', hostKeyPEM (mkFS ∅ ∅) "keys/host" (Ok "PEM1") = (Ok "PEM1", fs') ∧
         hostKeyPEM fs' "keys/host" (Ok "PEM2") = (Ok "PEM1", fs').
Proof.
  eexists. split; [vm_compute; reflexivity|].
  apply (hostKey_stable (mkFS ∅ ∅) "keys/host" (Ok "PEM1") (Ok "PEM1")).
  - vm_compute. reflexivity.
  - reflexivity.
Defined.
