(* ===== verification/Config.v ===== *)
(** * config.go: the config directory, the settings and the identity key

    [room-go/internal/config/config.go].  A [Store] is explicit state, beside the file system its
    directory is in.  [encoding/json] (on [Settings]) and the SSH key functions are parameters. *)
From S2P Require Import Prelude GoStr GoPath GoOS Wire.
Open Scope string_scope.
Open Scope list_scope.

Record Settings := mkSettings {
  AutoCopy : string;
  SaveDir : string;
  TextFile : string;
  ClearOnExit : string;
  DeviceName_ : string;
  Room_ : string;
  Server_ : string;
  Internet : string;
  BroadcastOnCopy : string;
}.

#[export] Instance Settings_eq_dec : EqDecision Settings.
Proof. solve_decision. Defined.

(** [json.MarshalIndent] and [json.Unmarshal] into settings that hold defaults. *)
Class Json := {
  json_MarshalIndent : Settings → result string string;
  json_Unmarshal : string → Settings → result string Settings;
}.

(** Every field is written, so reading what was written does not depend on the defaults. *)
Class JsonLaws `{Json} (wf : Settings → Prop) := {
  json_total : ∀ s, wf s → ∃ b, json_MarshalIndent s = Ok b;
  json_roundtrip : ∀ s b cur, wf s → json_MarshalIndent s = Ok b → json_Unmarshal b cur = Ok s;
}.

(** golang.org/x/crypto/ssh, as far as the identity key goes. *)
Class SshKeys := {
  privkey : Type;
  signer : Type;
  ParseRawPrivateKey : string → result string privkey;
  MarshalPrivateKey : privkey → result string string;
  NewSignerFromKey : privkey → result string signer;
  FingerprintSHA256 : signer → string;
  MarshalAuthorizedKey : signer → string;
}.

Class SshKeyLaws `{SshKeys} := {
  parse_marshal : ∀ k b, MarshalPrivateKey k = Ok b → ParseRawPrivateKey b = Ok k;
}.

(** [host]: what [os.Hostname] returns. *)
Definition defaultSettings (host : string) : Settings :=
  let host := if String.eqb host "" then "room-device" else host in
  mkSettings "notify" "" "" "ask" host "default" "" "off" "off".

Record Store := mkStore { StoreDir : string; settings : Settings }.

Definition set_settings (s : Store) (c : Settings) : Store := mkStore (StoreDir s) c.

Definition configPath (s : Store) : string := Join (StoreDir s) "config.json".
Definition keyPath (s : Store) : string := Join (StoreDir s) "id_ed25519".
Definition BlobDir (s : Store) : string := Join (StoreDir s) "blobs".

(** [base]: what [os.UserConfigDir] returns. *)
Definition DefaultDir (base : result string string) : result string string :=
  match base with Ok base => Ok (Join base "room") | Err e => Err e end.

Section config.
Context `{Json}.

Definition save (s : Store) (fs : FS) : result string unit * FS :=
  match json_MarshalIndent (settings s) with
  | Err e => (Err e, fs)
  | Ok b =>
      let tmp := configPath s +:+ ".tmp" in
      match WriteFile fs tmp b with
      | (Err e, fs) => (Err (Error e), fs)
      | (Ok _, fs) =>
          match Rename fs tmp (configPath s) with
          | (Err e, fs) => (Err (Error e), fs)
          | (Ok _, fs) => (Ok (), fs)
          end
      end
  end.

Definition load (host : string) (s : Store) (fs : FS) : result string unit * Store * FS :=
  match ReadFile fs (configPath s) with
  | Err e =>
      if IsNotExist e then let '(r, fs) := save s fs in (r, s, fs)
      else (Err (Error e), s, fs)
  | Ok b =>
      match json_Unmarshal b (defaultSettings host) with
      | Err e => (Err ("parse config.json: " +:+ e), s, fs)
      | Ok cur => (Ok (), set_settings s cur, fs)
      end
  end.

Definition Open (host : string) (base : result string string) (dir : string) (fs : FS)
    : result string Store * FS :=
  match (if String.eqb dir "" then DefaultDir base else Ok dir) with
  | Err e => (Err e, fs)
  | Ok dir =>
      match MkdirAll fs dir with
      | (Err e, fs) => (Err (Error e), fs)
      | (Ok _, fs) =>
          match load host (mkStore dir (defaultSettings host)) fs with
          | (Err e, _, fs) => (Err e, fs)
          | (Ok _, s, fs) => (Ok s, fs)
          end
      end
  end.

Definition Get (s : Store) : Settings := settings s.

(** The switch of [SetKey]: the settings it saves, or its error. *)
Definition set_field (c : Settings) (key value : string) : result string Settings :=
  let '(mkSettings ac sd tf ce dn rm sv it bc) := c in
  if String.eqb key "auto_copy" then
    if decide (value ∈ ["notify"; "on"; "off"])
    then Ok (mkSettings value sd tf ce dn rm sv it bc)
    else Err ("auto_copy must be notify|on|off, got " +:+ Quote value)
  else if String.eqb key "save_dir" then Ok (mkSettings ac value tf ce dn rm sv it bc)
  else if String.eqb key "text_file" then Ok (mkSettings ac sd value ce dn rm sv it bc)
  else if String.eqb key "clear_on_exit" then
    if decide (value ∈ ["ask"; "transient"; "all"; "never"])
    then Ok (mkSettings ac sd tf value dn rm sv it bc)
    else Err ("clear_on_exit must be ask|transient|all|never, got " +:+ Quote value)
  else if String.eqb key "device_name" then Ok (mkSettings ac sd tf ce value rm sv it bc)
  else if String.eqb key "room" then Ok (mkSettings ac sd tf ce dn value sv it bc)
  else if String.eqb key "server" then Ok (mkSettings ac sd tf ce dn rm value it bc)
  else if String.eqb key "internet" then Ok (mkSettings ac sd tf ce dn rm sv value bc)
  else if String.eqb key "broadcast_on_copy" then Ok (mkSettings ac sd tf ce dn rm sv it value)
  else Err ("unknown config key " +:+ Quote key).

(** The settings in memory change before they are saved, and stay changed when that fails. *)
Definition SetKey (s : Store) (fs : FS) (key value : string) : result string unit * Store * FS :=
  match set_field (settings s) key value with
  | Err e => (Err e, s, fs)
  | Ok c =>
      let s := set_settings s c in
      let '(r, fs) := save s fs in (r, s, fs)
  end.

Definition GetKey (s : Store) (key : string) : result string string :=
  let cur := Get s in
  if String.eqb key "auto_copy" then Ok (AutoCopy cur)
  else if String.eqb key "save_dir" then Ok (SaveDir cur)
  else if String.eqb key "text_file" then Ok (TextFile cur)
  else if String.eqb key "clear_on_exit" then Ok (ClearOnExit cur)
  else if String.eqb key "device_name" then Ok (DeviceName_ cur)
  else if String.eqb key "room" then Ok (Room_ cur)
  else if String.eqb key "server" then Ok (Server_ cur)
  else if String.eqb key "internet" then Ok (Internet cur)
  else if String.eqb key "broadcast_on_copy" then Ok (BroadcastOnCopy cur)
  else Err ("unknown config key " +:+ Quote key).

Definition SetServer (s : Store) (fs : FS) (target : string) : result string unit * Store * FS :=
  SetKey s fs "server" target.

Context `{SshKeys}.

(** [gen]: what [ed25519.GenerateKey] returns. *)
Definition Signer (s : Store) (fs : FS) (gen : result string privkey)
    : result string signer * FS :=
  match ReadFile fs (keyPath s) with
  | Ok b =>
      match ParseRawPrivateKey b with
      | Err e => (Err ("parse identity key: " +:+ e), fs)
      | Ok key => (NewSignerFromKey key, fs)
      end
  | Err e =>
      if negb (IsNotExist e) then (Err (Error e), fs)
      else
        match gen with
        | Err e => (Err e, fs)
        | Ok priv =>
            match MarshalPrivateKey priv with
            | Err e => (Err e, fs)
            | Ok pem =>
                match WriteFile fs (keyPath s) pem with
                | (Err e, fs) => (Err (Error e), fs)
                | (Ok _, fs) => (NewSignerFromKey priv, fs)
                end
            end
        end
  end.

Definition Fingerprint (s : Store) (fs : FS) (gen : result string privkey)
    : result string string * FS :=
  match Signer s fs gen with
  | (Err e, fs) => (Err e, fs)
  | (Ok sg, fs) => (Ok (FingerprintSHA256 sg), fs)
  end.

Definition AuthorizedKeyLine (s : Store) (fs : FS) (gen : result string privkey)
    : result string string * FS :=
  match Signer s fs gen with
  | (Err e, fs) => (Err e, fs)
  | (Ok sg, fs) => (Ok (MarshalAuthorizedKey sg), fs)
  end.

End config.

(** ** What [save] leaves on disk *)

Lemma config_path_ok s :
  StoreDir s ≠ "" →
  resolve (configPath s) = ((resolve (StoreDir s)).1, (resolve (StoreDir s)).2 ++ ["config.json"]) ∧
  resolve (configPath s +:+ ".tmp")
    = ((resolve (StoreDir s)).1, (resolve (StoreDir s)).2 ++ ["config.json.tmp"]).
Proof.
  intros Hd. unfold configPath. split; [by apply resolve_Join|].
  by apply (resolve_Join_ext _ "config.json" ".tmp").
Qed.

Lemma config_path_ne s :
  StoreDir s ≠ "" → resolve (configPath s) ≠ resolve (configPath s +:+ ".tmp").
Proof. intros [-> ->]%config_path_ok H. injection H as H. apply app_inv_head in H. done. Qed.

Lemma config_parent_ne s :
  StoreDir s ≠ "" → parent (resolve (configPath s)) ≠ resolve (configPath s +:+ ".tmp").
Proof.
  intros [-> ->]%config_path_ok H. unfold parent in H. cbn [fst snd] in H.
  rewrite removelast_last in H. injection H as H. apply (f_equal length) in H.
  rewrite length_app in H. simpl in H. lia.
Qed.

Lemma Join_ne a b : a ≠ "" → ordinary b → Join a b ≠ "".
Proof.
  intros Ha Hb Hj. pose proof (resolve_Join a b Ha Hb) as Hr. rewrite Hj in Hr.
  injection Hr as _ Hr. symmetry in Hr. by apply app_eq_nil in Hr as [_ [=]].
Qed.

Section config_laws.
Context `{Json}.

(** What the file at the config path holds. *)
Definition on_disk (s : Store) (fs : FS) : result oserr string := ReadFile fs (configPath s).

Lemma save_ok s fs fs' :
  StoreDir s ≠ "" → save s fs = (Ok (), fs') →
  dirs_kept fs fs' ∧ ∃ b, json_MarshalIndent (settings s) = Ok b ∧ on_disk s fs' = Ok b.
Proof.
  intros Hd. unfold save. destruct (json_MarshalIndent (settings s)) as [b|e]; [|by intros [=]].
  destruct (WriteFile fs _ b) as [[[]|e] fs1] eqn:Ew; [|by intros [=]].
  destruct (Rename fs1 _ _) as [[[]|e] fs2] eqn:Er; [|by intros [=]]. intros [= <-].
  split.
  { eapply dirs_kept_trans; [by eapply WriteFile_dirs_kept|by eapply Rename_dirs_kept]. }
  exists b. split; [done|]. by eapply replace_file; [apply config_path_ne| |].
Qed.

(** A failed save leaves the file as it was. *)
Lemma save_err s fs e fs' :
  StoreDir s ≠ "" → save s fs = (Err e, fs') → on_disk s fs' = on_disk s fs ∧ dirs_kept fs fs'.
Proof.
  intros Hd. unfold save. destruct (json_MarshalIndent (settings s)) as [b|e'].
  2:{ intros [= _ <-]. split; [done|apply dirs_kept_refl]. }
  destruct (WriteFile fs _ b) as [[[]|e1] fs1] eqn:Ew.
  2:{ intros [= _ <-]. pose proof (WriteFile_dirs_kept _ _ _ _ _ Ew).
      apply WriteFile_spec in Ew as (_ & [(e2 & _ & ->)|(He & _)]); done. }
  destruct (Rename fs1 _ _) as [[[]|e1] fs2] eqn:Er; [by intros [=]|]. intros [= _ <-].
  apply Rename_spec in Er as [[-> _]|(d & He & _)]; [|by inversion He].
  pose proof (WriteFile_dirs_kept _ _ _ _ _ Ew) as Hk. split; [|done].
  apply WriteFile_spec in Ew as (_ & [(e2 & _ & ->)|(_ & _ & -> & _)]); [done|].
  unfold on_disk, ReadFile. cbn [denied put set_nodes]. case_decide; [done|].
  pose proof (config_path_ne s Hd) as Hne.
  pose proof (config_parent_ne s Hd) as Hne'. unfold missing, node_at.
  by rewrite !put_other by congruence.
Qed.

(** Keys, and the values [SetKey] takes for them. *)
Definition config_keys : list string :=
  ["auto_copy"; "save_dir"; "text_file"; "clear_on_exit"; "device_name"; "room"; "server";
   "internet"; "broadcast_on_copy"].

Definition value_ok (key value : string) : Prop :=
  (key = "auto_copy" → value ∈ ["notify"; "on"; "off"]) ∧
  (key = "clear_on_exit" → value ∈ ["ask"; "transient"; "all"; "never"]).

Definition settings_ok (c : Settings) : Prop :=
  AutoCopy c ∈ ["notify"; "on"; "off"] ∧
  ClearOnExit c ∈ ["ask"; "transient"; "all"; "never"].

#[export] Instance settings_ok_dec c : Decision (settings_ok c).
Proof. unfold settings_ok. apply _. Defined.

Lemma defaultSettings_ok host : settings_ok (defaultSettings host).
Proof. split; simpl; set_solver. Qed.

Definition get_field (c : Settings) (key : string) : result string string :=
  GetKey (mkStore "" c) key.

(** [x] is one of the strings the chain of [String.eqb] tests compares it with, or none. *)
Ltac eqb_chain x :=
  repeat match goal with
  | |- context [String.eqb x ?k] => destruct (String.eqb_spec x k); [subst x|]
  end.

Lemma set_field_ok c key value c' :
  set_field c key value = Ok c' →
  key ∈ config_keys ∧ value_ok key value ∧ get_field c' key = Ok value ∧
  (settings_ok c → settings_ok c') ∧
  ∀ key', key' ≠ key → get_field c' key' = get_field c key'.
Proof.
  destruct c. unfold set_field. eqb_chain key; try (case_decide as Hv; [|done]); intros [= <-].
  all: split; [by apply (bool_decide_unpack _)|].
  all: split; [by split; intros; simplify_eq|]; split; [done|].
  all: split; [by unfold settings_ok; cbn; intros [? ?]; split|].
  all: intros key' Hne; unfold get_field, GetKey; cbn [Get settings]; eqb_chain key'; done.
Qed.

Lemma set_field_err c key value e :
  set_field c key value = Err e → ¬ (key ∈ config_keys ∧ value_ok key value).
Proof.
  destruct c. unfold set_field. intros He [Hk [Hv1 Hv2]].
  unfold config_keys in Hk. revert He. eqb_chain key; try (by intros [=]).
  - rewrite decide_True by auto. done.
  - rewrite decide_True by auto. done.
  - set_solver.
Qed.
End config_laws.

(** ** A concrete codec, for the examples: the fields as frames *)

Definition settings_fields (c : Settings) : list string :=
  [AutoCopy c; SaveDir c; TextFile c; ClearOnExit c; DeviceName_ c; Room_ c; Server_ c;
   Internet c; BroadcastOnCopy c].

Definition settings_fit (c : Settings) : Prop := Forall fits (settings_fields c).

#[export] Instance settings_fit_dec c : Decision (settings_fit c).
Proof. unfold settings_fit. apply _. Defined.

Definition frame_json : Json := {|
  json_MarshalIndent c := Ok (frames_bytes (settings_fields c));
  json_Unmarshal b _ :=
    match (ReadFrames (mkReader b EOF)).1 with
    | [ac; sd; tf; ce; dn; rm; sv; it; bc] => Ok (mkSettings ac sd tf ce dn rm sv it bc)
    | _ => Err "unexpected end of JSON input"
    end |}.

Lemma frame_json_laws : @JsonLaws frame_json settings_fit.
Proof.
  split.
  - intros c _. by eexists.
  - intros c b cur Hc Hb. assert (b = frames_bytes (settings_fields c)) as ->.
    { cbn [json_MarshalIndent frame_json] in Hb. congruence. }
    cbn [json_Unmarshal frame_json].
    destruct (read_back_torn (settings_fields c) "" EOF Hc (or_introl eq_refl)) as [err Hr].
    rewrite str_app_nil_r in Hr. rewrite Hr. by destruct c.
Qed.

Definition string_keys : SshKeys := {|
  privkey := string; signer := string;
  ParseRawPrivateKey b := Ok b; MarshalPrivateKey k := Ok k; NewSignerFromKey k := Ok k;
  FingerprintSHA256 k := "SHA256:" +:+ k; MarshalAuthorizedKey k := "ssh-ed25519 " +:+ k |}.

Definition demo_open : result string Store * FS :=
  @Open frame_json "host" (Err "") "/cfg" (mkFS ∅ ∅).
Definition demo_store : Store :=
  match demo_open.1 with Ok s => s | Err _ => mkStore "" (defaultSettings "") end.
Definition demo_set : result string unit * Store * FS :=
  @SetKey frame_json demo_store demo_open.2 "auto_copy" "on".

Lemma demo_open_eq : demo_open = (Ok demo_store, demo_open.2).
Proof. vm_compute. reflexivity. Qed.

Lemma demo_set_eq : demo_set = (Ok (), demo_set.1.2, demo_set.2).
Proof. vm_compute. reflexivity. Qed.

Lemma demo_set_fit : settings_fit (settings demo_set.1.2).
Proof. apply (bool_decide_unpack _). vm_compute. exact I. Qed.

Lemma demo_store_dir : StoreDir demo_store ≠ "".
Proof. vm_compute. discriminate. Qed.

(** ** Properties *)

(** C36. [SetKey] decides exactly on the key and the value: an unknown key or a value the key does
    not take is an error that changes neither the settings nor the disk; any other call makes
    [GetKey] return the value for the key, leaves every other key as it was and keeps valid
    settings valid, whether or not saving them succeeds; and when saving fails the file on disk
    still holds what it held. *)
Theorem SetKey_spec `{Json} s fs key value r s' fs' :
  StoreDir s ≠ "" → SetKey s fs key value = (r, s', fs') →
  StoreDir s' = StoreDir s ∧
  (¬ (key ∈ config_keys ∧ value_ok key value) → is_ok r = false ∧ s' = s ∧ fs' = fs) ∧
  (key ∈ config_keys ∧ value_ok key value →
     GetKey s' key = Ok value ∧ (∀ k, k ≠ key → GetKey s' k = GetKey s k)) ∧
  (settings_ok (settings s) → settings_ok (settings s')) ∧
  (is_ok r = false → on_disk s fs' = on_disk s fs).
Proof.
  intros Hd. unfold SetKey. destruct (set_field (settings s) key value) as [c|e] eqn:E.
  - destruct (save (set_settings s c) fs) as [r0 fs0] eqn:Es. intros [= <- <- <-].
    apply set_field_ok in E as (Hk & Hv & Hget & Hok & Hother).
    split; [done|]. split; [tauto|]. split; [done|]. split; [done|].
    intros Hr. destruct r0 as [[]|e]; [done|]. by apply (save_err (set_settings s c)) in Es as [? _].
  - apply set_field_err in E. intros [= <- <- <-].
    split; [done|]. split; [done|]. split; [tauto|]. by split.
Qed.

Lemma SetKey_spec_witness :
  StoreDir demo_store ≠ "" ∧ demo_set = (Ok (), demo_set.1.2, demo_set.2) ∧
  GetKey demo_set.1.2 "auto_copy" = Ok "on".
Proof.
  split; [exact demo_store_dir|]. split; [exact demo_set_eq|].
  apply (@SetKey_spec frame_json demo_store demo_open.2 "auto_copy" "on" _ _ _
           demo_store_dir demo_set_eq).
  split; [left|]. split; intros; [right; left|discriminate].
Defined.

(** Persistence: a setting that [SetKey] reports as set is what every later start of the
    program reads, whatever the host's defaults are then. *)
Theorem SetKey_persists `{JsonLaws wf} host base dir fs0 s fs key value s' fs' :
  dir ≠ "" → Open host base dir fs0 = (Ok s, fs) →
  SetKey s fs key value = (Ok (), s', fs') → wf (settings s') →
  ∀ host' base', Open host' base' dir fs' = (Ok s', fs').
Proof.
  intros Hd Ho Hs Hwf host' base'. unfold Open in *.
  destruct (String.eqb_spec dir ""); [done|].
  destruct (MkdirAll fs0 dir) as [[[]|e] fs1] eqn:Em; [|by inversion Ho].
  assert (StoreDir s = dir ∧ dirs_kept fs1 fs) as [Hdir Hk1].
  { revert Ho. unfold load. destruct (ReadFile fs1 _) as [b|e].
    - destruct (json_Unmarshal b _); intros [= <- <-]. split; [done|apply dirs_kept_refl].
    - destruct (IsNotExist e); [|by intros [=]].
      destruct (save _ fs1) as [[[]|e'] fs2] eqn:Es; intros [= <- <-]. split; [done|].
      by apply save_ok in Es as [? _]. }
  revert Hs. unfold SetKey. destruct (set_field (settings s) key value) as [c|e]; [|by intros [=]].
  destruct (save (set_settings s c) fs) as [r fs2] eqn:Es. intros [= -> <- <-].
  cbn [settings set_settings] in Hwf.
  apply save_ok in Es as (Hk2 & b & Hb & Hdisk); [|by cbn [StoreDir set_settings]; congruence].
  cbn [settings set_settings] in Hb.
  rewrite MkdirAll_id.
  2:{ eapply is_path_kept; [by apply (dirs_kept_trans _ fs)|]. by eapply MkdirAll_path. }
  unfold load, on_disk, configPath in *. cbn [StoreDir set_settings] in *. rewrite Hdir in Hdisk.
  rewrite Hdisk, (json_roundtrip c b) by done. by rewrite <- Hdir.
Qed.

Lemma SetKey_persists_witness :
  demo_open = (Ok demo_store, demo_open.2) ∧ demo_set = (Ok (), demo_set.1.2, demo_set.2) ∧
  @Open frame_json "other" (Err "") "/cfg" demo_set.2 = (Ok demo_set.1.2, demo_set.2).
Proof.
  split; [exact demo_open_eq|]. split; [exact demo_set_eq|].
  apply (@SetKey_persists frame_json settings_fit frame_json_laws "host" (Err "") "/cfg" (mkFS ∅ ∅)
           demo_store demo_open.2 "auto_copy" "on").
  - discriminate.
  - exact demo_open_eq.
  - exact demo_set_eq.
  - exact demo_set_fit.
Defined.

(** The device identity persists: the signer a call returns is the one every later call
    returns, whatever key generation would give it then, and an existing key is never replaced. *)
Theorem Signer_stable `{SshKeyLaws} s fs gen sg fs' :
  Signer s fs gen = (Ok sg, fs') →
  (∀ gen', Signer s fs' gen' = (Ok sg, fs')) ∧
  (∀ b, ReadFile fs (keyPath s) = Ok b → fs' = fs).
Proof.
  unfold Signer. destruct (ReadFile fs (keyPath s)) as [b|e] eqn:E.
  - destruct (ParseRawPrivateKey b) as [k|e] eqn:Ep; [|by intros [=]].
    intros [= Hs <-]. rewrite E, Ep. by rewrite Hs.
  - destruct (negb (IsNotExist e)); [by intros [=]|].
    destruct gen as [priv|e1]; [|by intros [=]].
    destruct (MarshalPrivateKey priv) as [pem|e1] eqn:Em; [|by intros [=]].
    destruct (WriteFile fs (keyPath s) pem) as [[[]|e1] fs1] eqn:Ew; [|by intros [=]].
    intros [= Hs <-]. split; [|done]. intros gen'.
    rewrite (WriteFile_ReadFile _ _ _ _ Ew), (parse_marshal _ _ Em). by rewrite Hs.
Qed.

Definition demo_signer : result string string * FS :=
  @Signer string_keys demo_store demo_open.2 (Ok "k1").

Lemma demo_signer_eq : demo_signer = (Ok "k1", demo_signer.2).
Proof. vm_compute. reflexivity. Qed.

Lemma Signer_stable_witness :
  demo_signer = (Ok "k1", demo_signer.2) ∧
  @Signer string_keys demo_store demo_signer.2 (Ok "k2") = (Ok "k1", demo_signer.2).
Proof.
  split; [exact demo_signer_eq|].
  apply (@Signer_stable string_keys) with (fs := demo_open.2) (gen := Ok "k1").
  - split. intros k b [= <-]. reflexivity.
  - exact demo_signer_eq.
Defined.
