(* ===== verification/Ipc.v ===== *)
(** * ipc.go: the contract between the thin clients and the daemon

    [room-go/internal/ipc/ipc.go].  Requests and responses are records; CBOR on them is the class
    parameter of [Wire]; a connection is the pair of a [reader] and a [writer].  Dialling and
    spawning are parameters of [Dial]: what the [i]-th attempt returns and when it is made. *)
From S2P Require Import Prelude GoStr GoPath GoOS Wire Codec.
Open Scope string_scope.
Open Scope list_scope.

Definition IPCVersion : Z := 1.

Record Request := mkRequest {
  rq_IPCVersion : Z;
  rq_Op : string;
  rq_Bytes : string;
  rq_Force : string;
  rq_Filename : string;
  rq_Kind : string;
  rq_Follow : bool;
  rq_MsgID : string;
  rq_All : bool;
  rq_Scope : string;
  rq_Key : string;
  rq_Value : string;
  rq_Target : string;
}.

Definition OpSend := "send".
Definition OpRecv := "recv".
Definition OpPaste := "paste".
Definition OpCopy := "copy".
Definition OpSubscribe := "subscribe".
Definition OpStatus := "status".
Definition OpConfigSet := "config_set".
Definition OpConfigGet := "config_get".
Definition OpJoin := "join".
Definition OpClear := "clear".
Definition OpDaemonStop := "daemon_stop".
Definition OpPing := "ping".

Record Item := mkItem { it_Envelope : Envelope; it_LocalPath : string }.

Record Status := mkStatus {
  st_Fingerprint : string;
  st_DeviceName : string;
  st_Room : string;
  st_Server : string;
  st_Connected : bool;
  st_AutoCopy : string;
  st_Peers : Z;
  st_Buffer : Z;
  st_Clipboard : bool;
}.

Record Response := mkResponse {
  rs_IPCVersion : Z;
  rs_Kind : string;
  rs_Code : Z;
  rs_Message : string;
  rs_Item : option Item;
  rs_Status : option Status;
  rs_Value : string;
}.

#[export] Instance Request_eq_dec : EqDecision Request.
Proof. solve_decision. Defined.
#[export] Instance Item_eq_dec : EqDecision Item.
Proof. solve_decision. Defined.
#[export] Instance Status_eq_dec : EqDecision Status.
Proof. solve_decision. Defined.
#[export] Instance Response_eq_dec : EqDecision Response.
Proof. solve_decision. Defined.

Definition RespOK := "ok".
Definition RespErr := "err".
Definition RespItem := "item".
Definition RespStatus := "status".
Definition RespValue := "value".

(** ** Framed messages *)

(** An error of [cbor] or of the framing. *)
Inductive msg_err := MsgCodec (e : string) | MsgFrame (e : frame_err).

Definition write_msg {A} `{Cbor A} (w : writer) (a : A) : result msg_err unit * writer :=
  match cbor_Marshal a with
  | Err e => (Err (MsgCodec e), w)
  | Ok b =>
      match WriteFrame w b with
      | (Err e, w) => (Err (MsgFrame e), w)
      | (Ok _, w) => (Ok (), w)
      end
  end.

Definition read_msg {A} `{Cbor A} (r : reader) : result msg_err A * reader :=
  match ReadFrame r with
  | (Err e, r) => (Err (MsgFrame e), r)
  | (Ok b, r) =>
      match cbor_Unmarshal b with
      | Err e => (Err (MsgCodec e), r)
      | Ok a => (Ok a, r)
      end
  end.

Definition WriteReq `{Cbor Request} (w : writer) (r : Request) : result msg_err unit * writer :=
  write_msg w r.
Definition ReadReq `{Cbor Request} (r : reader) : result msg_err Request * reader := read_msg r.
Definition WriteResp `{Cbor Response} (w : writer) (r : Response) : result msg_err unit * writer :=
  write_msg w r.
Definition ReadResp `{Cbor Response} (r : reader) : result msg_err Response * reader := read_msg r.

(** The streaming reader loop of the clients: responses until one cannot be read. *)
Fixpoint read_msgs {A} `{Cbor A} (fuel : nat) (r : reader) : list A * option msg_err :=
  match fuel with
  | O => ([], None)
  | S fuel =>
      match read_msg r with
      | (Err e, _) => ([], Some e)
      | (Ok a, r) => let '(l, e) := read_msgs fuel r in (a :: l, e)
      end
  end.

Fixpoint write_msgs {A} `{Cbor A} (w : writer) (l : list A) : result msg_err unit * writer :=
  match l with
  | [] => (Ok (), w)
  | a :: l =>
      match write_msg w a with
      | (Err e, w) => (Err e, w)
      | (Ok _, w) => write_msgs w l
      end
  end.

(** ** The socket *)

(** [runtime]: $XDG_RUNTIME_DIR; [tmp]: [os.TempDir()]. *)
Definition SocketPath (runtime tmp explicit : string) (fs : FS) : result string string * FS :=
  if negb (String.eqb explicit "") then (Ok explicit, fs)
  else
    let base := if String.eqb runtime "" then tmp else runtime in
    let dir := Join base "room" in
    match MkdirAll fs dir with
    | (Err e, fs) => (Err (Error e), fs)
    | (Ok _, fs) => (Ok (Join dir "daemon.sock"), fs)
    end.

(** *** Spawning *)

Record SysProcAttr := mkSysProcAttr { Setsid : bool }.

(** An [exec.Cmd]: the program, its arguments, and what it is connected to; [None]: /dev/null. *)
Record Cmd := mkCmd {
  cmd_Path : string;
  cmd_Args : list string;
  cmd_Stdin : option string;
  cmd_Stdout : option string;
  cmd_Stderr : option string;
  cmd_SysProcAttr : SysProcAttr;
}.

(** A new session, so that the daemon outlives the client. *)
Definition detachAttr : SysProcAttr := mkSysProcAttr true.

(** The argument list of the spawned process. *)
Definition spawnDaemon_args (spawnArgs : list string) : list string := spawnArgs ++ ["daemon"].

(** The command [spawnDaemon] starts; [logf]: the log file, if [os.CreateTemp] makes one. *)
Definition spawnDaemon_cmd (exe : string) (logf : result string string) (spawnArgs : list string) : Cmd :=
  let out := match logf with Ok f => Some f | Err _ => None end in
  mkCmd exe (spawnDaemon_args spawnArgs) None out out detachAttr.

(** [exe]: what [os.Executable] returns; [Start]: the method of [exec.Cmd]. *)
Definition spawnDaemon (exe logf : result string string) (Start : Cmd → result string unit)
    (spawnArgs : list string) : result string unit :=
  match exe with
  | Err e => Err e
  | Ok exe => Start (spawnDaemon_cmd exe logf spawnArgs)
  end.

Section dial.
Context {conn : Type}.
(** What the [i]-th dial returns, the clock (ms) when the deadline is set, and the clock at the
    [i]-th test of the deadline. *)
Context (dial : nat → result string conn) (start : Z) (now : nat → Z).

(** The back-off loop of [Dial] from attempt [i] on.  [None]: the fuel ran out. *)
Fixpoint dial_wait (fuel i : nat) (socketPath err : string) (deadline : Z)
    : option (result string conn) :=
  match fuel with
  | O => None
  | S fuel =>
      if (now i <? deadline)%Z then
        match dial (S i) with
        | Ok c => Some (Ok c)
        | Err err => dial_wait fuel (S i) socketPath err deadline
        end
      else Some (Err ("daemon did not come up on " +:+ socketPath +:+ ": " +:+ err))
  end.

(** [spawn]: what [spawnDaemon] returns. *)
Definition Dial (fuel : nat) (socketPath : string) (autoSpawn : bool) (spawn : result string unit)
    : option (result string conn) :=
  match dial 0 with
  | Ok c => Some (Ok c)
  | Err err =>
      if negb autoSpawn then Some (Err err)
      else
        match spawn with
        | Err serr => Some (Err ("spawn daemon: " +:+ serr))
        | Ok _ =>
            let deadline := (start + 5000)%Z in
            dial_wait fuel 0 socketPath err deadline
        end
  end.

(** Every round of the loop sleeps 75 ms. *)
Definition clock_advances : Prop := (start ≤ now 0)%Z ∧ ∀ i, (now i + 75 ≤ now (S i))%Z.

Lemma clock_lower i : clock_advances → (start + 75 * Z.of_nat i ≤ now i)%Z.
Proof. intros [H0 Hc]. induction i as [|i IH]; [lia|]. specialize (Hc i). lia. Qed.

Lemma dial_wait_ends fuel i p e :
  clock_advances → (68 <= fuel + i)%nat → (1 <= fuel)%nat →
  ∃ r, dial_wait fuel i p e (start + 5000) = Some r ∧
    match r with
    | Ok c => ∃ j, (i <= j)%nat ∧ (now j < start + 5000)%Z ∧ dial (S j) = Ok c
    | Err _ => ∃ j, (start + 5000 ≤ now j)%Z ∧
                    ∀ k, (i <= k < j)%nat → is_ok (dial (S k)) = false
    end.
Proof.
  intros Hc. revert i e. induction fuel as [|fuel IH]; intros i e Hf H1; [lia|]. cbn [dial_wait].
  pose proof (clock_lower i Hc) as Hi. destruct (Z.ltb_spec (now i) (start + 5000)) as [Hlt|Hge].
  - destruct (dial (S i)) as [c|e'] eqn:E; [by exists (Ok c); eauto|].
    destruct (IH (S i) e') as (r & Hr & Hspec); [lia..|]. exists r. split; [done|].
    destruct r as [c|e''].
    + destruct Hspec as (j & ? & ? & ?). exists j. split_and!; [lia|done|done].
    + destruct Hspec as (j & ? & Hk). exists j. split; [done|]. intros k Hkj.
      destruct (decide (k = i)) as [->|]; [by rewrite E|]. apply Hk. lia.
  - eexists. split; [done|]. cbn. exists i. split; [done|]. intros k Hk. lia.
Qed.
End dial.

(** ** Messages *)

Lemma read_write_msg {A} `{CborLaws A wf} a s s' e :
  wf a → (∀ b, cbor_Marshal a = Ok b → fits b) →
  ∃ b, write_msg (mkWriter s None) a = (Ok (), mkWriter (s +:+ frame_bytes b) None) ∧
       read_msg (mkReader (frame_bytes b +:+ s') e) = (Ok a, mkReader s' e).
Proof.
  intros Hwf Hfit. destruct (cbor_total a Hwf) as [b Hb]. exists b.
  specialize (Hfit b Hb). unfold write_msg, read_msg. rewrite Hb, WriteFrame_unlimited by done.
  split; [done|]. rewrite ReadFrame_frame by done. by rewrite (cbor_roundtrip a b).
Qed.

Lemma read_msgs_stream {A} `{CborLaws A wf} l s e n :
  Forall wf l → (∀ a b, cbor_Marshal a = Ok b → fits b) → (length l <= n)%nat →
  ∃ bs, write_msgs (mkWriter s None) l = (Ok (), mkWriter (s +:+ frames_bytes bs) None) ∧
        length bs = length l ∧
        ∀ s', read_msgs n (mkReader (frames_bytes bs +:+ s') e) =
              let '(l', r) := read_msgs (n - length l) (mkReader s' e) in (l ++ l', r).
Proof.
  intros Hl Hfit. revert s n. induction Hl as [|a l Ha Hl IH]; intros s n Hn.
  - exists []. cbn. rewrite str_app_nil_r, Nat.sub_0_r. split_and!; [done..|].
    intros s'. by destruct (read_msgs n _).
  - destruct n as [|n]; [simpl in Hn; lia|].
    destruct (cbor_total a Ha) as [b Hb]. pose proof (Hfit a b Hb) as Hfb.
    destruct (IH (s +:+ frame_bytes b) n) as (bs & Hw & Hlen & Hr); [simpl in Hn; lia|].
    exists (b :: bs). cbn [write_msgs read_msgs frames_bytes length]. split_and!.
    + unfold write_msg. rewrite Hb, WriteFrame_unlimited by done.
      by rewrite Hw, str_app_assoc.
    + by rewrite Hlen.
    + intros s'. unfold read_msg. rewrite str_app_assoc, ReadFrame_frame by done.
      rewrite (cbor_roundtrip a b) by done. rewrite Hr. cbn [Nat.sub].
      by destruct (read_msgs _ _).
Qed.

(** What a message writer leaves on an unlimited stream: the messages up to one that does not
    encode or is too large, each framed. *)
Lemma write_msgs_snoc {A} `{Cbor A} w (l : list A) a w' :
  write_msgs w l = (Ok (), w') → write_msgs w (l ++ [a]) = write_msg w' a.
Proof.
  revert w. induction l as [|b l IH]; intros w; cbn [write_msgs app].
  - intros [= <-]. by destruct (write_msg w a) as [[[]|] ?].
  - destruct (write_msg w b) as [[[]|] w1]; [|done]. apply IH.
Qed.

Lemma write_msgs_frames {A} `{Cbor A} s (l : list A) :
  ∃ bs k, w_buf (write_msgs (mkWriter s None) l).2 = s +:+ frames_bytes bs ∧
    Forall2 (λ b a, fits b ∧ cbor_Marshal a = Ok b) bs (take k l).
Proof.
  revert s. induction l as [|a l IH]; intros s; cbn [write_msgs].
  { exists [], 0%nat. cbn. by rewrite str_app_nil_r. }
  unfold write_msg. destruct (cbor_Marshal a) as [b|e] eqn:Eb.
  2:{ exists [], 0%nat. cbn. by rewrite str_app_nil_r. }
  destruct (decide (fits b)) as [Hf|Hf].
  - rewrite WriteFrame_unlimited by done. destruct (IH (s +:+ frame_bytes b)) as (bs & k & Hw & Hl).
    exists (b :: bs), (S k). cbn [frames_bytes take]. rewrite Hw, str_app_assoc. split; [done|].
    by constructor.
  - exists [], 0%nat. unfold WriteFrame. unfold fits in Hf.
    destruct (Z.ltb_spec MaxFrame (len b)); [|lia]. cbn. by rewrite str_app_nil_r.
Qed.

Lemma read_msgs_frames {A} `{CborSound A} bs (l : list A) n :
  Forall2 (λ b a, fits b ∧ cbor_Marshal a = Ok b) bs l →
  (read_msgs n (mkReader (frames_bytes bs) EOF)).1 = take n l.
Proof.
  intros Hl. revert n. induction Hl as [|b a bs l [Hf Hb] Hl IH]; intros [|n]; try done.
  cbn [frames_bytes read_msgs]. unfold read_msg at 1. rewrite ReadFrame_frame by done.
  rewrite (cbor_sound a b Hb). specialize (IH n). cbn [take].
  destruct (read_msgs n _) as [l' e]. cbn [fst] in *. by rewrite IH.
Qed.

(** Whatever a writer of the messages [l] leaves, a reader gets some of the first of them. *)
Lemma read_written {A} `{CborSound A} (l : list A) n :
  ∃ k, (read_msgs n (mkReader (w_buf (write_msgs (mkWriter "" None) l).2) EOF)).1 = take k l.
Proof.
  destruct (write_msgs_frames "" l) as (bs & k & Hw & Hl). rewrite Hw. cbn [String.append].
  rewrite (read_msgs_frames bs (take k l)) by done. rewrite take_take. by eexists.
Qed.

(** ** Messages that go through *)

(** A message that goes through: it encodes, fits a frame, and decodes back. *)
Definition transmits {A} `{Cbor A} (a : A) : Prop :=
  ∃ b, cbor_Marshal a = Ok b ∧ fits b ∧ cbor_Unmarshal b = Ok a.

Lemma write_transmits {A} `{Cbor A} (a : A) s :
  transmits a → ∃ b, cbor_Marshal a = Ok b ∧ fits b ∧
    write_msg (mkWriter s None) a = (Ok (), mkWriter (s +:+ frame_bytes b) None) ∧
    read_msg (mkReader (frame_bytes b) EOF) = (Ok a, mkReader "" EOF).
Proof.
  intros (b & Hm & Hf & Hu). exists b. split_and!; [done..| |].
  - unfold write_msg. by rewrite Hm, WriteFrame_unlimited.
  - unfold read_msg. pose proof (ReadFrame_frame b "" EOF Hf) as Hr.
    rewrite str_app_nil_r in Hr. by rewrite Hr, Hu.
Qed.

Lemma transmits_dec {A} `{Cbor A} (a : A) b :
  cbor_Marshal a = Ok b → bool_decide (fits b) = true → cbor_Unmarshal b = Ok a → transmits a.
Proof. intros Hm Hf%bool_decide_eq_true Hu. by exists b. Qed.

Definition bytes_of_msg {A} `{Cbor A} (a : A) : string :=
  match cbor_Marshal a with Ok b => b | Err _ => "" end.

(** ** A concrete codec of requests and responses, for the examples *)

Definition req_fields (r : Request) : list string :=
  [PutUint32 (rq_IPCVersion r); rq_Op r; rq_Bytes r; rq_Force r; rq_Filename r; rq_Kind r;
   enc_bool (rq_Follow r); rq_MsgID r; enc_bool (rq_All r); rq_Scope r; rq_Key r; rq_Value r;
   rq_Target r].

Definition dec_req (s : string) : option Request :=
  match dec_fields s with
  | [v; op; by_; fo; fn; ki; fl; id; al; sc; ke; va; ta] =>
      Some (mkRequest (Uint32 v) op by_ fo fn ki (dec_bool fl) id (dec_bool al) sc ke va ta)
  | _ => None
  end.

Definition req_wf (r : Request) : Prop := Forall fits (req_fields r) ∧ u32 (rq_IPCVersion r).

#[export] Instance req_wf_dec r : Decision (req_wf r).
Proof.
  unfold req_wf. apply and_dec; [|apply u32_dec]. apply Forall_dec, fits_dec.
Defined.

Definition frame_cbor_req : Cbor Request := {|
  cbor_Marshal r := Ok (enc_fields (req_fields r));
  cbor_Unmarshal b := of_dec (dec_req b) |}.

Lemma frame_cbor_req_laws : @CborLaws Request frame_cbor_req req_wf.
Proof.
  split.
  - intros e _. by eexists.
  - intros r b [Hf Hv] Hb. cbn [cbor_Marshal frame_cbor_req] in Hb.
    assert (b = enc_fields (req_fields r)) as -> by congruence.
    cbn [cbor_Unmarshal frame_cbor_req]. unfold dec_req. rewrite dec_enc_fields by done.
    cbn [req_fields]. rewrite dec_enc_u32, !dec_enc_bool by done. by destruct r.
Qed.

Definition enc_req (r : Request) : string := enc_fields (req_fields r).

Lemma dec_enc_req r : req_wf r → dec_req (enc_req r) = Some r.
Proof.
  intros [Hf Hv]. unfold dec_req, enc_req. rewrite dec_enc_fields by done. cbn [req_fields].
  rewrite dec_enc_u32, !dec_enc_bool by done. by destruct r.
Qed.

Definition strict_req : Cbor Request := guarded req_wf enc_req dec_req.
Lemma strict_req_sound : @CborSound Request strict_req.
Proof. apply guarded_sound, dec_enc_req. Qed.

Definition enc_item (i : Item) : string := enc_fields [enc_env (it_Envelope i); it_LocalPath i].
Definition dec_item (s : string) : option Item :=
  match dec_fields s with
  | [e; p] => match dec_env e with Some e => Some (mkItem e p) | None => None end
  | _ => None
  end.

Definition status_fields (s : Status) : list string :=
  [st_Fingerprint s; st_DeviceName s; st_Room s; st_Server s; enc_bool (st_Connected s);
   st_AutoCopy s; PutUint32 (st_Peers s); PutUint32 (st_Buffer s); enc_bool (st_Clipboard s)].
Definition enc_status (s : Status) : string := enc_fields (status_fields s).
Definition dec_status (s : string) : option Status :=
  match dec_fields s with
  | [fp; dn; rm; sv; co; ac; pe; bu; cl] =>
      Some (mkStatus fp dn rm sv (dec_bool co) ac (Uint32 pe) (Uint32 bu) (dec_bool cl))
  | _ => None
  end.

Definition resp_fields (r : Response) : list string :=
  [PutUint32 (rs_IPCVersion r); rs_Kind r; PutUint32 (rs_Code r); rs_Message r;
   enc_option enc_item (rs_Item r); enc_option enc_status (rs_Status r); rs_Value r].
Definition enc_resp (r : Response) : string := enc_fields (resp_fields r).
Definition dec_resp (s : string) : option Response :=
  match dec_fields s with
  | [v; k; c; m; i; st; va] =>
      match dec_option dec_item i, dec_option dec_status st with
      | Some i, Some st => Some (mkResponse (Uint32 v) k (Uint32 c) m i st va)
      | _, _ => None
      end
  | _ => None
  end.

Definition item_wf (i : Item) : Prop :=
  env_wf (it_Envelope i) ∧ fits (enc_env (it_Envelope i)) ∧ fits (it_LocalPath i).
Definition status_wf (s : Status) : Prop :=
  Forall fits (status_fields s) ∧ u32 (st_Peers s) ∧ u32 (st_Buffer s).
Definition resp_wf (r : Response) : Prop :=
  Forall fits (resp_fields r) ∧ u32 (rs_IPCVersion r) ∧ u32 (rs_Code r) ∧
  from_option item_wf True (rs_Item r) ∧ from_option status_wf True (rs_Status r).

#[export] Instance item_wf_dec i : Decision (item_wf i).
Proof. exact (and_dec (env_wf_dec _) (and_dec (fits_dec _) (fits_dec _))). Defined.
#[export] Instance status_wf_dec s : Decision (status_wf s).
Proof. exact (and_dec (Forall_dec _ _) (and_dec (u32_dec _) (u32_dec _))). Defined.
#[export] Instance resp_wf_dec r : Decision (resp_wf r).
Proof.
  unfold resp_wf. refine (and_dec (Forall_dec _ _) (and_dec (u32_dec _) (and_dec (u32_dec _) (and_dec _ _)))).
  - destruct (rs_Item r) as [i|]; [exact (item_wf_dec i)|exact True_dec].
  - destruct (rs_Status r) as [s|]; [exact (status_wf_dec s)|exact True_dec].
Defined.

Lemma dec_enc_item i : item_wf i → dec_item (enc_item i) = Some i.
Proof.
  intros (He & Hf & Hp). unfold dec_item, enc_item.
  assert (Forall fits [enc_env (it_Envelope i); it_LocalPath i]) as Hfits.
  { apply Forall_cons_2; [exact Hf|]. apply Forall_cons_2; [exact Hp|apply Forall_nil_2]. }
  rewrite (dec_enc_fields _ Hfits).
  rewrite dec_enc_env by done. by destruct i.
Qed.

Lemma dec_enc_status s : status_wf s → dec_status (enc_status s) = Some s.
Proof.
  intros (Hf & Hp & Hb). unfold dec_status, enc_status. rewrite dec_enc_fields by done.
  cbn [status_fields]. rewrite !dec_enc_u32, !dec_enc_bool by done. by destruct s.
Qed.

Lemma dec_enc_resp r : resp_wf r → dec_resp (enc_resp r) = Some r.
Proof.
  intros (Hf & Hv & Hc & Hi & Hs). unfold dec_resp, enc_resp. rewrite dec_enc_fields by done.
  cbn [resp_fields]. rewrite !dec_enc_option.
  - rewrite !dec_enc_u32 by done. by destruct r.
  - intros s E. rewrite E in Hs. by apply dec_enc_status.
  - intros i E. rewrite E in Hi. by apply dec_enc_item.
Qed.

Definition strict_resp : Cbor Response := guarded resp_wf enc_resp dec_resp.
Lemma strict_resp_sound : @CborSound Response strict_resp.
Proof. apply guarded_sound, dec_enc_resp. Qed.

(** ** Properties *)

(** [Dial] always returns: the wait for a spawned daemon makes at most 67 attempts, 75 ms apart,
    and it gives a connection only from an attempt, an error only when every attempt made before
    the deadline failed; it spawns only when the first attempt failed and it was allowed to. *)
Theorem Dial_terminates {conn} (dial : nat → result string conn) start now p autoSpawn spawn :
  clock_advances start now →
  ∃ r, Dial dial start now 68 p autoSpawn spawn = Some r ∧
    (∀ c, dial 0 = Ok c → r = Ok c) ∧
    (is_ok (dial 0) = false → autoSpawn = false ∨ is_ok spawn = false → is_ok r = false) ∧
    match r with
    | Ok c => ∃ j, dial j = Ok c
    | Err _ => is_ok (dial 0) = false ∧
        (autoSpawn = true → is_ok spawn = true →
         ∃ j, (start + 5000 ≤ now j)%Z ∧ ∀ k, (k <= j)%nat → is_ok (dial k) = false)
    end.
Proof.
  intros Hc. unfold Dial. destruct (dial 0) as [c|e] eqn:E0.
  { exists (Ok c). split_and!; [done|naive_solver|done|]. by exists 0%nat. }
  destruct autoSpawn; cbn [negb].
  2:{ exists (Err e). by split_and!. }
  destruct spawn as [[]|se].
  2:{ eexists. by split_and!. }
  destruct (dial_wait_ends dial start now 68 0 p e Hc) as (r & Hr & Hspec); [lia..|].
  exists r. split_and!; [done|done|naive_solver|]. destruct r as [c|e'].
  - destruct Hspec as (j & _ & _ & ?). by exists (S j).
  - split; [done|]. intros _ _. destruct Hspec as (j & Hj & Hk). exists j. split; [done|].
    intros [|k] Hkj; [by rewrite E0|]. apply Hk. lia.
Qed.

Lemma Dial_terminates_witness :
  ∃ r, Dial (conn := string) (λ i, if decide (i = 3)%nat then Ok "sock" else Err "refused") 0
         (λ i, 75 * Z.of_nat i)%Z 68 "/run/d.sock" true (Ok ()) = Some r ∧ r = Ok "sock".
Proof.
  destruct (Dial_terminates (conn := string)
    (λ i, if decide (i = 3)%nat then Ok "sock" else Err "refused") 0 (λ i, 75 * Z.of_nat i)%Z
    "/run/d.sock" true (Ok ())) as (r & Hr & _).
  - split; [lia|]. intros i. lia.
  - exists r. split; [exact Hr|]. vm_compute in Hr. congruence.
Defined.
