(* ===== verification/Clip.v ===== *)
(** * clip.go: the OS clipboard behind a once-only initialisation

    [room-go/internal/clip/clip.go].  golang.design/x/clipboard is a parameter: what its [Init]
    does on this host, and what [Read] finds.  What was written to it is recorded in order. *)
From S2P Require Import Prelude.
Open Scope string_scope.
Open Scope list_scope.

(** [clipboard.Init()] returns an error or not, or panics. *)
Inductive init_outcome := InitOk | InitErr (e : string) | InitPanic.

Class Clipboard := clipboard_Init : init_outcome.

Inductive clip_write := FmtText (s : string) | FmtImage (png : string).

(** [once]: [None] until [once.Do] ran, then [initErr].  [written]: the calls of
    [clipboard.Write], oldest first. *)
Record Clip := mkClip { once : option (option string); written : list clip_write }.

Definition clip_init : Clip := mkClip None [].

Definition clip_unavailable := "clipboard unavailable on this host".

Definition ensure `{Clipboard} (c : Clip) : option string * Clip :=
  match once c with
  | Some initErr => (initErr, c)
  | None =>
      let initErr := match clipboard_Init with
        | InitOk => None
        | InitErr e => Some e
        | InitPanic => Some clip_unavailable
        end in
      (initErr, mkClip (Some initErr) (written c))
  end.

Definition clip_put (c : Clip) (w : clip_write) : Clip := mkClip (once c) (written c ++ [w]).

Definition WriteText `{Clipboard} (c : Clip) (s : string) : option string * Clip :=
  match ensure c with
  | (Some e, c) => (Some e, c)
  | (None, c) => (None, clip_put c (FmtText s))
  end.

Definition WritePNG `{Clipboard} (c : Clip) (png : string) : option string * Clip :=
  match ensure c with
  | (Some e, c) => (Some e, c)
  | (None, c) => (None, clip_put c (FmtImage png))
  end.

Definition Available `{Clipboard} (c : Clip) : bool * Clip :=
  match ensure c with
  | (Some _, c) => (false, c)
  | (None, c) => (true, c)
  end.

(** [now]: what the clipboard holds. *)
Definition ReadText `{Clipboard} (c : Clip) (now : string) : result string string * Clip :=
  match ensure c with
  | (Some e, c) => (Err e, c)
  | (None, c) => (Ok now, c)
  end.

Lemma ensure_written `{Clipboard} c : written (ensure c).2 = written c.
Proof. unfold ensure. by destruct (once c). Qed.

Lemma Available_written `{Clipboard} c : written (Available c).2 = written c.
Proof.
  unfold Available. pose proof (ensure_written c) as H'. by destruct (ensure c) as [[e|] c'].
Qed.

Lemma WriteText_written `{Clipboard} c s e c' :
  WriteText c s = (e, c') →
  written c' = written c ++ match e with None => [FmtText s] | Some _ => [] end.
Proof.
  unfold WriteText. pose proof (ensure_written c) as H'. destruct (ensure c) as [[e0|] c0];
    simpl in H'; intros [= <- <-]; simpl; rewrite H'; by rewrite ?app_nil_r.
Qed.

Lemma WritePNG_written `{Clipboard} c s e c' :
  WritePNG c s = (e, c') →
  written c' = written c ++ match e with None => [FmtImage s] | Some _ => [] end.
Proof.
  unfold WritePNG. pose proof (ensure_written c) as H'. destruct (ensure c) as [[e0|] c0];
    simpl in H'; intros [= <- <-]; simpl; rewrite H'; by rewrite ?app_nil_r.
Qed.
