(* ===== verification/GoTime.v ===== *)
(** * Times of the Go standard library: two layouts

    [time.UnixMilli(ms).UTC().Format(time.RFC3339)], as the text sink uses it: the proleptic
    Gregorian date of a count of days, and the fields padded with zeros; and the layout of old
    messages in the terminal UI of the experiments. *)
From S2P Require Import Prelude GoStr.
Open Scope string_scope.
Open Scope list_scope.

(** The year, month and day [z] days after 1970-01-01.  Eras of 400 years, years from March. *)
Definition civil (z : Z) : Z * Z * Z :=
  (let z := z + 719468 in
   let era := z / 146097 in
   let doe := z mod 146097 in
   let yoe := (doe - doe / 1460 + doe / 36524 - doe / 146096) / 365 in
   let doy := doe - (365 * yoe + yoe / 4 - yoe / 100) in
   let mp := (5 * doy + 2) / 153 in
   let d := doy - (153 * mp + 2) / 5 + 1 in
   let m := if mp <? 10 then mp + 3 else mp - 9 in
   let y := yoe + era * 400 + (if m <=? 2 then 1 else 0) in
   (y, m, d))%Z.

Fixpoint zero_pad (n : nat) : string :=
  match n with O => "" | S n => "0" +:+ zero_pad n end.

(** [appendInt(b, x, width)]. *)
Definition appendInt (x : Z) (width : nat) : string :=
  let digits := itoa (Z.abs x) in
  (if (x <? 0)%Z then "-" else "") +:+ zero_pad (width - String.length digits) +:+ digits.

(** The layout [2006-01-02T15:04:05Z07:00] for [ms] milliseconds after the epoch. *)
Definition RFC3339 (ms : Z) : string :=
  let sec := (ms / 1000)%Z in
  let '(y, m, d) := civil (sec / 86400)%Z in
  let s := (sec mod 86400)%Z in
  appendInt y 4 +:+ "-" +:+ appendInt m 2 +:+ "-" +:+ appendInt d 2 +:+ "T" +:+
  appendInt (s / 3600)%Z 2 +:+ ":" +:+ appendInt ((s / 60) mod 60)%Z 2 +:+ ":" +:+
  appendInt (s mod 60)%Z 2 +:+ "Z".

Example RFC3339_epoch : RFC3339 0 = "1970-01-01T00:00:00Z".
Proof. reflexivity. Qed.
Example RFC3339_leap : RFC3339 1709210096789 = "2024-02-29T12:34:56Z".
Proof. reflexivity. Qed.
Example RFC3339_before : RFC3339 (-1) = "1969-12-31T23:59:59Z".
Proof. reflexivity. Qed.

(** The zero [time.Time], the first of January of year 1, as milliseconds. *)
Definition zero_time : Z := -62135596800000.

Definition month_name (m : Z) : string :=
  nth (Z.to_nat (m - 1))
    ["Jan"; "Feb"; "Mar"; "Apr"; "May"; "Jun"; "Jul"; "Aug"; "Sep"; "Oct"; "Nov"; "Dec"] "".

(** The layout [Jan 2 15:04] in local time; [zone]: the offset in seconds at a time in seconds. *)
Definition Stamp (zone : Z → Z) (ms : Z) : string :=
  let sec := (ms / 1000)%Z in
  let sec := (sec + zone sec)%Z in
  let '(_, m, d) := civil (sec / 86400)%Z in
  let s := (sec mod 86400)%Z in
  month_name m +:+ " " +:+ itoa d +:+ " " +:+ appendInt (s / 3600)%Z 2 +:+ ":" +:+
  appendInt ((s / 60) mod 60)%Z 2.

Example Stamp_leap : Stamp (λ _, 3600%Z) 1709210096789 = "Feb 29 13:34".
Proof. reflexivity. Qed.
