(* ===== verification/Sinks.v ===== *)
(** * session.go: the folder and append-file sinks, and their reversal

    [room-go/internal/daemon/session.go].  The session record and the file system are passed
    explicitly; logging is left out. *)
From S2P Require Import Prelude GoStr GoPath GoOS GoTime Wire Codec Ipc Config.
Open Scope string_scope.
Open Scope list_scope.

Record session := mkSess { textFilePath : string; textFileOffset : Z; savedFiles : list string }.

Definition fileSize (fs : FS) (path : string) : Z :=
  match Stat fs path with Err _ => 0%Z | Ok fi => node_size fi end.

Definition exists_ (fs : FS) (path : string) : bool := is_ok (Stat fs path).

Definition newSession (fs : FS) (textFile : string) : session :=
  if negb (String.eqb textFile "") then mkSess textFile (fileSize fs textFile) []
  else mkSess "" 0 [].

Definition setTextFile (s : session) (fs : FS) (path : string) : session :=
  if String.eqb path (textFilePath s) then s
  else if String.eqb path "" then mkSess path 0 (savedFiles s)
  else mkSess path (fileSize fs path) (savedFiles s).

Definition recordSaved (s : session) (path : string) : session :=
  mkSess (textFilePath s) (textFileOffset s) (savedFiles s ++ [path]).

(** ** Names and contents *)

Section hash.
Context `{Blake3}.

Definition blobHash (env : Envelope) : string :=
  match Blob_ env with
  | Some b => if negb (String.eqb (Hash b) "") then Hash b else HashHex (BlobData env)
  | None => HashHex (BlobData env)
  end.

(** The clipboard form of an item: image or not, text, PNG bytes, and the hash recorded. *)
Definition clipContent (item : Item) : bool * string * string * string :=
  let env := it_Envelope item in
  if String.eqb (Type_ env) TypeImage then (true, "", BlobData env, blobHash env)
  else if String.eqb (Type_ env) TypeFile
  then (false, it_LocalPath item, "", HashHex (it_LocalPath item))
  else (false, Text env, "", HashHex (Text env)).

Definition imageSaveName (env : Envelope) : string :=
  if negb (String.eqb (Filename env) "") then Base (Filename env) else blobHash env +:+ ".png".

Definition fileSaveName (env : Envelope) : string :=
  if negb (String.eqb (Filename env) "") then Base (Filename env) else blobHash env.

Definition fileLabel (env : Envelope) : string :=
  if negb (String.eqb (Filename env) "") then Base (Filename env) else blobHash env.

Definition fileExt (name : string) : string := Ext name.

(** ** Writing into the folder *)

(** The [i]-th name [dedupPath] tries, from 2 on. *)
Definition dedup_cand (dir name : string) (i : nat) : string :=
  let ext := Ext name in
  let base := TrimSuffix name ext in
  Join dir (base +:+ " (" +:+ itoa (Z.of_nat i) +:+ ")" +:+ ext).

Fixpoint dedup_from (fuel : nat) (fs : FS) (dir name : string) (i : nat) : option string :=
  match fuel with
  | O => None
  | S fuel =>
      let cand := dedup_cand dir name i in
      if negb (exists_ fs cand) then Some cand else dedup_from fuel fs dir name (S i)
  end.

(** The loop of the code has no bound.  [None]: the fuel ran out. *)
Definition dedupPath (fuel : nat) (fs : FS) (dir name : string) : option string :=
  let cand := Join dir name in
  if negb (exists_ fs cand) then Some cand else dedup_from fuel fs dir name 2.

(** Enough tries: one more than there are nodes. *)
Definition dedup_fuel (fs : FS) : nat := S (size (nodes fs)).

Definition writeSaveDir (s : session) (fs : FS) (dir name data : string) : session * FS :=
  match MkdirAll fs dir with
  | (Err _, fs) => (s, fs)
  | (Ok _, fs) =>
      match dedupPath (dedup_fuel fs) fs dir name with
      | None => (s, fs)
      | Some path =>
          match WriteFile fs path data with
          | (Err _, fs) => (s, fs)
          | (Ok _, fs) => (recordSaved s path, fs)
          end
      end
  end.

(** ** The append file *)

Definition text_device (env : Envelope) : string :=
  let device := DeviceName env in
  let device := if String.eqb device "" then Sender env else device in
  if String.eqb device "" then "peer" else device.

(** [now]: [time.Now()] in milliseconds. *)
Definition text_entry (now : Z) (env : Envelope) : string :=
  let ts := if negb (TS env =? 0)%Z then int64 (TS env) else now in
  nl +:+ "---" +:+ nl +:+ text_device env +:+ " " +:+ RFC3339 ts +:+ nl +:+ Text env +:+ nl.

Definition appendTextSink (now : Z) (s : session) (fs : FS) (path : string) (env : Envelope)
    : session * FS :=
  let s := setTextFile s fs path in
  (s, (AppendFile fs path (text_entry now env)).2).

(** ** Routing *)

Definition routeSinks (now : Z) (c : Settings) (s : session) (fs : FS) (item : Item)
    : session * FS :=
  let env := it_Envelope item in
  if String.eqb (Type_ env) TypeText then
    if negb (String.eqb (TextFile c) "") then appendTextSink now s fs (TextFile c) env else (s, fs)
  else if String.eqb (Type_ env) TypeImage then
    if negb (String.eqb (SaveDir c) "")
    then writeSaveDir s fs (SaveDir c) (imageSaveName env) (BlobData env) else (s, fs)
  else if String.eqb (Type_ env) TypeFile then
    if negb (String.eqb (SaveDir c) "")
    then writeSaveDir s fs (SaveDir c) (fileSaveName env) (BlobData env) else (s, fs)
  else (s, fs).

End hash.

(** ** Clearing *)

(** The file half of [clearTransient]. *)
Definition clearBlobs (fs : FS) (dir : string) : FS :=
  match ReadDir fs dir with
  | Err _ => fs
  | Ok entries => remove_entries fs dir entries
  end.

Definition clearSinks (s : session) (fs : FS) : session * FS :=
  let path := textFilePath s in
  let off := textFileOffset s in
  let saved := savedFiles s in
  let s := mkSess path off [] in
  let fs :=
    if negb (String.eqb path "") then
      match Stat fs path with
      | Ok fi => if (off <? node_size fi)%Z then (Truncate fs path off).2 else fs
      | Err _ => fs
      end
    else fs in
  (s, foldl (λ fs f, (Remove fs f).2) fs saved).

(** ** Names: lemmas *)

(** What [filepath.Base] can return, as far as slashes go. *)
Definition safe_name (n : string) : Prop := no_slash n ∨ n = "/".

Lemma len3_ordinary x : no_slash x → (3 <= String.length x)%nat → ordinary x.
Proof. intros Hs Hl. split_and!; [done| | |]; intros ->; simpl in Hl; lia. Qed.

Lemma Base_safe s : safe_name (Base s).
Proof.
  unfold Base. destruct (String.eqb s ""); [by left|].
  destruct (last _) as [c|] eqn:E; [|by right]. left.
  apply list.last_Some_elem_of, list_elem_of_filter in E as [_ E].
  pose proof (split_slash_no_slash s) as H. rewrite Forall_forall in H. by apply H.
Qed.

Lemma HashHex_safe `{Blake3} b : safe_name (HashHex b).
Proof. left. apply no_slash_hex. Qed.

Definition cand_stem (n : string) : string := if String.eqb n "/" then "" else TrimSuffix n (Ext n).
Definition cand_ext (n : string) : string := if String.eqb n "/" then "" else Ext n.
Definition cand_name (n : string) (i : nat) : string :=
  cand_stem n +:+ " (" +:+ itoa (Z.of_nat i) +:+ ")" +:+ cand_ext n.

Lemma cand_name_ordinary n i : safe_name n → ordinary (cand_name n i).
Proof.
  intros Hn. apply len3_ordinary.
  - unfold cand_name, cand_stem, cand_ext.
    assert (no_slash (if String.eqb n "/" then "" else TrimSuffix n (Ext n)) ∧
            no_slash (if String.eqb n "/" then "" else Ext n)) as [H1 H2].
    { destruct (String.eqb_spec n "/"); [done|]. destruct Hn as [Hn|]; [|done].
      apply no_slash_app. by rewrite Ext_stem. }
    repeat (apply no_slash_app; split); try done. apply no_slash_itoa.
  - unfold cand_name. rewrite !str_length_app. simpl. lia.
Qed.

Lemma dedup_cand_resolve dir n i :
  dir ≠ "" → safe_name n →
  resolve (dedup_cand dir n i) = ((resolve dir).1, (resolve dir).2 ++ [cand_name n i]).
Proof.
  intros Hd Hn. pose proof (cand_name_ordinary n i Hn) as Ho. unfold dedup_cand.
  destruct (String.eqb_spec n "/") as [->|Hne].
  - by apply (resolve_Join_slash dir (cand_name "/" i)).
  - rewrite <- resolve_Join by done. unfold cand_name, cand_stem, cand_ext.
    by destruct (String.eqb_spec n "/").
Qed.

Lemma cand_name_inj n i j : cand_name n i = cand_name n j → i = j.
Proof.
  unfold cand_name. intros E%str_app_inj_l%str_app_inj_l%str_app_inj_r.
  unfold itoa in E. apply pretty_Z_inj in E. lia.
Qed.

Lemma exists_node fs p :
  exists_ fs p = true → top (resolve p) = false → is_Some (nodes fs !! resolve p).
Proof.
  unfold exists_, Stat, node_at. intros H Ht. rewrite Ht in H.
  destruct (nodes fs !! resolve p); [by eexists|done].
Qed.

Lemma not_exists_node fs p :
  exists_ fs p = false → resolve p ∉ denied fs → node_at fs (resolve p) = None.
Proof.
  unfold exists_, Stat. destruct (node_at fs (resolve p)); [|done]. by case_decide.
Qed.

Lemma dedup_from_none fuel fs dir name i :
  dedup_from fuel fs dir name i = None →
  ∀ j, (i <= j < i + fuel)%nat → exists_ fs (dedup_cand dir name j) = true.
Proof.
  revert i. induction fuel as [|fuel IH]; intros i; cbn [dedup_from]; [lia|].
  destruct (exists_ fs (dedup_cand dir name i)) eqn:E; [|done]. cbn [negb].
  intros Hn j Hj. destruct (decide (j = i)) as [->|]; [done|]. apply (IH (S i)); [done|lia].
Qed.

Lemma dedup_from_some fuel fs dir name i p :
  dedup_from fuel fs dir name i = Some p →
  ∃ j, (i <= j)%nat ∧ p = dedup_cand dir name j ∧ exists_ fs p = false ∧
       ∀ k, (i <= k < j)%nat → exists_ fs (dedup_cand dir name k) = true.
Proof.
  revert i. induction fuel as [|fuel IH]; intros i; cbn [dedup_from]; [done|].
  destruct (exists_ fs (dedup_cand dir name i)) eqn:E; cbn [negb].
  - intros (j & ? & ? & ? & Hk)%IH. exists j. split_and!; [lia|done..|]. intros k Hki.
    destruct (decide (k = i)) as [->|]; [done|]. apply Hk. lia.
  - intros [= <-]. exists i. split_and!; [done..|]. intros. lia.
Qed.

(** The loop ends as soon as the names it tries are different files of one directory. *)
Lemma dedup_from_distinct fs dir name i fuel (q : cpath) (f : nat → string) :
  (∀ j, resolve (dedup_cand dir name j) = (q.1, q.2 ++ [f j])) →
  (∀ a b, f a = f b → a = b) → (∀ j, f j ≠ "..") → (size (nodes fs) < fuel)%nat →
  is_Some (dedup_from fuel fs dir name i).
Proof.
  intros Hr Hinj Hup Hf. destruct (dedup_from fuel fs dir name i) as [p|] eqn:E; [by eexists|].
  pose proof (dedup_from_none _ _ _ _ _ E) as Hall.
  set (l := (λ j, resolve (dedup_cand dir name j)) <$> seq i fuel).
  assert (l ⊆+ elements (dom (nodes fs))) as Hsub.
  { apply NoDup_submseteq.
    - apply NoDup_fmap_2_strong; [|apply NoDup_seq]. intros a b _ _.
      rewrite !Hr. intros Hab. injection Hab as Hab.
      apply app_inv_head in Hab. injection Hab as Hab. by apply Hinj.
    - intros p (j & -> & Hj%elem_of_seq)%list_elem_of_fmap.
      apply elem_of_elements, elem_of_dom, exists_node; [by apply Hall|].
      rewrite Hr. by apply top_snoc. }
  apply submseteq_length in Hsub. unfold l in Hsub. rewrite length_fmap, length_seq in Hsub.
  change (length (elements (dom (nodes fs)))) with (size (dom (nodes fs))) in Hsub.
  rewrite size_dom in Hsub. lia.
Qed.

Lemma dedup_from_total fs dir name i fuel :
  dir ≠ "" → safe_name name → (size (nodes fs) < fuel)%nat →
  is_Some (dedup_from fuel fs dir name i).
Proof.
  intros Hd Hn. apply (dedup_from_distinct _ _ _ _ _ (resolve dir) (cand_name name)).
  - intros j. by apply dedup_cand_resolve.
  - apply cand_name_inj.
  - intros j. by pose proof (cand_name_ordinary name j Hn) as (_ & _ & _ & ?).
Qed.

Lemma dedupPath_ok fuel fs dir name p :
  dir ≠ "" → safe_name name → is_path fs (resolve dir) → dedupPath fuel fs dir name = Some p →
  exists_ fs p = false ∧
  ((∃ x, ordinary x ∧ resolve p = ((resolve dir).1, (resolve dir).2 ++ [x])) ∨
   node_at fs (resolve p) = Some Directory).
Proof.
  intros Hd Hn Hp. unfold dedupPath. destruct (exists_ fs (Join dir name)) eqn:E; cbn [negb].
  - intros (j & _ & -> & He & _)%dedup_from_some. split; [done|]. left. eexists.
    split; [by apply cand_name_ordinary|by apply dedup_cand_resolve].
  - intros [= <-]. split; [done|].
    destruct (decide (name = "" ∨ name = "." ∨ name = "/")) as [Hdir|Hnd].
    + right. rewrite resolve_Join_dir by done.
      specialize (Hp _ (reflexivity _)). by destruct (resolve dir).
    + destruct (decide (name = "..")) as [->|Hup].
      * right. destruct (resolve_Join_up dir Hd) as [[n Hup]|[H1 H2]].
        -- unfold node_at, top. rewrite Hup.
           assert (forallb (String.eqb "..") (replicate n "..") = true) as ->; [|done].
           clear. induction n as [|n IH]; [done|exact IH].
        -- specialize (Hp _ H2). rewrite <- H1 in Hp. by destruct (resolve (Join dir "..")).
      * left. exists name. assert (ordinary name) as Ho.
        { destruct Hn as [Hn|]; [|tauto]. split_and!; [done|tauto..]. }
        split; [done|by apply resolve_Join].
Qed.

(** The three outcomes of [writeSaveDir]: nothing but directories, or one new file. *)
Lemma writeSaveDir_spec s fs dir name data s' fs' :
  dir ≠ "" → safe_name name → writeSaveDir s fs dir name data = (s', fs') →
  ∃ r fs1, MkdirAll fs dir = (r, fs1) ∧
    ((s' = s ∧ fs' = fs1) ∨
     ∃ p x, ordinary x ∧ resolve p = ((resolve dir).1, (resolve dir).2 ++ [x]) ∧
       nodes fs1 !! resolve p = None ∧ resolve p ∉ denied fs1 ∧
       fs' = put fs1 (resolve p) (File data) ∧ s' = recordSaved s p).
Proof.
  intros Hd Hn. unfold writeSaveDir. destruct (MkdirAll fs dir) as [[[]|e] fs1] eqn:Em.
  2:{ intros [= <- <-]. eexists _, fs1. split; [done|]. by left. }
  intros Hw. eexists _, fs1. split; [done|].
  destruct (dedupPath _ fs1 dir name) as [p|] eqn:Ed; [|injection Hw as <- <-; by left].
  apply dedupPath_ok in Ed as [He Hshape]; [|done..|by eapply MkdirAll_path].
  destruct (WriteFile fs1 p data) as [[[]|e] fs2] eqn:Ew; injection Hw as <- <-.
  - right. apply WriteFile_spec in Ew as (_ & [(e & Hx & _)|(_ & Hden & -> & Hnd)]); [by inversion Hx|].
    pose proof (not_exists_node _ _ He Hden) as Hno.
    destruct Hshape as [(x & Hx & Hr)|Hdir]; [|by rewrite Hdir in Hno].
    exists p, x. apply node_at_none in Hno as [_ Hno]. by split_and!.
  - left. by apply WriteFile_spec in Ew as (_ & [(e0 & _ & ->)|(Hx & _)]).
Qed.

(** The blob of an envelope hashes to what it says. *)
Definition verified `{Blake3} (env : Envelope) : Prop :=
  ∃ b, Blob_ env = Some b ∧ HashHex (BlobData env) = Hash b.

Lemma blobHash_verified `{Blake3} env : verified env → blobHash env = HashHex (BlobData env).
Proof.
  intros (b & Hb & Hh). unfold blobHash. rewrite Hb.
  destruct (negb (String.eqb (Hash b) "")); congruence.
Qed.

Lemma save_names_safe `{Blake3} env :
  verified env → safe_name (imageSaveName env) ∧ safe_name (fileSaveName env).
Proof.
  intros Hv%blobHash_verified. unfold imageSaveName, fileSaveName. rewrite Hv.
  destruct (negb _); split; try apply Base_safe; [|apply HashHex_safe].
  left. apply no_slash_app. split; [apply no_slash_hex|done].
Qed.

(** ** A session reverts *)

(** What holds at any time of a session that began with the files [fs0] and the append file [tf]:
    outside a region [R] the sinks leave alone, only the append file and the recorded files are
    the session's. *)
Record session_inv (R : cpath → Prop) (fs0 : FS) (tf : string) (s : session) (fs : FS) : Prop := {
  ses_out : tf ≠ "" → ¬ R (resolve tf);
  ses_denied : denied fs = denied fs0;
  ses_path : textFilePath s = tf ∧ textFileOffset s = (if String.eqb tf "" then 0%Z else fileSize fs0 tf);
  ses_kept : ∀ q n, ¬ R q → nodes fs0 !! q = Some n → q ≠ resolve tf ∨ tf = "" →
    nodes fs !! q = Some n;
  ses_text : ∀ n, nodes fs0 !! resolve tf = Some n → tf ≠ "" →
    nodes fs !! resolve tf = Some n ∨
    ∃ d t, n = File d ∧ nodes fs !! resolve tf = Some (File (d +:+ t)) ∧ resolve tf ∉ denied fs ∧
           top (resolve tf) = false;
  ses_new : ∀ q d, ¬ R q → nodes fs !! q = Some (File d) → (∃ d0, nodes fs0 !! q = Some (File d0)) ∨
    q ∈ map resolve (savedFiles s) ∨
    (tf ≠ "" ∧ q = resolve tf ∧ nodes fs0 !! q = None ∧ q ∉ denied fs ∧ top q = false);
  ses_saved : ∀ p, p ∈ savedFiles s → nodes fs0 !! resolve p = None ∧ resolve p ∉ denied fs ∧
    top (resolve p) = false ∧ ¬ R (resolve p) ∧ ∃ d, nodes fs !! resolve p = Some (File d);
}.

Lemma newSession_inv R fs tf :
  (tf ≠ "" → ¬ R (resolve tf)) → session_inv R fs tf (newSession fs tf) fs.
Proof.
  intros HR. split; try done.
  - unfold newSession. by destruct (String.eqb_spec tf "") as [->|].
  - intros n Hn _. by left.
  - intros q d _ Hq. left. eauto.
  - unfold newSession. intros p. destruct (negb _); intros Hp; by apply elem_of_nil in Hp.
Qed.

Lemma MkdirAll_keeps fs dir r fs1 q n :
  MkdirAll fs dir = (r, fs1) → nodes fs !! q = Some n → nodes fs1 !! q = Some n.
Proof. intros [_ Hq]%MkdirAll_spec Hn. destruct (Hq q) as [->|[H _]]; [done|congruence]. Qed.

(** Writes inside the region do not matter. *)
Lemma session_inv_region R fs0 tf s fs fs' :
  session_inv R fs0 tf s fs → denied fs' = denied fs →
  (∀ q, ¬ R q → nodes fs' !! q = nodes fs !! q) → session_inv R fs0 tf s fs'.
Proof.
  intros [] Hd Hq. split; rewrite ?Hd; try done.
  - intros q n HR. rewrite Hq by done. by apply ses_kept0.
  - intros n Hn Htf. rewrite Hq by auto. by apply ses_text0.
  - intros q d HR. rewrite Hq by done. by apply ses_new0.
  - intros p Hp. destruct (ses_saved0 p Hp) as (? & ? & ? & ? & d & ?).
    split_and!; [done..|]. exists d. by rewrite Hq.
Qed.

Lemma session_inv_mkdir R fs0 tf s fs dir r fs1 :
  session_inv R fs0 tf s fs → MkdirAll fs dir = (r, fs1) → session_inv R fs0 tf s fs1.
Proof.
  intros [] Hm. pose proof (MkdirAll_keeps fs dir r fs1) as Hk.
  pose proof (MkdirAll_spec _ _ _ _ Hm) as [Hden Hq]. split.
  - done.
  - congruence.
  - done.
  - intros q n HR H1 H2. eauto.
  - intros n Hn Htf. destruct (ses_text0 n Hn Htf) as [?|(d & t & ? & ? & ? & ?)]; [by left; eauto|].
    right. exists d, t. rewrite Hden. eauto.
  - intros q d HR Hd. rewrite Hden. apply (ses_new0 q d HR). destruct (Hq q) as [<-|[_ H]]; [done|congruence].
  - intros p Hp. destruct (ses_saved0 p Hp) as (? & ? & ? & ? & d & ?). rewrite Hden.
    split_and!; eauto.
Qed.

Lemma session_inv_save R fs0 tf s fs dir name data s' fs' :
  dir ≠ "" → safe_name name → (∀ x, ¬ R ((resolve dir).1, (resolve dir).2 ++ [x])) →
  session_inv R fs0 tf s fs →
  writeSaveDir s fs dir name data = (s', fs') → session_inv R fs0 tf s' fs'.
Proof.
  intros Hd Hn HRd HI Hw.
  destruct (writeSaveDir_spec _ _ _ _ _ _ _ Hd Hn Hw) as (r & fs1 & Hm & Hcase).
  pose proof (session_inv_mkdir _ _ _ _ _ _ _ _ HI Hm) as HI1.
  assert (∀ x p, resolve p = ((resolve dir).1, (resolve dir).2 ++ [x]) → ¬ R (resolve p)) as HRp.
  { intros x p ->. apply HRd. }
  destruct Hcase as [[-> ->]|(p & x & Hx & Hp & Hno & Hden & -> & ->)]; [done|].
  destruct HI1. split; try done; cbn [recordSaved savedFiles textFilePath textFileOffset].
  - intros q n HR H1 H2. rewrite put_lookup. case_decide; [|by eauto]. subst q.
    pose proof (ses_kept0 _ _ HR H1 H2). congruence.
  - intros n Hn0 Htf. rewrite put_lookup. case_decide as E; [|by eauto]. exfalso.
    destruct (ses_text0 n Hn0 Htf) as [?|(d & t & _ & ? & _)]; congruence.
  - intros q d HR. rewrite put_lookup, map_app. case_decide as E.
    + intros _. subst q. right. left. set_solver.
    + intros [?|[?|?]]%ses_new0; [by left|right; left; set_solver|right; by right|done].
  - assert (top (resolve p) = false) as Htop.
    { rewrite Hp. apply top_snoc. by destruct Hx as (_ & _ & _ & ?). }
    intros p' [Hp'|Hp'%list_elem_of_singleton]%elem_of_app.
    + destruct (ses_saved0 p' Hp') as (? & ? & ? & ? & d & ?). split_and!; [done..|].
      rewrite put_lookup. case_decide; [congruence|by eauto].
    + subst p'. split_and!; [|done|done|by eapply HRp|rewrite put_same; by eauto].
      destruct (nodes fs0 !! resolve p) as [n|] eqn:E; [|done].
      destruct (decide (resolve p ≠ resolve tf ∨ tf = "")) as [H|H].
      * pose proof (ses_kept0 _ _ (HRp _ _ Hp) E H). congruence.
      * assert (tf ≠ "" ∧ resolve p = resolve tf) as [Htf Heq].
        { split; [tauto|]. by destruct (decide (resolve p = resolve tf)); [|tauto]. }
        rewrite Heq in *. destruct (ses_text0 n E Htf) as [?|(d & t & _ & ? & _)]; congruence.
Qed.

Lemma session_inv_append R now fs0 tf s fs env :
  tf ≠ "" → session_inv R fs0 tf s fs →
  session_inv R fs0 tf (appendTextSink now s fs tf env).1 (appendTextSink now s fs tf env).2.
Proof.
  intros Htf HI. unfold appendTextSink. cbn [fst snd].
  assert (setTextFile s fs tf = s) as ->.
  { unfold setTextFile.
    destruct (ses_path _ _ _ _ _ HI) as [E _]. by rewrite E, String.eqb_refl. }
  destruct (AppendFile fs tf _) as [r fs'] eqn:Ea. cbn [snd].
  pose proof Ea as Ea'.
  apply AppendFile_spec in Ea as (Hd & [(e & _ & ->)|(old & -> & Hden & -> & Hold)]); [done|].
  apply AppendFile_top in Ea' as Htop. clear Ea'.
  destruct HI. split; try done.
  - intros q n HR H1 [H2|]; [|done]. rewrite put_other by congruence. eauto.
  - intros n Hn0 _. right. rewrite put_same. destruct Hold as [Hold|[Hold ->]].
    + destruct (ses_text0 n Hn0 Htf) as [H|(d & t & -> & H & _)].
      * exists old. eexists. split_and!; [congruence|done..].
      * assert (old = d +:+ t) as -> by congruence. exists d. eexists.
        split_and!; [done|by rewrite str_app_assoc|done..].
    + destruct (ses_text0 n Hn0 Htf) as [H|(d & t & -> & H & _)]; congruence.
  - intros q d HR. rewrite put_lookup. case_decide as E; [|by apply ses_new0]. intros _. subst q.
    destruct (nodes fs0 !! resolve tf) as [n|] eqn:E0; [|by right; right].
    left. destruct (ses_text0 n eq_refl Htf) as [H|(d' & t & -> & _)]; [|by eexists].
    destruct Hold as [Hold|[Hold _]]; [|congruence]. exists old. congruence.
  - intros p Hp. destruct (ses_saved0 p Hp) as (? & ? & ? & ? & d & ?). split_and!; [done..|].
    rewrite put_lookup. case_decide; eauto.
Qed.

(** A received item, whatever its type, if its blob was verified. *)
Definition item_ok `{Blake3} (item : Item) : Prop :=
  let env := it_Envelope item in
  Type_ env = TypeImage ∨ Type_ env = TypeFile → verified env.

(** The folder sink stays out of the region. *)
Definition sink_outside (R : cpath → Prop) (c : Settings) : Prop :=
  ∀ x, ¬ R ((resolve (SaveDir c)).1, (resolve (SaveDir c)).2 ++ [x]).

Lemma session_inv_route `{Blake3} R now fs0 c s fs item :
  item_ok item → sink_outside R c → session_inv R fs0 (TextFile c) s fs →
  session_inv R fs0 (TextFile c) (routeSinks now c s fs item).1 (routeSinks now c s fs item).2.
Proof.
  intros Hv Ho HI. unfold item_ok in Hv. unfold routeSinks.
  destruct (String.eqb_spec (Type_ (it_Envelope item)) TypeText).
  { destruct (String.eqb_spec (TextFile c) ""); cbn [negb]; [done|].
    by apply session_inv_append. }
  assert (∀ name, safe_name name → ∀ data,
    let r := if negb (String.eqb (SaveDir c) "") then writeSaveDir s fs (SaveDir c) name data
             else (s, fs) in
    session_inv R fs0 (TextFile c) r.1 r.2) as Hsave.
  { intros name Hn data. destruct (String.eqb_spec (SaveDir c) ""); cbn [negb]; [done|].
    destruct (writeSaveDir s fs (SaveDir c) name data) as [s' fs'] eqn:E.
    by eapply session_inv_save. }
  destruct (String.eqb_spec (Type_ (it_Envelope item)) TypeImage).
  { apply Hsave. apply save_names_safe. tauto. }
  destruct (String.eqb_spec (Type_ (it_Envelope item)) TypeFile); [|done].
  apply Hsave. apply save_names_safe. tauto.
Qed.

(** A session's items, in order, each with the time it came in. *)
Definition route_all `{Blake3} (c : Settings) (s : session) (fs : FS) (items : list (Z * Item))
    : session * FS :=
  foldl (λ st it, routeSinks it.1 c st.1 st.2 it.2) (s, fs) items.

Lemma session_inv_route_all `{Blake3} R fs0 c s fs items :
  Forall (λ it, item_ok it.2) items → sink_outside R c → session_inv R fs0 (TextFile c) s fs →
  session_inv R fs0 (TextFile c) (route_all c s fs items).1 (route_all c s fs items).2.
Proof.
  unfold route_all. intros HF Ho. revert s fs. induction HF as [|it items Hi _ IH]; intros s fs HI.
  - done.
  - cbn [foldl fst snd]. pose proof (session_inv_route R it.1 fs0 c s fs it.2 Hi Ho HI) as HI'.
    destruct (routeSinks it.1 c s fs it.2) as [s' fs']. by apply IH.
Qed.

(** ** Clearing: lemmas *)

Lemma remove_file fs p d :
  nodes fs !! resolve p = Some (File d) → top (resolve p) = false → resolve p ∉ denied fs →
  (Remove fs p).2 = drop_node fs (resolve p).
Proof.
  intros Hn Ht Hd. unfold Remove. rewrite decide_False, node_at_nodes by done. by rewrite Hn.
Qed.

Lemma remove_absent fs p : nodes fs !! resolve p = None → top (resolve p) = false →
  (Remove fs p).2 = fs.
Proof.
  intros Hn Ht. unfold Remove. case_decide; [done|]. by rewrite node_at_nodes, Hn.
Qed.

(** Removing recorded files removes exactly them. *)
Lemma remove_all_saved saved fs :
  (∀ p, p ∈ saved → resolve p ∉ denied fs ∧ top (resolve p) = false ∧
     (nodes fs !! resolve p = None ∨ ∃ d, nodes fs !! resolve p = Some (File d))) →
  ∀ q, nodes (foldl (λ fs f, (Remove fs f).2) fs saved) !! q =
       if decide (q ∈ map resolve saved) then None else nodes fs !! q.
Proof.
  revert fs. induction saved as [|p saved IH]; intros fs Hs q; cbn [foldl map].
  { by rewrite decide_False by set_solver. }
  destruct (Hs p) as (Hd & Ht & Hn); [set_solver|].
  assert ((Remove fs p).2 = drop_node fs (resolve p) ∨
          (Remove fs p).2 = fs ∧ nodes fs !! resolve p = None) as Hr.
  { destruct Hn as [Hn|[d Hn]]; [right; by rewrite remove_absent|left; by eapply remove_file]. }
  assert (∀ q', nodes (Remove fs p).2 !! q' = if decide (q' = resolve p) then None else nodes fs !! q')
    as Hq.
  { intros q'. case_decide as E; [subst q'|]; destruct Hr as [->|[-> H]]; try done.
    - by rewrite drop_same.
    - by rewrite drop_other. }
  assert (denied (Remove fs p).2 = denied fs) as Hden by (by destruct Hr as [->|[-> _]]).
  rewrite IH.
  - rewrite Hq. repeat case_decide; set_solver.
  - intros p' Hp'. destruct (Hs p') as (? & ? & Hn'); [set_solver|]. rewrite Hden, Hq.
    split_and!; [done..|]. case_decide; [by left|done].
Qed.

(** The append file cut back to its size at the start of the session. *)
Definition truncated (s : session) (fs : FS) : FS :=
  let path := textFilePath s in
  let off := textFileOffset s in
  if negb (String.eqb path "") then
    match Stat fs path with
    | Ok fi => if (off <? node_size fi)%Z then (Truncate fs path off).2 else fs
    | Err _ => fs
    end
  else fs.

Lemma truncated_denied s fs : denied (truncated s fs) = denied fs.
Proof.
  unfold truncated. destruct (negb _); [|done]. destruct (Stat fs _); [|done].
  destruct (_ <? _)%Z; [|done]. destruct (Truncate fs _ _) as [r fs'] eqn:E.
  by apply Truncate_spec in E as [->|(d & _ & _ & ->)].
Qed.

Lemma truncated_other s fs q :
  q ≠ resolve (textFilePath s) ∨ textFilePath s = "" →
  nodes (truncated s fs) !! q = nodes fs !! q.
Proof.
  intros Hq. unfold truncated. destruct (String.eqb_spec (textFilePath s) ""); [done|]. cbn [negb].
  destruct (Stat fs _); [|done]. destruct (_ <? _)%Z; [|done].
  destruct (Truncate fs _ _) as [r fs'] eqn:E.
  apply Truncate_spec in E as [->|(d & _ & _ & ->)]; [done|]. apply put_other. naive_solver.
Qed.

Lemma Truncate_file fs path d n :
  nodes fs !! resolve path = Some (File d) → top (resolve path) = false →
  resolve path ∉ denied fs →
  (Truncate fs path n).2 = put fs (resolve path) (File (resize d n)).
Proof.
  intros Hn Ht Hd. unfold Truncate. rewrite decide_False, node_at_nodes by done. by rewrite Hn.
Qed.

Lemma Stat_file fs path n :
  nodes fs !! resolve path = Some n → top (resolve path) = false → resolve path ∉ denied fs →
  Stat fs path = Ok n.
Proof.
  intros Hn Ht Hd. unfold Stat. rewrite node_at_nodes, Hn by done. by rewrite decide_False.
Qed.

Lemma resize_zero d : resize d 0 = "".
Proof. rewrite resize_take by (simpl; lia). by destruct d. Qed.

(** The append file that was there has its old content again. *)
Lemma truncated_old R fs0 tf s fs n :
  session_inv R fs0 tf s fs → tf ≠ "" → nodes fs0 !! resolve tf = Some n →
  nodes (truncated s fs) !! resolve tf = Some n.
Proof.
  intros HI Htf Hn. destruct (ses_path _ _ _ _ _ HI) as [Hp Ho].
  pose proof (ses_denied _ _ _ _ _ HI) as Hden.
  destruct (String.eqb_spec tf "") as [|_]; [done|].
  assert (∀ d t, n = File d → nodes fs !! resolve tf = Some (File (d +:+ t)) →
    resolve tf ∉ denied fs → top (resolve tf) = false →
    nodes (truncated s fs) !! resolve tf = Some (File d)) as Hgrown.
  { intros d t -> Hf Hd Htop. unfold truncated. rewrite Hp, Ho.
    destruct (String.eqb_spec tf "") as [|_]; [done|]. cbn [negb].
    unfold fileSize. rewrite (Stat_file fs0 tf (File d)) by congruence.
    rewrite (Stat_file fs tf (File (d +:+ t))) by done. cbn [node_size].
    rewrite len_app. destruct (Z.ltb_spec (len d) (len d + len t)).
    - rewrite (Truncate_file _ _ (d +:+ t)) by done. by rewrite resize_grown, put_same.
    - pose proof (len_nonneg t). assert (t = "") as -> by (apply len_zero; lia).
      by rewrite str_app_nil_r in Hf. }
  destruct (ses_text _ _ _ _ _ HI n Hn Htf) as [Hf|(d & t & -> & Hf & Hd & Htop)]; [|by eapply Hgrown].
  unfold truncated. rewrite Hp, Ho. destruct (String.eqb_spec tf "") as [|_]; [done|]. cbn [negb].
  assert (Stat fs tf = Stat fs0 tf) as HS.
  { unfold Stat, node_at, missing, node_at. rewrite Hn, Hf, Hden. by destruct (top (resolve tf)). }
  unfold fileSize. rewrite HS. destruct (Stat fs0 tf) as [m|]; [|done].
  by rewrite Z.ltb_irrefl.
Qed.

(** An append file the session created is empty. *)
Lemma truncated_new R fs0 tf s fs d :
  session_inv R fs0 tf s fs → tf ≠ "" → nodes fs0 !! resolve tf = None →
  nodes fs !! resolve tf = Some (File d) → nodes (truncated s fs) !! resolve tf = Some (File "").
Proof.
  intros HI Htf Hn Hf. destruct (ses_path _ _ _ _ _ HI) as [Hp Ho].
  destruct (String.eqb_spec tf "") as [|_]; [done|].
  assert (top (resolve tf) = false ∧ resolve tf ∉ denied fs) as [Htop Hd].
  { destruct (ses_new _ _ _ _ _ HI _ _ (ses_out _ _ _ _ _ HI Htf) Hf)
      as [[d0 ?]|[Hin|(_ & _ & _ & ? & ?)]]; [congruence| |done].
    apply list_elem_of_fmap in Hin as (p & Hpe & Hpin).
    destruct (ses_saved _ _ _ _ _ HI p Hpin) as (_ & ? & ? & _). by rewrite Hpe. }
  unfold truncated. rewrite Hp, Ho. destruct (String.eqb_spec tf "") as [|_]; [done|]. cbn [negb].
  assert (fileSize fs0 tf = 0%Z) as ->.
  { unfold fileSize, Stat. rewrite node_at_nodes by done. by rewrite Hn. }
  rewrite (Stat_file fs tf (File d)) by done. cbn [node_size].
  destruct (Z.ltb_spec 0 (len d)).
  - rewrite (Truncate_file _ _ d) by done. by rewrite resize_zero, put_same.
  - pose proof (len_nonneg d). assert (d = "") as -> by (apply len_zero; lia). done.
Qed.

Lemma clearSinks_nodes R fs0 tf s fs q :
  session_inv R fs0 tf s fs →
  nodes (clearSinks s fs).2 !! q =
    if decide (q ∈ map resolve (savedFiles s)) then None else nodes (truncated s fs) !! q.
Proof.
  intros HI. change ((clearSinks s fs).2) with
    (foldl (λ fs f, (Remove fs f).2) (truncated s fs) (savedFiles s)).
  apply remove_all_saved. intros p Hp. rewrite truncated_denied.
  destruct (ses_saved _ _ _ _ _ HI p Hp) as (Hn0 & ? & ? & _ & d & Hd). split_and!; [done..|].
  destruct (ses_path _ _ _ _ _ HI) as [Hpath _].
  destruct (decide (resolve p = resolve tf)) as [E|Hne].
  - destruct (decide (tf = "")) as [->|Htf].
    + rewrite truncated_other by (right; congruence). eauto.
    + rewrite E in *. right. eexists. by eapply truncated_new.
  - rewrite truncated_other by (left; congruence). eauto.
Qed.

(** What clearing the sinks leaves outside the region. *)
Lemma clearSinks_result R fs0 tf s fs :
  session_inv R fs0 tf s fs →
  (∀ q n, ¬ R q → nodes fs0 !! q = Some n → nodes (clearSinks s fs).2 !! q = Some n) ∧
  (∀ q d, ¬ R q → nodes (clearSinks s fs).2 !! q = Some (File d) →
     nodes fs0 !! q = Some (File d) ∨
     (tf ≠ "" ∧ q = resolve tf ∧ nodes fs0 !! q = None ∧ d = "")).
Proof.
  intros HI. destruct (ses_path _ _ _ _ _ HI) as [Hpath _].
  assert (∀ q n, ¬ R q → nodes fs0 !! q = Some n → nodes (clearSinks s fs).2 !! q = Some n) as Hkeep.
  { intros q n HR Hn. rewrite (clearSinks_nodes _ _ _ _ _ _ HI). rewrite decide_False.
    - destruct (decide (tf = "")) as [Htf|Htf].
      + rewrite truncated_other by (right; congruence). apply (ses_kept _ _ _ _ _ HI); auto.
      + destruct (decide (q = resolve tf)) as [->|Hq]; [by eapply truncated_old|].
        rewrite truncated_other by (left; congruence). apply (ses_kept _ _ _ _ _ HI); auto.
    - intros Hin. apply list_elem_of_fmap in Hin as (p & -> & Hp).
      destruct (ses_saved _ _ _ _ _ HI p Hp) as [? _]. congruence. }
  split; [exact Hkeep|]. intros q d HR.
  rewrite (clearSinks_nodes _ _ _ _ _ _ HI). case_decide as Hin; [done|]. intros Hd.
  destruct (nodes fs0 !! q) as [n|] eqn:E.
  { left. pose proof (Hkeep q n HR E) as Hk. rewrite (clearSinks_nodes _ _ _ _ _ _ HI) in Hk.
    rewrite decide_False in Hk by done. congruence. }
  right. assert (tf = "" ∨ q ≠ resolve tf → False) as Hno.
  { intros Hq. rewrite truncated_other in Hd by (destruct Hq; [right|left]; congruence).
    destruct (ses_new _ _ _ _ _ HI q d HR Hd) as [[d0 ?]|[?|(? & ? & _)]]; [congruence|done|].
    by destruct Hq. }
  destruct (decide (tf = "")) as [|Htf]; [exfalso; auto|].
  destruct (decide (q = resolve tf)) as [->|]; [|exfalso; auto].
  split_and!; [done..|]. clear Hno.
  destruct (nodes fs !! resolve tf) as [[d'|]|] eqn:E2.
  { rewrite (truncated_new _ _ _ _ _ _ HI Htf E E2) in Hd. congruence. }
  all: exfalso; unfold truncated in Hd; rewrite Hpath in Hd; revert Hd.
  all: destruct (negb _); [|congruence]; destruct (Stat fs _); [|congruence].
  all: destruct (_ <? _)%Z; [|congruence]; destruct (Truncate fs _ _) as [r fs'] eqn:Et.
  all: apply Truncate_spec in Et as [->|(d0 & ? & _)]; simpl; congruence.
Qed.

(** ** The sinks keep the tree canonical *)

Lemma fs_wf_writeSaveDir s fs dir name data :
  fs_wf fs → fs_wf (writeSaveDir s fs dir name data).2.
Proof.
  intros Hf. unfold writeSaveDir. destruct (MkdirAll fs dir) as [[[]|e] fs1] eqn:Em;
    [|by eapply fs_wf_MkdirAll].
  assert (fs_wf fs1) as Hf1 by by eapply fs_wf_MkdirAll.
  destruct (dedupPath _ fs1 dir name) as [p|]; [|done].
  destruct (WriteFile fs1 p data) as [[[]|e] fs2] eqn:Ew; cbn [snd]; by eapply fs_wf_WriteFile.
Qed.

Lemma fs_wf_routeSinks `{Blake3} now c s fs item :
  fs_wf fs → fs_wf (routeSinks now c s fs item).2.
Proof.
  intros Hf. unfold routeSinks. repeat (case_match; try done); try by apply fs_wf_writeSaveDir.
  unfold appendTextSink. cbn [snd]. destruct (AppendFile fs _ _) as [r fs'] eqn:E.
  by eapply fs_wf_AppendFile.
Qed.

(** ** Examples *)

#[local] Existing Instance pad_blake3.

Definition sink_settings : Settings :=
  mkSettings "notify" "/in" "/log.txt" "ask" "dev" "default" "" "off" "off".

Definition demo_env (ty text filename data : string) : Envelope :=
  mkEnvelope 1 "01" ty "" "SHA256:a" "laptop" 0 filename text
    (if String.eqb ty TypeText then None else Some (mkBlob (HashHex data) (len data) 0 0)) data.

Definition demo_items : list (Z * Item) :=
  [(0%Z, mkItem (demo_env TypeText "hello" "" "") "");
   (0%Z, mkItem (demo_env TypeFile "" "../../etc/passwd" "AAAA") "");
   (0%Z, mkItem (demo_env TypeFile "" ".." "BBBB") "")].

Definition demo_fs : FS :=
  mkFS (<[(true, ["log.txt"]) := File "old"]> (<[(true, ["in"]) := Directory]>
       (<[(true, ["in"; "passwd"]) := File "mine"]> ∅))) ∅.

Definition demo_routed : session * FS :=
  route_all sink_settings (newSession demo_fs "/log.txt") demo_fs demo_items.

Example demo_routed_files :
  ReadFile demo_routed.2 "/in/passwd" = Ok "mine" ∧
  ReadFile demo_routed.2 "/in/passwd (2)" = Ok "AAAA" ∧
  ReadFile demo_routed.2 "/in/. (2)." = Ok "BBBB" ∧
  savedFiles demo_routed.1 = ["/in/passwd (2)"; "/in/. (2)."].
Proof. vm_compute. repeat split. Qed.

Lemma demo_items_ok : Forall (λ it, item_ok it.2) demo_items.
Proof.
  assert (∀ fn d, verified (demo_env TypeFile "" fn d)) as Hv.
  { intros fn d. eexists. split; reflexivity. }
  repeat constructor; unfold item_ok; cbn; try (by intros [|]); intros _; apply Hv.
Qed.

(** ** Properties *)

(** [clear --all] reverts a session.  Whatever items came in, and whatever they were called,
    after [clearSinks] every file that was there when the session started has its old content,
    the append file included; no directory is lost; and no file of the session is left, but for an
    append file the session created, which is empty. *)
Theorem clearSinks_reverts `{Blake3} fs0 c items :
  Forall (λ it, item_ok it.2) items →
  let st := route_all c (newSession fs0 (TextFile c)) fs0 items in
  let st' := clearSinks st.1 st.2 in
  (∀ q n, nodes fs0 !! q = Some n → nodes st'.2 !! q = Some n) ∧
  (∀ q d, nodes st'.2 !! q = Some (File d) → nodes fs0 !! q = Some (File d) ∨
     (TextFile c ≠ "" ∧ q = resolve (TextFile c) ∧ nodes fs0 !! q = None ∧ d = "")) ∧
  savedFiles st'.1 = [].
Proof.
  intros Hit st st'. subst st'.
  assert (session_inv (λ _, False) fs0 (TextFile c) st.1 st.2) as HI.
  { apply session_inv_route_all; [done|intros x []|]. apply newSession_inv. intros _ []. }
  destruct (clearSinks_result _ _ _ _ _ HI) as [Hkeep Hnew]. auto.
Qed.

Lemma demo_routed_cleared :
  ReadFile (clearSinks demo_routed.1 demo_routed.2).2 "/log.txt" = Ok "old" ∧
  nodes demo_fs !! (true, ["in"; "passwd"]) = Some (File "mine").
Proof. split; vm_compute; reflexivity. Qed.

Lemma clearSinks_reverts_witness :
  ReadFile (clearSinks demo_routed.1 demo_routed.2).2 "/log.txt" = Ok "old" ∧
  nodes (clearSinks demo_routed.1 demo_routed.2).2 !! (true, ["in"; "passwd"]) = Some (File "mine").
Proof.
  destruct (clearSinks_reverts demo_fs sink_settings demo_items demo_items_ok) as [Hkeep _].
  split; [exact (proj1 demo_routed_cleared)|].
  exact (Hkeep (true, ["in"; "passwd"]) (File "mine") (proj2 demo_routed_cleared)).
Defined.

(** What a sink may do to the files [fs]: files stay, and a new one holds [data], directly inside
    [dir], and is recorded. *)
Definition saves (dir data : string) (s s' : session) (fs fs' : FS) : Prop :=
  (∀ q n, nodes fs !! q = Some n → nodes fs' !! q = Some n) ∧
  (∀ q d, nodes fs' !! q = Some (File d) → nodes fs !! q = Some (File d) ∨
     (nodes fs !! q = None ∧ d = data ∧
      ∃ x p, ordinary x ∧ q = ((resolve dir).1, (resolve dir).2 ++ [x]) ∧
             resolve p = q ∧ savedFiles s' = savedFiles s ++ [p])).

Lemma saves_nothing dir data s fs : saves dir data s s fs fs.
Proof. split; auto. Qed.

Lemma writeSaveDir_saves dir data name s fs s' fs' :
  safe_name name →
  (if negb (String.eqb dir "") then writeSaveDir s fs dir name data else (s, fs)) = (s', fs') →
  saves dir data s s' fs fs'.
Proof.
  intros Hn. destruct (String.eqb_spec dir ""); cbn [negb]; [intros [= <- <-]; apply saves_nothing|].
  intros (r & fs1 & Hm & Hcase)%writeSaveDir_spec; [|done..].
  pose proof (λ q n, MkdirAll_keeps _ _ _ _ q n Hm) as Hk.
  pose proof (MkdirAll_spec _ _ _ _ Hm) as [_ Hq].
  assert (∀ q d, nodes fs1 !! q = Some (File d) → nodes fs !! q = Some (File d)) as Hback.
  { intros q d Hd. destruct (Hq q) as [<-|[_ H0]]; [done|congruence]. }
  destruct Hcase as [[-> ->]|(p & x & Hx & Hp & Hno & _ & -> & ->)]; [by split; auto|].
  split; intros q m; rewrite put_lookup; case_decide as E; [subst q| |subst q|]; auto.
  - intros Hm0. apply Hk in Hm0. congruence.
  - intros [= <-]. right. split_and!; [|done|by exists x, p].
    destruct (nodes fs !! resolve p) as [m0|] eqn:E0; [|done]. apply Hk in E0. congruence.
Qed.

Lemma appendTextSink_appends now s fs path env fs' :
  fs' = (appendTextSink now s fs path env).2 →
  (∀ q n, nodes fs !! q = Some n → nodes fs' !! q = Some n ∨
     (q = resolve path ∧ ∃ d, n = File d ∧
      nodes fs' !! q = Some (File (d +:+ text_entry now env)))) ∧
  (∀ q d, nodes fs' !! q = Some (File d) → nodes fs !! q = Some (File d) ∨ q = resolve path).
Proof.
  unfold appendTextSink. destruct (AppendFile fs _ _) as [r fs1] eqn:Ea. intros ->. cbn [snd].
  apply AppendFile_spec in Ea as (_ & [(e0 & _ & ->)|(old & _ & _ & -> & Hold)]); [naive_solver|].
  split; intros q n'; rewrite put_lookup; case_decide as E; [subst q| |subst q|]; auto.
  intros Hn. right. split; [done|]. exists old. destruct Hold as [Hold|[Hold _]]; [|congruence].
  split; [congruence|done].
Qed.

(** A verified item reaches the directory or the append file, or nothing happens. *)
Lemma routeSinks_cases `{Blake3} now c s fs item s' fs' :
  item_ok item → routeSinks now c s fs item = (s', fs') →
  saves (SaveDir c) (BlobData (it_Envelope item)) s s' fs fs' ∨
  (TextFile c ≠ "" ∧ fs' = (appendTextSink now s fs (TextFile c) (it_Envelope item)).2).
Proof.
  unfold item_ok, routeSinks. intros Hv.
  assert ((s, fs) = (s', fs') → saves (SaveDir c) (BlobData (it_Envelope item)) s s' fs fs') as Hid
    by (intros [= <- <-]; apply saves_nothing).
  destruct (String.eqb_spec (Type_ (it_Envelope item)) TypeText).
  { destruct (String.eqb_spec (TextFile c) ""); cbn [negb]; [auto|].
    intros Ht. right. by rewrite Ht. }
  destruct (String.eqb_spec (Type_ (it_Envelope item)) TypeImage).
  { intros Hw. left. eapply writeSaveDir_saves, Hw. apply save_names_safe; tauto. }
  destruct (String.eqb_spec (Type_ (it_Envelope item)) TypeFile); [|auto].
  intros Hw. left. eapply writeSaveDir_saves, Hw. apply save_names_safe; tauto.
Qed.

(** C16. Receiving an item is confined: a verified item, whatever file name its sender chose, makes
    the sinks append to the append file, or create one new file directly inside [save_dir]; every
    other node keeps what it held, so no file is ever overwritten. *)
Theorem routeSinks_confined `{Blake3} now c s fs item s' fs' :
  item_ok item → routeSinks now c s fs item = (s', fs') →
  (∀ q n, nodes fs !! q = Some n → nodes fs' !! q = Some n ∨
     (TextFile c ≠ "" ∧ q = resolve (TextFile c) ∧ ∃ d, n = File d ∧
      nodes fs' !! q = Some (File (d +:+ text_entry now (it_Envelope item))))) ∧
  (∀ q d, nodes fs' !! q = Some (File d) → nodes fs !! q = Some (File d) ∨
     (TextFile c ≠ "" ∧ q = resolve (TextFile c)) ∨
     (nodes fs !! q = None ∧ d = BlobData (it_Envelope item) ∧
      ∃ x p, ordinary x ∧ q = ((resolve (SaveDir c)).1, (resolve (SaveDir c)).2 ++ [x]) ∧
             resolve p = q ∧ savedFiles s' = savedFiles s ++ [p])).
Proof.
  intros Hv [[Hk Hf]|[Ht Ha]]%routeSinks_cases; [| |done].
  - split; [by auto|]. intros q d [Hq|Hq]%Hf; auto.
  - apply appendTextSink_appends in Ha as [Hk Hf].
    split; [intros q n [Hq|[? ?]]%Hk; auto|]. intros q d [Hq|Hq]%Hf; auto.
Qed.

Definition demo_evil : Item := mkItem (demo_env TypeFile "" "../../log.txt" "XXXX") "".
Definition demo_evil_routed : session * FS :=
  routeSinks 0 sink_settings (newSession demo_fs "") demo_fs demo_evil.

Lemma demo_evil_ok : item_ok demo_evil.
Proof. unfold item_ok. intros _. eexists. split; reflexivity. Qed.

Lemma demo_evil_saved :
  ReadFile demo_evil_routed.2 "/in/log.txt" = Ok "XXXX" ∧
  nodes demo_fs !! (true, ["log.txt"]) = Some (File "old").
Proof. split; vm_compute; reflexivity. Qed.

Lemma routeSinks_confined_witness :
  ReadFile demo_evil_routed.2 "/in/log.txt" = Ok "XXXX" ∧
  (nodes demo_evil_routed.2 !! (true, ["log.txt"]) = Some (File "old") ∨
   (TextFile sink_settings ≠ "" ∧ (true, ["log.txt"]) = resolve (TextFile sink_settings) ∧
    ∃ d, File "old" = File d ∧ nodes demo_evil_routed.2 !! (true, ["log.txt"])
      = Some (File (d +:+ text_entry 0 (it_Envelope demo_evil))))).
Proof.
  destruct (routeSinks_confined 0 sink_settings (newSession demo_fs "") demo_fs demo_evil
    demo_evil_routed.1 demo_evil_routed.2 demo_evil_ok (surjective_pairing demo_evil_routed))
    as [Hkeep _].
  split; [exact (proj1 demo_evil_saved)|].
  exact (Hkeep (true, ["log.txt"]) (File "old") (proj2 demo_evil_saved)).
Defined.

(** [dedupPath] terminates: whatever the directory holds, among the candidates up to the number
    of nodes plus two there is a free one.  The path it returns names nothing that exists; it is
    the plain name when that is free, else the first free numbered one. *)
Theorem dedupPath_total fs dir name :
  dir ≠ "" → safe_name name →
  ∃ p, dedupPath (dedup_fuel fs) fs dir name = Some p ∧ exists_ fs p = false ∧
    (p = Join dir name ∨
     exists_ fs (Join dir name) = true ∧
     ∃ j, (2 <= j)%nat ∧ p = dedup_cand dir name j ∧
          ∀ k, (2 <= k < j)%nat → exists_ fs (dedup_cand dir name k) = true).
Proof.
  intros Hd Hn. unfold dedupPath. destruct (exists_ fs (Join dir name)) eqn:E; cbn [negb].
  - destruct (dedup_from_total fs dir name 2 (dedup_fuel fs) Hd Hn) as [p Hp]; [unfold dedup_fuel; lia|].
    exists p. split; [done|]. apply dedup_from_some in Hp as (j & Hj & Hpe & He & Hk).
    split; [done|]. right. split; [done|]. by exists j.
  - eexists. split; [done|]. split; [done|]. by left.
Qed.

Lemma dedupPath_total_witness :
  ∃ p, dedupPath (dedup_fuel demo_routed.2) demo_routed.2 "/in" "passwd" = Some p ∧
       exists_ demo_routed.2 p = false.
Proof.
  destruct (dedupPath_total demo_routed.2 "/in" "passwd") as (p & Hp & He & _).
  - discriminate.
  - left. reflexivity.
  - exists p. split; [exact Hp|exact He].
Defined.
