(* ===== verification/Daemon.v ===== *)
(** * daemon.go: the resident agent

    [room-go/internal/daemon/daemon.go], with the state-changing helpers of session.go and
    handlers.go it shares with the handlers.  One record holds the whole state of the process: the
    daemon's own fields and the file system and clipboard it owns.  Each operation is one critical
    section of the code; what runs between them is the subject of [Handlers] and [Conn]. *)
From S2P Require Import Prelude GoStr GoPath GoOS Wire Codec Chan Dedupe Ipc Clip GoTime Config Sinks.
Open Scope string_scope.
Open Scope list_scope.

Definition bufferCap : nat := 64.
Definition subCap : nat := 16.

(** A subscriber channel is a name in the map [subs]; an SSH session is a name in [links]. *)
Definition ref : Type := nat.

Record conn := mkConn { c_in : option ref; c_target : string; c_connected : bool }.

Record Daemon := mkDaemon {
  cfg : Store;
  room : string;
  fp : string;
  deviceName : string;
  d_conn : conn;
  d_dedupe : Dedupe;
  buffer : list Item;
  subs : gmap ref (chan Item);
  lastCopy : string;
  sess : session;
  stopReq : bool;          (** closed *)
  fs : FS;
  clip : Clip;
  links : gmap ref writer; (** the stdin pipes of the SSH sessions *)
}.

Definition set_cfg (d : Daemon) (c : Store) (f : FS) : Daemon :=
  mkDaemon c (room d) (fp d) (deviceName d) (d_conn d) (d_dedupe d) (buffer d) (subs d)
    (lastCopy d) (sess d) (stopReq d) f (clip d) (links d).
Definition set_deviceName (d : Daemon) (n : string) : Daemon :=
  mkDaemon (cfg d) (room d) (fp d) n (d_conn d) (d_dedupe d) (buffer d) (subs d)
    (lastCopy d) (sess d) (stopReq d) (fs d) (clip d) (links d).
Definition set_conn (d : Daemon) (c : conn) (l : gmap ref writer) : Daemon :=
  mkDaemon (cfg d) (room d) (fp d) (deviceName d) c (d_dedupe d) (buffer d) (subs d)
    (lastCopy d) (sess d) (stopReq d) (fs d) (clip d) l.
Definition set_dedupe (d : Daemon) (x : Dedupe) : Daemon :=
  mkDaemon (cfg d) (room d) (fp d) (deviceName d) (d_conn d) x (buffer d) (subs d)
    (lastCopy d) (sess d) (stopReq d) (fs d) (clip d) (links d).
Definition set_buffer (d : Daemon) (b : list Item) (s : gmap ref (chan Item)) : Daemon :=
  mkDaemon (cfg d) (room d) (fp d) (deviceName d) (d_conn d) (d_dedupe d) b s
    (lastCopy d) (sess d) (stopReq d) (fs d) (clip d) (links d).
Definition set_sess (d : Daemon) (s : session) (f : FS) : Daemon :=
  mkDaemon (cfg d) (room d) (fp d) (deviceName d) (d_conn d) (d_dedupe d) (buffer d) (subs d)
    (lastCopy d) s (stopReq d) f (clip d) (links d).
Definition set_clip (d : Daemon) (c : Clip) (h : string) : Daemon :=
  mkDaemon (cfg d) (room d) (fp d) (deviceName d) (d_conn d) (d_dedupe d) (buffer d) (subs d)
    h (sess d) (stopReq d) (fs d) c (links d).

Definition matchesKind (item : Item) (kind : string) : bool :=
  if String.eqb kind "" || String.eqb kind "any" then true
  else if String.eqb kind TypeText then String.eqb (Type_ (it_Envelope item)) TypeText
  else if String.eqb kind TypeImage then String.eqb (Type_ (it_Envelope item)) TypeImage
  else true.

(** The newest item of the buffer that passes the test. *)
Definition newest (p : Item → bool) (b : list Item) : option Item :=
  head (filter (λ it, p it = true) (reverse b)).

Definition latest (d : Daemon) (kind : string) : option Item :=
  newest (λ it, matchesKind it kind) (buffer d).

Definition findByID (d : Daemon) (id : string) : option Item :=
  newest (λ it, String.eqb (MsgID (it_Envelope it)) id) (buffer d).

Definition bufferLen (d : Daemon) : Z := Z.of_nat (length (buffer d)).

(** A fresh channel, registered. *)
Definition subscribe (d : Daemon) : ref * Daemon :=
  let r := fresh (dom (subs d)) in
  (r, set_buffer d (buffer d) (<[r := make_chan subCap]> (subs d))).

Definition unsubscribe (d : Daemon) (r : ref) : Daemon :=
  set_buffer d (buffer d) (delete r (subs d)).

(** Non-blocking sends to all subscribers.  Their channels are never closed. *)
Definition notify_subs (s : gmap ref (chan Item)) (item : Item) : gmap ref (chan Item) :=
  (λ ch, match try_send ch item with Sent ch => ch | _ => ch end) <$> s.

Definition push_buffer (b : list Item) (item : Item) : list Item :=
  let b := b ++ [item] in
  if (bufferCap <? length b)%nat then drop (length b - bufferCap) b else b.

(** [waitFor] without a timeout: what it has taken from the channel so far, until an item
    matches; [None]: it is still waiting on an empty channel. *)
Fixpoint waitFor (q : list Item) (kind : string) : option Item * list Item :=
  match q with
  | [] => (None, [])
  | item :: q => if matchesKind item kind then (Some item, q) else waitFor q kind
  end.

Section daemon.
Context `{Blake3} `{Clipboard}.

Definition writeClipboard (d : Daemon) (item : Item) : option string * Daemon :=
  let '(isImage, text, png, hash) := clipContent item in
  let '(err, c) := if isImage : bool then WritePNG (clip d) png else WriteText (clip d) text in
  match err with
  | Some e => (Some e, set_clip d c (lastCopy d))
  | None => (None, set_clip d c hash)
  end.

(** The log line of [notify]. *)
Definition truncate (s : string) (n : nat) : string :=
  if (String.length s <=? n)%nat then s else str_take n s +:+ bytes_of [226; 128; 166]%N.

Definition notify_preview (env : Envelope) : string :=
  let preview :=
    if String.eqb (Type_ env) TypeImage then
      match Blob_ env with
      | Some b => "image " +:+ itoa (Blob_W b) +:+ "x" +:+ itoa (Blob_H b)
      | None => Text env
      end
    else if String.eqb (Type_ env) TypeFile then "file " +:+ fileLabel env
    else Text env in
  truncate preview 40.

Definition applyAutoCopy (d : Daemon) (item : Item) : Daemon :=
  let mode := AutoCopy (Get (cfg d)) in
  let env := it_Envelope item in
  if String.eqb mode "on" then
    if String.eqb (Type_ env) TypeFile then d else (writeClipboard d item).2
  else d.

(** Where a blob is materialised. *)
Definition blob_path (d : Daemon) (env : Envelope) (hash : string) : string :=
  Join (BlobDir (cfg d))
    (hash +:+ (if String.eqb (Type_ env) TypeImage then ".png" else fileExt (Filename env))).

(** The item an envelope becomes, and the file system it leaves; [None]: dropped. *)
Definition materialize (d : Daemon) (env : Envelope) : option Item * FS :=
  if String.eqb (Type_ env) TypeImage || String.eqb (Type_ env) TypeFile then
    match Blob_ env with
    | None => (None, fs d)
    | Some b =>
        if negb (String.eqb (HashHex (BlobData env)) (Hash b)) then (None, fs d)
        else
          let path := blob_path d env (Hash b) in
          match WriteFile (fs d) path (BlobData env) with
          | (Err _, f) => (None, f)
          | (Ok _, f) => (Some (mkItem env path), f)
          end
    end
  else (Some (mkItem env ""), fs d).

Definition ingest (now : Z) (d : Daemon) (env : Envelope) : Daemon :=
  let '(seen_before, dd) := Seen (d_dedupe d) (MsgID env) in
  let d := set_dedupe d dd in
  if seen_before then d
  else
    match materialize d env with
    | (None, f) => set_sess d (sess d) f
    | (Some item, f) =>
        let d := set_sess d (sess d) f in
        let d := set_buffer d (push_buffer (buffer d) item) (notify_subs (subs d) item) in
        let '(s, f) := routeSinks now (Get (cfg d)) (sess d) (fs d) item in
        let d := set_sess d s f in
        applyAutoCopy d item
    end.

(** ** Clearing and stopping *)

Definition clearTransient (d : Daemon) : Daemon :=
  let d := set_buffer d [] (subs d) in
  set_sess d (sess d) (clearBlobs (fs d) (BlobDir (cfg d))).

Definition d_clearSinks (d : Daemon) : Daemon :=
  let '(s, f) := clearSinks (sess d) (fs d) in set_sess d s f.

Definition applyClearScope (d : Daemon) (scope : string) : Daemon :=
  if String.eqb scope "all" then d_clearSinks (clearTransient d)
  else if String.eqb scope "transient" then clearTransient d
  else d.

Definition applyClearOnExit (d : Daemon) (policy : string) (interactive : bool) : Daemon :=
  let scope := if String.eqb policy "ask" && negb interactive then "transient" else policy in
  applyClearScope d scope.

Definition triggerStop (d : Daemon) : Daemon :=
  mkDaemon (cfg d) (room d) (fp d) (deviceName d) (d_conn d) (d_dedupe d) (buffer d) (subs d)
    (lastCopy d) (sess d) true (fs d) (clip d) (links d).

(** ** Start *)

Context `{SshKeys}.

Definition New_ (c : Store) (f : FS) (gen : result string privkey) (cl : Clip) (room : string)
    : result string Daemon * FS :=
  match Signer c f gen with
  | (Err e, f) => (Err e, f)
  | (Ok signer, f) =>
      let settings := Get c in
      let room := if String.eqb room "" then Room_ settings else room in
      let room := if String.eqb room "" then "default" else room in
      (Ok (mkDaemon c room (FingerprintSHA256 signer) (DeviceName_ settings)
             (mkConn None "" false) (NewDedupe 4096) [] ∅ "" (newSession f (TextFile settings))
             false f cl ∅), f)
  end.

(** [Run] up to the accept loop: the error it returns, or the daemon and the target of the
    connection loop it starts; and the file system.  [listen]: what [net.Listen] returns. *)
Definition Run_start (d : Daemon) (socketPath : string) (listen : result string unit)
    : result string (Daemon * option string) * FS :=
  match MkdirAll (fs d) (BlobDir (cfg d)) with
  | (Err e, f) => (Err (Error e), f)
  | (Ok _, f) =>
      let f := (Remove f socketPath).2 in
      match listen with
      | Err e => (Err e, f)
      | Ok _ =>
          let target := Server_ (Get (cfg d)) in
          (Ok (set_sess d (sess d) f, if negb (String.eqb target "") then Some target else None), f)
      end
  end.

(** The shutdown watcher: a signal applies the policy, [daemon stop] has already cleared. *)
Definition shutdown (d : Daemon) (signalled : bool) : Daemon :=
  if signalled then applyClearOnExit d (ClearOnExit (Get (cfg d))) false else d.

End daemon.

(** ** Lemmas *)

Lemma newest_spec p b it :
  newest p b = Some it ↔
  ∃ pre post, b = pre ++ it :: post ∧ p it = true ∧ Forall (λ x, p x = false) post.
Proof.
  unfold newest. revert it. induction b as [|x b IH] using rev_ind; intros it.
  { split; [done|]. intros (pre & post & H & _). by destruct pre. }
  rewrite reverse_app. cbn [reverse rev_append app]. rewrite filter_cons.
  change (reverse [x]) with [x]. cbn [app]. case_decide as Hx; cbn [head].
  - split.
    + intros [= <-]. exists b, []. by repeat constructor.
    + intros (pre & post & H & Hp & Hf). f_equal. destruct post as [|y post _] using rev_ind.
      * by apply app_inj_tail in H as [_ ->].
      * rewrite app_comm_cons, app_assoc in H. apply app_inj_tail in H as [_ <-].
        apply Forall_app in Hf as [_ Hf]. rewrite Forall_singleton in Hf. congruence.
  - rewrite IH. split.
    + intros (pre & post & -> & Hp & Hf). exists pre, (post ++ [x]).
      rewrite app_comm_cons, app_assoc. split_and!; [done..|]. apply Forall_app. split; [done|].
      apply Forall_singleton. by destruct (p x).
    + intros (pre & post & H & Hp & Hf). destruct post as [|y post _] using rev_ind.
      * apply app_inj_tail in H as [_ ->]. congruence.
      * rewrite app_comm_cons, app_assoc in H. apply app_inj_tail in H as [-> _].
        apply Forall_app in Hf as [Hf _]. by exists pre, post.
Qed.

Lemma newest_none p b : newest p b = None ↔ Forall (λ x, p x = false) b.
Proof.
  unfold newest. split.
  - intros H. apply Forall_forall. intros x Hx. destruct (p x) eqn:E; [|done].
    assert (x ∈ filter (λ it, p it = true) (reverse b)) as Hin.
    { apply list_elem_of_filter. split; [done|]. by apply elem_of_reverse. }
    destruct (filter _ _); [by apply elem_of_nil in Hin|done].
  - intros H. rewrite filter_none; [done|]. intros x Hx. rewrite elem_of_reverse in Hx.
    rewrite Forall_forall in H. specialize (H x Hx). simpl in *. congruence.
Qed.

Lemma push_buffer_lastn b item : push_buffer b item = lastn bufferCap (b ++ [item]).
Proof.
  unfold push_buffer, lastn. destruct (Nat.ltb_spec bufferCap (length (b ++ [item]))); [done|].
  by replace (length (b ++ [item]) - bufferCap)%nat with 0%nat by lia.
Qed.

Lemma notify_subs_lookup s item r :
  notify_subs s item !! r =
  (λ ch, match try_send ch item with Sent ch => ch | _ => ch end) <$> s !! r.
Proof. apply lookup_fmap. Qed.

Section lemmas.
Context `{Blake3} `{Clipboard}.

(** What is true of every channel of a subscriber. *)
Definition sub_ok (ch : chan Item) : Prop :=
  closed ch = false ∧ chan_cap ch = subCap ∧ (length (queue ch) <= subCap)%nat ∧
  Forall item_ok (queue ch).

Record daemon_ok (d : Daemon) : Prop := {
  ok_len : (length (buffer d) <= bufferCap)%nat;
  ok_items : Forall item_ok (buffer d);
  ok_dedupe : dedupe_wf (d_dedupe d);
  ok_subs : map_Forall (λ _ ch, sub_ok ch) (subs d);
}.

Lemma notify_one ch item :
  sub_ok ch → item_ok item →
  sub_ok (match try_send ch item with Sent ch => ch | _ => ch end).
Proof.
  intros (Hc & Hcap & Hl & Hq) Hi.
  destruct (try_send_open ch item Hc) as (c' & Hc' & Hcap' & [(Hlt & -> & Hq')|(_ & -> & _)]); [|done].
  split_and!; [done|congruence| |].
  - rewrite Hq', length_app. simpl. lia.
  - rewrite Hq'. apply Forall_app. split; [done|]. by apply Forall_singleton.
Qed.

Lemma materialize_some d env item f :
  materialize d env = (Some item, f) →
  it_Envelope item = env ∧ item_ok item ∧
  (Type_ env = TypeImage ∨ Type_ env = TypeFile →
     ∃ b, Blob_ env = Some b ∧ it_LocalPath item = blob_path d env (Hash b) ∧
          WriteFile (fs d) (it_LocalPath item) (BlobData env) = (Ok (), f)) ∧
  (Type_ env ≠ TypeImage → Type_ env ≠ TypeFile → it_LocalPath item = "" ∧ f = fs d).
Proof.
  unfold materialize. destruct (_ || _) eqn:Et.
  - destruct (Blob_ env) as [b|] eqn:Eb; [|by intros [=]].
    destruct (String.eqb_spec (HashHex (BlobData env)) (Hash b)) as [Hh|]; cbn [negb]; [|by intros [=]].
    destruct (WriteFile (fs d) _ _) as [[[]|e] f0] eqn:Ew; intros [= <- <-]. cbn [it_Envelope it_LocalPath].
    split_and!; [done|intros _; by exists b| |].
    + intros _. by exists b.
    + intros H1 H2. apply orb_true_iff in Et as [?%String.eqb_eq|?%String.eqb_eq]; done.
  - breflect. intros [= <- <-]. cbn [it_Envelope it_LocalPath]. unfold item_ok. cbn.
    split_and!; [done|by intros [|]|by intros [|]|done].
Qed.

Lemma materialize_none d env f :
  materialize d env = (None, f) → f = fs d ∧ (Type_ env = TypeImage ∨ Type_ env = TypeFile).
Proof.
  unfold materialize. destruct (_ || _) eqn:Et; [|done].
  assert (Type_ env = TypeImage ∨ Type_ env = TypeFile) as Ht.
  { apply orb_true_iff in Et as [?%String.eqb_eq|?%String.eqb_eq]; auto. }
  destruct (Blob_ env) as [b|]; [|by intros [= <-]].
  destruct (negb _); [by intros [= <-]|].
  destruct (WriteFile (fs d) _ _) as [[[]|e] f0] eqn:Ew; intros [= <-].
  by apply WriteFile_spec in Ew as (_ & [(e0 & _ & ->)|(He & _)]).
Qed.

(** What [applyAutoCopy] puts on the clipboard. *)
Definition auto_writes (d : Daemon) (item : Item) : list clip_write :=
  let env := it_Envelope item in
  if String.eqb (AutoCopy (Get (cfg d))) "on" && negb (String.eqb (Type_ env) TypeFile)
  then match (ensure (clip d)).1 with
       | Some _ => []
       | None => [if String.eqb (Type_ env) TypeImage then FmtImage (BlobData env)
                  else FmtText (Text env)]
       end
  else [].

Lemma writeClipboard_frame d item :
  let d' := (writeClipboard d item).2 in
  cfg d' = cfg d ∧ room d' = room d ∧ fp d' = fp d ∧ deviceName d' = deviceName d ∧
  d_conn d' = d_conn d ∧ d_dedupe d' = d_dedupe d ∧ buffer d' = buffer d ∧ subs d' = subs d ∧
  sess d' = sess d ∧ stopReq d' = stopReq d ∧ fs d' = fs d ∧ links d' = links d.
Proof.
  unfold writeClipboard. destruct (clipContent item) as [[[isImage text] png] hash].
  destruct (if isImage then _ else _) as [[e|] c]; by split_and!.
Qed.

Lemma writeClipboard_written d item e d' :
  writeClipboard d item = (e, d') →
  let env := it_Envelope item in
  written (clip d') = written (clip d) ++
    match e with
    | Some _ => []
    | None => [if String.eqb (Type_ env) TypeImage then FmtImage (BlobData env)
               else FmtText (if String.eqb (Type_ env) TypeFile then it_LocalPath item else Text env)]
    end ∧ e = (ensure (clip d)).1.
Proof.
  unfold writeClipboard, clipContent.
  assert (∀ s e c, WriteText (clip d) s = (e, c) → e = (ensure (clip d)).1) as Ht.
  { intros s e0 c. unfold WriteText. destruct (ensure (clip d)) as [[e1|] c1]; by intros [= <- <-]. }
  assert (∀ s e c, WritePNG (clip d) s = (e, c) → e = (ensure (clip d)).1) as Hp.
  { intros s e0 c. unfold WritePNG. destruct (ensure (clip d)) as [[e1|] c1]; by intros [= <- <-]. }
  destruct (String.eqb (Type_ (it_Envelope item)) TypeImage);
    [|destruct (String.eqb (Type_ (it_Envelope item)) TypeFile)].
  all: match goal with
    | |- context [WritePNG ?c ?s] => destruct (WritePNG c s) as [e0 c0] eqn:E
    | |- context [WriteText ?c ?s] => destruct (WriteText c s) as [e0 c0] eqn:E
    end.
  all: first [pose proof (Hp _ _ _ E) | pose proof (Ht _ _ _ E)].
  all: first [apply WritePNG_written in E | apply WriteText_written in E].
  all: destruct e0; intros [= <- <-]; by split.
Qed.

Lemma applyAutoCopy_frame d item :
  let d' := applyAutoCopy d item in
  cfg d' = cfg d ∧ room d' = room d ∧ fp d' = fp d ∧ deviceName d' = deviceName d ∧
  d_conn d' = d_conn d ∧ d_dedupe d' = d_dedupe d ∧ buffer d' = buffer d ∧ subs d' = subs d ∧
  sess d' = sess d ∧ stopReq d' = stopReq d ∧ fs d' = fs d ∧ links d' = links d ∧
  written (clip d') = written (clip d) ++ auto_writes d item.
Proof.
  unfold applyAutoCopy, auto_writes. destruct (String.eqb _ "on"); cbn [andb].
  - destruct (String.eqb_spec (Type_ (it_Envelope item)) TypeFile) as [Hf|Hf]; cbn [negb].
    { rewrite app_nil_r. by split_and!. }
    pose proof (writeClipboard_frame d item) as Hfr. cbn zeta in *.
    destruct (writeClipboard d item) as [e d'] eqn:E. cbn [snd] in *.
    apply writeClipboard_written in E as [E He]. destruct_and!. split_and!; try done.
    rewrite E, <- He. destruct e; [done|].
    destruct (String.eqb_spec (Type_ (it_Envelope item)) TypeFile); [done|]. done.
  - rewrite app_nil_r. by split_and!.
Qed.
End lemmas.

Section ingest_lemmas.
Context `{Blake3} `{Clipboard}.

Lemma ingest_seen now d env : MsgID env ∈ seen (d_dedupe d) → ingest now d env = d.
Proof. intros Hin. unfold ingest. rewrite Seen_known by done. by destruct d. Qed.

Lemma ingest_dropped now d env f :
  dedupe_wf (d_dedupe d) → MsgID env ∉ seen (d_dedupe d) → materialize d env = (None, f) →
  ingest now d env = set_dedupe d (Seen (d_dedupe d) (MsgID env)).2.
Proof.
  intros Hw Hn Hm. unfold ingest.
  destruct (Seen_fresh (d_dedupe d) (MsgID env) Hw Hn) as (dd & -> & _).
  change (materialize (set_dedupe d dd) env) with (materialize d env). rewrite Hm.
  apply materialize_none in Hm as [-> _]. done.
Qed.

Lemma ingest_accepted now d env item f :
  dedupe_wf (d_dedupe d) → MsgID env ∉ seen (d_dedupe d) → materialize d env = (Some item, f) →
  let d' := ingest now d env in
  d_dedupe d' = (Seen (d_dedupe d) (MsgID env)).2 ∧
  buffer d' = lastn bufferCap (buffer d ++ [item]) ∧
  subs d' = notify_subs (subs d) item ∧
  (sess d', fs d') = routeSinks now (Get (cfg d)) (sess d) f item ∧
  written (clip d') = written (clip d) ++ auto_writes d item ∧
  cfg d' = cfg d ∧ room d' = room d ∧ fp d' = fp d ∧ deviceName d' = deviceName d ∧
  d_conn d' = d_conn d ∧ links d' = links d ∧ stopReq d' = stopReq d.
Proof.
  intros Hw Hn Hm. unfold ingest.
  destruct (Seen_fresh (d_dedupe d) (MsgID env) Hw Hn) as (dd & -> & _). cbn [snd].
  change (materialize (set_dedupe d dd) env) with (materialize d env). rewrite Hm.
  cbn zeta. cbn [set_sess set_dedupe set_buffer buffer subs sess fs cfg].
  destruct (routeSinks now (Get (cfg d)) (sess d) f item) as [s' f'] eqn:Er.
  match goal with |- context [applyAutoCopy ?x item] =>
    pose proof (applyAutoCopy_frame x item) as Hfr end.
  cbn zeta in Hfr. destruct_and!. rewrite <- push_buffer_lastn.
  split_and!; try (etrans; [eassumption|done]); try done.
  all: f_equal; (etrans; [eassumption|done]).
Qed.

Lemma ingest_cases now d env :
  dedupe_wf (d_dedupe d) →
  (MsgID env ∈ seen (d_dedupe d) ∧ ingest now d env = d) ∨
  (MsgID env ∉ seen (d_dedupe d) ∧ (materialize d env).1 = None ∧
   ingest now d env = set_dedupe d (Seen (d_dedupe d) (MsgID env)).2) ∨
  ∃ item f, MsgID env ∉ seen (d_dedupe d) ∧ materialize d env = (Some item, f).
Proof.
  intros Hw. destruct (decide (MsgID env ∈ seen (d_dedupe d))) as [Hin|Hn].
  - left. split; [done|]. by apply ingest_seen.
  - right. destruct (materialize d env) as [[item|] f] eqn:Em; [by right; eauto|].
    left. split_and!; [done..|]. by eapply ingest_dropped.
Qed.

Lemma ingest_ok now d env : daemon_ok d → daemon_ok (ingest now d env).
Proof.
  intros [Hl Hi Hd Hs].
  destruct (ingest_cases now d env Hd) as [[_ ->]|[(_ & _ & ->)|(item & f & Hn & Hm)]]; [done| |].
  - split; cbn [set_dedupe buffer d_dedupe subs]; auto using Seen_wf.
  - destruct (ingest_accepted now d env item f Hd Hn Hm) as (Hdd & Hb & Hsub & _).
    destruct (materialize_some _ _ _ _ Hm) as (_ & Hok & _).
    split.
    + rewrite Hb, length_lastn. lia.
    + rewrite Hb. apply lastn_Forall, Forall_app. split; [done|]. by apply Forall_singleton.
    + rewrite Hdd. by apply Seen_wf.
    + rewrite Hsub. intros r ch. rewrite notify_subs_lookup.
      destruct (subs d !! r) as [ch0|] eqn:E; [|done]. intros [= <-].
      apply notify_one; [by apply (Hs r)|done].
Qed.

(** The envelopes a connection delivers, in order, each with the time it came in. *)
Definition ingest_all (d : Daemon) (envs : list (Z * Envelope)) : Daemon :=
  foldl (λ d e, ingest e.1 d e.2) d envs.

Lemma ingest_all_ok d envs : daemon_ok d → daemon_ok (ingest_all d envs).
Proof.
  unfold ingest_all. revert d. induction envs as [|e envs IH]; intros d Hd; [done|].
  cbn [foldl]. by apply IH, ingest_ok.
Qed.

Lemma ingest_all_app d l k : ingest_all d (l ++ k) = ingest_all (ingest_all d l) k.
Proof. apply foldl_app. Qed.

Lemma ingest_cfg now d env : dedupe_wf (d_dedupe d) → cfg (ingest now d env) = cfg d.
Proof.
  intros Hw. destruct (ingest_cases now d env Hw) as [[_ ->]|[(_ & _ & ->)|(item & f & Hn & Hm)]];
    [done..|].
  by destruct (ingest_accepted now d env item f Hw Hn Hm) as (_ & _ & _ & _ & _ & ? & _).
Qed.

Lemma ingest_fp now d env : dedupe_wf (d_dedupe d) → fp (ingest now d env) = fp d.
Proof.
  intros Hw. destruct (ingest_cases now d env Hw) as [[_ ->]|[(_ & _ & ->)|(item & f & Hn & Hm)]];
    [done..|].
  by destruct (ingest_accepted now d env item f Hw Hn Hm) as (_ & _ & _ & _ & _ & _ & _ & ? & _).
Qed.

Lemma ingest_all_cfg d envs : daemon_ok d → cfg (ingest_all d envs) = cfg d.
Proof.
  unfold ingest_all. revert d. induction envs as [|e envs IH]; intros d Hd; [done|].
  cbn [foldl]. rewrite IH by by apply ingest_ok. apply ingest_cfg, Hd.
Qed.

(** The clipboard writes of one envelope. *)
Lemma ingest_written now d env :
  dedupe_wf (d_dedupe d) →
  ∃ w, written (clip (ingest now d env)) = written (clip d) ++ w ∧ (length w <= 1)%nat ∧
    ∀ x, x ∈ w → AutoCopy (Get (cfg d)) = "on" ∧ MsgID env ∉ seen (d_dedupe d) ∧
      Type_ env ≠ TypeFile ∧
      (x = FmtImage (BlobData env) ∧ Type_ env = TypeImage ∧ verified env ∨
       x = FmtText (Text env) ∧ Type_ env ≠ TypeImage).
Proof.
  intros Hw.
  destruct (ingest_cases now d env Hw) as [[_ ->]|[(_ & _ & ->)|(item & f & Hn & Hm)]].
  1-2: exists []; rewrite app_nil_r; split_and!; [done|simpl; lia|];
    intros x Hx; by apply elem_of_nil in Hx.
  destruct (ingest_accepted now d env item f Hw Hn Hm) as (_ & _ & _ & _ & Hc & _).
  destruct (materialize_some _ _ _ _ Hm) as (He & Hok & _).
  exists (auto_writes d item). split; [done|]. unfold auto_writes. rewrite He.
  destruct (String.eqb_spec (AutoCopy (Get (cfg d))) "on"); cbn [andb].
  2: { split; [simpl; lia|]. intros x Hx. by apply elem_of_nil in Hx. }
  destruct (String.eqb_spec (Type_ env) TypeFile); cbn [negb].
  { split; [simpl; lia|]. intros x Hx. by apply elem_of_nil in Hx. }
  destruct (ensure (clip d)).1.
  { split; [simpl; lia|]. intros x Hx. by apply elem_of_nil in Hx. }
  split; [simpl; lia|]. intros x ->%list_elem_of_singleton. split_and!; [done..|].
  destruct (String.eqb_spec (Type_ env) TypeImage); [|by right].
  left. split_and!; [done..|]. unfold item_ok in Hok. rewrite He in Hok. auto.
Qed.
End ingest_lemmas.

(** ** The blob cache *)

Section blobs.
Context `{Blake3Law} `{Clipboard}.

(** Strictly below the blob directory of a store. *)
Definition in_blobs (c : Store) (q : cpath) : Prop :=
  below (resolve (BlobDir c)) q ∧ q ≠ resolve (BlobDir c).

#[export] Instance in_blobs_dec c q : Decision (in_blobs c q).
Proof. unfold in_blobs. apply _. Defined.

Lemma BlobDir_ne c : StoreDir c ≠ "" → BlobDir c ≠ "".
Proof. intros Hc. by apply Join_ne. Qed.

Lemma BlobDir_resolve c :
  StoreDir c ≠ "" → resolve (BlobDir c) = ((resolve (StoreDir c)).1, (resolve (StoreDir c)).2 ++ ["blobs"]).
Proof. intros Hc. by apply resolve_Join. Qed.

Lemma in_blobs_child c x : in_blobs c ((resolve (BlobDir c)).1, (resolve (BlobDir c)).2 ++ [x]).
Proof.
  split.
  - split; [done|]. cbn [snd]. by apply prefix_app_r.
  - destruct (resolve (BlobDir c)) as [r l]. cbn [fst snd]. intros [= E].
    apply (f_equal length) in E. rewrite length_app in E. simpl in E. lia.
Qed.

Lemma blob_path_resolve d env b :
  StoreDir (cfg d) ≠ "" → HashHex (BlobData env) = Hash b →
  ∃ x, ordinary x ∧ resolve (blob_path d env (Hash b))
    = ((resolve (BlobDir (cfg d))).1, (resolve (BlobDir (cfg d))).2 ++ [x]).
Proof.
  intros Hc <-. unfold blob_path. eexists. split; [|apply resolve_Join; [by apply BlobDir_ne|]].
  all: apply len3_ordinary;
    [apply no_slash_app; split; [apply no_slash_hex|];
       destruct (String.eqb _ _); [done|apply no_slash_Ext]
    |rewrite str_length_app; unfold HashHex; rewrite length_hex, Sum256_len; lia].
Qed.

(** Materialising a blob writes below the blob directory only. *)
Lemma materialize_region d env o f :
  StoreDir (cfg d) ≠ "" → materialize d env = (o, f) →
  denied f = denied (fs d) ∧ (fs_wf (fs d) → fs_wf f) ∧
  ∀ q, ¬ in_blobs (cfg d) q → nodes f !! q = nodes (fs d) !! q.
Proof.
  intros Hc. destruct o as [item|].
  2:{ intros [-> _]%materialize_none. by split_and!. }
  intros Hm. destruct (materialize_some _ _ _ _ Hm) as (He & Hok & Hblob & Hno).
  destruct (decide (Type_ env = TypeImage ∨ Type_ env = TypeFile)) as [Ht|Ht].
  - destruct (Hblob Ht) as (b & Hb & Hp & Hw).
    unfold item_ok in Hok. rewrite He in Hok. destruct (Hok Ht) as (b' & Hb' & Hh).
    assert (b' = b) as -> by congruence.
    destruct (blob_path_resolve d env b Hc Hh) as (x & _ & Hr). rewrite <- Hp in Hr.
    split; [|split].
    + by apply WriteFile_spec in Hw as [? _].
    + intros Hf. by eapply fs_wf_WriteFile.
    + intros q Hq. apply WriteFile_spec in Hw as (_ & [(e & _ & ->)|(_ & _ & -> & _)]); [done|].
      apply put_other. intros E. apply Hq. rewrite <- E, Hr. apply in_blobs_child.
  - destruct Hno as [_ ->]; [tauto|tauto|]. by split_and!.
Qed.

(** A session in progress: [session_inv] outside the blob cache, in a canonical tree. *)
Record running (f0 : FS) (d : Daemon) : Prop := {
  run_ok : daemon_ok d;
  run_wf : fs_wf (fs d);
  run_store : StoreDir (cfg d) ≠ "";
  run_outside : sink_outside (in_blobs (cfg d)) (Get (cfg d));
  run_sess : session_inv (in_blobs (cfg d)) f0 (TextFile (Get (cfg d))) (sess d) (fs d);
}.

Lemma running_ingest f0 now d env : running f0 d → running f0 (ingest now d env).
Proof.
  intros [Hok Hwf Hst Hout Hse]. pose proof (ok_dedupe _ Hok) as Hdd.
  pose proof (ingest_cfg now d env Hdd) as Hcfg. pose proof (ingest_ok now d env Hok) as Hok'.
  destruct (ingest_cases now d env Hdd) as [[_ E]|[(_ & _ & E)|(item & f & Hn & Hm)]].
  - by rewrite E.
  - rewrite E in *. by split.
  - destruct (ingest_accepted now d env item f Hdd Hn Hm) as (_ & _ & _ & Hfs & _).
    destruct (materialize_some _ _ _ _ Hm) as (_ & Hitem & _).
    destruct (materialize_region d env _ f Hst Hm) as (Hden & Hwf' & Hq).
    assert (session_inv (in_blobs (cfg d)) f0 (TextFile (Get (cfg d))) (sess d) f) as Hse'.
    { by eapply session_inv_region. }
    pose proof (session_inv_route _ now f0 (Get (cfg d)) (sess d) f item Hitem Hout Hse') as Hse2.
    pose proof (fs_wf_routeSinks now (Get (cfg d)) (sess d) f item (Hwf' Hwf)) as Hwf2.
    rewrite <- Hfs in Hse2, Hwf2. cbn [fst snd] in *.
    split; rewrite ?Hcfg; done.
Qed.

Lemma running_ingest_all f0 d envs : running f0 d → running f0 (ingest_all d envs).
Proof.
  unfold ingest_all. revert d. induction envs as [|e envs IH]; intros d Hd; [done|].
  cbn [foldl]. by apply IH, running_ingest.
Qed.

Lemma clearBlobs_spec c f :
  StoreDir c ≠ "" → fs_wf f →
  denied (clearBlobs f (BlobDir c)) = denied f ∧
  (∀ q, ¬ in_blobs c q → nodes (clearBlobs f (BlobDir c)) !! q = nodes f !! q) ∧
  (node_at f (resolve (BlobDir c)) = Some Directory → resolve (BlobDir c) ∉ denied f →
   ∀ x, let q := ((resolve (BlobDir c)).1, (resolve (BlobDir c)).2 ++ [x]) in
        q ∉ denied f → nodes (clearBlobs f (BlobDir c)) !! q = None).
Proof.
  intros Hc Hf. pose proof (BlobDir_resolve c Hc) as Hres.
  assert (∀ n m, nodes f !! ((resolve (BlobDir c)).1, (resolve (BlobDir c)).2 ++ [n]) = Some m →
    resolve (Join (BlobDir c) n) = ((resolve (BlobDir c)).1, (resolve (BlobDir c)).2 ++ [n])) as Hchild.
  { intros n m Hn%Hf. apply resolve_Join; [by apply BlobDir_ne|].
    rewrite Hres in Hn. cbn [fst snd] in Hn. rewrite <- app_assoc in Hn.
    by eapply (canonical_below _ _ "blobs"). }
  unfold clearBlobs, ReadDir. case_decide as Hd; [by split_and!|].
  destruct (node_at f (resolve (BlobDir c))) as [[dt|]|] eqn:E; [by split_and!| |by split_and!].
  split; [apply remove_entries_denied|]. split.
  - intros q Hq. apply remove_entries_kept. intros n Hn Hb.
    apply children_spec in Hn as [m Hn]. rewrite (Hchild _ _ Hn) in Hb. apply Hq.
    destruct Hb as [Hb1 [t Hb2]]. cbn [fst snd] in *. split.
    + split; [done|]. rewrite Hb2, <- app_assoc. by apply prefix_app_r.
    + intros ->. apply (f_equal length) in Hb2. rewrite !length_app in Hb2. simpl in Hb2. lia.
  - intros _ _ x Hqd.
    destruct (nodes f !! ((resolve (BlobDir c)).1, (resolve (BlobDir c)).2 ++ [x])) as [m|] eqn:Ex.
    + apply (remove_entries_gone _ _ _ x).
      * apply children_spec. by eexists.
      * by rewrite (Hchild _ _ Ex).
      * rewrite (Hchild _ _ Ex). by split.
    + by apply remove_entries_none.
Qed.

(** Everything [clear --all] promises, for a session in progress. *)
Lemma clear_all_result f0 d :
  running f0 d →
  let d' := applyClearScope d "all" in
  buffer d' = [] ∧ savedFiles (sess d') = [] ∧
  (∀ q n, ¬ in_blobs (cfg d) q → nodes f0 !! q = Some n → nodes (fs d') !! q = Some n) ∧
  (∀ q dt, ¬ in_blobs (cfg d) q → nodes (fs d') !! q = Some (File dt) →
     nodes f0 !! q = Some (File dt) ∨
     (TextFile (Get (cfg d)) ≠ "" ∧ q = resolve (TextFile (Get (cfg d))) ∧
      nodes f0 !! q = None ∧ dt = "")).
Proof.
  intros [Hok Hwf Hst Hout Hse]. unfold applyClearScope. rewrite String.eqb_refl.
  unfold d_clearSinks, clearTransient. cbn [sess fs cfg set_sess set_buffer].
  destruct (clearBlobs_spec (cfg d) (fs d) Hst Hwf) as (Hd & Hq & _).
  assert (session_inv (in_blobs (cfg d)) f0 (TextFile (Get (cfg d))) (sess d)
            (clearBlobs (fs d) (BlobDir (cfg d)))) as Hse' by by eapply session_inv_region.
  destruct (clearSinks_result _ _ _ _ _ Hse') as [Hkeep Hnew].
  destruct (clearSinks (sess d) _) as [s' f'] eqn:E. cbn [buffer set_sess fs sess set_buffer snd] in *.
  split_and!; [done| |done|done]. unfold clearSinks in E. by injection E as <- _.
Qed.
End blobs.

(** ** Sequences of envelopes *)

Section sequences.
Context `{Blake3} `{Clipboard}.

(** The item an envelope adds to the buffer, if it does. *)
Definition accepts (d : Daemon) (env : Envelope) : list Item :=
  if decide (MsgID env ∈ seen (d_dedupe d)) then []
  else match (materialize d env).1 with Some item => [item] | None => [] end.

Fixpoint accepted (d : Daemon) (envs : list (Z * Envelope)) : list Item :=
  match envs with
  | [] => []
  | e :: envs => accepts d e.2 ++ accepted (ingest e.1 d e.2) envs
  end.

Lemma ingest_buffer now d env :
  dedupe_wf (d_dedupe d) → (length (buffer d) <= bufferCap)%nat →
  buffer (ingest now d env) = lastn bufferCap (buffer d ++ accepts d env).
Proof.
  intros Hw Hl. unfold accepts.
  destruct (ingest_cases now d env Hw) as [[Hin ->]|[(Hn & Hm & ->)|(item & f & Hn & Hm)]].
  - rewrite decide_True by done. by rewrite app_nil_r, lastn_all.
  - rewrite decide_False, Hm by done. by rewrite app_nil_r, lastn_all.
  - rewrite decide_False, Hm by done. cbn [fst].
    by destruct (ingest_accepted now d env item f Hw Hn Hm) as (_ & ? & _).
Qed.

Lemma accepts_ok d env :
  Forall item_ok (accepts d env) ∧ map it_Envelope (accepts d env) `sublist_of` [env].
Proof.
  unfold accepts. case_decide; [split; [done|apply sublist_nil_l]|].
  destruct (materialize d env) as [[item|] f] eqn:Em; cbn [fst]; [|split; [done|apply sublist_nil_l]].
  destruct (materialize_some _ _ _ _ Em) as (He & Hok & _). split; [by apply Forall_singleton|].
  simpl. by rewrite He.
Qed.

Lemma accepted_ok d envs :
  Forall item_ok (accepted d envs) ∧ map it_Envelope (accepted d envs) `sublist_of` map snd envs.
Proof.
  revert d. induction envs as [|e envs IH]; intros d; cbn [accepted map]; [done|].
  destruct (accepts_ok d e.2) as [H1 H2]. destruct (IH (ingest e.1 d e.2)) as [H3 H4].
  split; [by apply Forall_app|]. rewrite map_app. by apply (sublist_app _ [e.2]).
Qed.

Lemma ingest_all_buffer d envs :
  daemon_ok d → buffer (ingest_all d envs) = lastn bufferCap (buffer d ++ accepted d envs).
Proof.
  revert d. induction envs as [|e envs IH]; intros d Hok; cbn [accepted].
  - rewrite app_nil_r, lastn_all; [done|apply Hok].
  - change (ingest_all d (e :: envs)) with (ingest_all (ingest e.1 d e.2) envs).
    rewrite IH by by apply ingest_ok.
    rewrite ingest_buffer by apply Hok. by rewrite lastn_lastn_app, app_assoc.
Qed.
End sequences.

(** ** Examples *)

#[local] Existing Instance pad_blake3.
#[local] Existing Instance pad_blake3_law.
#[local] Existing Instance string_keys.
Definition clipboard_works : Clipboard := InitOk.
#[local] Existing Instance clipboard_works.

Definition demo_config (autocopy : string) : Store :=
  mkStore "/cfg" (mkSettings autocopy "/in" "/log.txt" "ask" "dev" "default" "" "off" "off").

Definition demo_tree : FS :=
  mkFS (<[(true, ["cfg"]) := Directory]> (<[(true, ["cfg"; "blobs"]) := Directory]>
       (<[(true, ["log.txt"]) := File "old"]> ∅))) ∅.

Definition demo_daemon (autocopy : string) : Daemon :=
  mkDaemon (demo_config autocopy) "default" "SHA256:me" "dev" (mkConn None "" false)
    (NewDedupe 4096) [] ∅ "" (newSession demo_tree "/log.txt") false demo_tree clip_init ∅.

Definition demo_text (id text : string) : Envelope :=
  mkEnvelope 1 id TypeText MimeText "SHA256:a" "laptop" 0 "" text None "".
Definition demo_file (id name data : string) : Envelope :=
  mkEnvelope 1 id TypeFile MimeOctet "SHA256:a" "laptop" 0 name ""
    (Some (mkBlob (HashHex data) (len data) 0 0)) data.
Definition demo_bad (id : string) : Envelope :=
  mkEnvelope 1 id TypeImage MimePNG "SHA256:a" "laptop" 0 "" "" (Some (mkBlob "00" 1 1 1)) "x".

Definition demo_envs : list (Z * Envelope) :=
  [(0%Z, demo_text "1" "hi"); (0%Z, demo_bad "2"); (0%Z, demo_file "3" "a.txt" "AAAA");
   (0%Z, demo_text "1" "again")].

Example demo_ingest :
  map (λ it, MsgID (it_Envelope it)) (buffer (ingest_all (demo_daemon "on") demo_envs)) = ["1"; "3"] ∧
  written (clip (ingest_all (demo_daemon "on") demo_envs)) = [FmtText "hi"] ∧
  ReadFile (fs (ingest_all (demo_daemon "on") demo_envs)) "/in/a.txt" = Ok "AAAA".
Proof. vm_compute. repeat split. Qed.

Lemma demo_tree_wf : fs_wf demo_tree.
Proof.
  assert (map_Forall (λ q _, canonical q) (nodes demo_tree)) as Hf; [|by intros q n; apply Hf].
  assert (∀ l, Forall ordinary l → canonical (true, l)) as Hc.
  { intros l Hl. exists 0%nat, l. by split_and!. }
  unfold demo_tree. cbn [nodes]. repeat apply map_Forall_insert_2; try apply map_Forall_empty.
  all: apply Hc, (bool_decide_unpack _); vm_compute; exact I.
Qed.

Lemma demo_daemon_ok a : daemon_ok (demo_daemon a).
Proof.
  split; cbn [demo_daemon buffer d_dedupe subs]; [simpl; lia|done|apply NewDedupe_wf|].
  apply map_Forall_empty.
Qed.

(** ** Properties *)

(** C14. Receiving one envelope.  An id that was seen changes nothing at all.  A new id whose blob
    does not hash to what it says is remembered and changes nothing else: nothing is buffered,
    shown to a subscriber, written to disk or copied.  A new and acceptable envelope becomes the
    newest of the at most 64 buffered items and is offered to every subscriber, then the sinks
    and the clipboard get it.  In every case the id is then seen, so receiving the envelope again
    changes nothing. *)
Theorem ingest_spec `{Blake3} `{Clipboard} now d env :
  dedupe_wf (d_dedupe d) →
  let d' := ingest now d env in
  (MsgID env ∈ seen (d_dedupe d) → d' = d) ∧
  (MsgID env ∉ seen (d_dedupe d) → Type_ env = TypeImage ∨ Type_ env = TypeFile → ¬ verified env →
     d' = set_dedupe d (Seen (d_dedupe d) (MsgID env)).2) ∧
  (∀ item f, MsgID env ∉ seen (d_dedupe d) → materialize d env = (Some item, f) →
     item_ok item ∧ it_Envelope item = env ∧
     buffer d' = lastn bufferCap (buffer d ++ [item]) ∧ subs d' = notify_subs (subs d) item ∧
     (sess d', fs d') = routeSinks now (Get (cfg d)) (sess d) f item ∧
     written (clip d') = written (clip d) ++ auto_writes d item) ∧
  ∀ now', ingest now' d' env = d'.
Proof.
  intros Hw d'. split_and!.
  - intros Hin. by apply ingest_seen.
  - intros Hn Ht Hv. destruct (materialize d env) as [[item|] f] eqn:Em.
    + destruct (materialize_some _ _ _ _ Em) as (He & Hok & _). unfold item_ok in Hok.
      rewrite He in Hok. by destruct (Hv (Hok Ht)).
    + by eapply ingest_dropped.
  - intros item f Hn Hm. destruct (materialize_some _ _ _ _ Hm) as (He & Hok & _).
    destruct (ingest_accepted now d env item f Hw Hn Hm) as (_ & ? & ? & ? & ? & _).
    by split_and!.
  - intros now'. apply ingest_seen. subst d'.
    pose proof (Seen_marks (d_dedupe d) (MsgID env) Hw) as Hm.
    destruct (ingest_cases now d env Hw) as [[Hin E]|[(_ & _ & E)|(item & f & Hn & Hmt)]].
    + by rewrite E.
    + by rewrite E.
    + by destruct (ingest_accepted now d env item f Hw Hn Hmt) as (-> & _).
Qed.

Lemma ingest_spec_witness :
  ingest 0 (demo_daemon "on") (demo_bad "2")
  = set_dedupe (demo_daemon "on") (Seen (NewDedupe 4096) "2").2.
Proof.
  destruct (ingest_spec 0 (demo_daemon "on") (demo_bad "2") (NewDedupe_wf 4096)) as (_ & Hbad & _).
  apply Hbad.
  - set_solver.
  - by left.
  - intros (b & [= <-] & Hh). vm_compute in Hh. discriminate.
Defined.

(** Receiving any sequence of envelopes: the buffer holds the last 64 of the accepted items,
    which are a sub-sequence of what came in, every image and file among them verified; and the
    daemon's invariant holds throughout (at most 64 items, a well-formed dedupe set, subscriber
    channels open and within their capacity). *)
Theorem ingest_all_spec `{Blake3} `{Clipboard} d envs :
  daemon_ok d →
  daemon_ok (ingest_all d envs) ∧
  buffer (ingest_all d envs) = lastn bufferCap (buffer d ++ accepted d envs) ∧
  Forall item_ok (accepted d envs) ∧
  map it_Envelope (accepted d envs) `sublist_of` map snd envs.
Proof.
  intros Hok. split_and!; [by apply ingest_all_ok|by apply ingest_all_buffer|apply accepted_ok..].
Qed.

Lemma ingest_all_spec_witness :
  buffer (ingest_all (demo_daemon "on") demo_envs)
  = lastn bufferCap ([] ++ accepted (demo_daemon "on") demo_envs).
Proof. exact (proj1 (proj2 (ingest_all_spec (demo_daemon "on") demo_envs (demo_daemon_ok "on")))). Defined.

(** C17. The clipboard policy.  Whatever is received, the clipboard is written only when [auto_copy]
    is on, at most once per envelope, never for a file, with the bytes of a verified image or the
    text of an envelope that came in; in every other mode it is not touched. *)
Theorem clipboard_policy `{Blake3} `{Clipboard} d envs :
  daemon_ok d →
  ∃ w, written (clip (ingest_all d envs)) = written (clip d) ++ w ∧
    (length w <= length envs)%nat ∧
    ∀ x, x ∈ w → AutoCopy (Get (cfg d)) = "on" ∧
      ∃ env, env ∈ map snd envs ∧ Type_ env ≠ TypeFile ∧
        (x = FmtImage (BlobData env) ∧ Type_ env = TypeImage ∧ verified env ∨
         x = FmtText (Text env) ∧ Type_ env ≠ TypeImage).
Proof.
  revert d. induction envs as [|e envs IH]; intros d Hok.
  { exists []. rewrite app_nil_r. split_and!; [done..|]. intros x Hx. by apply elem_of_nil in Hx. }
  destruct (ingest_written e.1 d e.2 (ok_dedupe _ Hok)) as (w1 & Hw1 & Hl1 & Hx1).
  destruct (IH (ingest e.1 d e.2) (ingest_ok _ _ _ Hok)) as (w2 & Hw2 & Hl2 & Hx2).
  exists (w1 ++ w2). split_and!.
  - change (ingest_all d (e :: envs)) with (ingest_all (ingest e.1 d e.2) envs).
    by rewrite Hw2, Hw1, app_assoc.
  - rewrite length_app. simpl. lia.
  - intros x [Hx|Hx]%elem_of_app.
    + destruct (Hx1 x Hx) as (? & _ & ? & ?). split; [done|]. exists e.2.
      split_and!; [set_solver|done|done].
    + destruct (Hx2 x Hx) as (Ha & env & ? & ?).
      rewrite ingest_cfg in Ha by apply Hok. split; [done|]. exists env. set_solver.
Qed.

Lemma clipboard_policy_witness :
  ∃ w, written (clip (ingest_all (demo_daemon "notify") demo_envs)) = [] ++ w ∧
       (length w <= length demo_envs)%nat.
Proof.
  destruct (clipboard_policy (demo_daemon "notify") demo_envs (demo_daemon_ok "notify"))
    as (w & Hw & Hl & _).
  exists w. split; [exact Hw|exact Hl].
Defined.

(** C15. [clear --all] after any reception.  For a daemon whose session starts now, with the sinks
    outside its blob cache, receiving any envelopes and then clearing everything leaves an empty
    buffer, every file outside the blob cache with the content it had, and no file of the session
    there, but for an append file the session created, which is empty. *)
Theorem clear_all_reverts `{Blake3Law} `{Clipboard} d envs :
  daemon_ok d → fs_wf (fs d) → StoreDir (cfg d) ≠ "" →
  sink_outside (in_blobs (cfg d)) (Get (cfg d)) →
  (TextFile (Get (cfg d)) ≠ "" → ¬ in_blobs (cfg d) (resolve (TextFile (Get (cfg d))))) →
  sess d = newSession (fs d) (TextFile (Get (cfg d))) →
  let d' := applyClearScope (ingest_all d envs) "all" in
  buffer d' = [] ∧ savedFiles (sess d') = [] ∧
  (∀ q n, ¬ in_blobs (cfg d) q → nodes (fs d) !! q = Some n → nodes (fs d') !! q = Some n) ∧
  (∀ q dt, ¬ in_blobs (cfg d) q → nodes (fs d') !! q = Some (File dt) →
     nodes (fs d) !! q = Some (File dt) ∨
     (TextFile (Get (cfg d)) ≠ "" ∧ q = resolve (TextFile (Get (cfg d))) ∧
      nodes (fs d) !! q = None ∧ dt = "")).
Proof.
  intros Hok Hwf Hst Hout Htf Hse d'.
  assert (running (fs d) (ingest_all d envs)) as Hrun.
  { apply running_ingest_all. split; try done. rewrite Hse. by apply newSession_inv. }
  pose proof (clear_all_result _ _ Hrun) as Hres. by rewrite ingest_all_cfg in Hres.
Qed.

Definition demo_cleared : Daemon :=
  applyClearScope (ingest_all (demo_daemon "on") demo_envs) "all".

Lemma demo_cleared_log :
  nodes demo_tree !! (true, ["log.txt"]) = Some (File "old") ∧
  ¬ in_blobs (demo_config "on") (true, ["log.txt"]).
Proof. split; [vm_compute; reflexivity|]. apply (bool_decide_unpack _). vm_compute. exact I. Qed.

Lemma demo_sinks_outside : sink_outside (in_blobs (demo_config "on")) (Get (demo_config "on")).
Proof.
  intros x [[_ [t Ht]] _]. vm_compute in Ht. discriminate.
Qed.

Lemma clear_all_reverts_witness :
  buffer demo_cleared = [] ∧ nodes (fs demo_cleared) !! (true, ["log.txt"]) = Some (File "old").
Proof.
  destruct (clear_all_reverts (demo_daemon "on") demo_envs (demo_daemon_ok "on") demo_tree_wf)
    as (Hb & _ & Hk & _).
  - discriminate.
  - exact demo_sinks_outside.
  - intros _. exact (proj2 demo_cleared_log).
  - reflexivity.
  - split; [exact Hb|].
    exact (Hk (true, ["log.txt"]) (File "old") (proj2 demo_cleared_log) (proj1 demo_cleared_log)).
Defined.

(** [latest] returns the newest buffered item of the kind asked for, and nothing only when the
    buffer holds none; [findByID] the same for a message id.  Neither changes the buffer. *)
Theorem latest_newest d kind id :
  (∀ it, latest d kind = Some it ↔
     ∃ pre post, buffer d = pre ++ it :: post ∧ matchesKind it kind = true ∧
       Forall (λ x, matchesKind x kind = false) post) ∧
  (latest d kind = None ↔ Forall (λ x, matchesKind x kind = false) (buffer d)) ∧
  (∀ it, findByID d id = Some it →
     MsgID (it_Envelope it) = id ∧ ∃ pre post, buffer d = pre ++ it :: post ∧
       Forall (λ x, MsgID (it_Envelope x) ≠ id) post) ∧
  (findByID d id = None ↔ Forall (λ x, MsgID (it_Envelope x) ≠ id) (buffer d)).
Proof.
  split_and!.
  - intros it. apply newest_spec.
  - apply newest_none.
  - intros it (pre & post & Hb & Hp & Hf)%newest_spec. apply String.eqb_eq in Hp.
    split; [done|]. exists pre, post. split; [done|].
    eapply Forall_impl; [exact Hf|]. intros x Hx. by apply String.eqb_neq in Hx.
  - unfold findByID. rewrite newest_none. split; intros Hf; (eapply Forall_impl; [exact Hf|]);
      intros x Hx; by apply String.eqb_neq.
Qed.
