(* ===== verification/Handlers.v ===== *)
(** * handlers.go: the operations the daemon serves

    [room-go/internal/daemon/handlers.go] and the send side of conn.go.  A handler maps the state
    and the request to what it does with the connection and the new state; the whole of it is one
    step here, except [handleRecv], whose two critical sections are two definitions.  [ulid] and
    [now] are what [ulid.Make()] and [time.Now()] give. *)
From S2P Require Import Prelude GoStr GoPath GoOS Wire Codec Chan Dedupe Ipc Clip GoTime Config Sinks Daemon.
Open Scope string_scope.
Open Scope list_scope.

(** ** The connection to the server *)

(** [parseTarget]: the user and the address. *)
Definition parseTarget (t : string) : string * string :=
  let '(user, hostport) :=
    match CutLast "@"%char t with
    | Some (u, h) => (u, h)
    | None => ("room", t)
    end in
  let hostport := if ContainsByte hostport ":"%char then hostport else hostport +:+ ":2222" in
  (user, hostport).

Definition sendFrame (d : Daemon) (frame : string) : option string * Daemon :=
  match c_in (d_conn d) with
  | Some r =>
      if negb (c_connected (d_conn d)) then (Some "not connected to server", d)
      else
        match links d !! r with
        | None => (Some "EOF", d)
        | Some w =>
            let '(res, w') := WriteFrame w frame in
            let d := set_conn d (d_conn d) (<[r := w']> (links d)) in
            match res with
            | Ok _ => (None, d)
            | Err e => (Some (frame_err_string e), d)
            end
        end
  | None => (Some "not connected to server", d)
  end.

Definition isConnected (d : Daemon) : bool := c_connected (d_conn d).
Definition serverTarget (d : Daemon) : string := c_target (d_conn d).

(** ** Responses *)

Definition okResp : Response := mkResponse IPCVersion RespOK 0 "" None None "".
Definition errResp (code : Z) (msg : string) : Response :=
  mkResponse IPCVersion RespErr code msg None None "".
Definition itemResp (item : Item) : Response :=
  mkResponse IPCVersion RespItem 0 "" (Some item) None "".

(** What a handler does with its connection: answer and close it, wait on a channel for one item,
    or stream what comes in on a channel. *)
Inductive outcome :=
| Reply (r : Response)
| Closed
| Waiting (ch : ref) (kind : string)
| Streaming (ch : ref) (kind : string).

Section handlers.
Context `{Cbor Envelope} `{Blake3} `{ImageCodec} `{MimeTable} `{Clipboard} `{Json}.

(** ** send *)

(** The envelope [handleSend] builds, or the response it refuses with.  [ms]: the clock. *)
Definition build_envelope (ulid : string) (ms : Z) (d : Daemon) (req : Request)
    : result Response Envelope :=
  let now := uint64 ms in
  let env := mkEnvelope Version ulid "" "" (fp d) (deviceName d) now (rq_Filename req) "" None "" in
  let typ :=
    if String.eqb (rq_Force req) "text" then TypeText
    else if String.eqb (rq_Force req) "image" then TypeImage
    else if String.eqb (rq_Force req) "file" then TypeFile
    else Classify (rq_Bytes req) false in
  if String.eqb typ TypeText then
    Ok (mkEnvelope Version ulid TypeText MimeText (fp d) (deviceName d) now "" (rq_Bytes req) None "")
  else if String.eqb typ TypeImage then
    match Sniff (rq_Bytes req) with
    | Err _ => Err (errResp 2 "not a supported image (PNG/JPEG)")
    | Ok kind =>
        if negb (bool_decide (kind = KindPNG)) && negb (bool_decide (kind = KindJPEG))
        then Err (errResp 2 "not a supported image (PNG/JPEG)")
        else
          match ToPNG kind (rq_Bytes req) with
          | Err perr => Err (errResp 1 perr)
          | Ok png =>
              match PNGDims png with
              | Err derr => Err (errResp 1 ("decode png dims: " +:+ derr))
              | Ok (w, h) =>
                  Ok (mkEnvelope Version ulid TypeImage MimePNG (fp d) (deviceName d) now
                        (rq_Filename req) "" (Some (mkBlob (HashHex png) (len png) w h)) png)
              end
          end
    end
  else if String.eqb typ TypeFile then
    Ok (mkEnvelope Version ulid TypeFile (MimeForFilename (rq_Filename req)) (fp d) (deviceName d)
          now (rq_Filename req) ""
          (Some (mkBlob (HashHex (rq_Bytes req)) (len (rq_Bytes req)) 0 0)) (rq_Bytes req))
  else Ok env.

Definition handleSend (ulid : string) (now : Z) (d : Daemon) (req : Request) : Response * Daemon :=
  if (len (rq_Bytes req) =? 0)%Z then (errResp 2 "empty payload", d)
  else
    match build_envelope ulid now d req with
    | Err r => (r, d)
    | Ok env =>
        match Marshal env with
        | Err e => (errResp 1 e, d)
        | Ok frame =>
            match sendFrame d frame with
            | (Some e, d) => (mkResponse IPCVersion RespOK 4 e None None "", d)
            | (None, d) => (okResp, d)
            end
        end
    end.

(** ** recv and subscribe *)

Definition handleSubscribe (d : Daemon) (kind : string) : outcome * Daemon :=
  let '(ch, d) := subscribe d in (Streaming ch kind, d).

Definition recv_kind (req : Request) : string :=
  if String.eqb (rq_Kind req) "" then "any" else rq_Kind req.

(** First critical section: the newest buffered item of the kind. *)
Definition recv_latest (d : Daemon) (req : Request) : option Response :=
  match latest d (recv_kind req) with
  | Some item => Some (itemResp item)
  | None => None
  end.

(** Second one, when there was none: subscribe, then wait. *)
Definition recv_subscribe (d : Daemon) (req : Request) : outcome * Daemon :=
  let '(ch, d) := subscribe d in (Waiting ch (recv_kind req), d).

Definition handleRecv (d : Daemon) (req : Request) : outcome * Daemon :=
  if rq_Follow req then handleSubscribe d (recv_kind req)
  else
    match recv_latest d req with
    | Some r => (Reply r, d)
    | None => recv_subscribe d req
    end.

(** The waiting [recv] runs: it takes from its channel until an item matches, answers with it and
    unsubscribes; or it has emptied the channel and waits on. *)
Definition resume_wait (d : Daemon) (ch : ref) (kind : string) : outcome * Daemon :=
  match subs d !! ch with
  | None => (Waiting ch kind, d)
  | Some c =>
      match waitFor (queue c) kind with
      | (Some item, q) => (Reply (itemResp item), unsubscribe d ch)
      | (None, q) =>
          (Waiting ch kind,
           set_buffer d (buffer d) (<[ch := mkChan q (chan_cap c) (closed c)]> (subs d)))
      end
  end.

(** The streaming loop takes all there is: the items it writes. *)
Definition resume_stream (d : Daemon) (ch : ref) (kind : string) : list Response * Daemon :=
  match subs d !! ch with
  | None => ([], d)
  | Some c =>
      (map itemResp (filter (λ it, matchesKind it kind = true) (queue c)),
       set_buffer d (buffer d) (<[ch := mkChan [] (chan_cap c) (closed c)]> (subs d)))
  end.

(** ** paste and copy *)

Definition handlePaste (d : Daemon) : Response * Daemon :=
  match latest d "any" with
  | None => (errResp 5 "nothing to paste", d)
  | Some item =>
      match writeClipboard d item with
      | (Some e, d) => (errResp 1 ("clipboard: " +:+ e), d)
      | (None, d) => (okResp, d)
      end
  end.

Definition handleCopy (d : Daemon) (req : Request) : Response * Daemon :=
  if negb (String.eqb (rq_MsgID req) "") then
    match findByID d (rq_MsgID req) with
    | None => (errResp 5 "item not in buffer", d)
    | Some item =>
        match writeClipboard d item with
        | (Some e, d) => (errResp 1 ("clipboard: " +:+ e), d)
        | (None, d) => (okResp, d)
        end
    end
  else if (0 <? len (rq_Bytes req))%Z then
    let hash := HashHex (rq_Bytes req) in
    match WriteText (clip d) (rq_Bytes req) with
    | (Some e, c) => (errResp 1 ("clipboard: " +:+ e), set_clip d c (lastCopy d))
    | (None, c) => (okResp, set_clip d c hash)
    end
  else handlePaste d.

(** ** status and config *)

Definition handleStatus (d : Daemon) : Response * Daemon :=
  let s := Get (cfg d) in
  let '(av, c) := Available (clip d) in
  let server := if String.eqb (serverTarget d) "" then Server_ s else serverTarget d in
  let st := mkStatus (fp d) (deviceName d) (room d) server (isConnected d) (AutoCopy s) 0
              (bufferLen d) av in
  (mkResponse IPCVersion RespStatus 0 "" None (Some st) "", set_clip d c (lastCopy d)).

Definition handleConfigSet (d : Daemon) (req : Request) : Response * Daemon :=
  match SetKey (cfg d) (fs d) (rq_Key req) (rq_Value req) with
  | (Err e, c, f) => (errResp 2 e, set_cfg d c f)
  | (Ok _, c, f) =>
      let d := set_cfg d c f in
      let d :=
        if String.eqb (rq_Key req) "device_name" then set_deviceName d (rq_Value req)
        else if String.eqb (rq_Key req) "text_file"
        then set_sess d (setTextFile (sess d) (fs d) (rq_Value req)) (fs d)
        else d in
      (okResp, d)
  end.

Definition handleConfigGet (d : Daemon) (req : Request) : Response * Daemon :=
  match GetKey (cfg d) (rq_Key req) with
  | Err e => (errResp 2 e, d)
  | Ok v => (mkResponse IPCVersion RespValue 0 "" None None v, d)
  end.

(** ** join, clear, stop *)

(** The last component: the target of the connection loop it starts. *)
Definition handleJoin (d : Daemon) (req : Request) : Response * Daemon * option string :=
  if String.eqb (rq_Target req) "" then (errResp 2 "join requires a target user@host:port", d, None)
  else
    match SetServer (cfg d) (fs d) (rq_Target req) with
    | (Err e, c, f) => (errResp 1 e, set_cfg d c f, None)
    | (Ok _, c, f) =>
        let d := set_cfg d c f in
        (okResp, d, if negb (String.eqb (serverTarget d) (rq_Target req))
                    then Some (rq_Target req) else None)
    end.

Definition handleClear (d : Daemon) (req : Request) : Response * Daemon :=
  (okResp, applyClearScope d (if rq_All req then "all" else "transient")).

Definition handleDaemonStop (d : Daemon) (req : Request) : Response * Daemon :=
  let scope :=
    if String.eqb (rq_Scope req) "" then
      let scope := ClearOnExit (Get (cfg d)) in
      if String.eqb scope "ask" then "transient" else scope
    else rq_Scope req in
  (okResp, triggerStop (applyClearScope d scope)).

(** ** Dispatch *)

Definition reply (x : Response * Daemon) : outcome * Daemon * option string :=
  (Reply x.1, x.2, None).
Definition hold (x : outcome * Daemon) : outcome * Daemon * option string := (x.1, x.2, None).

Definition version_error (req : Request) : Response :=
  errResp 2 ("IPC version mismatch: client " +:+ itoa (rq_IPCVersion req) +:+ " daemon " +:+
             itoa IPCVersion).

Definition handleReq (ulid : string) (now : Z) (d : Daemon) (req : Request)
    : outcome * Daemon * option string :=
  if negb (rq_IPCVersion req =? IPCVersion)%Z then (Reply (version_error req), d, None)
  else
    let op := rq_Op req in
    if String.eqb op OpPing then (Reply okResp, d, None)
    else if String.eqb op OpSend then reply (handleSend ulid now d req)
    else if String.eqb op OpRecv then hold (handleRecv d req)
    else if String.eqb op OpPaste then reply (handlePaste d)
    else if String.eqb op OpCopy then reply (handleCopy d req)
    else if String.eqb op OpSubscribe then hold (handleSubscribe d "any")
    else if String.eqb op OpStatus then reply (handleStatus d)
    else if String.eqb op OpConfigSet then reply (handleConfigSet d req)
    else if String.eqb op OpConfigGet then reply (handleConfigGet d req)
    else if String.eqb op OpJoin then
      let '(r, d, go) := handleJoin d req in (Reply r, d, go)
    else if String.eqb op OpClear then reply (handleClear d req)
    else if String.eqb op OpDaemonStop then reply (handleDaemonStop d req)
    else (Reply (errResp 2 ("unknown op: " +:+ op)), d, None).

Context `{Cbor Request} `{Cbor Response}.

(** The bytes of one connection: a request that cannot be read closes it, a response is written
    without a look at the error. *)
Definition handleConn (ulid : string) (now : Z) (d : Daemon) (rd : reader) (w : writer)
    : outcome * Daemon * option string * writer :=
  match (ReadReq rd).1 with
  | Err _ => (Closed, d, None, w)
  | Ok req =>
      let '(o, d, go) := handleReq ulid now d req in
      let w := match o with Reply r => (WriteResp w r).2 | _ => w end in
      (o, d, go, w)
  end.

End handlers.

(** ** Lemmas *)

Section lemmas.
Context `{Cbor Envelope} `{Blake3} `{ImageCodec} `{MimeTable} `{Clipboard} `{Json}.

(** What every envelope the daemon builds satisfies. *)
Record envelope_ok (d : Daemon) (ulid : string) (ms : Z) (req : Request) (env : Envelope) : Prop := {
  env_head : V env = Version ∧ MsgID env = ulid ∧ Sender env = fp d ∧
             DeviceName env = deviceName d ∧ TS env = uint64 ms;
  env_body :
    Type_ env = TypeText ∧ Mime env = MimeText ∧ Text env = rq_Bytes req ∧ Blob_ env = None ∧
      BlobData env = "" ∧ Filename env = "" ∨
    Type_ env = TypeImage ∧ Mime env = MimePNG ∧ Text env = "" ∧ Filename env = rq_Filename req ∧
      (∃ kind, Sniff (rq_Bytes req) = Ok kind ∧ ToPNG kind (rq_Bytes req) = Ok (BlobData env)) ∨
    Type_ env = TypeFile ∧ Text env = "" ∧ Filename env = rq_Filename req ∧
      BlobData env = rq_Bytes req;
  env_blob : Type_ env = TypeImage ∨ Type_ env = TypeFile →
    ∃ b, Blob_ env = Some b ∧ HashHex (BlobData env) = Hash b ∧ Size b = len (BlobData env);
}.

Lemma Classify_cases b f : Classify b f = TypeImage ∨ Classify b f = TypeFile ∨ Classify b f = TypeText.
Proof. unfold Classify. repeat case_match; auto. Qed.

Lemma build_envelope_ok ulid ms d req env :
  build_envelope ulid ms d req = Ok env → envelope_ok d ulid ms req env.
Proof.
  unfold build_envelope. cbn zeta.
  match goal with |- context [String.eqb ?t TypeText] => set (typ := t) end.
  assert (typ = TypeText ∨ typ = TypeImage ∨ typ = TypeFile) as Htyp.
  { subst typ. repeat case_match; auto.
    destruct (Classify_cases (rq_Bytes req) false) as [->|[->| ->]]; auto. }
  destruct Htyp as [->|[->| ->]]; cbn.
  - intros [= <-]. split; cbn; [done|left; by split_and!|by intros [|]].
  - destruct (Sniff (rq_Bytes req)) as [kind|] eqn:Es; [|done].
    destruct (_ && _); [done|]. destruct (ToPNG kind (rq_Bytes req)) as [png|] eqn:Ep; [|done].
    destruct (PNGDims png) as [[w h]|]; [|done]. intros [= <-]. split; cbn; [done| |].
    + right. left. split_and!; [done..|]. by exists kind.
    + intros _. by eexists.
  - intros [= <-]. split; cbn; [done| |].
    + right. right. by split_and!.
    + intros _. by eexists.
Qed.

Lemma build_envelope_err ulid ms d req r :
  build_envelope ulid ms d req = Err r → rs_Kind r = RespErr ∧ (rs_Code r = 1 ∨ rs_Code r = 2)%Z.
Proof.
  unfold build_envelope. cbn zeta.
  match goal with |- context [String.eqb ?t TypeText] => set (typ := t) end.
  destruct (String.eqb typ TypeText); [done|]. destruct (String.eqb typ TypeImage).
  - destruct (Sniff _) as [kind|]; [|intros [= <-]; auto].
    destruct (_ && _); [intros [= <-]; auto|].
    destruct (ToPNG _ _); [|intros [= <-]; auto].
    destruct (PNGDims _) as [[w h]|]; [done|intros [= <-]; auto].
  - by destruct (String.eqb typ TypeFile).
Qed.

(** The fields of the daemon that only a received item or a clear changes. *)
Definition same_store (d d' : Daemon) : Prop :=
  buffer d' = buffer d ∧ d_dedupe d' = d_dedupe d ∧ subs d' = subs d.

Lemma same_store_ok d d' : same_store d d' → daemon_ok d → daemon_ok d'.
Proof. intros (Hb & Hd & Hs) []. split; by rewrite ?Hb, ?Hd, ?Hs. Qed.

Lemma sendFrame_frame d frame e d' :
  sendFrame d frame = (e, d') →
  same_store d d' ∧ cfg d' = cfg d ∧ fs d' = fs d ∧ clip d' = clip d ∧ sess d' = sess d ∧
  d_conn d' = d_conn d ∧ lastCopy d' = lastCopy d.
Proof.
  unfold sendFrame. destruct (c_in (d_conn d)) as [r|]; [|by intros [= _ <-]].
  destruct (negb _); [by intros [= _ <-]|]. destruct (links d !! r) as [w|]; [|by intros [= _ <-]].
  destruct (WriteFrame w frame) as [[[]|e0] w']; by intros [= _ <-].
Qed.

Lemma handleSend_store ulid ms d req : same_store d (handleSend ulid ms d req).2.
Proof.
  unfold handleSend. destruct (_ =? 0)%Z; [done|]. destruct (build_envelope _ _ _ _) as [env|]; [|done].
  destruct (Marshal env) as [frame|]; [|done].
  destruct (sendFrame d frame) as [[e|] d'] eqn:Es; by apply sendFrame_frame in Es as [? _].
Qed.

Lemma writeClipboard_store d item : same_store d (writeClipboard d item).2.
Proof. pose proof (writeClipboard_frame d item) as Hf. cbn zeta in Hf. destruct_and!. done. Qed.

Lemma subscribe_spec d ch d' :
  subscribe d = (ch, d') →
  subs d !! ch = None ∧ subs d' = <[ch := make_chan subCap]> (subs d) ∧
  buffer d' = buffer d ∧ d_dedupe d' = d_dedupe d ∧ cfg d' = cfg d ∧ clip d' = clip d ∧
  lastCopy d' = lastCopy d ∧ fs d' = fs d ∧ sess d' = sess d.
Proof.
  unfold subscribe. intros [= <- <-]. cbn. split_and!; try done.
  apply not_elem_of_dom. apply is_fresh.
Qed.

Lemma subscribe_ok d ch d' : subscribe d = (ch, d') → daemon_ok d → daemon_ok d'.
Proof.
  intros (Hn & Hs & Hb & Hd & _)%subscribe_spec [].
  split; rewrite ?Hb, ?Hd, ?Hs; try done. apply map_Forall_insert_2; [|done].
  split_and!; [done..|simpl; lia|constructor].
Qed.

Lemma handleStatus_store d : same_store d (handleStatus d).2.
Proof. unfold handleStatus. by destruct (Available (clip d)). Qed.

Lemma SetKey_store d key value r c f :
  SetKey (cfg d) (fs d) key value = (r, c, f) → same_store d (set_cfg d c f).
Proof. done. Qed.

Lemma applyClearScope_ok d scope : daemon_ok d → daemon_ok (applyClearScope d scope).
Proof.
  intros Hok.
  assert (daemon_ok (clearTransient d)) as Hct.
  { destruct Hok. split; cbn; [simpl; lia|constructor|done|done]. }
  assert (∀ x, daemon_ok x → daemon_ok (d_clearSinks x)) as Hcs.
  { intros x Hx. unfold d_clearSinks. destruct (clearSinks (sess x) (fs x)).
    by apply (same_store_ok x). }
  unfold applyClearScope. destruct (String.eqb scope "all"); [by apply Hcs|].
  by destruct (String.eqb scope "transient").
Qed.

Lemma handleCopy_store d req : same_store d (handleCopy d req).2.
Proof.
  assert (∀ x : option string * Daemon, same_store d x.2 → same_store d
    (match x with (Some e, d) => (errResp 1 ("clipboard: " +:+ e), d) | (None, d) => (okResp, d) end).2)
    as Hm by (by intros [[e|] d']).
  unfold handleCopy. destruct (negb _).
  { destruct (findByID d _) as [it|]; [|done]. apply Hm, writeClipboard_store. }
  destruct (0 <? _)%Z; [by destruct (WriteText _ _) as [[e|] c]|].
  unfold handlePaste. destruct (latest d "any") as [it|]; [|done]. apply Hm, writeClipboard_store.
Qed.
End lemmas.

Section recv_lemmas.
Context `{Blake3} `{Clipboard}.

(** A subscriber that has room gets every accepted item, in order. *)
Lemma ingest_sub now d env ch c :
  dedupe_wf (d_dedupe d) → subs d !! ch = Some c → closed c = false →
  (length (queue c) + length (accepts d env) <= chan_cap c)%nat →
  subs (ingest now d env) !! ch
  = Some (mkChan (queue c ++ accepts d env) (chan_cap c) false).
Proof.
  intros Hw Hc Ho. unfold accepts.
  assert (c = mkChan (queue c) (chan_cap c) false) as Hcc by (destruct c; simpl in *; congruence).
  destruct (ingest_cases now d env Hw) as [[Hin ->]|[(Hn & Hm & ->)|(item & f & Hn & Hm)]].
  - rewrite decide_True by done. intros _. by rewrite app_nil_r, <- Hcc.
  - rewrite decide_False, Hm by done. intros _. cbn [set_dedupe subs].
    by rewrite app_nil_r, <- Hcc.
  - rewrite decide_False, Hm by done. cbn [fst length]. intros Hl.
    destruct (ingest_accepted now d env item f Hw Hn Hm) as (_ & _ & -> & _).
    rewrite notify_subs_lookup, Hc. cbn. unfold try_send. rewrite Ho.
    destruct (Nat.ltb_spec (length (queue c)) (chan_cap c)); [done|lia].
Qed.

Lemma ingest_all_sub d envs ch c :
  daemon_ok d → subs d !! ch = Some c → closed c = false →
  (length (queue c) + length (accepted d envs) <= chan_cap c)%nat →
  subs (ingest_all d envs) !! ch
  = Some (mkChan (queue c ++ accepted d envs) (chan_cap c) false).
Proof.
  unfold ingest_all. revert d c. induction envs as [|e envs IH]; intros d c Hok Hc Ho Hl.
  - cbn. rewrite app_nil_r. destruct c; simpl in *; congruence.
  - cbn [accepted foldl] in *. rewrite length_app in Hl.
    pose proof (ingest_sub e.1 d e.2 ch c (ok_dedupe _ Hok) Hc Ho ltac:(lia)) as Hs.
    rewrite (IH _ _ (ingest_ok _ _ _ Hok) Hs); cbn [queue chan_cap closed].
    + by rewrite app_assoc.
    + done.
    + rewrite length_app. lia.
Qed.

Lemma waitFor_first q kind :
  (waitFor q kind).1 = head (filter (λ it, matchesKind it kind = true) q).
Proof.
  induction q as [|it q IH]; [done|]. cbn [waitFor]. rewrite filter_cons.
  destruct (matchesKind it kind); case_decide; try done.
Qed.
End recv_lemmas.

(** ** Examples *)

#[local] Existing Instance pad_blake3.
#[local] Existing Instance clipboard_works.
#[local] Existing Instance frame_json.
#[local] Existing Instance frame_cbor.

(** An image codec that knows one picture, and an empty MIME table. *)
Definition no_images : ImageCodec := {|
  image := unit; jpeg_Decode _ := Err "invalid JPEG format"; png_Encode _ := Err "png";
  png_DecodeConfig b := if HasPrefix b pngMagic then Ok (1%Z, 1%Z) else Err "png: invalid format" |}.
#[local] Existing Instance no_images.
Definition no_mime : MimeTable := λ _, "".
#[local] Existing Instance no_mime.

Definition demo_req (op : string) : Request :=
  mkRequest 1 op "" "" "" "" false "" false "" "" "" "".
Definition demo_send (bytes force filename : string) : Request :=
  mkRequest 1 OpSend bytes force filename "" false "" false "" "" "" "".
Definition demo_recv (kind : string) : Request :=
  mkRequest 1 OpRecv "" "" "" kind false "" false "" "" "" "".

(** The demo daemon with a live connection. *)
Definition demo_connected : Daemon :=
  set_conn (demo_daemon "notify") (mkConn (Some 0%nat) "host" true) {[ 0%nat := mkWriter "" None ]}.

Definition demo_sent : Response * Daemon :=
  handleSend "01" 5 demo_connected (demo_send "hello" "" "ignored").

(** ** Properties *)

(** C28. [send] is sound.  Code 0 means a whole frame went out, the encoding of an envelope of this
    device whose type, text, blob and file name follow from the request, and whose blob hash is
    the one the receiver will compute; codes 1 and 2 are errors that change nothing; code 4 means
    the envelope was built but the connection did not take it.  There is no other code, and the
    buffer, the dedupe set and the subscribers are never touched. *)
Theorem handleSend_spec `{Cbor Envelope} `{Blake3} `{ImageCodec} `{MimeTable} ulid ms d req r d' :
  handleSend ulid ms d req = (r, d') →
  same_store d d' ∧
  ((rs_Code r = 0%Z ∧ r = okResp ∧ rq_Bytes req ≠ "" ∧
    ∃ env frame, envelope_ok d ulid ms req env ∧ Marshal env = Ok frame ∧
                 sendFrame d frame = (None, d')) ∨
   ((rs_Code r = 1 ∨ rs_Code r = 2)%Z ∧ rs_Kind r = RespErr ∧ d' = d) ∨
   (rs_Code r = 4%Z ∧ rs_Kind r = RespOK ∧
    ∃ env frame e, envelope_ok d ulid ms req env ∧ Marshal env = Ok frame ∧
                   sendFrame d frame = (Some e, d') ∧ rs_Message r = e)).
Proof.
  unfold handleSend. destruct (Z.eqb_spec (len (rq_Bytes req)) 0) as [|Hne].
  { intros [= <- <-]. split; [done|]. right. left. split_and!; [by right|done..]. }
  destruct (build_envelope ulid ms d req) as [env|r0] eqn:Eb.
  2:{ intros [= <- <-]. apply build_envelope_err in Eb as [? ?]. split; [done|]. right. left.
      by split_and!. }
  apply build_envelope_ok in Eb.
  destruct (Marshal env) as [frame|e] eqn:Em.
  2:{ intros [= <- <-]. split; [done|]. right. left. split_and!; [by left|done..]. }
  destruct (sendFrame d frame) as [[e|] d1] eqn:Es; intros [= <- <-].
  - split; [by apply sendFrame_frame in Es as [? _]|]. right. right.
    split_and!; [done..|]. by exists env, frame, e.
  - split; [by apply sendFrame_frame in Es as [? _]|]. left.
    split_and!; [done|done| |by exists env, frame]. intros E. apply Hne. by rewrite E.
Qed.

Lemma handleSend_spec_witness :
  demo_sent.1 = okResp ∧ same_store demo_connected demo_sent.2.
Proof.
  split; [vm_compute; reflexivity|].
  exact (proj1 (handleSend_spec "01" 5 demo_connected (demo_send "hello" "" "ignored")
                  demo_sent.1 demo_sent.2 (surjective_pairing demo_sent))).
Defined.

Section keeping.
Context `{Cbor Envelope} `{Blake3} `{ImageCodec} `{MimeTable} `{Clipboard} `{Json}.

Lemma handleReq_keeps ulid ms d req : daemon_ok d → daemon_ok (handleReq ulid ms d req).1.2.
Proof.
  intros Hok. unfold handleReq. destruct (negb _); [done|].
  repeat match goal with |- context [if String.eqb (rq_Op req) ?o then _ else _] =>
    destruct (String.eqb (rq_Op req) o) end; cbn [reply hold fst snd]; try done.
  - pose proof (handleSend_store ulid ms d req) as Hs. destruct (handleSend ulid ms d req) as [r d'].
    by eapply same_store_ok.
  - unfold handleRecv, recv_subscribe, handleSubscribe.
    destruct (subscribe d) as [ch' d'] eqn:E. apply subscribe_ok in E; [|done].
    repeat case_match; simplify_eq; done.
  - unfold handlePaste. destruct (latest d "any") as [it|]; [|done].
    pose proof (writeClipboard_store d it) as Hs.
    destruct (writeClipboard d it) as [[e|] d']; cbn [snd] in *; by eapply same_store_ok.
  - eapply same_store_ok; [apply handleCopy_store|done].
  - unfold handleSubscribe. destruct (subscribe d) as [ch' d'] eqn:E. by apply subscribe_ok in E.
  - eapply same_store_ok; [apply handleStatus_store|done].
  - unfold handleConfigSet. destruct (SetKey _ _ _ _) as [[[u|e] c] f]; cbn [snd].
    + eapply (same_store_ok d); [|done]. by repeat case_match.
    + by eapply (same_store_ok d).
  - unfold handleConfigGet. by destruct (GetKey _ _).
  - unfold handleJoin. destruct (String.eqb (rq_Target req) ""); [done|].
    destruct (SetServer _ _ _) as [[[u|e] c] f]; cbn; by eapply (same_store_ok d).
  - by apply applyClearScope_ok.
  - eapply same_store_ok; [|apply (applyClearScope_ok d)]; done.
Qed.

(** What the wait leaves in a channel is what was there, or less. *)
Lemma waitFor_rest kind l q o (P : Item → Prop) :
  Forall P l → waitFor l kind = (o, q) → (length q <= length l)%nat ∧ Forall P q.
Proof.
  intros Hf. revert q o. induction Hf as [|it l Hit Hf IH]; intros q o; [by intros [= _ <-]|].
  cbn [waitFor length]. destruct (matchesKind it kind); [intros [= _ <-]; split; [lia|done]|].
  intros [? ?]%IH. split; [lia|done].
Qed.

Lemma resume_wait_ok d ch kind : daemon_ok d → daemon_ok (resume_wait d ch kind).2.
Proof.
  intros Hok. unfold resume_wait. destruct (subs d !! ch) as [c|] eqn:Ec; [|done].
  destruct Hok as [? ? ? Hs]. pose proof (Hs _ _ Ec) as (Hc1 & Hc2 & Hc3 & Hc4).
  destruct (waitFor (queue c) kind) as [o q] eqn:E. destruct (waitFor_rest _ _ _ _ _ Hc4 E) as [Hl Hf].
  destruct o as [it|]; cbn [snd]; split; cbn; try done.
  - by apply map_Forall_delete.
  - apply map_Forall_insert_2; [|done]. split_and!; [done..|cbn; lia|done].
Qed.

Lemma resume_stream_ok d ch kind : daemon_ok d → daemon_ok (resume_stream d ch kind).2.
Proof.
  intros Hok. unfold resume_stream. destruct (subs d !! ch) as [c|] eqn:Ec; [|done]. cbn [snd].
  destruct Hok as [? ? ? Hs]. pose proof (Hs _ _ Ec) as (Hc1 & Hc2 & Hc3 & Hc4).
  split; cbn; try done. apply map_Forall_insert_2; [|done].
  split_and!; [done..|simpl; lia|constructor].
Qed.
End keeping.

(** Every request keeps the daemon's invariant, whatever it asks for, and so does what the
    waiting and streaming connections do later. *)
Theorem handleReq_ok `{Cbor Envelope} `{Blake3} `{ImageCodec} `{MimeTable} `{Clipboard} `{Json}
    ulid ms d req ch kind :
  daemon_ok d →
  daemon_ok (handleReq ulid ms d req).1.2 ∧
  daemon_ok (resume_wait d ch kind).2 ∧ daemon_ok (resume_stream d ch kind).2.
Proof.
  intros Hok. split_and!; [by apply handleReq_keeps|by apply resume_wait_ok|by apply resume_stream_ok].
Qed.

Lemma handleReq_ok_witness :
  daemon_ok (handleReq "01" 5 (demo_daemon "on") (demo_req OpSubscribe)).1.2.
Proof.
  exact (proj1 (handleReq_ok "01" 5 (demo_daemon "on") (demo_req OpSubscribe) 0%nat ""
                  (demo_daemon_ok "on"))).
Defined.

(** A request of another IPC version, and a request for an operation there is none of, are
    refused loudly: the answer is an error with code 2, nothing about the daemon changes and no
    connection is started. *)
Theorem handleReq_rejects `{Cbor Envelope} `{Blake3} `{ImageCodec} `{MimeTable} `{Clipboard} `{Json}
    ulid ms d req :
  rq_IPCVersion req ≠ IPCVersion ∨
  rq_Op req ∉ [OpPing; OpSend; OpRecv; OpPaste; OpCopy; OpSubscribe; OpStatus; OpConfigSet;
               OpConfigGet; OpJoin; OpClear; OpDaemonStop] →
  ∃ msg, handleReq ulid ms d req = (Reply (errResp 2 msg), d, None).
Proof.
  intros Hr. unfold handleReq. destruct (Z.eqb_spec (rq_IPCVersion req) IPCVersion) as [Hv|Hv]; cbn [negb].
  - destruct Hr as [|Hop]; [done|].
    repeat match goal with |- context [if String.eqb (rq_Op req) ?o then _ else _] =>
      destruct (String.eqb_spec (rq_Op req) o) as [E|_]; [exfalso; apply Hop; rewrite E|] end.
    all: try by eexists.
    all: apply (bool_decide_unpack _); vm_compute; exact I.
  - by eexists.
Qed.

Lemma handleReq_rejects_witness :
  ∃ msg, handleReq "01" 5 (demo_daemon "on") (mkRequest 2 OpSend "x" "" "" "" false "" false "" "" "" "")
         = (Reply (errResp 2 msg), demo_daemon "on", None).
Proof. apply handleReq_rejects. left. discriminate. Defined.

(** C34. [recv] without [--follow].  With a buffered item of the kind it answers with the newest one
    at once and changes nothing.  Otherwise it subscribes and waits; from then on, as long as its
    channel does not overflow, the first accepted item of the kind is the one it answers with,
    whatever else comes in before and after, and it is not answered before one does. *)
Theorem recv_spec `{Blake3} `{Clipboard} d req envs :
  daemon_ok d → rq_Follow req = false →
  (∀ item, latest d (recv_kind req) = Some item → handleRecv d req = (Reply (itemResp item), d)) ∧
  (latest d (recv_kind req) = None →
   ∃ ch d1, handleRecv d req = (Waiting ch (recv_kind req), d1) ∧
     ((length (accepted d1 envs) <= subCap)%nat →
      (resume_wait (ingest_all d1 envs) ch (recv_kind req)).1 =
        match head (filter (λ it, matchesKind it (recv_kind req) = true) (accepted d1 envs)) with
        | Some item => Reply (itemResp item)
        | None => Waiting ch (recv_kind req)
        end)).
Proof.
  intros Hok Hfo. unfold handleRecv, recv_latest. rewrite Hfo. split.
  - by intros item ->.
  - intros ->. unfold recv_subscribe. destruct (subscribe d) as [ch d1] eqn:Es.
    exists ch, d1. split; [done|]. intros Hl.
    pose proof (subscribe_ok _ _ _ Es Hok) as Hok1.
    pose proof (subscribe_spec _ _ _ Es) as (_ & Hs & _).
    unfold resume_wait.
    rewrite (ingest_all_sub d1 envs ch (make_chan subCap) Hok1); [|by rewrite Hs, lookup_insert_eq|done|done].
    cbn [queue make_chan app]. pose proof (waitFor_first (accepted d1 envs) (recv_kind req)) as Hw.
    destruct (waitFor (accepted d1 envs) (recv_kind req)) as [[it|] q]; cbn [fst] in *;
      by rewrite <- Hw.
Qed.

Definition demo_recv_start : outcome * Daemon :=
  handleRecv (demo_daemon "notify") (demo_recv "text").

Lemma recv_spec_witness :
  ∃ ch d1, demo_recv_start = (Waiting ch "text", d1) ∧
    ((length (accepted d1 demo_envs) <= subCap)%nat →
     (resume_wait (ingest_all d1 demo_envs) ch "text").1 =
       match head (filter (λ it, matchesKind it "text" = true) (accepted d1 demo_envs)) with
       | Some item => Reply (itemResp item) | None => Waiting ch "text" end).
Proof.
  destruct (recv_spec (demo_daemon "notify") (demo_recv "text") demo_envs
              (demo_daemon_ok "notify") eq_refl) as [_ Hw].
  exact (Hw eq_refl).
Defined.

(** The two critical sections of [recv] leave a gap: an item received between the look into the
    buffer and the subscription is in the buffer, and [recv] nevertheless waits. *)
Theorem recv_lost_wakeup :
  ∃ d env req,
    daemon_ok d ∧ rq_Follow req = false ∧ recv_latest d req = None ∧
    let '(o, d1) := recv_subscribe (ingest 0 d env) req in
    (∃ item, latest d1 (recv_kind req) = Some item ∧ it_Envelope item = env) ∧
    ∃ ch, o = Waiting ch (recv_kind req) ∧ (resume_wait d1 ch (recv_kind req)).1 = o.
Proof.
  exists (demo_daemon "notify"), (demo_text "1" "hi"), (demo_recv "any").
  split; [apply demo_daemon_ok|]. split; [done|]. split; [done|].
  vm_compute. split; [by eexists|]. by eexists.
Qed.

(** ** What is on the clipboard *)

Definition clip_hash `{Blake3} (w : clip_write) : string :=
  match w with FmtText s => HashHex s | FmtImage b => HashHex b end.

(** [lastCopy] is the hash of the last value the daemon put on the clipboard. *)
Definition copy_ok `{Blake3} (d : Daemon) : Prop :=
  match last (written (clip d)) with
  | Some w => lastCopy d = clip_hash w
  | None => lastCopy d = ""
  end.

Section copy_lemmas.
Context `{Blake3} `{Clipboard}.

Lemma writeClipboard_copy d item :
  item_ok item → copy_ok d → copy_ok (writeClipboard d item).2.
Proof.
  intros Hi Hc. destruct (writeClipboard d item) as [e d'] eqn:E. cbn [snd].
  pose proof (writeClipboard_written _ _ _ _ E) as [Hw He]. unfold copy_ok.
  unfold writeClipboard, clipContent in E.
  destruct e as [e|].
  - rewrite app_nil_r in Hw. rewrite Hw.
    assert (lastCopy d' = lastCopy d) as ->; [|done].
    repeat case_match; by simplify_eq.
  - rewrite Hw, last_snoc.
    destruct (String.eqb_spec (Type_ (it_Envelope item)) TypeImage) as [Ht|Ht].
    + destruct (WritePNG (clip d) _) as [[e0|] c]; simplify_eq. cbn.
      apply blobHash_verified, Hi. by left.
    + destruct (String.eqb_spec (Type_ (it_Envelope item)) TypeFile).
      all: destruct (WriteText (clip d) _) as [[e0|] c]; by simplify_eq.
Qed.

Lemma same_clip_copy d d' : clip d' = clip d → lastCopy d' = lastCopy d → copy_ok d → copy_ok d'.
Proof. unfold copy_ok. by intros -> ->. Qed.

Lemma applyClearScope_clip d scope :
  clip (applyClearScope d scope) = clip d ∧ lastCopy (applyClearScope d scope) = lastCopy d.
Proof.
  assert (∀ x, clip (d_clearSinks x) = clip x ∧ lastCopy (d_clearSinks x) = lastCopy x) as Hs.
  { intros x. unfold d_clearSinks. by destruct (clearSinks (sess x) (fs x)). }
  unfold applyClearScope. repeat case_match; [|done..]. by destruct (Hs (clearTransient d)).
Qed.

Lemma ingest_copy now d env : daemon_ok d → copy_ok d → copy_ok (ingest now d env).
Proof.
  intros Hok Hc. unfold ingest. destruct (Seen (d_dedupe d) (MsgID env)) as [[] dd]; [done|].
  destruct (materialize (set_dedupe d dd) env) as [[item|] f] eqn:Em; [|done].
  apply materialize_some in Em as (_ & Hi & _).
  destruct (routeSinks _ _ _ _ _) as [s' f']. unfold applyAutoCopy. repeat case_match; try done.
  by apply writeClipboard_copy.
Qed.

Lemma newest_in p b it : newest p b = Some it → it ∈ b.
Proof. intros (pre & post & -> & _)%newest_spec. set_solver. Qed.

Lemma paste_copy d : daemon_ok d → copy_ok d → copy_ok (handlePaste d).2.
Proof.
  intros Hok Hc. unfold handlePaste. destruct (latest d "any") as [it|] eqn:E; [|done].
  apply newest_in in E. pose proof (ok_items _ Hok) as Hi. rewrite Forall_forall in Hi.
  pose proof (writeClipboard_copy d it (Hi _ E) Hc) as Hw.
  by destruct (writeClipboard d it) as [[e|] d'].
Qed.

Lemma handleCopy_copy d req : daemon_ok d → copy_ok d → copy_ok (handleCopy d req).2.
Proof.
  intros Hok Hc. unfold handleCopy. destruct (negb _).
  - destruct (findByID d _) as [it|] eqn:E; [|done].
    apply newest_in in E. pose proof (ok_items _ Hok) as Hi. rewrite Forall_forall in Hi.
    pose proof (writeClipboard_copy d it (Hi _ E) Hc) as Hw.
    by destruct (writeClipboard d it) as [[e|] d'].
  - destruct (0 <? _)%Z; [|by apply paste_copy].
    destruct (WriteText (clip d) (rq_Bytes req)) as [e c] eqn:E.
    apply WriteText_written in E. unfold copy_ok in *.
    destruct e as [e|]; cbn [snd set_clip clip lastCopy]; rewrite E.
    + by rewrite app_nil_r.
    + by rewrite last_snoc.
Qed.
End copy_lemmas.

(** Echo suppression has its hash: in every state that requests and received envelopes lead to
    from a fresh daemon, [lastCopy] is the content hash of the last value the daemon put on the
    clipboard, and is empty as long as it put none there; a failed write does not change it. *)
Theorem lastCopy_tracks `{Cbor Envelope} `{Blake3} `{ImageCodec} `{MimeTable} `{Clipboard} `{Json}
    ulid ms d req now env :
  daemon_ok d → copy_ok d →
  copy_ok (handleReq ulid ms d req).1.2 ∧ copy_ok (ingest now d env).
Proof.
  intros Hok Hc. split; [|by apply ingest_copy].
  unfold handleReq. destruct (negb _); [done|].
  repeat match goal with |- context [if String.eqb (rq_Op req) ?o then _ else _] =>
    destruct (String.eqb (rq_Op req) o) end; cbn [reply hold fst snd]; try done.
  - destruct (handleSend ulid ms d req) as [r d'] eqn:E. cbn [snd].
    unfold handleSend in E. repeat case_match; simplify_eq; try done.
    all: match goal with Hs : sendFrame _ _ = _ |- _ =>
      apply sendFrame_frame in Hs as (_ & _ & _ & Hs1 & _ & _ & Hs2) end.
    all: by apply (same_clip_copy d).
  - unfold handleRecv, recv_subscribe, handleSubscribe.
    destruct (subscribe d) as [ch' d'] eqn:E. apply subscribe_spec in E. destruct_and!.
    repeat case_match; simplify_eq; try done; by apply (same_clip_copy d).
  - by apply paste_copy.
  - by apply handleCopy_copy.
  - unfold handleStatus. pose proof (Available_written (clip d)) as Ha.
    destruct (Available (clip d)) as [av c]. cbn in *. unfold copy_ok in *. cbn. by rewrite Ha.
  - unfold handleConfigSet. destruct (SetKey _ _ _ _) as [[[u|e] c] f]; cbn [snd]; [|done].
    by repeat case_match.
  - unfold handleConfigGet. by destruct (GetKey _ _).
  - unfold handleJoin. destruct (String.eqb (rq_Target req) ""); [done|].
    by destruct (SetServer _ _ _) as [[[u|e] c] f].
  - unfold handleClear. destruct (applyClearScope_clip d (if rq_All req then "all" else "transient")).
    by apply (same_clip_copy d).
  - unfold handleDaemonStop. cbn [snd].
    match goal with |- copy_ok (triggerStop (applyClearScope d ?s)) =>
      destruct (applyClearScope_clip d s) end.
    by apply (same_clip_copy d).
Qed.

Lemma lastCopy_tracks_witness :
  copy_ok (ingest 0 (demo_daemon "on") (demo_text "1" "hi")) ∧
  lastCopy (ingest 0 (demo_daemon "on") (demo_text "1" "hi")) = HashHex "hi".
Proof.
  split; [|vm_compute; reflexivity].
  exact (proj2 (lastCopy_tracks "01" 5 (demo_daemon "on") (demo_req OpPing) 0 (demo_text "1" "hi")
                  (demo_daemon_ok "on") eq_refl)).
Defined.
