(* ===== verification/Conn.v ===== *)
(** * conn.go: the connection loops of the daemon

    [room-go/internal/daemon/conn.go].  [Daemon.Run] and every [join] of another target start a
    goroutine that dials, publishes its session in the shared [conn] record, receives until the
    session breaks, clears the record and dials again.  A step is one critical section of one
    loop, or one IPC request; a run interleaves them.  Dialling is a label that says how it
    ends. *)
From S2P Require Import Prelude GoStr GoPath GoOS Wire Codec Chan Dedupe Ipc Clip GoTime Config Sinks Daemon Handlers.
Open Scope string_scope.
Open Scope list_scope.

(** Where a loop is.  [Live r]: in [recvLoop] of its session [r]. *)
Inductive loop_at := Dialing | Live (r : ref) | Backoff | Stopped.

Record Loops := mkLoops {
  daemon : Daemon;
  loops : gmap nat (string * loop_at);
  done_ : bool;
}.

Inductive clabel `{Cbor Envelope} :=
| CSpawn (i : nat)                                        (** [Run] starts the configured loop *)
| CRequest (i : nat) (ulid : string) (ms : Z) (req : Request) (** an IPC request *)
| CDialOk (i : nat) (r : ref) (lim : option nat)          (** [dialOnce] publishes its session *)
| CDialErr (i : nat)
| CRecv (i : nat) (now : Z) (frame : string)              (** one frame of [recvLoop] *)
| CDrop (i : nat)                                         (** [recvLoop] returned *)
| CTimer (i : nat)                                        (** the two seconds are over *)
| CDone                                                   (** [d.done] is closed *)
| CStop (i : nat).                                        (** a loop sees it *)

Section conn.
Context `{Cbor Envelope} `{Blake3} `{ImageCodec} `{MimeTable} `{Clipboard} `{Json}.

(** One frame of [recvLoop]: a frame that does not decode is skipped. *)
Definition recv_frame (now : Z) (d : Daemon) (frame : string) : Daemon :=
  match Unmarshal frame with
  | Err _ => d
  | Ok env => ingest now d env
  end.

(** [recvLoop] on a stream whose frames come in at the given time. *)
Fixpoint recv_loop (fuel : nat) (now : Z) (d : Daemon) (r : reader) : Daemon :=
  match fuel with
  | O => d
  | S fuel =>
      match ReadFrame r with
      | (Err _, _) => d
      | (Ok frame, r) => recv_loop fuel now (recv_frame now d frame) r
      end
  end.

Definition recvLoop (now : Z) (d : Daemon) (r : reader) : Daemon :=
  recv_loop (S (String.length (r_buf r))) now d r.

(** [dialOnce] after a successful dial, up to [recvLoop]. *)
Definition publish (d : Daemon) (target : string) (r : ref) (lim : option nat) : Daemon :=
  set_conn d (mkConn (Some r) target true) (<[r := mkWriter "" lim]> (links d)).

(** [dialOnce] after [recvLoop]: whatever session the record holds by then. *)
Definition teardown (d : Daemon) : Daemon :=
  set_conn d (mkConn None (c_target (d_conn d)) false) (links d).

Definition set_loop (st : Loops) (i : nat) (t : string) (l : loop_at) (d : Daemon) : Loops :=
  mkLoops d (<[i := (t, l)]> (loops st)) (done_ st).

Definition spawn (st : Loops) (i : nat) (target : string) (d : Daemon) : option Loops :=
  match loops st !! i with
  | None => Some (set_loop st i target Dialing d)
  | Some _ => None
  end.

Definition cstep (st : Loops) (l : clabel) : option Loops :=
  let d := daemon st in
  match l with
  | CSpawn i =>
      if decide (loops st = ∅ ∧ Server_ (Get (cfg d)) ≠ "")
      then spawn st i (Server_ (Get (cfg d))) d else None
  | CRequest i ulid ms req =>
      match handleReq ulid ms d req with
      | (_, d, None) => Some (mkLoops d (loops st) (done_ st))
      | (_, d, Some target) => spawn st i target d
      end
  | CDialOk i r lim =>
      match loops st !! i, links d !! r with
      | Some (t, Dialing), None => Some (set_loop st i t (Live r) (publish d t r lim))
      | _, _ => None
      end
  | CDialErr i =>
      match loops st !! i with
      | Some (t, Dialing) => Some (set_loop st i t Backoff d)
      | _ => None
      end
  | CRecv i now frame =>
      match loops st !! i with
      | Some (t, Live r) => Some (mkLoops (recv_frame now d frame) (loops st) (done_ st))
      | _ => None
      end
  | CDrop i =>
      match loops st !! i with
      | Some (t, Live r) => Some (set_loop st i t Backoff (teardown d))
      | _ => None
      end
  | CTimer i =>
      match loops st !! i with
      | Some (t, Backoff) => Some (set_loop st i t Dialing d)
      | _ => None
      end
  | CDone => Some (mkLoops d (loops st) true)
  | CStop i =>
      match loops st !! i with
      | Some (t, Backoff) | Some (t, Dialing) =>
          if done_ st then Some (set_loop st i t Stopped d) else None
      | _ => None
      end
  end.

Fixpoint crun (st : Loops) (ls : list clabel) : option Loops :=
  match ls with
  | [] => Some st
  | l :: ls => match cstep st l with Some st => crun st ls | None => None end
  end.

Definition start (d : Daemon) : Loops := mkLoops d ∅ false.

(** ** Lemmas *)

Lemma recv_loop_frames fuel now d r :
  (String.length (r_buf r) < fuel)%nat →
  recv_loop fuel now d r = foldl (recv_frame now) d (ReadFrames r).1.
Proof.
  revert d r. induction fuel as [|fuel IH]; intros d r Hf; [lia|]. cbn [recv_loop].
  destruct (ReadFrame r) as [[frame|e] r'] eqn:E.
  - rewrite (ReadFrames_next _ _ _ E). cbn [foldl]. apply IH.
    apply ReadFrame_shrinks in E. lia.
  - unfold ReadFrames. cbn [read_frames]. by rewrite E.
Qed.

(** [recvLoop] is [ingest] of the envelopes that decode, in order. *)
Lemma recvLoop_spec now d r :
  recvLoop now d r =
  ingest_all d (omap (λ f, match Unmarshal f with Ok e => Some (now, e) | Err _ => None end)
                  (ReadFrames r).1).
Proof.
  unfold recvLoop. rewrite recv_loop_frames by lia. generalize ((ReadFrames r).1). intros fs0.
  revert d. induction fs0 as [|f fs0 IH]; intros d; [done|]. cbn [foldl omap list_omap].
  rewrite IH. unfold recv_frame. by destruct (Unmarshal f).
Qed.

(** What only the loops change. *)
Definition same_conn (d d' : Daemon) : Prop :=
  d_conn d' = d_conn d ∧ ∀ r, is_Some (links d' !! r) ↔ is_Some (links d !! r).

Lemma same_conn_refl d : same_conn d d.
Proof. done. Qed.

Lemma sendFrame_conn d frame : same_conn d (sendFrame d frame).2.
Proof.
  unfold sendFrame. destruct (c_in (d_conn d)) as [r|]; [|done]. destruct (negb _); [done|].
  destruct (links d !! r) as [w|] eqn:E; [|done].
  destruct (WriteFrame w frame) as [[[]|e] w']; split; try done; intros x; cbn;
    rewrite lookup_insert; case_decide; subst; rewrite ?E; by split.
Qed.

Lemma writeClipboard_conn d it : same_conn d (writeClipboard d it).2.
Proof.
  pose proof (writeClipboard_frame d it) as Hf. cbn zeta in Hf. destruct_and!.
  split; [done|]. intros r. by match goal with H : links _ = _ |- _ => rewrite H end.
Qed.

Lemma applyClearScope_conn d scope : same_conn d (applyClearScope d scope).
Proof.
  assert (∀ x, same_conn x (d_clearSinks x)) as Hs.
  { intros x. unfold d_clearSinks. by destruct (clearSinks (sess x) (fs x)). }
  unfold applyClearScope. repeat case_match; [|done..]. apply (Hs (clearTransient d)).
Qed.

Lemma handlePaste_conn d : same_conn d (handlePaste d).2.
Proof.
  unfold handlePaste. destruct (latest d "any") as [it|]; [|done].
  pose proof (writeClipboard_conn d it) as Hw. by destruct (writeClipboard d it) as [[e|] d'].
Qed.

Lemma handleReq_conn ulid ms d req : same_conn d (handleReq ulid ms d req).1.2.
Proof.
  unfold handleReq. destruct (negb _); [done|].
  repeat match goal with |- context [if String.eqb (rq_Op req) ?o then _ else _] =>
    destruct (String.eqb (rq_Op req) o) end; cbn [reply hold fst snd]; try done.
  - unfold handleSend. repeat case_match; try done.
    all: match goal with Hs : sendFrame ?d ?f = _ |- _ => pose proof (sendFrame_conn d f) as Hc;
      rewrite Hs in Hc end; done.
  - unfold handleRecv. by repeat case_match.
  - apply handlePaste_conn.
  - unfold handleCopy. destruct (negb _).
    + destruct (findByID d _) as [it|]; [|done].
      pose proof (writeClipboard_conn d it) as Hw. by destruct (writeClipboard d it) as [[e|] d'].
    + destruct (0 <? _)%Z; [|apply handlePaste_conn].
      by destruct (WriteText (clip d) (rq_Bytes req)) as [[e|] c].
  - unfold handleStatus. by destruct (Available (clip d)).
  - unfold handleConfigSet. destruct (SetKey _ _ _ _) as [[[u|e] c] f]; [|done].
    by repeat case_match.
  - unfold handleConfigGet. by destruct (GetKey _ _).
  - unfold handleJoin. destruct (String.eqb (rq_Target req) ""); [done|].
    by destruct (SetServer _ _ _) as [[[u|e] c] f].
  - apply applyClearScope_conn.
  - apply applyClearScope_conn.
Qed.

Lemma applyAutoCopy_conn d it : same_conn d (applyAutoCopy d it).
Proof.
  unfold applyAutoCopy. repeat case_match; try done. apply writeClipboard_conn.
Qed.

Lemma recv_frame_conn now d frame : same_conn d (recv_frame now d frame).
Proof.
  unfold recv_frame. destruct (Unmarshal frame) as [env|]; [|done].
  unfold ingest. destruct (Seen _ _) as [[] dd]; [done|].
  destruct (materialize _ _) as [[it|] f]; [|done].
  destruct (routeSinks _ _ _ _ _) as [s' f'].
  match goal with |- same_conn d (applyAutoCopy ?x it) => exact (applyAutoCopy_conn x it) end.
Qed.

(** At most one loop was ever started. *)
Definition one_loop (st : Loops) : Prop :=
  ∀ i j, is_Some (loops st !! i) → is_Some (loops st !! j) → i = j.

(** The shared record says what the loop does. *)
Definition conn_agrees (st : Loops) : Prop :=
  (c_connected (d_conn (daemon st)) = true →
   ∃ i t r, loops st !! i = Some (t, Live r) ∧ c_in (d_conn (daemon st)) = Some r ∧
            c_target (d_conn (daemon st)) = t ∧ is_Some (links (daemon st) !! r)) ∧
  (∀ i t r, loops st !! i = Some (t, Live r) →
     c_connected (d_conn (daemon st)) = true ∧ c_in (d_conn (daemon st)) = Some r).

Lemma agrees_same st d : same_conn (daemon st) d → conn_agrees st →
  conn_agrees (mkLoops d (loops st) (done_ st)).
Proof.
  intros [Hc Hl] [Hone Hliv]. split; cbn [daemon loops]; rewrite Hc; [|done].
  intros Ht. destruct (Hone Ht) as (i & t & r & ? & ? & ? & ?). exists i, t, r.
  split_and!; [done..|by apply Hl].
Qed.

(** A loop that is not live may move between the other places. *)
Lemma agrees_move st i t l l' d :
  loops st !! i = Some (t, l) ∨ loops st !! i = None → (∀ r, l ≠ Live r) → (∀ r, l' ≠ Live r) →
  same_conn (daemon st) d → conn_agrees st → conn_agrees (set_loop st i t l' d).
Proof.
  intros Hi Hl Hl' [Hc Hk] [Hone Hliv]. split; cbn [daemon loops set_loop]; rewrite Hc.
  - intros Ht. destruct (Hone Ht) as (j & tj & r & Hj & ? & ? & ?). exists j, tj, r.
    rewrite lookup_insert_ne; [split_and!; [done..|by apply Hk]|].
    intros ->. destruct Hi as [Hi|Hi]; rewrite Hi in Hj; [|done].
    injection Hj as -> ->. by apply (Hl r).
  - intros j tj r. rewrite lookup_insert. case_decide; [|apply Hliv].
    intros [= _ ->]. by destruct (Hl' r).
Qed.

Lemma one_loop_insert st i x d :
  one_loop (set_loop st i x.1 x.2 d) → one_loop st ∧ ∀ j, is_Some (loops st !! j) → j = i.
Proof.
  intros Hone.
  assert (∀ j, is_Some (loops st !! j) → is_Some (<[i := x]> (loops st) !! j)) as Hs.
  { intros j Hj. rewrite lookup_insert. case_decide; [by eexists|done]. }
  assert (∀ j, is_Some (loops st !! j) → j = i) as Hi.
  { intros j Hj. apply Hone; cbn [loops set_loop]; rewrite <- (surjective_pairing x).
    - by apply Hs.
    - rewrite lookup_insert_eq. by eexists. }
  split; [|done]. intros j k Hj Hk. by rewrite (Hi j Hj), (Hi k Hk).
Qed.

Lemma spawn_inv st i target d st' :
  spawn st i target d = Some st' → same_conn (daemon st) d →
  (one_loop st → conn_agrees st) → one_loop st' → conn_agrees st'.
Proof.
  unfold spawn. destruct (loops st !! i) eqn:E; [done|]. intros [= <-] Hc HI Hone.
  apply (one_loop_insert st i (target, Dialing)) in Hone as [Hone _].
  apply (agrees_move st i target Backoff); auto; done.
Qed.

Lemma cstep_inv st l st' :
  cstep st l = Some st' → (one_loop st → conn_agrees st) → one_loop st' → conn_agrees st'.
Proof.
  intros Hst HI Hone. destruct l as [i|i ulid ms req|i r lim|i|i now frame|i|i| |i]; cbn [cstep] in Hst.
  - case_decide; [|done]. by eapply spawn_inv; [exact Hst|apply same_conn_refl|..].
  - pose proof (handleReq_conn ulid ms (daemon st) req) as Hc.
    destruct (handleReq ulid ms (daemon st) req) as [[o d] [target|]]; cbn [fst snd] in Hc.
    + by eapply spawn_inv; [exact Hst|..].
    + injection Hst as <-. apply agrees_same; [done|]. by apply HI.
  - destruct (loops st !! i) as [[t []]|] eqn:E; try done.
    destruct (links (daemon st) !! r) eqn:El; [done|]. injection Hst as <-.
    apply (one_loop_insert st i (t, Live r)) in Hone as [Hone Hi].
    split; cbn [daemon loops set_loop publish set_conn d_conn c_connected c_in c_target links].
    + intros _. exists i, t, r. rewrite !lookup_insert_eq. by eauto.
    + intros j tj rj. rewrite lookup_insert. case_decide as Hj; [by intros [= <- <-]|].
      intros Hl. destruct Hj. symmetry. apply Hi. eauto.
  - destruct (loops st !! i) as [[t []]|] eqn:E; try done. injection Hst as <-.
    apply (one_loop_insert st i (t, Backoff)) in Hone as [Hone _].
    apply (agrees_move st i t Dialing); auto; done.
  - destruct (loops st !! i) as [[t []]|] eqn:E; try done. injection Hst as <-.
    apply agrees_same; [apply recv_frame_conn|]. by apply HI.
  - destruct (loops st !! i) as [[t []]|] eqn:E; try done. injection Hst as <-.
    apply (one_loop_insert st i (t, Backoff)) in Hone as [Hone Hi].
    split; cbn [daemon loops set_loop teardown set_conn d_conn c_connected]; [done|].
    intros j tj rj. rewrite lookup_insert. case_decide as Hj; [done|].
    intros Hl. destruct Hj. symmetry. apply Hi. eauto.
  - destruct (loops st !! i) as [[t []]|] eqn:E; try done. injection Hst as <-.
    apply (one_loop_insert st i (t, Dialing)) in Hone as [Hone _].
    apply (agrees_move st i t Backoff); auto; done.
  - injection Hst as <-. by apply HI.
  - destruct (loops st !! i) as [[t []]|] eqn:E; try done; destruct (done_ st); try done;
      injection Hst as <-; apply (one_loop_insert st i (t, Stopped)) in Hone as [Hone _].
    + apply (agrees_move st i t Dialing); auto; done.
    + apply (agrees_move st i t Backoff); auto; done.
Qed.

Lemma crun_inv st ls st' :
  crun st ls = Some st' → (one_loop st → conn_agrees st) → one_loop st' → conn_agrees st'.
Proof.
  revert st. induction ls as [|l ls IH]; intros st; cbn [crun]; [by intros [= <-]|].
  destruct (cstep st l) as [st1|] eqn:E; [|done]. intros Hr HI. apply (IH st1 Hr).
  by eapply cstep_inv.
Qed.
End conn.

(** ** Examples *)

#[local] Existing Instance pad_blake3.
#[local] Existing Instance clipboard_works.
#[local] Existing Instance frame_json.
#[local] Existing Instance frame_cbor.
#[local] Existing Instance no_images.
#[local] Existing Instance no_mime.

(** The demo daemon with a configured server. *)
Definition demo_server : Daemon :=
  set_cfg (demo_daemon "notify")
    (mkStore "/cfg" (mkSettings "notify" "/in" "/log.txt" "ask" "dev" "default" "u@host" "off" "off"))
    demo_tree.

Definition demo_join : Request := mkRequest 1 OpJoin "" "" "" "" false "" false "" "" "" "u@host".

(** The configured loop is still dialling when the user joins the same server. *)
Definition demo_two_loops : list clabel :=
  [CSpawn 0; CRequest 1 "" 0 demo_join; CDialOk 0 7 None; CDialOk 1 8 None; CDrop 0].

Definition demo_one_loop : list clabel :=
  [CSpawn 0; CDialErr 0; CTimer 0; CDialOk 0 7 None;
   CRecv 0 0 (enc_env (demo_text "1" "hi"))].

Definition loops_after (d : Daemon) (ls : list clabel) : Loops :=
  match crun (start d) ls with Some st => st | None => start d end.

(** ** Properties *)

(** As long as only one connection loop was ever started, the shared connection record tells
    the truth in every reachable state: the daemon is connected exactly when the loop is in its
    receive loop, and then frames go to the session that loop receives from; no request, received
    frame, reconnect or shutdown breaks this. *)
Theorem conn_record_single `{Cbor Envelope} `{Blake3} `{ImageCodec} `{MimeTable} `{Clipboard} `{Json}
    d ls st :
  d_conn d = mkConn None "" false → crun (start d) ls = Some st → one_loop st →
  (isConnected (daemon st) = true ↔ ∃ i t r, loops st !! i = Some (t, Live r)) ∧
  (∀ i t r, loops st !! i = Some (t, Live r) →
     c_in (d_conn (daemon st)) = Some r ∧ serverTarget (daemon st) = t ∧
     is_Some (links (daemon st) !! r)).
Proof.
  intros Hd Hr Hone.
  assert (conn_agrees st) as [HA HB].
  { eapply crun_inv; [exact Hr| |done]. intros _. split; cbn [start daemon loops]; rewrite ?Hd; done. }
  split.
  - split; [|intros (i & t & r & Hi); by apply (HB i t r)].
    intros (i & t & r & Hi & _)%HA. eauto.
  - intros i t r Hi. destruct (HB i t r Hi) as [Hc Hin]. split; [done|].
    destruct (HA Hc) as (j & tj & rj & Hj & Hinj & Htj & Hlj).
    assert (j = i) as -> by (apply Hone; eauto). rewrite Hi in Hj. injection Hj as <- <-.
    split; [done|done].
Qed.

Lemma demo_one_loop_reach : crun (start demo_server) demo_one_loop = Some (loops_after demo_server demo_one_loop).
Proof. vm_compute. reflexivity. Qed.

Lemma demo_one_loop_live :
  loops (loops_after demo_server demo_one_loop) = {[ 0%nat := ("u@host", Live 7) ]}.
Proof. vm_compute. reflexivity. Qed.

Lemma conn_record_single_witness :
  c_in (d_conn (daemon (loops_after demo_server demo_one_loop))) = Some 7%nat ∧
  map (λ it, Text (it_Envelope it)) (buffer (daemon (loops_after demo_server demo_one_loop))) = ["hi"].
Proof.
  destruct (conn_record_single demo_server demo_one_loop _ eq_refl demo_one_loop_reach) as [_ Hl].
  - intros i j. rewrite demo_one_loop_live. rewrite !lookup_singleton_is_Some. congruence.
  - split; [|vm_compute; reflexivity].
    apply (Hl 0%nat "u@host" 7%nat). rewrite demo_one_loop_live. reflexivity.
Defined.

(** With a second loop it does not: a [join] of the configured server while its loop is still
    dialling starts another loop to the same server; both get a session, and when one of them
    breaks the record says the daemon is not connected although the other session is live. *)
Theorem join_second_loop :
  ∃ st i r frame, crun (start demo_server) demo_two_loops = Some st ∧
    loops st !! i = Some ("u@host", Live r) ∧ is_Some (links (daemon st) !! r) ∧
    isConnected (daemon st) = false ∧
    (sendFrame (daemon st) frame).1 = Some "not connected to server".
Proof.
  exists (loops_after demo_server demo_two_loops), 1%nat, 8%nat, "f".
  split; [vm_compute; reflexivity|]. split; [vm_compute; reflexivity|].
  split; [vm_compute; by eexists|]. split; vm_compute; reflexivity.
Qed.
