(* ===== verification/Serve.v ===== *)
(** * The process of a daemon: accepting connections, and one goroutine for each

    The accept loop and the shutdown watcher of [Daemon.Run], and the goroutine of each connection
    from [handleConn] to its end.  room-go ([internal/daemon]) and the experiments
    ([shared-go/daemon]) have the same loops around different daemons, so the loops are written
    once, over the class [Server] of what they ask of a daemon; [RoomServe] and [ProbeServe] are its
    instances.  A step is what one goroutine does between two points where another may run. *)
From S2P Require Import Prelude GoStr Wire Chan Ipc.
Open Scope string_scope.
Open Scope list_scope.

(** What [handleConn] does with a connection after the request: it has answered (or closed it), or
    holds on to a channel, to stream what comes in ([follow]) or for one item. *)
Inductive held := Answered | Held (follow : bool) (ch : nat) (kind : string).

(** A daemon [D]: [X], what a handler is given besides the request; [L], what else happens to the
    daemon; [I], its items; [R], its responses. *)
Class Server (D X L I R : Type) := {
  sv_subs : D → gmap nat (chan I);
  sv_set_subs : D → gmap nat (chan I) → D;
  sv_handleConn : X → D → reader → writer → held * D * writer;
  sv_cap : nat;                      (** of the channel of a subscriber *)
  sv_matches : I → string → bool;
  sv_itemResp : I → R;
  sv_background : L → D → option D;
  sv_accepted : L → D → list I;      (** the items a background step hands to the subscribers *)
  sv_stopping : D → bool;            (** [daemon stop] was handled *)
  sv_watch : bool → D → D;           (** the watcher, by a signal or not *)
  sv_return : X → D → D;             (** the deferred calls of [Run] *)
}.

(** New items come to the channels: each gets some of them, in order, and all of them if it has
    room for all. *)
Definition fed {I} (s s' : gmap nat (chan I)) (news : list I) : Prop :=
  ∀ ch, match s !! ch with
        | None => s' !! ch = None
        | Some c => ∃ k, k `sublist_of` news ∧
            (closed c = false → (length (queue c) + length news ≤ chan_cap c)%nat → k = news) ∧
            s' !! ch = Some (mkChan (queue c ++ k) (chan_cap c) (closed c))
        end.

Lemma fed_same {I} (s s' : gmap nat (chan I)) : s' = s → fed s s' [].
Proof.
  intros -> ch. destruct (s !! ch) as [[q n b]|]; [|done]. exists []. by rewrite app_nil_r.
Qed.

(** The loop over the subscribers that drops an item where there is no room. *)
Lemma fed_notify {I} (s : gmap nat (chan I)) it :
  fed s ((λ ch, match try_send ch it with Sent ch => ch | _ => ch end) <$> s) [it].
Proof.
  intros ch. rewrite lookup_fmap. destruct (s !! ch) as [[q n b]|]; [|done]. cbn. unfold try_send.
  cbn [closed queue chan_cap length]. destruct b; [|destruct (Nat.ltb_spec (length q) n)]; [|by exists [it]|];
    (exists []; rewrite app_nil_r; split_and!; [apply sublist_nil_l| |done]); [done|intros _; lia].
Qed.

(** What the loops rely on. *)
Class ServerLaws (D X L I R : Type) `{Cbor R} `{Server D X L I R} := {
  sv_subs_set : ∀ d s, sv_subs (sv_set_subs d s) = s;
  sv_answered : ∀ x d rd w d' w', sv_handleConn x d rd w = (Answered, d', w') →
    sv_subs d' = sv_subs d ∧ ∃ rs : list R, (length rs ≤ 1)%nat ∧ w' = (write_msgs w rs).2;
  sv_holds : ∀ x d rd w follow ch kind d' w',
    sv_handleConn x d rd w = (Held follow ch kind, d', w') →
    sv_subs d !! ch = None ∧ w' = w ∧ sv_subs d' = <[ch := make_chan sv_cap]> (sv_subs d);
  sv_feeds : ∀ l d d', sv_background l d = Some d' → fed (sv_subs d) (sv_subs d') (sv_accepted l d);
  sv_watch_subs : ∀ b d, sv_subs (sv_watch b d) = sv_subs d;
  sv_return_subs : ∀ x d, sv_subs (sv_return x d) = sv_subs d;
}.

(** Where the goroutine of a connection is. *)
Inductive goroutine := Starting | Holding (follow : bool) (ch : nat) (kind : string) | Finished.

(** A connection.  [g_w]: what was written to it.  The other fields are history: the writer it had
    at first, what it ever held on for, how many items had been accepted by then, and the items
    it took from its channel. *)
Record client (I : Type) := mkClient {
  g_at : goroutine;
  g_w : writer;
  g_w0 : writer;
  g_hold : option (bool * string);
  g_from : nat;
  g_taken : list I;
}.
Arguments mkClient {I}.
Arguments g_at {I}.
Arguments g_w {I}.
Arguments g_w0 {I}.
Arguments g_hold {I}.
Arguments g_from {I}.
Arguments g_taken {I}.

(** [hist]: the items the daemon accepted, in order (history). *)
Record Srv (D I : Type) := mkSrv {
  sv_d : D;
  accepting : bool;                    (** the listener is open *)
  done : bool;                         (** [d.done] is closed *)
  conns : gmap nat (client I);
  returned : option (option string);   (** what [Run] returned *)
  hist : list I;
}.
Arguments mkSrv {D I}.
Arguments sv_d {D I}.
Arguments accepting {D I}.
Arguments done {D I}.
Arguments conns {D I}.
Arguments returned {D I}.
Arguments hist {D I}.

Inductive slabel (X L : Type) :=
| SAccept (c : nat) (w : writer)             (** [Accept] gives a connection *)
| SAcceptErr (e : string) (x : X)            (** [Accept] fails, and [Run] returns *)
| SRequest (c : nat) (x : X) (rd : reader)   (** the request is read and handled *)
| STake (c : nat)                            (** a goroutine takes an item from its channel *)
| SQuit (c : nat)                            (** a stream sees [d.done] *)
| SWatch (signalled : bool)                  (** the watcher wakes and closes [d.done] *)
| SClose                                     (** it closes the listener *)
| SBack (l : L).
Arguments SAccept {X L}.
Arguments SAcceptErr {X L}.
Arguments SRequest {X L}.
Arguments STake {X L}.
Arguments SQuit {X L}.
Arguments SWatch {X L}.
Arguments SClose {X L}.
Arguments SBack {X L}.

Section serve.
Context {D X L I R : Type} `{Cbor R} `{!Server D X L I R}.
Implicit Types (st : Srv D I) (cl : client I) (d : D).

Definition sv_start (d : D) : Srv D I := mkSrv d true false ∅ None [].

Definition set_client st (c : nat) cl (d : D) : Srv D I :=
  mkSrv d (accepting st) (done st) (<[c := cl]> (conns st)) (returned st) (hist st).

(** [conns !! c] ends: the deferred [unsubscribe] and [Close]. *)
Definition finish cl (w : writer) (taken : list I) : client I :=
  mkClient Finished w (g_w0 cl) (g_hold cl) (g_from cl) taken.

(** One round of the loop of [handleSubscribe], or of [waitFor]. *)
Definition take_item st (c : nat) cl (follow : bool) (ch : nat) (kind : string) : option (Srv D I) :=
  let d := sv_d st in
  match sv_subs d !! ch with
  | None => None
  | Some chan =>
      match queue chan with
      | [] => None
      | it :: q =>
          let taken := g_taken cl ++ [it] in
          let subs := <[ch := mkChan q (chan_cap chan) (closed chan)]> (sv_subs d) in
          let stay w := set_client st c
            (mkClient (Holding follow ch kind) w (g_w0 cl) (g_hold cl) (g_from cl) taken)
            (sv_set_subs d subs) in
          let quit w := set_client st c (finish cl w taken) (sv_set_subs d (delete ch subs)) in
          if sv_matches it kind then
            match write_msg (g_w cl) (sv_itemResp it) with
            | (Ok _, w) => Some (if follow then stay w else quit w)
            | (Err _, w) => Some (quit w)
            end
          else Some (stay (g_w cl))
      end
  end.

Definition sstep st (l : slabel X L) : option (Srv D I) :=
  let d := sv_d st in
  match returned st with
  | Some _ => None
  | None =>
      match l with
      | SAccept c w =>
          match conns st !! c with
          | Some _ => None
          | None =>
              if accepting st then Some (set_client st c (mkClient Starting w w None 0 []) d) else None
          end
      | SAcceptErr e x =>
          Some (mkSrv (sv_return x d) (accepting st) (done st) (conns st)
                  (Some (if done st then None else Some e)) (hist st))
      | SRequest c x rd =>
          match conns st !! c with
          | Some cl =>
              match g_at cl with
              | Starting =>
                  match sv_handleConn x d rd (g_w cl) with
                  | (Answered, d, w) => Some (set_client st c (finish cl w []) d)
                  | (Held follow ch kind, d, w) =>
                      Some (set_client st c
                        (mkClient (Holding follow ch kind) w (g_w0 cl) (Some (follow, kind)) (length (hist st)) []) d)
                  end
              | _ => None
              end
          | None => None
          end
      | STake c =>
          match conns st !! c with
          | Some cl =>
              match g_at cl with Holding follow ch kind => take_item st c cl follow ch kind | _ => None end
          | None => None
          end
      | SQuit c =>
          match conns st !! c with
          | Some cl =>
              match g_at cl with
              | Holding true ch _ =>
                  if done st then
                    Some (set_client st c (finish cl (g_w cl) (g_taken cl))
                            (sv_set_subs d (delete ch (sv_subs d))))
                  else None
              | _ => None
              end
          | None => None
          end
      | SWatch signalled =>
          if negb (done st) && (signalled || sv_stopping d) then
            Some (mkSrv (sv_watch signalled d) (accepting st) true (conns st) None (hist st))
          else None
      | SClose =>
          if done st && accepting st
          then Some (mkSrv d false true (conns st) None (hist st)) else None
      | SBack l =>
          match sv_background l d with
          | Some d' => Some (mkSrv d' (accepting st) (done st) (conns st) None
                               (hist st ++ sv_accepted l d))
          | None => None
          end
      end
  end.

Fixpoint srun st (ls : list (slabel X L)) : option (Srv D I) :=
  match ls with
  | [] => Some st
  | l :: ls => match sstep st l with Some st => srun st ls | None => None end
  end.
End serve.

(** ** Who holds which channel *)

Section owners.
Context {I : Type}.
Implicit Types (S : gmap nat (chan I)) (conns : gmap nat (client I)) (cl : client I).

Definition chan_of cl : option nat :=
  match g_at cl with Holding _ ch _ => Some ch | _ => None end.
Definition owner conns (c : nat) : option nat := conns !! c ≫= chan_of.

(** The subscribers are the channels that goroutines hold, each held by one. *)
Record subs_held S conns : Prop := {
  sh_held : ∀ ch, is_Some (S !! ch) ↔ ∃ c, owner conns c = Some ch;
  sh_one : ∀ c1 c2 ch, owner conns c1 = Some ch → owner conns c2 = Some ch → c1 = c2;
}.

Lemma owner_insert conns c cl c' :
  owner (<[c := cl]> conns) c' = if decide (c = c') then chan_of cl else owner conns c'.
Proof. unfold owner. rewrite lookup_insert. by case_decide. Qed.

Lemma sh_dom S S' conns :
  (∀ ch, is_Some (S' !! ch) ↔ is_Some (S !! ch)) → subs_held S conns → subs_held S' conns.
Proof. intros Hd [Hh Ho]. split; [|done]. intros ch. by rewrite Hd. Qed.

Lemma sh_keep S conns c cl :
  chan_of cl = owner conns c → subs_held S conns → subs_held S (<[c := cl]> conns).
Proof.
  intros Hc [Hh Ho].
  assert (∀ c', owner (<[c := cl]> conns) c' = owner conns c') as E.
  { intros c'. rewrite owner_insert. case_decide; congruence. }
  split; [|intros c1 c2 ch; rewrite !E; apply Ho].
  intros ch. rewrite Hh. split; intros [x Hx]; exists x; [by rewrite E|by rewrite <-E].
Qed.

Lemma sh_add S conns c cl ch x :
  owner conns c = None → S !! ch = None → chan_of cl = Some ch →
  subs_held S conns → subs_held (<[ch := x]> S) (<[c := cl]> conns).
Proof.
  intros Hc Hn Hcl [Hh Ho].
  assert (∀ c', owner conns c' = Some ch → False) as Hno.
  { intros c' Hc'. assert (is_Some (S !! ch)) as [? ?]; [|congruence]. apply Hh. by exists c'. }
  split.
  - intros ch'. rewrite lookup_insert_is_Some. rewrite Hh. split.
    + intros [<-|[Hne [c' Hc']]]; [exists c; by rewrite owner_insert, decide_True|].
      exists c'. rewrite owner_insert, decide_False by congruence. done.
    + intros [c' Hc']. rewrite owner_insert in Hc'. case_decide; [left; congruence|].
      destruct (decide (ch = ch')) as [->|]; [by left|right]. split; [done|by exists c'].
  - intros c1 c2 ch'. rewrite !owner_insert. repeat case_decide; subst; try done.
    + intros H1 H2. assert (ch' = ch) as -> by congruence. by destruct (Hno c2).
    + intros H1 H2. assert (ch' = ch) as -> by congruence. by destruct (Hno c1).
    + apply Ho.
Qed.

Lemma sh_del S conns c cl ch :
  owner conns c = Some ch → chan_of cl = None →
  subs_held S conns → subs_held (delete ch S) (<[c := cl]> conns).
Proof.
  intros Hc Hcl [Hh Ho]. split.
  - intros ch'. rewrite lookup_delete_is_Some, Hh. split.
    + intros [Hne [c' Hc']]. exists c'. rewrite owner_insert, decide_False by congruence. done.
    + intros [c' Hc']. rewrite owner_insert in Hc'. case_decide; [congruence|].
      split; [|by exists c']. intros ->. assert (c = c') by by eapply Ho. done.
  - intros c1 c2 ch'. rewrite !owner_insert. repeat case_decide; subst; try congruence.
    apply Ho.
Qed.
End owners.

(** ** The invariant *)

Section invariant.
Context {D X L I R : Type} `{Cbor R} `{!Server D X L I R} `{!ServerLaws D X L I R}.
Implicit Types (st : Srv D I) (cl : client I) (d : D) (S : gmap nat (chan I)).

(** The responses to the items a goroutine took: those of its kind. *)
Definition said (kind : string) (taken : list I) : list R :=
  map sv_itemResp (filter (λ it, sv_matches it kind = true) taken).

(** What was written to a connection, and what it took, at each place. *)
Definition client_ok S (hist : list I) cl : Prop :=
  (g_from cl ≤ length hist)%nat ∧
  match g_at cl with
  | Starting => g_hold cl = None ∧ g_w cl = g_w0 cl
  | Holding follow ch kind =>
      g_hold cl = Some (follow, kind) ∧ (follow = false → said kind (g_taken cl) = []) ∧
      (∃ q, S !! ch = Some (mkChan q sv_cap false) ∧ (g_taken cl ++ q) `sublist_of` drop (g_from cl) hist ∧
         ((length hist - g_from cl ≤ sv_cap)%nat → g_taken cl ++ q = drop (g_from cl) hist)) ∧
      write_msgs (g_w0 cl) (said kind (g_taken cl)) = (Ok (), g_w cl)
  | Finished =>
      match g_hold cl with
      | None => ∃ rs : list R, (length rs ≤ 1)%nat ∧ g_w cl = (write_msgs (g_w0 cl) rs).2
      | Some (follow, kind) =>
          (follow = false → (length (said kind (g_taken cl)) ≤ 1)%nat) ∧
          g_taken cl `sublist_of` drop (g_from cl) hist ∧
          g_w cl = (write_msgs (g_w0 cl) (said kind (g_taken cl))).2
      end
  end.

Record srv_inv st : Prop := {
  si_held : subs_held (sv_subs (sv_d st)) (conns st);
  si_clients : map_Forall (λ _ cl, client_ok (sv_subs (sv_d st)) (hist st) cl) (conns st);
  si_done : accepting st = false → done st = true;
  si_nil : returned st = Some None → done st = true;
}.

Lemma said_snoc kind taken it :
  said kind (taken ++ [it]) =
  said kind taken ++ (if sv_matches it kind then [sv_itemResp it] else []).
Proof.
  unfold said. rewrite filter_app, map_app, filter_cons, filter_nil.
  destruct (sv_matches it kind); by case_decide.
Qed.

(** The channels of the other goroutines stay as they are. *)
Lemma client_ok_same S S' hist cl :
  (∀ ch, chan_of cl = Some ch → S' !! ch = S !! ch) → client_ok S hist cl → client_ok S' hist cl.
Proof.
  unfold client_ok, chan_of. intros Hs [Hf Hc]. split; [done|].
  destruct (g_at cl) as [|follow ch kind|]; [done| |done].
  by rewrite (Hs ch eq_refl).
Qed.

(** New items come in. *)
Lemma client_ok_fed S S' hist news cl :
  fed S S' news → client_ok S hist cl → client_ok S' (hist ++ news) cl.
Proof.
  intros Hs [Hf Hc].
  assert (drop (g_from cl) (hist ++ news) = drop (g_from cl) hist ++ news) as Hd
    by by rewrite drop_app_le.
  split; [rewrite length_app; lia|].
  destruct (g_at cl) as [|follow ch kind|]; [done| |].
  - destruct Hc as (Hk & Hone & (q & Hch & Hsub & Hall) & Hw). split_and!; [done..| |done].
    specialize (Hs ch). rewrite Hch in Hs. destruct Hs as (k & Hkn & Hroom & ->). cbn [queue closed chan_cap] in *.
    eexists. split; [done|]. rewrite Hd, app_assoc, length_app. split; [by apply sublist_app|].
    intros Hcap. specialize (Hall ltac:(lia)). pose proof (f_equal length Hall) as Hlen.
    rewrite length_app, length_drop in Hlen. by rewrite Hall, (Hroom eq_refl) by lia.
  - destruct (g_hold cl) as [[follow kind]|]; [|done]. destruct Hc as (Hone & Hsub & Hw).
    split_and!; [done| |done]. rewrite Hd. by apply sublist_inserts_r.
Qed.

Lemma clients_same S S' hist (m : gmap nat (client I)) c :
  (∀ c' cl ch, c' ≠ c → m !! c' = Some cl → chan_of cl = Some ch → S' !! ch = S !! ch) →
  map_Forall (λ _ cl, client_ok S hist cl) m →
  ∀ cl, client_ok S' hist cl → map_Forall (λ _ cl, client_ok S' hist cl) (<[c := cl]> m).
Proof.
  intros Hs Hm cl Hcl c' cl' Hc'. rewrite lookup_insert in Hc'. case_decide as Hcc.
  - by injection Hc' as <-.
  - eapply client_ok_same; [|by apply (Hm c')]. intros ch Hch. eapply Hs; [|exact Hc'|exact Hch].
    congruence.
Qed.

(** The channels of a map that one goroutine changes are not those of the others. *)
Lemma others_apart S (m : gmap nat (client I)) c ch :
  subs_held S m → owner m c = Some ch →
  ∀ c' cl ch', c' ≠ c → m !! c' = Some cl → chan_of cl = Some ch' → ch' ≠ ch.
Proof.
  intros [_ Ho] Hc c' cl ch' Hne Hm Hch ->. apply Hne, (Ho c' c ch); [|done].
  unfold owner. by rewrite Hm.
Qed.

Lemma take_inv st c cl follow ch kind st' :
  srv_inv st → conns st !! c = Some cl → g_at cl = Holding follow ch kind →
  take_item st c cl follow ch kind = Some st' → srv_inv st'.
Proof.
  intros [Hh Hc Hd Hn] Hcl Hat. unfold take_item.
  assert (owner (conns st) c = Some ch) as Hown by (unfold owner, chan_of; rewrite Hcl; cbn; by rewrite Hat).
  pose proof (Hc c cl Hcl) as [Hf Hok]. rewrite Hat in Hok.
  destruct Hok as (Hk & Hone & (qu & Ech & Hsub & Hall) & Hw). rewrite Ech. cbn [queue chan_cap closed].
  destruct qu as [|it q]; [done|]. cbv zeta.
  set (S' := <[ch := mkChan q sv_cap false]> (sv_subs (sv_d st))).
  assert (subs_held S' (conns st)) as Hh'.
  { eapply sh_dom; [|exact Hh]. intros x. unfold S'. rewrite lookup_insert.
    case_decide; subst; [|done]. rewrite Ech. by split; eexists. }
  pose proof (others_apart _ _ _ _ Hh Hown) as Hap.
  assert (∀ w, write_msgs (g_w0 cl) (said kind (g_taken cl ++ [it])) = (Ok (), w) →
    (follow = false → said kind (g_taken cl ++ [it]) = []) →
    srv_inv (set_client st c (mkClient (Holding follow ch kind) w (g_w0 cl) (g_hold cl) (g_from cl)
      (g_taken cl ++ [it])) (sv_set_subs (sv_d st) S'))) as Hstay.
  { intros w Hsaid Hno. split; cbn [sv_d conns hist accepting done returned set_client]; rewrite ?sv_subs_set;
      [|eapply clients_same; [|exact Hc|]|done..].
    - apply sh_keep; [|done]. by rewrite Hown.
    - intros c' cl' ch' Hne Hm Hch. unfold S'. rewrite lookup_insert_ne; [done|].
      intros <-. by apply (Hap c' cl' ch).
    - split; [done|]. cbn -[said]. split_and!; [done..| |done]. unfold S'. exists q. rewrite lookup_insert_eq.
      split; [done|]. by rewrite <-app_assoc. }
  assert (∀ w, w = (write_msgs (g_w0 cl) (said kind (g_taken cl ++ [it]))).2 →
    srv_inv (set_client st c (finish cl w (g_taken cl ++ [it])) (sv_set_subs (sv_d st) (delete ch S')))) as Hquit.
  { intros w Hsaid. split; cbn [sv_d conns hist accepting done returned set_client]; rewrite ?sv_subs_set;
      [|eapply clients_same; [|exact Hc|]|done..].
    - by apply sh_del.
    - intros c' cl' ch' Hne Hm Hch. pose proof (Hap c' cl' ch' Hne Hm Hch). unfold S'.
      rewrite lookup_delete_ne, lookup_insert_ne by congruence. done.
    - split; [done|]. cbn -[said]. rewrite Hk. split_and!; [| |done].
      { intros Hfo. rewrite said_snoc, (Hone Hfo). cbn. destruct (sv_matches it kind); cbn; lia. }
      etrans; [|exact Hsub]. apply sublist_app; [done|]. by apply (sublist_app [it] [it] [] q), sublist_nil_l. }
  rewrite said_snoc in Hstay, Hquit.
  destruct (sv_matches it kind).
  - rewrite (write_msgs_snoc _ _ _ _ Hw) in Hstay, Hquit.
    destruct (write_msg (g_w cl) (sv_itemResp it)) as [[[]|e] w].
    + destruct follow; intros [= <-]; [by apply Hstay|by apply Hquit].
    + intros [= <-]. by apply Hquit.
  - rewrite app_nil_r in Hstay. intros [= <-]. by apply Hstay.
Qed.

Lemma request_inv st c cl x rd h d w :
  srv_inv st → conns st !! c = Some cl → g_at cl = Starting →
  sv_handleConn x (sv_d st) rd (g_w cl) = (h, d, w) →
  srv_inv (set_client st c
    match h with
    | Answered => finish cl w []
    | Held follow ch kind =>
        mkClient (Holding follow ch kind) w (g_w0 cl) (Some (follow, kind)) (length (hist st)) []
    end d).
Proof.
  intros [Hh Hc Hd Hn] Hcl Hat Hx.
  assert (owner (conns st) c = None) as Hown by (unfold owner, chan_of; rewrite Hcl; cbn; by rewrite Hat).
  pose proof (Hc c cl Hcl) as [Hf Hok]. rewrite Hat in Hok. destruct Hok as [Hk Hw].
  destruct h as [|follow ch kind].
  - apply sv_answered in Hx as [Hs (rs & Hl & ->)].
    split; cbn [sv_d conns hist accepting done returned set_client]; rewrite ?Hs;
      [|eapply clients_same; [|exact Hc|]|done..].
    + apply sh_keep; [|done]. by rewrite Hown.
    + done.
    + split; [done|]. cbn. rewrite Hk. exists rs. by rewrite Hw.
  - apply sv_holds in Hx as (Hno & -> & Hs).
    split; cbn [sv_d conns hist accepting done returned set_client]; rewrite ?Hs;
      [|eapply clients_same; [|exact Hc|]|done..].
    + by eapply sh_add.
    + intros c' cl' ch' Hne Hm Hch. rewrite lookup_insert_ne; [done|]. intros <-.
      assert (is_Some (sv_subs (sv_d st) !! ch)) as [? ?]; [|congruence].
      apply (sh_held _ _ Hh). exists c'. unfold owner. by rewrite Hm.
    + split; [done|]. cbn. split_and!; [done|done| |by rewrite Hw].
      exists []. rewrite lookup_insert_eq. split; [done|]. rewrite drop_all. split; [apply sublist_nil_l|done].
Qed.

Lemma sstep_inv st l st' : srv_inv st → sstep st l = Some st' → srv_inv st'.
Proof.
  intros HI. unfold sstep. destruct (returned st) eqn:Er; [done|].
  destruct l as [c w|e x|c x rd|c|c|signalled| |l].
  - destruct (conns st !! c) eqn:Ec; [done|]. destruct (accepting st); [|done]. intros [= <-].
    destruct HI as [Hh Hc Hd Hn].
    split; cbn [sv_d conns hist accepting done returned set_client]; [|eapply clients_same; [|exact Hc|]|done..].
    + apply sh_keep; [|done]. unfold owner. by rewrite Ec.
    + done.
    + by split; [cbn; lia|].
  - intros [= <-]. destruct HI as [Hh Hc Hd Hn].
    split; cbn [sv_d conns hist accepting done returned]; rewrite ?sv_return_subs; [done..|].
    by destruct (done st).
  - destruct (conns st !! c) as [cl|] eqn:Ec; [|done]. destruct (g_at cl) eqn:Ea; try done.
    destruct (sv_handleConn x (sv_d st) rd (g_w cl)) as [[h d] w] eqn:Ex.
    pose proof (request_inv _ _ _ _ _ _ _ _ HI Ec Ea Ex) as HI'.
    by destruct h; intros [= <-].
  - destruct (conns st !! c) as [cl|] eqn:Ec; [|done]. destruct (g_at cl) eqn:Ea; try done.
    by apply take_inv.
  - destruct (conns st !! c) as [cl|] eqn:Ec; [|done]. destruct (g_at cl) as [|[] ch kind|] eqn:Ea; try done.
    destruct (done st) eqn:Ed; [|done]. intros [= <-]. destruct HI as [Hh Hc _ _].
    assert (owner (conns st) c = Some ch) as Hown by (unfold owner, chan_of; rewrite Ec; cbn; by rewrite Ea).
    pose proof (Hc c cl Ec) as [Hf Hok]. rewrite Ea in Hok. destruct Hok as (Hk & Hone & (cn & Hcn & Hsub & _) & Hw).
    split; cbn [sv_d conns hist accepting done returned set_client]; rewrite ?sv_subs_set;
      [|eapply clients_same; [|exact Hc|]|done..].
    + by apply sh_del.
    + intros c' cl' ch' Hne Hm Hch. rewrite lookup_delete_ne; [done|].
      pose proof (others_apart _ _ _ _ Hh Hown c' cl' ch' Hne Hm Hch). congruence.
    + split; [done|]. cbn -[said]. rewrite Hk, Hw. split_and!; [done| |done]. etrans; [|exact Hsub].
      by apply sublist_inserts_r.
  - destruct (negb (done st) && _); [|done]. intros [= <-]. destruct HI as [Hh Hc Hd Hn].
    split; cbn [sv_d conns hist accepting done returned]; rewrite ?sv_watch_subs; done.
  - destruct (done st && accepting st) eqn:E; [|done]. intros [= <-]. by destruct HI.
  - destruct (sv_background l (sv_d st)) as [d'|] eqn:El; [|done]. intros [= <-].
    destruct HI as [Hh Hc Hd Hn].
    split; cbn [sv_d conns hist accepting done returned]; [| |done..].
    + eapply sh_dom; [|exact Hh]. intros ch. pose proof (sv_feeds l (sv_d st) d' El ch) as Hf.
      destruct (sv_subs (sv_d st) !! ch) as [cn|]; [|by rewrite Hf].
      destruct Hf as (k & _ & _ & ->). by split; eexists.
    + intros c cl Hcl. eapply client_ok_fed; [by apply sv_feeds|by apply (Hc c)].
Qed.

Lemma srun_inv st ls st' : srv_inv st → srun st ls = Some st' → srv_inv st'.
Proof.
  revert st. induction ls as [|l ls IH]; intros st HI; cbn [srun]; [by intros [= <-]|].
  destruct (sstep st l) as [st1|] eqn:E; [|done]. apply IH. by eapply sstep_inv.
Qed.

Lemma sv_start_inv d : sv_subs d = ∅ → srv_inv (sv_start d).
Proof.
  intros Hs. split; cbn; [|done..]. rewrite Hs. split.
  - intros ch. rewrite lookup_empty. split; [by intros []|]. intros [c Hc].
    unfold owner in Hc. by rewrite lookup_empty in Hc.
  - intros c1 c2 ch Hc. unfold owner in Hc. by rewrite lookup_empty in Hc.
Qed.

(** The items a step accepts. *)
Definition news (d : D) (l : slabel X L) : list I :=
  match l with SBack l => sv_accepted l d | _ => [] end.

Lemma sstep_hist st l st' : sstep st l = Some st' → hist st' = hist st ++ news (sv_d st) l.
Proof.
  unfold sstep. destruct (returned st); [done|].
  destruct l as [c w|e x|c x rd|c|c|signalled| |l]; cbn [news]; rewrite ?app_nil_r; unfold take_item; intros Hs;
    repeat case_match; by simplify_eq/=.
Qed.

(** What a step does to the daemon. *)
Lemma sstep_daemon st l st' :
  sstep st l = Some st' →
  match l with
  | SRequest c x rd => ∃ w h w', sv_handleConn x (sv_d st) rd w = (h, sv_d st', w')
  | SBack l => sv_background l (sv_d st) = Some (sv_d st')
  | SWatch b => sv_d st' = sv_watch b (sv_d st)
  | SAcceptErr _ x => sv_d st' = sv_return x (sv_d st)
  | STake _ | SQuit _ => ∃ s, sv_d st' = sv_set_subs (sv_d st) s
  | SAccept _ _ | SClose => sv_d st' = sv_d st
  end.
Proof.
  unfold sstep. destruct (returned st); [done|].
  destruct l as [c w|e x|c x rd|c|c|signalled| |l]; unfold take_item; intros Hs;
    repeat case_match; simplify_eq/=; eauto.
Qed.

(** A property of the daemon that whatever happens to it in [ls] keeps. *)
Lemma srun_keeps_in (P : D → Prop) st ls st' :
  (∀ c x d rd w h d' w', SRequest c x rd ∈ ls → P d → sv_handleConn x d rd w = (h, d', w') → P d') →
  (∀ l d d', P d → sv_background l d = Some d' → P d') →
  (∀ b d, P d → P (sv_watch b d)) → (∀ x d, P d → P (sv_return x d)) →
  (∀ d ch, P d → P (sv_set_subs d (delete ch (sv_subs d)))) →
  (∀ d ch c it q, P d → sv_subs d !! ch = Some c → queue c = it :: q →
     P (sv_set_subs d (<[ch := mkChan q (chan_cap c) (closed c)]> (sv_subs d)))) →
  P (sv_d st) → srun st ls = Some st' → P (sv_d st').
Proof.
  intros Hx Hl Hw Hr Hd Ht. revert st Hx. induction ls as [|l ls IH]; intros st Hx HP; cbn [srun];
    [by intros [= <-]|].
  destruct (sstep st l) as [st1|] eqn:E; [|done].
  apply IH; [intros c x d rd w h d' w' Hin; by eapply Hx; right|]. clear IH. revert E. unfold sstep.
  destruct (returned st); [done|]. destruct l as [c w|e x|c x rd|c|c|signalled| |l].
  - destruct (conns st !! c); [done|]. destruct (accepting st); [|done]. by intros [= <-].
  - intros [= <-]. by apply Hr.
  - destruct (conns st !! c) as [cl|]; [|done]. destruct (g_at cl); try done.
    destruct (sv_handleConn x (sv_d st) rd (g_w cl)) as [[h d] w] eqn:Ex.
    eapply Hx in Ex; [|by left|done]. by destruct h; intros [= <-].
  - destruct (conns st !! c) as [cl|]; [|done]. destruct (g_at cl); try done. unfold take_item.
    destruct (sv_subs (sv_d st) !! ch) as [cn|] eqn:Ech; [|done].
    destruct (queue cn) as [|it q] eqn:Eq; [done|]. cbv zeta.
    assert (P (sv_set_subs (sv_d st) (delete ch (<[ch := mkChan q (chan_cap cn) (closed cn)]>
      (sv_subs (sv_d st)))))) as Hq by (rewrite delete_insert_eq; by apply Hd).
    destruct (sv_matches it kind); [|intros [= <-]; by eapply Ht].
    destruct (write_msg _ _) as [[[]|?] ?]; [destruct follow|]; intros [= <-]; [by eapply Ht|done..].
  - destruct (conns st !! c) as [cl|]; [|done]. destruct (g_at cl) as [|[] ch kind|]; try done.
    destruct (done st); [|done]. intros [= <-]. by apply Hd.
  - destruct (negb _ && _); [|done]. intros [= <-]. by apply Hw.
  - destruct (done st && _); [|done]. by intros [= <-].
  - destruct (sv_background l (sv_d st)) as [d'|] eqn:El; [|done]. intros [= <-]. by eapply Hl.
Qed.

(** A property of the daemon that whatever happens to it keeps. *)
Lemma srun_keeps (P : D → Prop) st ls st' :
  (∀ x d rd w h d' w', P d → sv_handleConn x d rd w = (h, d', w') → P d') →
  (∀ l d d', P d → sv_background l d = Some d' → P d') →
  (∀ b d, P d → P (sv_watch b d)) → (∀ x d, P d → P (sv_return x d)) →
  (∀ d ch, P d → P (sv_set_subs d (delete ch (sv_subs d)))) →
  (∀ d ch c it q, P d → sv_subs d !! ch = Some c → queue c = it :: q →
     P (sv_set_subs d (<[ch := mkChan q (chan_cap c) (closed c)]> (sv_subs d)))) →
  P (sv_d st) → srun st ls = Some st' → P (sv_d st').
Proof. intros Hx. apply srun_keeps_in. intros c x d rd w h d' w' _. apply Hx. Qed.

(** What a client was sent, when the daemon started with no subscribers. *)
Lemma serve_spec d ls st :
  sv_subs d = ∅ → srun (sv_start d) ls = Some st →
  (∀ ch, is_Some (sv_subs (sv_d st) !! ch) ↔ ∃ c, owner (conns st) c = Some ch) ∧
  (∀ c1 c2 ch, owner (conns st) c1 = Some ch → owner (conns st) c2 = Some ch → c1 = c2) ∧
  (∀ c cl, conns st !! c = Some cl →
     match g_hold cl with
     | None => ∃ rs : list R, (length rs ≤ 1)%nat ∧ g_w cl = (write_msgs (g_w0 cl) rs).2
     | Some (follow, kind) =>
         g_taken cl `sublist_of` drop (g_from cl) (hist st) ∧
         (follow = false → (length (said kind (g_taken cl)) ≤ 1)%nat) ∧
         g_w cl = (write_msgs (g_w0 cl) (said kind (g_taken cl))).2
     end) ∧
  (returned st = Some None → done st = true).
Proof.
  intros Hs Hr. destruct (srun_inv _ _ _ (sv_start_inv d Hs) Hr) as [[Hh Ho] Hc _ Hn].
  split_and!; [done..| |done]. intros c cl Hcl. destruct (Hc c cl Hcl) as [_ Hok].
  destruct (g_at cl).
  - destruct Hok as [-> ->]. exists []. split; [cbn; lia|done].
  - destruct Hok as (-> & Hone & (cn & _ & Hsub & _) & ->). split_and!; [|by intros ->%Hone; cbn; lia|done].
    etrans; [|exact Hsub]. by apply sublist_inserts_r.
  - by destruct (g_hold cl) as [[follow' kind']|]; destruct_and?.
Qed.

(** A connection that holds on and was never behind by more than its channel holds has lost nothing:
    what it took, and what waits for it, is all that came since. *)
Lemma serve_lossless d ls st c cl follow ch kind :
  sv_subs d = ∅ → srun (sv_start d) ls = Some st →
  conns st !! c = Some cl → g_at cl = Holding follow ch kind →
  (length (hist st) - g_from cl ≤ sv_cap)%nat →
  ∃ q, sv_subs (sv_d st) !! ch = Some (mkChan q sv_cap false) ∧
    g_taken cl ++ q = drop (g_from cl) (hist st) ∧
    write_msgs (g_w0 cl) (said kind (g_taken cl)) = (Ok (), g_w cl).
Proof.
  intros Hs Hr Hcl Hat Hl. destruct (srun_inv _ _ _ (sv_start_inv d Hs) Hr) as [_ Hc _ _].
  destruct (Hc c cl Hcl) as [_ Hok]. rewrite Hat in Hok.
  destruct Hok as (_ & _ & (q & Hq & _ & Hall) & Hw). exists q. auto.
Qed.

(** Once its channel is empty, a connection that held on from the start was sent everything of its
    kind. *)
Lemma follower_sent d ls st c cl follow ch kind :
  sv_subs d = ∅ → srun (sv_start d) ls = Some st →
  conns st !! c = Some cl → g_at cl = Holding follow ch kind → g_from cl = 0%nat →
  queue (default (make_chan 0) (sv_subs (sv_d st) !! ch)) = [] → (length (hist st) ≤ sv_cap)%nat →
  write_msgs (g_w0 cl) (said kind (hist st)) = (Ok (), g_w cl).
Proof.
  intros Hs Hr Hcl Hat Hf Hq Hl.
  destruct (serve_lossless d ls st c cl follow ch kind Hs Hr Hcl Hat) as (q & Hch & Hall & Hw); [lia|].
  rewrite Hch in Hq. cbn in Hq. subst q. by rewrite app_nil_r, Hf in Hall; rewrite Hall in Hw.
Qed.
End invariant.
