(* ===== verification/RoomServe.v ===== *)
(** * The process of room-go's daemon

    [Serve] around the daemon of room-go: the accept loop, the connections, the shutdown watcher, and
    the connection loops of [Conn] in one transition system, and what holds in every reachable
    state of it. *)
From S2P Require Import Prelude GoStr GoPath GoOS Wire Codec Chan Dedupe Ipc Clip GoTime Config Sinks Daemon Handlers Conn Serve.
Open Scope string_scope.
Open Scope list_scope.

(** The cases of a step function in which it made a step. *)
Ltac step_cases H :=
  repeat (match type of H with context [match ?x with _ => _ end] => destruct x end; try discriminate H);
  try discriminate H; injection H as <-.

Section room.
Context `{Cbor Envelope} `{Blake3} `{ImageCodec} `{MimeTable} `{Clipboard} `{Json}.
Context `{Cbor Request} `{Cbor Response}.

(** ** The daemon as a server *)

(** The goroutine of a connection; a [join] starts a connection loop. *)
Definition room_handleConn (x : string * Z) (st : Loops) (rd : reader) (w : writer)
    : held * Loops * writer :=
  let '(o, d, go, w) := handleConn x.1 x.2 (daemon st) rd w in
  let st :=
    match go with
    | None => mkLoops d (loops st) (done_ st)
    | Some target => set_loop st (fresh (dom (loops st))) target Dialing d
    end in
  (match o with
   | Reply _ | Closed => Answered
   | Waiting ch kind => Held false ch kind
   | Streaming ch kind => Held true ch kind
   end, st, w).

(** The connection loops; requests and the end come from elsewhere. *)
Definition room_background (l : clabel) (st : Loops) : option Loops :=
  match l with
  | CRequest _ _ _ _ | CDone => None
  | _ => cstep st l
  end.

(** The item [ingest] hands to the subscribers, if it gets that far. *)
Definition new_items (d : Daemon) (env : Envelope) : list Item :=
  if (Seen (d_dedupe d) (MsgID env)).1 then [] else option_list (materialize d env).1.

Definition room_accepted (l : clabel) (st : Loops) : list Item :=
  match l with
  | CRecv _ _ frame =>
      match Unmarshal frame with Ok env => new_items (daemon st) env | Err _ => [] end
  | _ => []
  end.

Definition set_subs (st : Loops) (s : gmap ref (chan Item)) : Loops :=
  mkLoops (set_buffer (daemon st) (buffer (daemon st)) s) (loops st) (done_ st).

(** The deferred [os.Remove]. *)
Definition room_return (socketPath : string) (st : Loops) : Loops :=
  let d := daemon st in
  mkLoops (set_sess d (sess d) (Remove (fs d) socketPath).2) (loops st) (done_ st).

#[export] Instance room_server (socketPath : string) : Server Loops (string * Z) clabel Item Response := {
  sv_subs st := subs (daemon st);
  sv_set_subs := set_subs;
  sv_handleConn := room_handleConn;
  sv_cap := subCap;
  sv_matches := matchesKind;
  sv_itemResp := itemResp;
  sv_background := room_background;
  sv_accepted := room_accepted;
  sv_stopping st := stopReq (daemon st);
  sv_watch signalled st := mkLoops (shutdown (daemon st) signalled) (loops st) true;
  sv_return _ := room_return socketPath;
}.

(** ** Its laws *)

Lemma applyClearScope_subs d scope : subs (applyClearScope d scope) = subs d.
Proof.
  unfold applyClearScope, d_clearSinks. by repeat case_match.
Qed.

(** A handler that answers leaves the subscribers alone; one that holds on has a new channel. *)
Lemma handleReq_subs ulid ms d req o d' go :
  handleReq ulid ms d req = (o, d', go) →
  match o with
  | Reply _ | Closed => subs d' = subs d
  | Waiting ch _ | Streaming ch _ =>
      subs d !! ch = None ∧ subs d' = <[ch := make_chan subCap]> (subs d)
  end.
Proof.
  assert (let '(ch, d') := subscribe d in
    subs d !! ch = None ∧ subs d' = <[ch := make_chan subCap]> (subs d)) as Hsub.
  { destruct (subscribe d) as [ch d1] eqn:E. apply subscribe_spec in E. by destruct_and!. }
  unfold handleReq. destruct (negb _); [by intros [= <- <- <-]|].
  repeat match goal with |- context [if String.eqb (rq_Op req) ?op then _ else _] =>
    destruct (String.eqb (rq_Op req) op) end; unfold reply, hold.
  - by intros [= <- <- <-].
  - destruct (handleSend_store ulid ms d req) as (_ & _ & Hs).
    destruct (handleSend ulid ms d req) as [r d1]. by intros [= <- <- <-].
  - unfold handleRecv, handleSubscribe, recv_subscribe.
    destruct (subscribe d) as [ch d1]. destruct (rq_Follow req); [by intros [= <- <- <-]|].
    destruct (recv_latest d req); by intros [= <- <- <-].
  - intros [= <- <- <-]. unfold handlePaste. destruct (latest d "any") as [it|]; [|done].
    destruct (writeClipboard_store d it) as (_ & _ & Hs).
    by destruct (writeClipboard d it) as [[e|] d1].
  - intros [= <- <- <-]. by destruct (handleCopy_store d req) as (_ & _ & Hs).
  - unfold handleSubscribe. destruct (subscribe d) as [ch d1].
    by intros [= <- <- <-].
  - intros [= <- <- <-]. by destruct (handleStatus_store d) as (_ & _ & Hs).
  - intros [= <- <- <-]. unfold handleConfigSet. destruct (SetKey _ _ _ _) as [[[u|e] c] f]; [|done].
    by repeat case_match.
  - intros [= <- <- <-]. unfold handleConfigGet. by destruct (GetKey _ _).
  - unfold handleJoin. destruct (String.eqb (rq_Target req) ""); [by intros [= <- <- <-]|].
    destruct (SetServer _ _ _) as [[[u|e] c] f]; by intros [= <- <- <-].
  - intros [= <- <- <-]. apply applyClearScope_subs.
  - intros [= <- <- <-]. apply applyClearScope_subs.
  - by intros [= <- <- <-].
Qed.

Lemma ingest_feeds now d env : fed (subs d) (subs (ingest now d env)) (new_items d env).
Proof.
  unfold ingest, new_items. destruct (Seen (d_dedupe d) (MsgID env)) as [[] dd]; cbn [fst];
    [by apply fed_same|].
  change (materialize (set_dedupe d dd) env) with (materialize d env).
  destruct (materialize d env) as [[item|] f]; cbn [fst option_list]; [|by apply fed_same].
  destruct (routeSinks _ _ _ _ _) as [s' f'].
  match goal with |- context [applyAutoCopy ?x item] => pose proof (applyAutoCopy_frame x item) as Hf end.
  cbn zeta in Hf. destruct_and!. match goal with E : subs _ = _ |- _ => rewrite E end.
  apply fed_notify.
Qed.

Lemma room_feeds l st st' :
  room_background l st = Some st' →
  fed (subs (daemon st)) (subs (daemon st')) (room_accepted l st).
Proof.
  destruct l as [i|i ulid ms req|i r lim|i|i now frame|i|i| |i]; cbn [room_background cstep room_accepted];
    intros Hs; unfold spawn, set_loop in Hs;
    step_cases Hs; cbn [daemon]; try by apply fed_same.
  unfold recv_frame. destruct (Unmarshal frame) as [env|e]; [apply ingest_feeds|by apply fed_same].
Qed.

#[export] Instance room_server_laws socketPath :
  @ServerLaws Loops (string * Z) clabel Item Response _ (room_server socketPath).
Proof.
  split; cbn.
  - done.
  - intros x st rd w st' w'. unfold room_handleConn, handleConn. destruct (ReadReq rd).1 as [req|e].
    2:{ intros [= <- <-]. split; [done|]. exists []. split; [cbn; lia|done]. }
    destruct (handleReq x.1 x.2 (daemon st) req) as [[o d] go] eqn:E. apply handleReq_subs in E.
    destruct o as [r| |ch kind|ch kind]; intros Hx; simplify_eq.
    + split; [by destruct go|]. exists [r]. split; [cbn; lia|]. cbn. unfold WriteResp.
      by destruct (write_msg w r) as [[[]|e] w1].
    + split; [by destruct go|]. exists []. split; [cbn; lia|done].
  - intros x st rd w follow ch kind st' w'. unfold room_handleConn, handleConn.
    destruct (ReadReq rd).1 as [req|e]; [|done].
    destruct (handleReq x.1 x.2 (daemon st) req) as [[o d] go] eqn:E. apply handleReq_subs in E.
    destruct o as [r| |ch' kind'|ch' kind']; intros Hx; simplify_eq; destruct E as [E1 E2];
      (split_and!; [done|done|]); by destruct go.
  - intros l st st'. apply room_feeds.
  - intros b st. unfold shutdown, applyClearOnExit. destruct b; [apply applyClearScope_subs|done].
  - done.
Qed.

(** ** What every step keeps *)

Lemma room_handleConn_ok x st rd w h st' w' :
  daemon_ok (daemon st) → room_handleConn x st rd w = (h, st', w') → daemon_ok (daemon st').
Proof.
  intros Hok. unfold room_handleConn, handleConn. destruct (ReadReq rd).1 as [req|e]; [|by intros [= _ <- _]].
  pose proof (handleReq_ok x.1 x.2 (daemon st) req 0 "" Hok) as [Hd _].
  destruct (handleReq x.1 x.2 (daemon st) req) as [[o d] go]. cbn [fst snd] in Hd.
  intros Hx; simplify_eq. by destruct go.
Qed.

Lemma room_background_ok l st st' :
  daemon_ok (daemon st) → room_background l st = Some st' → daemon_ok (daemon st').
Proof.
  intros Hok Hs.
  destruct l as [i|i ulid ms req|i r lim|i|i now frame|i|i| |i]; cbn [room_background cstep] in Hs;
    unfold spawn, set_loop in Hs;
    step_cases Hs; cbn [daemon]; try done; try by destruct Hok.
  unfold recv_frame. destruct (Unmarshal frame); [by apply ingest_ok|done].
Qed.

Lemma set_subs_ok st s :
  daemon_ok (daemon st) → map_Forall (λ _ ch, sub_ok ch) s → daemon_ok (daemon (set_subs st s)).
Proof. by intros []. Qed.

Lemma applyClearScope_dedupe d scope : d_dedupe (applyClearScope d scope) = d_dedupe d.
Proof.
  unfold applyClearScope, d_clearSinks. by repeat case_match.
Qed.

Lemma shutdown_ok d b : daemon_ok d → daemon_ok (shutdown d b).
Proof. unfold shutdown, applyClearOnExit. destruct b; [apply applyClearScope_ok|done]. Qed.

Lemma room_run_ok socketPath st0 ls st :
  daemon_ok (daemon (sv_d st0)) → @srun _ _ _ _ _ _ (room_server socketPath) st0 ls = Some st →
  daemon_ok (daemon (sv_d st)).
Proof.
  intros Hok. apply (srun_keeps (λ st, daemon_ok (daemon st))); cbn; [|..|done].
  - intros x st1 rd w h st' w' Hd. by apply room_handleConn_ok.
  - intros l st1 st' Hd. by apply room_background_ok.
  - intros b st1. apply shutdown_ok.
  - by intros x st1 [].
  - intros st1 ch Hd. apply set_subs_ok; [done|]. apply map_Forall_delete, Hd.
  - intros st1 ch c it q Hd Hc Hq. apply set_subs_ok; [done|]. apply map_Forall_insert_2, Hd.
    destruct (ok_subs _ Hd _ _ Hc) as (H1' & H2' & H3' & H4'). rewrite Hq in H3', H4'.
    apply Forall_cons in H4' as [_ H4']. split_and!; [done|done|cbn in *; lia|done].
Qed.

(** The connection record, as long as one loop was started. *)
Lemma room_run_conn socketPath d ls st :
  d_conn d = mkConn None "" false →
  @srun _ _ _ _ _ _ (room_server socketPath) (sv_start (start d)) ls = Some st →
  one_loop (sv_d st) → conn_agrees (sv_d st).
Proof.
  intros Hconn. apply (srun_keeps (λ st, one_loop st → conn_agrees st)); cbn.
  - intros x st0 rd w h st' w' HI. unfold room_handleConn, handleConn.
    destruct (ReadReq rd).1 as [req|e].
    2:{ intros [= _ <- _]. destruct st0. exact HI. }
    pose proof (handleReq_conn x.1 x.2 (daemon st0) req) as Hc.
    destruct (handleReq x.1 x.2 (daemon st0) req) as [[o d'] [target|]]; cbn [fst snd] in Hc;
      intros Hx; simplify_eq.
    + eapply (spawn_inv st0 _ target d'); [|exact Hc|exact HI]. unfold spawn.
      by rewrite (not_elem_of_dom_1 (loops st0) _ (is_fresh _)).
    + intros Hone. apply agrees_same; [done|]. by apply HI.
  - intros l st0 st' HI Hl. apply (cstep_inv st0 l st'); [|exact HI]. by destruct l.
  - intros b st0 HI Hone. apply (agrees_same st0); [|by apply HI]. unfold shutdown, applyClearOnExit.
    destruct b; [apply applyClearScope_conn|done].
  - intros x st0 HI Hone. apply (agrees_same st0); [done|by apply HI].
  - intros st0 ch HI Hone. apply (agrees_same st0); [done|by apply HI].
  - intros st0 ch c it q HI _ _ Hone. apply (agrees_same st0); [done|by apply HI].
  - intros _. split; cbn [start daemon loops]; by rewrite ?Hconn.
Qed.
End room.

(** ** Properties *)


(** ** An example *)

#[local] Existing Instance pad_blake3.
#[local] Existing Instance clipboard_works.
#[local] Existing Instance frame_json.
#[local] Existing Instance strict_env.
#[local] Existing Instance strict_req.
#[local] Existing Instance strict_resp.
#[local] Existing Instance no_images.
#[local] Existing Instance no_mime.

Definition demo_says (op : string) : reader :=
  mkReader (frame_bytes (bytes_of_msg (demo_req op))) EOF.

(** A client subscribes, a text comes in and is streamed to it; another stops the daemon. *)
Definition demo_session : list (slabel (string * Z) clabel) :=
  [SBack (CSpawn 0); SBack (CDialOk 0 7 None);
   SAccept 1 (mkWriter "" None); SRequest 1 ("", 0%Z) (demo_says OpSubscribe);
   SBack (CRecv 0 0 (enc_env (demo_text "1" "hi"))); STake 1;
   SAccept 2 (mkWriter "" None); SRequest 2 ("", 0%Z) (demo_says OpDaemonStop);
   SWatch false; SClose; SQuit 1; SAcceptErr "closed" ("", 0%Z)].

Definition demo_srv : Srv Loops Item :=
  default (sv_start (start demo_server))
    (@srun _ _ _ _ _ _ (room_server "/run/room.sock") (sv_start (start demo_server)) demo_session).

Lemma demo_session_runs :
  @srun _ _ _ _ _ _ (room_server "/run/room.sock") (sv_start (start demo_server)) demo_session =
  Some demo_srv.
Proof. vm_compute. reflexivity. Qed.

Lemma demo_srv_client :
  match conns demo_srv !! 1%nat with
  | Some cl => g_hold cl = Some (true, "any") ∧ map (λ it, Text (it_Envelope it)) (g_taken cl) = ["hi"] ∧
               g_w0 cl = mkWriter "" None
  | None => False
  end ∧ returned demo_srv = Some None.
Proof. split; [|vm_compute; reflexivity]. vm_compute. split_and!; reflexivity. Qed.

Lemma demo_server_ok : daemon_ok demo_server.
Proof. by destruct (demo_daemon_ok "notify"). Qed.

