(* ===== verification/Flags.v ===== *)
(** * flagset.go: the command-line flags of the subcommands

    [room-go/cmd/room/flagset.go], on a model of the part of the standard packages [flag] and
    [strconv] it calls: a flag set is the values of its flags and the arguments that are left. *)
From S2P Require Import Prelude GoStr.
Open Scope string_scope.
Open Scope list_scope.

(** ** strconv *)

Definition ParseBool (s : string) : option bool :=
  if decide (s ∈ ["1"; "t"; "T"; "TRUE"; "true"; "True"]) then Some true
  else if decide (s ∈ ["0"; "f"; "F"; "FALSE"; "false"; "False"]) then Some false
  else None.

Inductive num_err := ErrSyntax | ErrRange.

(** The value of a digit; letters count from 10. *)
Definition digit (c : ascii) : option Z :=
  let n := of_byte c in
  let l := of_byte (lower_byte c) in
  if ((48 <=? n) && (n <=? 57))%Z then Some (n - 48)%Z
  else if ((97 <=? l) && (l <=? 122))%Z then Some (l - 97 + 10)%Z
  else None.

(** The digits of a number in base [b]; underscores are skipped. *)
Fixpoint digits (b acc : Z) (s : string) : num_err + Z :=
  match s with
  | "" => inr acc
  | String "_" s => digits b acc s
  | String c s =>
      match digit c with
      | Some d =>
          if (b <=? d)%Z then inl ErrSyntax
          else if (2 ^ 64 <=? acc * b + d)%Z then inl ErrRange
          else digits b (acc * b + d)%Z s
      | None => inl ErrSyntax
      end
  end.

(** The base a literal announces, and its digits. *)
Definition base_of (s : string) : Z * string :=
  match s with
  | String "0" (String c (String c' s')) =>
      let l := lower_byte c in
      if Ascii.eqb l "b" then (2%Z, String c' s')
      else if Ascii.eqb l "o" then (8%Z, String c' s')
      else if Ascii.eqb l "x" then (16%Z, String c' s')
      else (8%Z, String c (String c' s'))
  | String "0" s' => (8%Z, s')
  | s => (10%Z, s)
  end.

(** Underscores stand between digits only; [prev]: the class of the previous character. *)
Fixpoint underscores_from (hex : bool) (prev : ascii) (s : string) : bool :=
  match s with
  | "" => negb (Ascii.eqb prev "_")
  | String c s =>
      let n := of_byte c in
      let l := of_byte (lower_byte c) in
      if ((48 <=? n) && (n <=? 57))%Z || hex && ((97 <=? l) && (l <=? 102))%Z
      then underscores_from hex "0" s
      else if Ascii.eqb c "_"
      then if Ascii.eqb prev "0" then underscores_from hex "_" s else false
      else if Ascii.eqb prev "_" then false else underscores_from hex "!" s
  end.

Definition underscoreOK (s : string) : bool :=
  match s with
  | String "0" (String c s') =>
      let l := lower_byte c in
      if decide (l ∈ ["b"; "o"; "x"]%char) then underscores_from (Ascii.eqb l "x") "0" s'
      else underscores_from false "^" s
  | _ => underscores_from false "^" s
  end.

Definition ParseUint (s : string) : num_err + Z :=
  if String.eqb s "" then inl ErrSyntax
  else
    let '(b, ds) := base_of s in
    match digits b 0 ds with
    | inl e => inl e
    | inr z =>
        if ContainsByte s "_" && negb (underscoreOK s) then inl ErrSyntax else inr z
    end.

(** [strconv.ParseInt(s, 0, 64)]. *)
Definition ParseInt (s : string) : num_err + Z :=
  let '(neg, s') :=
    match s with
    | String "+" s' => (false, s')
    | String "-" s' => (true, s')
    | _ => (false, s)
    end in
  match ParseUint s' with
  | inl e => inl e
  | inr un =>
      if negb neg && (2 ^ 63 <=? un)%Z then inl ErrRange
      else if neg && (2 ^ 63 <? un)%Z then inl ErrRange
      else inr (if neg then - un else un)%Z
  end.

Example ParseInt_plain : map ParseInt ["2299"; "-7"; "0x1F"; "017"; "1_000"; "0"] =
  [inr 2299; inr (-7); inr 31; inr 15; inr 1000; inr 0]%Z.
Proof. vm_compute. reflexivity. Qed.
Example ParseInt_bad : map ParseInt [""; "-"; "08"; "1__0"; "_1"; "0x"; "9223372036854775808";
    "99999999999999999999z"] =
  [inl ErrSyntax; inl ErrSyntax; inl ErrSyntax; inl ErrSyntax; inl ErrSyntax; inl ErrSyntax;
   inl ErrRange; inl ErrRange].
Proof. vm_compute. reflexivity. Qed.

(** ** flag *)

Inductive flagval := FBool (b : bool) | FString (s : string) | FInt (z : Z).

Record flagSet := mkFlagSet { f_name : string; formal : gmap string flagval; f_args : list string }.

Definition set_formal (f : flagSet) (m : gmap string flagval) : flagSet :=
  mkFlagSet (f_name f) m (f_args f).
Definition set_args (f : flagSet) (l : list string) : flagSet := mkFlagSet (f_name f) (formal f) l.

(** What [parseOne] makes of its first argument. *)
Inductive token :=
| TPositional
| TEnd
| TBad
| TFlag (name : string) (value : option string).

Definition tokenize (s : string) : token :=
  match s with
  | String "-" (String c s') =>
      let name := if Ascii.eqb c "-" then s' else String c s' in
      if Ascii.eqb c "-" && String.eqb s' "" then TEnd
      else
        match name with
        | "" => TBad
        | String c' _ =>
            if Ascii.eqb c' "-" || Ascii.eqb c' "=" then TBad
            else match Cut "=" name with
                 | Some (n, v) => TFlag n (Some v)
                 | None => TFlag name None
                 end
        end
  | _ => TPositional
  end.

(** [flag.Value.Set]: the new value, or its error. *)
Definition Set_ (old : flagval) (v : string) : result string flagval :=
  match old with
  | FBool _ => match ParseBool v with Some b => Ok (FBool b) | None => Err "parse error" end
  | FString _ => Ok (FString v)
  | FInt _ =>
      match ParseInt v with
      | inr z => Ok (FInt z)
      | inl ErrSyntax => Err "parse error"
      | inl ErrRange => Err "value out of range"
      end
  end.

Definition is_bool_flag (v : flagval) : bool := match v with FBool _ => true | _ => false end.

(** [FlagSet.Parse] from the given arguments on: the values, and the arguments that are left, or
    the error. *)
Fixpoint parse_args (m : gmap string flagval) (args : list string)
    : result string (gmap string flagval * list string) :=
  match args with
  | [] => Ok (m, [])
  | s :: rest =>
      match tokenize s with
      | TPositional => Ok (m, args)
      | TEnd => Ok (m, rest)
      | TBad => Err ("bad flag syntax: " +:+ s)
      | TFlag name value =>
          match m !! name with
          | None =>
              if decide (name = "help" ∨ name = "h") then Err "flag: help requested"
              else Err ("flag provided but not defined: -" +:+ name)
          | Some old =>
              if is_bool_flag old then
                let v := match value with Some v => v | None => "true" end in
                match Set_ old v with
                | Ok new => parse_args (<[name := new]> m) rest
                | Err e =>
                    Err ("invalid boolean value " +:+ Quote v +:+ " for -" +:+ name +:+ ": " +:+ e)
                end
              else
                match value, rest with
                | Some v, _ =>
                    match Set_ old v with
                    | Ok new => parse_args (<[name := new]> m) rest
                    | Err e =>
                        Err ("invalid value " +:+ Quote v +:+ " for flag -" +:+ name +:+ ": " +:+ e)
                    end
                | None, v :: rest' =>
                    match Set_ old v with
                    | Ok new => parse_args (<[name := new]> m) rest'
                    | Err e =>
                        Err ("invalid value " +:+ Quote v +:+ " for flag -" +:+ name +:+ ": " +:+ e)
                    end
                | None, [] => Err ("flag needs an argument: -" +:+ name)
                end
          end
      end
  end.

(** ** flagset.go *)

Definition newFlagSet (name : string) : flagSet := mkFlagSet name ∅ [].

Definition f_string (name def : string) (f : flagSet) : flagSet :=
  set_formal f (<[name := FString def]> (formal f)).
Definition f_bool (name : string) (def : bool) (f : flagSet) : flagSet :=
  set_formal f (<[name := FBool def]> (formal f)).
Definition f_int (name : string) (def : Z) (f : flagSet) : flagSet :=
  set_formal f (<[name := FInt def]> (formal f)).

(** What the pointers these return hold. *)
Definition get_string (f : flagSet) (name : string) : string :=
  match formal f !! name with Some (FString s) => s | _ => "" end.
Definition get_bool (f : flagSet) (name : string) : bool :=
  match formal f !! name with Some (FBool b) => b | _ => false end.
Definition get_int (f : flagSet) (name : string) : Z :=
  match formal f !! name with Some (FInt z) => z | _ => 0%Z end.

Definition usage_error (f : flagSet) (e : string) : string :=
  "room " +:+ f_name f +:+ ": " +:+ e +:+ nl.

(** The line it writes to standard error, the code, and the flag set after it. *)
Definition parse (f : flagSet) (args : list string) : string * Z * flagSet :=
  match parse_args (formal f) args with
  | Err e => (usage_error f e, 2%Z, f)
  | Ok (m, rest) => ("", 0%Z, mkFlagSet (f_name f) m rest)
  end.

Definition args (f : flagSet) : list string := f_args f.

Fixpoint interspersed (fuel : nat) (f : flagSet) (positionals rest : list string)
    : option (string * list string * Z * flagSet) :=
  match fuel with
  | O => None
  | S fuel =>
      match rest with
      | [] => Some ("", positionals, 0%Z, f)
      | _ :: _ =>
          match parse_args (formal f) rest with
          | Err e => Some (usage_error f e, [], 2%Z, f)
          | Ok (m, r) =>
              let f := mkFlagSet (f_name f) m r in
              match args f with
              | [] => Some ("", positionals, 0%Z, f)
              | p :: rest => interspersed fuel f (positionals ++ [p]) rest
              end
          end
      end
  end.

Definition parseInterspersed (f : flagSet) (args : list string)
    : option (string * list string * Z * flagSet) :=
  interspersed (S (length args)) f [] args.

(** ** Lemmas *)

(** What a parse leaves is a part of what it got. *)
Lemma parse_args_suffix n m args m' rest :
  (length args <= n)%nat → parse_args m args = Ok (m', rest) → rest `suffix_of` args.
Proof.
  revert m args. induction n as [|n IH]; intros m [|s args] Hn; cbn [length] in Hn; try lia;
    cbn [parse_args]; try (by intros [= _ <-]).
  assert (∀ m l, (length l <= length args)%nat → l `suffix_of` args →
    parse_args m l = Ok (m', rest) → rest `suffix_of` s :: args) as Hrec.
  { intros m0 l Hl Hs Hp. apply suffix_cons_r. etrans; [|exact Hs]. eapply IH; [|exact Hp]. lia. }
  destruct (tokenize s) as [| | |name value]; [by intros [= _ <-]| |done|].
  { intros [= _ <-]. by apply suffix_cons_r. }
  destruct (m !! name) as [old|]; [|by case_decide].
  destruct (is_bool_flag old).
  { destruct (Set_ old _); [|done]. by apply Hrec. }
  destruct value as [v|].
  - destruct (Set_ old v); [|done]. by apply Hrec.
  - destruct args as [|v args]; [done|]. destruct (Set_ old v); [|done].
    apply Hrec; [cbn; lia|by apply suffix_cons_r].
Qed.

(** [parseInterspersed] comes to an end: every round takes a positional. *)
Lemma interspersed_total fuel f pos rest :
  (length rest < fuel)%nat → is_Some (interspersed fuel f pos rest).
Proof.
  revert f pos rest. induction fuel as [|fuel IH]; intros f pos rest Hf; [lia|].
  cbn [interspersed]. destruct rest as [|a rest]; [by eexists|].
  destruct (parse_args (formal f) (a :: rest)) as [[m r]|e] eqn:E; [|by eexists].
  apply parse_args_suffix with (n := length (a :: rest)) in E; [|done].
  cbn [args]. destruct r as [|p r]; [by eexists|]. apply IH.
  apply suffix_length in E. cbn [length] in *. lia.
Qed.

Lemma parseInterspersed_total f l : is_Some (parseInterspersed f l).
Proof. apply interspersed_total. lia. Qed.

Lemma interspersed_code fuel f pos rest err l c f' :
  interspersed fuel f pos rest = Some (err, l, c, f') → c = 0%Z ∨ c = 2%Z.
Proof.
  revert f pos rest. induction fuel as [|fuel IH]; intros f pos rest; [done|].
  cbn [interspersed]. destruct rest as [|a rest]; [intros [= _ _ <- _]; by left|].
  destruct (parse_args _ _) as [[m r]|e]; [|intros [= _ _ <- _]; by right].
  destruct (args _); [intros [= _ _ <- _]; by left|apply IH].
Qed.

(** A positional argument behind flags that parse is what the parse leaves. *)
Lemma parse_args_snoc n m args m' p :
  (length args <= n)%nat → parse_args m args = Ok (m', []) → tokenize p = TPositional →
  parse_args m (args ++ [p]) = Ok (m', [p]).
Proof.
  revert m args. induction n as [|n IH]; intros m [|s args] Hn; cbn [length] in Hn; try lia;
    cbn [parse_args app]; intros Hp Ht.
  1,2: by injection Hp as ->; rewrite Ht.
  destruct (tokenize s) as [| | |name value] eqn:Es; try done.
  { by injection Hp as -> ->. }
  destruct (m !! name) as [old|]; [|by case_decide].
  destruct (is_bool_flag old).
  { destruct (Set_ old _); [|done]. apply IH; [lia|done..]. }
  destruct value as [v|].
  - destruct (Set_ old v); [|done]. apply IH; [lia|done..].
  - destruct args as [|v args]; [done|]. cbn [app]. destruct (Set_ old v); [|done].
    apply IH; [cbn in Hn; lia|done..].
Qed.
