(* ===== verification/Proc.v ===== *)
(** * The process a subcommand of [room] runs in

    [room-go/cmd/room/main.go] is a short-lived process: it reads standard input, writes its two
    output streams, touches the file system, and talks to the daemon over one connection.  [M] is
    the state monad of those effects, with [None] for a panic; [Env] is what the process finds
    around it; [Peer] is what it knows of the process that answers at the socket.  The helpers at
    the end of main.go, which every command uses, are here. *)
From S2P Require Import Prelude GoStr GoPath GoOS Wire Config Ipc.
Open Scope string_scope.
Open Scope list_scope.

(** The process behind the IPC socket: it shares the file system, and answers the bytes of one
    connection with bytes. *)
Class Peer (P : Type) := {
  peer_fs : P → FS;
  peer_set_fs : P → FS → P;
  serve : P → string → reader * P;
}.

Class PeerLaws P `{Peer P} := {
  peer_get_set : ∀ p f, peer_fs (peer_set_fs p f) = f;
  peer_set_get : ∀ p, peer_set_fs p (peer_fs p) = p;
}.

(** What does not depend on the process: the user's directories and terminal, the whole of
    standard input, how dialling and spawning end and the clock meanwhile.  [e_dial]: the
    [i]-th attempt at a socket, and after how many bytes the connection stops taking more; [e_exe]:
    [os.Executable]; [e_log]: the log file for a spawned daemon; [e_spawn]: [Start] of a command. *)
Record Env := mkEnv {
  e_base : result string string;
  e_host : string;
  e_runtime : string;
  e_tmp : string;
  e_tty : bool;
  e_stdin : string;
  e_stdin_err : option string;
  e_dial : string → nat → result string (option nat);
  e_exe : result string string;
  e_log : result string string;
  e_spawn : Cmd → result string unit;
  e_start : Z;
  e_now : nat → Z;
}.

Record World (P : Type) := mkWorld { peer : P; stdout : string; stderr : string }.
Arguments mkWorld {P}.
Arguments peer {P}.
Arguments stdout {P}.
Arguments stderr {P}.

(** ** The monad *)

Definition M (P A : Type) : Type := World P → option A * World P.

#[export] Instance M_ret P : MRet (M P) := λ A a w, (Some a, w).
#[export] Instance M_bind P : MBind (M P) := λ A B k m w,
  match m w with
  | (Some a, w) => k a w
  | (None, w) => (None, w)
  end.

Section proc.
Context {P : Type} `{Peer P}.

Definition panic {A} : M P A := λ w, (None, w).

Definition print (s : string) : M P () := λ w,
  (Some (), mkWorld (peer w) (stdout w +:+ s) (stderr w)).
Definition println (s : string) : M P () := print (s +:+ nl).
Definition eprint (s : string) : M P () := λ w,
  (Some (), mkWorld (peer w) (stdout w) (stderr w +:+ s)).

(** A call of package [os]. *)
Definition os_call {A} (f : FS → A * FS) : M P A := λ w,
  let '(a, fs) := f (peer_fs (peer w)) in
  (Some a, mkWorld (peer_set_fs (peer w) fs) (stdout w) (stderr w)).
Definition os_read {A} (f : FS → A) : M P A := os_call (λ fs, (f fs, fs)).

(** Sends the bytes written to a connection and gives what comes back. *)
Definition exchange (sent : string) : M P reader := λ w,
  let '(r, p) := serve (peer w) sent in (Some r, mkWorld p (stdout w) (stderr w)).

Definition fail (code : Z) (err : string) : M P Z :=
  eprint ("room: " +:+ err +:+ nl);; mret code.

Definition msg_err_string (e : msg_err) : string :=
  match e with MsgCodec e => e | MsgFrame e => frame_err_string e end.

Context (E : Env).

(** [io.ReadAll(os.Stdin)], and one line of it. *)
Definition ReadAll : result string string :=
  match e_stdin_err E with None => Ok (e_stdin E) | Some e => Err e end.
Definition ReadLine : string :=
  match Cut (ascii_of_N 10) (e_stdin E) with Some (l, _) => l +:+ nl | None => e_stdin E end.

(** [ipc.Dial]: the clock lets its loop end before the fuel does ([Ipc.Dial_terminates]). *)
Definition ipc_dial (sock : string) (autoSpawn : bool) (spawnArgs : list string)
    : result string (option nat) :=
  match Dial (e_dial E sock) (e_start E) (e_now E) 68 sock autoSpawn
          (spawnDaemon (e_exe E) (e_log E) (e_spawn E) spawnArgs) with
  | Some r => r
  | None => Err ""
  end.

Context `{Cbor Request} `{Cbor Response}.

(** [ipc.WriteReq] on a fresh connection: its error, if any, and the connection to read from. *)
Definition send_req (lim : option nat) (req : Request) : M P (result string reader) :=
  let '(res, w) := WriteReq (mkWriter "" lim) req in
  r ← exchange (w_buf w);
  mret (match res with Ok _ => Ok r | Err e => Err (msg_err_string e) end).
End proc.

(** ** What a process can end with *)

(** Every run of [m] ends with a value in [Q], or panics if [N] allows it. *)
Definition runs {P A} (N : Prop) (m : M P A) (Q : A → Prop) : Prop :=
  ∀ w, match (m w).1 with Some a => Q a | None => N end.

Section runs.
Context {P : Type} `{Peer P} (N : Prop).

Lemma runs_ret {A} (a : A) (Q : A → Prop) : Q a → runs N (mret a : M P A) Q.
Proof. by intros HQ w. Qed.

Lemma runs_bind {A B} (m : M P A) (k : A → M P B) (R : A → Prop) Q :
  runs N m R → (∀ a, R a → runs N (k a) Q) → runs N (m ≫= k) Q.
Proof.
  intros Hm Hk w. specialize (Hm w). unfold mbind, M_bind.
  destruct (m w) as [[a|] w']; [|done]. by apply Hk.
Qed.

Lemma runs_weaken {A} (m : M P A) (Q R : A → Prop) :
  runs N m R → (∀ a, R a → Q a) → runs N m Q.
Proof. intros Hm HQ w. specialize (Hm w). destruct (m w).1; auto. Qed.

Lemma runs_print s : runs N (print s : M P ()) (λ _, True).
Proof. done. Qed.
Lemma runs_println s : runs N (println s : M P ()) (λ _, True).
Proof. done. Qed.
Lemma runs_eprint s : runs N (eprint s : M P ()) (λ _, True).
Proof. done. Qed.
Lemma runs_os_call {A} (f : FS → A * FS) : runs N (os_call f : M P A) (λ _, True).
Proof. intros w. unfold os_call. by destruct (f _). Qed.
Lemma runs_os_read {A} (f : FS → A) : runs N (os_read f : M P A) (λ _, True).
Proof. apply runs_os_call. Qed.
Lemma runs_unit (x : option ()) : runs N (λ w, (Some (), w) : option () * World P) (λ _, True).
Proof. done. Qed.
Lemma runs_exchange_any sent : runs N (exchange sent : M P reader) (λ _, True).
Proof. intros w. unfold exchange. by destruct (serve _ _). Qed.
Lemma runs_fail c e (Q : Z → Prop) : Q c → runs N (fail c e : M P Z) Q.
Proof. by intros HQ w. Qed.
End runs.

Create HintDb runs.
#[export] Hint Resolve runs_print runs_println runs_eprint runs_os_call runs_os_read
  runs_exchange_any : runs.

(** One step through the code of a command: a branch, a call, the end. *)
Ltac run_step :=
  match goal with
  | |- runs _ (mret _) _ => apply runs_ret; try exact I
  | |- runs _ (fail _ _) _ => apply runs_fail; try exact I
  | |- runs _ (mbind _ _) _ => eapply (runs_bind _ _ _ (λ _, True)); [|intros ? _]
  | |- runs _ (if ?b then _ else _) _ => destruct b eqn:?
  | |- runs _ (match ?x with _ => _ end) _ => destruct x eqn:?
  | |- runs _ (let _ := _ in _) _ => cbv zeta
  end.

(** What the client relies on: every response it can read from the peer satisfies [G]. *)
Class PeerSends (P : Type) `{Peer P} {R} `{Cbor R} (G : R → Prop) :=
  peer_sends : ∀ p s n, Forall G (read_msgs n (serve p s).1).1.

Lemma runs_exchange {P R} `{Peer P} `{Cbor R} (G : R → Prop) `{!PeerSends P G} N sent :
  runs N (exchange sent : M P reader) (λ rd, ∀ n, Forall G (read_msgs n rd).1).
Proof.
  intros w. unfold exchange. destruct (serve (peer w) sent) as [rd p] eqn:Es. cbn [fst]. intros n.
  pose proof (peer_sends (peer w) sent n) as Hs. by rewrite Es in Hs.
Qed.

Lemma read_one {R} `{Cbor R} (G : R → Prop) rd (resp : R) :
  (∀ n, Forall G (read_msgs n rd).1) → (read_msg rd).1 = Ok resp → G resp.
Proof.
  intros Hn Hr. specialize (Hn 1%nat). cbn [read_msgs] in Hn.
  destruct (read_msg rd) as [[a|e] r']; [|done]. injection Hr as ->.
  by apply Forall_cons in Hn as [? _].
Qed.

(** The documented exit codes. *)
Definition exit_code (c : Z) : Prop := c ∈ [0; 1; 2; 3; 5]%Z.

Lemma exit_0 : exit_code 0. Proof. unfold exit_code. set_solver. Qed.
Lemma exit_1 : exit_code 1. Proof. unfold exit_code. set_solver. Qed.
Lemma exit_2 : exit_code 2. Proof. unfold exit_code. set_solver. Qed.
Lemma exit_3 : exit_code 3. Proof. unfold exit_code. set_solver. Qed.
Lemma exit_error c : c ∈ [1; 2; 5]%Z → exit_code c.
Proof. unfold exit_code. set_solver. Qed.
#[export] Hint Resolve exit_0 exit_1 exit_2 exit_3 : runs.
