(* ===== verification/Cli.v ===== *)
(** * main.go: the commands of [room]

    [room-go/cmd/room/main.go], one definition per command, in the process monad of [Proc].  The
    result of a command is its exit code.  [cmdServer] and [cmdDaemon] stop where the server and
    the daemon of [Server] and [Daemon] take over; the terminal UI is that of [TuiLoop]. *)
From S2P Require Import Prelude GoStr GoPath GoOS Wire Clip Config Ipc Sinks Dedupe Daemon Server Flags Proc.
Open Scope string_scope.
Open Scope list_scope.

Record Globals := mkGlobals {
  ConfigDir : string;
  Socket : string;
  Room : string;
  JSON : bool;
  Quiet : bool;
  Verbose : bool;
}.

#[export] Instance Globals_eq_dec : EqDecision Globals.
Proof. solve_decision. Defined.

Definition no_globals : Globals := mkGlobals "" "" "" false false false.

(** [name], and the value after an equals sign. *)
Definition split_arg (a : string) : string * option string :=
  if HasPrefix a "-" then
    match Cut "=" a with Some (n, v) => (n, Some v) | None => (a, None) end
  else (a, None).

(** The switch of [parseGlobals] on a flag with a value. *)
Definition set_global (g : Globals) (name v : string) : option Globals :=
  if String.eqb name "--config-dir"
  then Some (mkGlobals v (Socket g) (Room g) (JSON g) (Quiet g) (Verbose g))
  else if String.eqb name "--socket"
  then Some (mkGlobals (ConfigDir g) v (Room g) (JSON g) (Quiet g) (Verbose g))
  else if String.eqb name "--room"
  then Some (mkGlobals (ConfigDir g) (Socket g) v (JSON g) (Quiet g) (Verbose g))
  else None.

(** ... and on one without; a value after an equals sign is not looked at. *)
Definition set_switch (g : Globals) (name : string) : option Globals :=
  if String.eqb name "--json"
  then Some (mkGlobals (ConfigDir g) (Socket g) (Room g) true (Quiet g) (Verbose g))
  else if String.eqb name "-q" || String.eqb name "--quiet"
  then Some (mkGlobals (ConfigDir g) (Socket g) (Room g) (JSON g) true (Verbose g))
  else if String.eqb name "-v" || String.eqb name "--verbose"
  then Some (mkGlobals (ConfigDir g) (Socket g) (Room g) (JSON g) (Quiet g) true)
  else None.

(** The loop of [parseGlobals]; a value that is not inline is the next argument, if any. *)
Fixpoint parse_globals (g : Globals) (rest : list string) (args : list string)
    : Globals * list string :=
  match args with
  | [] => (g, rest)
  | a :: args' =>
      let '(name, inline) := split_arg a in
      match set_switch g name with
      | Some g => parse_globals g rest args'
      | None =>
          match inline, args' with
          | Some v, _ =>
              match set_global g name v with
              | Some g => parse_globals g rest args'
              | None => parse_globals g (rest ++ [a]) args'
              end
          | None, v :: args'' =>
              match set_global g name v with
              | Some g => parse_globals g rest args''
              | None => parse_globals g (rest ++ [a]) args'
              end
          | None, [] =>
              match set_global g name "" with
              | Some g => (g, rest)
              | None => (g, rest ++ [a])
              end
          end
      end
  end.

Definition parseGlobals (args : list string) : Globals * list string :=
  parse_globals no_globals [] args.

Definition spawnArgs (g : Globals) : list string :=
  (if negb (String.eqb (ConfigDir g) "") then ["--config-dir"; ConfigDir g] else []) ++
  (if negb (String.eqb (Socket g) "") then ["--socket"; Socket g] else []) ++
  (if negb (String.eqb (Room g) "") then ["--room"; Room g] else []).

(** golang.org/x/crypto/ssh: the fingerprint of the first key of an authorized_keys file, and the
    rest of it. *)
Class AuthorizedKeys := ParseAuthorizedKey : string → result string (string * string).

(** The loop of [loadAuthorizedKeys]. *)
Fixpoint load_keys `{AuthorizedKeys} (fuel : nat) (out : gmap string bool) (rest : string)
    : gmap string bool :=
  match fuel with
  | O => out
  | S fuel =>
      if (0 <? len rest)%Z then
        match ParseAuthorizedKey rest with
        | Err _ => out
        | Ok (fp, remaining) => load_keys fuel (<[fp := true]> out) remaining
        end
      else out
  end.

Definition trustLabel (allowed : gmap string bool) : string :=
  if (size allowed =? 0)%nat then "any-key (Phase 0)"
  else itoa (Z.of_nat (size allowed)) +:+ " authorized key(s)".

Definition clipboardLabel (ok : bool) : string := if ok then "available" else "unavailable".

(** How [ListenAndServe] ended, or that a signal came first. *)
Inductive serve_end := ServeNil | ServeEOF | ServeErr (e : string) | ServeSignal.

Definition dq : string := String (ascii_of_N 34) "".
(** A member of the JSON line of [status]. *)
Definition member (k v : string) : string := dq +:+ k +:+ dq +:+ ":" +:+ v.
Definition fmt_bool (b : bool) : string := if b then "true" else "false".

Definition status_json (s : Status) : string :=
  "{" +:+ member "fingerprint" (Quote (st_Fingerprint s)) +:+ "," +:+
  member "device_name" (Quote (st_DeviceName s)) +:+ "," +:+ member "room" (Quote (st_Room s)) +:+
  "," +:+ member "server" (Quote (st_Server s)) +:+ "," +:+
  member "connected" (fmt_bool (st_Connected s)) +:+ "," +:+
  member "auto_copy" (Quote (st_AutoCopy s)) +:+ "," +:+ member "peers" (itoa (st_Peers s)) +:+
  "," +:+ member "buffer" (itoa (st_Buffer s)) +:+ "," +:+
  member "clipboard" (fmt_bool (st_Clipboard s)) +:+ "}" +:+ nl.

Definition status_text (s : Status) : string :=
  "identity:   " +:+ st_Fingerprint s +:+ nl +:+ "device:     " +:+ st_DeviceName s +:+ nl +:+
  "room:       " +:+ st_Room s +:+ nl +:+ "server:     " +:+ st_Server s +:+ nl +:+
  "connected:  " +:+ fmt_bool (st_Connected s) +:+ nl +:+ "auto_copy:  " +:+ st_AutoCopy s +:+
  nl +:+ "clipboard:  " +:+ clipboardLabel (st_Clipboard s) +:+ nl +:+
  "buffer:     " +:+ itoa (st_Buffer s) +:+ " item(s)" +:+ nl.

Definition new_request (op : string) : Request :=
  mkRequest IPCVersion op "" "" "" "" false "" false "" "" "" "".

Section cli.
Context {P : Type} `{Peer P} `{Cbor Request} `{Cbor Response} `{Json} `{SshKeys}.
Context (E : Env).

Definition socketPath (g : Globals) : M P (result string string) :=
  os_call (SocketPath (e_runtime E) (e_tmp E) (Socket g)).

Definition resolveConfigDir (g : Globals) : result string string :=
  if negb (String.eqb (ConfigDir g) "") then Ok (ConfigDir g) else DefaultDir (e_base E).

Definition openConfig (g : Globals) : M P (result string Store) :=
  match resolveConfigDir g with
  | Err e => mret (Err e)
  | Ok dir => os_call (Open (e_host E) (e_base E) dir)
  end.

Definition copyFile (src dst : string) : M P (result string unit) :=
  b ← os_read (λ f, ReadFile f src);
  match b with
  | Err e => mret (Err (Error e))
  | Ok b =>
      r ← os_call (λ f, WriteFile f dst b);
      mret (match r with Ok _ => Ok () | Err e => Err (Error e) end)
  end.

(** The response, or the exit code. *)
Definition roundtrip (g : Globals) (req : Request) : M P (result Z Response) :=
  sock ← socketPath g;
  match sock with
  | Err e => c ← fail 1 e; mret (Err c)
  | Ok sock =>
      match ipc_dial E sock true (spawnArgs g) with
      | Err e => c ← fail 3 e; mret (Err c)
      | Ok lim =>
          r ← send_req lim req;
          match r with
          | Err e => c ← fail 3 e; mret (Err c)
          | Ok rd =>
              match (ReadResp rd).1 with
              | Err e => c ← fail 3 (msg_err_string e); mret (Err c)
              | Ok resp => mret (Ok resp)
              end
          end
      end
  end.

(** What nearly every command does with it. *)
Definition call (g : Globals) (req : Request) (k : Response → M P Z) : M P Z :=
  r ← roundtrip g req;
  match r with
  | Err code => mret code
  | Ok resp =>
      if String.eqb (rs_Kind resp) RespErr then fail (rs_Code resp) (rs_Message resp) else k resp
  end.

(** [fs.parse] at the head of a command. *)
Definition with_flags (f : flagSet) (args : list string) (k : flagSet → M P Z) : M P Z :=
  let '(err, code, f) := parse f args in
  eprint err;; if negb (code =? 0)%Z then mret code else k f.

Definition effectiveRoom (g : Globals) (cfg : Store) : string :=
  if negb (String.eqb (Room g) "") then Room g
  else if negb (String.eqb (Room_ (Get cfg)) "") then Room_ (Get cfg) else "default".

Definition cmdJoin (gen : result string privkey) (g : Globals) (args : list string) : M P Z :=
  with_flags (newFlagSet "join") args (λ fs,
  match Flags.args fs with
  | [] => fail 2 "usage: room join <user@host:port>"
  | target :: _ =>
      cfg ← openConfig g;
      match cfg with
      | Err e => fail 1 e
      | Ok cfg =>
          fp ← os_call (λ f, Fingerprint cfg f gen);
          match fp with
          | Err e => fail 1 e
          | Ok fp =>
              line ← os_call (λ f, AuthorizedKeyLine cfg f gen);
              let line := match line with Ok l => l | Err _ => "" end in
              call g (mkRequest IPCVersion OpJoin "" "" "" "" false "" false "" "" "" target) (λ _,
              println ("joined " +:+ target +:+ " (room " +:+ Quote (effectiveRoom g cfg) +:+ ")");;
              println ("device fingerprint: " +:+ fp);;
              println ("allowlist this device on the server (authorized_keys):" +:+ nl +:+ "  " +:+
                       TrimSpace line);;
              mret 0%Z)
          end
      end
  end).

Definition send_flags : flagSet :=
  f_bool "auto" false (f_string "name" "" (f_bool "file" false (f_bool "image" false
    (f_bool "text" false (newFlagSet "send"))))).

(** The input of [send] and its default file name. *)
Definition send_input (pos : list string) : M P (result string (string * string)) :=
  match pos with
  | path :: _ =>
      r ← os_read (λ f, ReadFile f path);
      mret (match r with Ok data => Ok (data, Base path) | Err e => Err (Error e) end)
  | [] => mret (match ReadAll E with Ok data => Ok (data, "") | Err e => Err e end)
  end.

Definition send_force (fs : flagSet) : string :=
  if get_bool fs "text" then "text"
  else if get_bool fs "image" then "image"
  else if get_bool fs "file" then "file" else "".

Definition cmdSend (g : Globals) (args : list string) : M P Z :=
  with_flags send_flags args (λ fs,
  inp ← send_input (Flags.args fs);
  match inp with
  | Err e => fail 1 e
  | Ok (data, filename) =>
      let filename :=
        if negb (String.eqb (get_string fs "name") "") then get_string fs "name" else filename in
      if (len data =? 0)%Z then fail 2 "send: empty input"
      else
        call g (mkRequest IPCVersion OpSend data (send_force fs) filename "" false "" false "" "" ""
                  "") (λ resp,
        (if (rs_Code resp =? 4)%Z && negb (Quiet g)
         then eprint ("room: warning: " +:+ rs_Message resp +:+ nl) else mret ());;
        mret 0%Z)
  end).

(** One item on standard output; [panic]: [env.Blob] is nil. *)
Definition printItem (resp : Response) (emitPath : bool) (out : string) : M P () :=
  match rs_Item resp with
  | Some item =>
      if negb (String.eqb (rs_Kind resp) RespItem) then mret ()
      else
        let env := it_Envelope item in
        if String.eqb (Type_ env) "text" then println (Text env)
        else
          let path := it_LocalPath item in
          path ← (if negb (String.eqb out "") && negb (String.eqb path "") then
                    r ← copyFile path out;
                    mret (match r with Ok _ => out | Err _ => path end)
                  else mret path);
          if emitPath || negb (String.eqb out "") then println path
          else if String.eqb (Type_ env) "file" then
            let size := match Blob_ env with Some b => Size b | None => 0%Z end in
            let name := if String.eqb (Filename env) "" then Base path else Filename env in
            println ("[file " +:+ name +:+ " " +:+ itoa size +:+ " bytes " +:+ path +:+ "]")
          else
            match Blob_ env with
            | None => panic
            | Some b =>
                println ("[image " +:+ itoa (Blob_W b) +:+ "x" +:+ itoa (Blob_H b) +:+ " " +:+
                         path +:+ "]")
            end
  | None => mret ()
  end.

(** The loop of [recv --follow] over the responses that come in; it ends when reading fails. *)
Fixpoint printItems (resps : list Response) (emitPath : bool) (out : string) : M P () :=
  match resps with
  | [] => mret ()
  | resp :: resps => printItem resp emitPath out;; printItems resps emitPath out
  end.

Definition recv_flags : flagSet :=
  f_string "out" "" (f_bool "emit-path" false (f_bool "latest-image" false
    (f_bool "follow" false (newFlagSet "recv")))).

Definition cmdRecv (g : Globals) (args : list string) : M P Z :=
  with_flags recv_flags args (λ fs,
  let kind := if get_bool fs "latest-image" then "image" else "any" in
  let emit := get_bool fs "emit-path" || get_bool fs "latest-image" in
  let out := get_string fs "out" in
  let req := mkRequest IPCVersion OpRecv "" "" "" kind (get_bool fs "follow") "" false "" "" "" "" in
  sock ← socketPath g;
  match sock with
  | Err e => fail 1 e
  | Ok sock =>
      match ipc_dial E sock true (spawnArgs g) with
      | Err e => fail 3 e
      | Ok lim =>
          r ← send_req lim req;
          match r with
          | Err e => fail 3 e
          | Ok rd =>
              if get_bool fs "follow" then
                printItems (read_msgs (S (String.length (r_buf rd))) rd).1 emit out;;
                mret 0%Z
              else
                match (ReadResp rd).1 with
                | Err e => fail 3 (msg_err_string e)
                | Ok resp =>
                    if String.eqb (rs_Kind resp) RespErr
                    then fail (rs_Code resp) (rs_Message resp)
                    else printItem resp emit out;; mret 0%Z
                end
          end
      end
  end).

Definition cmdPaste (g : Globals) (args : list string) : M P Z :=
  call g (new_request OpPaste) (λ _,
  (if negb (Quiet g) then println "pasted latest item to clipboard" else mret ());; mret 0%Z).

Definition answer : string := ToLower (TrimSpace (ReadLine E)).

Definition promptYesNo (prompt : string) : M P bool :=
  eprint prompt;;
  mret (String.eqb answer "y" || String.eqb answer "yes").

Definition promptChoice (prompt allowed : string) : M P string :=
  eprint prompt;;
  mret (match answer with
        | "" => ""
        | String c _ => if ContainsByte allowed c then String c "" else ""
        end).

Definition clear_flags : flagSet :=
  f_bool "yes" false (f_bool "all" false (newFlagSet "clear")).

(** Whether the sinks are cleared too. *)
Definition clear_consent (all yes : bool) : M P bool :=
  if all then
    if yes then mret true
    else if e_tty E
    then promptYesNo "clear this session's sink writes (text_file + save_dir)? [y/N] "
    else
      eprint ("room: clear --all needs --yes when non-interactive; clearing transient only" +:+ nl);;
      mret false
  else mret false.

Definition cmdClear (g : Globals) (args : list string) : M P Z :=
  with_flags clear_flags args (λ fs,
  doSinks ← clear_consent (get_bool fs "all") (get_bool fs "yes");
  call g (mkRequest IPCVersion OpClear "" "" "" "" false "" doSinks "" "" "" "") (λ _,
  (if negb (Quiet g) then
     if doSinks : bool then println "cleared session (transient + sinks)"
     else println "cleared session (transient)"
   else mret ());;
  mret 0%Z)).

(** A configuration that cannot be read leaves the policy at [ask]. *)
Definition resolveClearOnExit (g : Globals) : M P string :=
  cfg ← openConfig g;
  let policy :=
    match cfg with
    | Ok cfg => if String.eqb (ClearOnExit (Get cfg)) "" then "ask" else ClearOnExit (Get cfg)
    | Err _ => "ask"
    end in
  if negb (String.eqb policy "ask") then mret policy
  else if negb (e_tty E) then mret "transient"
  else
    c ← promptChoice "clear this session on exit? [t]ransient / [a]ll incl sinks / [n]o: " "tan";
    mret (if String.eqb c "a" then "all" else if String.eqb c "n" then "never" else "transient").

Definition cmdDaemonStop (g : Globals) (args : list string) : M P Z :=
  with_flags (newFlagSet "daemon stop") args (λ _,
  sock ← socketPath g;
  match sock with
  | Err e => fail 1 e
  | Ok sock =>
      match ipc_dial E sock false [] with
      | Err _ =>
          (if negb (Quiet g) then eprint ("room: no daemon running" +:+ nl) else mret ());;
          mret 0%Z
      | Ok lim =>
          scope ← resolveClearOnExit g;
          r ← send_req lim
                (mkRequest IPCVersion OpDaemonStop "" "" "" "" false "" false scope "" "" "");
          match r with
          | Err e => fail 3 e
          | Ok rd =>
              match (ReadResp rd).1 with
              | Err e => fail 3 (msg_err_string e)
              | Ok resp =>
                  if String.eqb (rs_Kind resp) RespErr
                  then fail (rs_Code resp) (rs_Message resp)
                  else
                    (if negb (Quiet g)
                     then println ("daemon stopped (clear: " +:+ scope +:+ ")") else mret ());;
                    mret 0%Z
              end
          end
      end
  end).

Definition cmdStatus (g : Globals) (args : list string) : M P Z :=
  r ← roundtrip g (new_request OpStatus);
  match r with
  | Err code => mret code
  | Ok resp =>
      match rs_Status resp with
      | Some s =>
          if String.eqb (rs_Kind resp) RespErr then fail 1 "status unavailable"
          else print (if JSON g then status_json s else status_text s);; mret 0%Z
      | None => fail 1 "status unavailable"
      end
  end.

Definition cmdConfig (g : Globals) (args : list string) : M P Z :=
  match args with
  | action :: key :: more =>
      if String.eqb action "set" then
        match more with
        | [] => fail 2 "usage: room config set KEY VALUE"
        | value :: _ =>
            call g (mkRequest IPCVersion OpConfigSet "" "" "" "" false "" false "" key value "") (λ _,
            (if negb (Quiet g) then println (key +:+ " = " +:+ value) else mret ());;
            mret 0%Z)
        end
      else if String.eqb action "get" then
        call g (mkRequest IPCVersion OpConfigGet "" "" "" "" false "" false "" key "" "")
          (λ resp, println (rs_Value resp);; mret 0%Z)
      else fail 2 ("config: unknown action " +:+ Quote action)
  | _ => fail 2 "usage: room config set KEY VALUE | room config get KEY"
  end.

(** ** The server and the daemon *)

Context `{AuthorizedKeys}.

Definition loadAuthorizedKeys (path : string) : M P (result string (gmap string bool)) :=
  if String.eqb path "" then mret (Ok ∅)
  else
    b ← os_read (λ f, ReadFile f path);
    mret (match b with
          | Err e => Err (Error e)
          | Ok b => Ok (load_keys (S (String.length b)) ∅ b)
          end).

Definition server_flags : flagSet :=
  f_string "authorized-keys" "" (f_string "host-key" "" (f_string "addr" ":2222"
    (newFlagSet "server"))).

(** [gen]: key generation; [new]: [wish.NewServer] of the address, the host key and the allowed
    fingerprints; [ends]: how serving ends. *)
Definition cmdServer (gen : result string string)
    (new : string → string → gmap string bool → result string ()) (ends : serve_end)
    (g : Globals) (args : list string) : M P Z :=
  with_flags server_flags args (λ fs,
  let hk :=
    if String.eqb (get_string fs "host-key") "" then
      match resolveConfigDir g with
      | Ok dir => Ok (Join dir "host_ed25519")
      | Err e => Err e
      end
    else Ok (get_string fs "host-key") in
  match hk with
  | Err e => fail 1 e
  | Ok hk =>
      mk ← os_call (λ f, MkdirAll f (Dir hk));
      match mk with
      | Err e => fail 1 (Error e)
      | Ok _ =>
          allowed ← loadAuthorizedKeys (get_string fs "authorized-keys");
          match allowed with
          | Err e => fail 1 e
          | Ok allowed =>
              srv ← os_call (λ f, server_New new (mkServerConfig (get_string fs "addr") hk allowed) f gen);
              match srv with
              | Err e => fail 1 ("server.New: " +:+ e)
              | Ok _ =>
                  match ends with
                  | ServeErr e => fail 1 e
                  | _ => mret 0%Z
                  end
              end
          end
      end
  end).

Definition daemon_flags : flagSet :=
  f_string "server" "" (f_bool "foreground" false (newFlagSet "daemon")).

(** [cmdDaemon] up to the daemon's accept loop: an exit code, or the daemon that runs, its socket
    and the target of its first connection loop.  [listen]: what [net.Listen] returns. *)
Definition daemon_boot (gen : result string privkey) (listen : result string ())
    (g : Globals) (args : list string) : M P (Z + Daemon * string * option string) :=
  let bail (code : Z) (e : string) := c ← fail code e; mret (inl c) in
  let '(err, code, fs) := parse daemon_flags args in
  eprint err;;
  if negb (code =? 0)%Z then mret (inl code)
  else
    cfg ← openConfig g;
    match cfg with
    | Err e => bail 1%Z e
    | Ok cfg =>
        set ← (if String.eqb (get_string fs "server") "" then mret (Ok (), cfg)
               else os_call (λ f, SetServer cfg f (get_string fs "server")));
        match set with
        | (Err e, _) => bail 1%Z e
        | (Ok _, cfg) =>
            sock ← socketPath g;
            match sock with
            | Err e => bail 1%Z e
            | Ok sock =>
                d ← os_call (λ f, New_ cfg f gen clip_init (Room g));
                match d with
                | Err e => bail 1%Z e
                | Ok d =>
                    run ← os_call (λ _, Run_start d sock listen);
                    match run with
                    | Err e => bail 1%Z e
                    | Ok (d, target) => mret (inr (d, sock, target))
                    end
                end
            end
        end
    end.

Definition cmdDaemon (gen : result string privkey) (listen : result string ())
    (g : Globals) (args : list string) : M P Z :=
  match args with
  | "stop" :: args' => cmdDaemonStop g args'
  | _ =>
      r ← daemon_boot gen listen g args;
      mret (match r with inl code => code | inr _ => 0%Z end)
  end.
End cli.

(** ** Lemmas *)

Lemma parse_spawnArgs g args :
  parse_globals no_globals [] (spawnArgs g ++ args) =
  parse_globals (mkGlobals (ConfigDir g) (Socket g) (Room g) false false false) [] args.
Proof.
  destruct g as [c s r j q v]. unfold spawnArgs. cbn [ConfigDir Socket Room].
  destruct (String.eqb_spec c "") as [->|_], (String.eqb_spec s "") as [->|_],
    (String.eqb_spec r "") as [->|_]; reflexivity.
Qed.

Lemma parse_daemon : parse daemon_flags [] = ("", 0%Z, daemon_flags).
Proof. vm_compute. reflexivity. Qed.

Section boot.
Context {P : Type} `{Peer P} `{Json} `{SshKeys} (E : Env).

Lemma load_dir host s fs r s' fs' :
  load host s fs = (r, s', fs') → StoreDir s' = StoreDir s.
Proof.
  unfold load. destruct (ReadFile _ _) as [b|e].
  - destruct (json_Unmarshal _ _); by intros [= _ <- _].
  - destruct (IsNotExist e); [|by intros [= _ <- _]].
    destruct (save s fs). by intros [= _ <- _].
Qed.

Lemma Open_dir host base dir fs s fs' :
  dir ≠ "" → Open host base dir fs = (Ok s, fs') → StoreDir s = dir.
Proof.
  intros Hd. unfold Open. apply String.eqb_neq in Hd. rewrite Hd.
  destruct (MkdirAll fs dir) as [[[]|e] f]; [|done].
  destruct (load _ _ _) as [[[[]|e] s'] f'] eqn:El; [|done]. intros [= <- _].
  by apply load_dir in El.
Qed.

Lemma Join_room base : Join base "room" ≠ "".
Proof.
  destruct (decide (base = "")) as [->|Hb]; [done|]. apply Join_ne; [done|].
  split_and!; done.
Qed.

Lemma resolveConfigDir_ne g dir : resolveConfigDir E g = Ok dir → dir ≠ "".
Proof.
  unfold resolveConfigDir, DefaultDir. destruct (String.eqb_spec (ConfigDir g) "") as [_|Hc]; cbn [negb].
  - destruct (e_base E); [|done]. intros [= <-]. apply Join_room.
  - by intros [= <-].
Qed.

Lemma openConfig_dir g (w w' : World P) cfg :
  openConfig E g w = (Some (Ok cfg), w') → resolveConfigDir E g = Ok (StoreDir cfg).
Proof.
  unfold openConfig. destruct (resolveConfigDir E g) as [dir|e] eqn:Er; [|done].
  apply resolveConfigDir_ne in Er. unfold os_call.
  destruct (Open _ _ _ _) as [[s|e] f] eqn:Eo; intros [= <- _].
  by rewrite (Open_dir _ _ _ _ _ _ Er Eo).
Qed.

(** The path of the socket does not depend on the files. *)
Lemma socketPath_same g (w1 w1' w2 w2' : World P) s1 s2 :
  socketPath E g w1 = (Some (Ok s1), w1') → socketPath E g w2 = (Some (Ok s2), w2') → s1 = s2.
Proof.
  unfold socketPath, os_call, SocketPath. destruct (negb _); [by intros [= <- _] [= <- _]|].
  cbv zeta. destruct (MkdirAll (peer_fs (peer w1)) _) as [[[]|] ?]; [|done].
  destruct (MkdirAll (peer_fs (peer w2)) _) as [[[]|] ?]; [|done]. congruence.
Qed.

(** What [daemon_boot] of a plain [daemon] gives. *)
Lemma daemon_boot_result gen listen g (w w' : World P) d sock target :
  daemon_boot E gen listen g [] w = (Some (inr (d, sock, target)), w') →
  resolveConfigDir E g = Ok (StoreDir (cfg d)) ∧ room d = effectiveRoom g (cfg d) ∧
  ∃ w1 w2, socketPath E g w1 = (Some (Ok sock), w2).
Proof.
  unfold daemon_boot. rewrite parse_daemon. cbn [Z.eqb negb].
  change (get_string daemon_flags "server") with "". cbn [String.eqb].
  unfold mbind, M_bind, mret, M_ret. cbn [eprint].
  match goal with |- context [openConfig E g ?w0] => destruct (openConfig E g w0) as [[[c|e]|] wc] eqn:Ec end;
    try done.
  destruct (socketPath E g wc) as [[[sk|e]|] ws] eqn:Es; try done.
  unfold os_call at 1. destruct (New_ c _ gen clip_init (Room g)) as [[d0|e] f] eqn:En; try done.
  unfold os_call. cbn [peer stdout stderr]. destruct (Run_start d0 sk listen) as [[[d1 t]|e] f1] eqn:Er;
    try done. intros [= -> -> -> _].
  apply openConfig_dir in Ec.
  assert (cfg d = c ∧ room d = effectiveRoom g c) as [-> ->].
  { unfold New_ in En. destruct (Signer _ _ _) as [[sg|] ?]; [|done].
    unfold Run_start in Er. destruct (MkdirAll _ _) as [[[]|] ?]; [|done].
    destruct listen; [|done]. injection Er as <- _ _. injection En as <- _. cbn. split; [done|].
    unfold effectiveRoom. destruct (String.eqb (Room g) "") eqn:E1; cbn [negb];
      [destruct (String.eqb (Room_ (Get c)) "")|rewrite E1]; done. }
  split_and!; [done..|by eauto].
Qed.
End boot.

(** ** Properties *)

(** C33. The daemon a client spawns is the daemon the client means.  It is the same program in a session
    of its own.  The arguments it is started with parse back to the client's directory, socket and room and to the command [daemon], and a
    daemon booted from them uses the client's configuration directory, joins the room the client
    would report, and listens on the socket the client dials. *)
Theorem spawned_daemon_inherits {P} `{Peer P} `{Json} `{SshKeys} E gen listen g (w w' : World P) exe d sock t :
  let cmd := spawnDaemon_cmd exe (e_log E) (spawnArgs g) in
  let boot := parseGlobals (cmd_Args cmd) in
  daemon_boot E gen listen boot.1 [] w = (Some (inr (d, sock, t)), w') →
  cmd_Path cmd = exe ∧ Setsid (cmd_SysProcAttr cmd) = true ∧ boot.2 = ["daemon"] ∧
  resolveConfigDir E g = Ok (StoreDir (cfg d)) ∧ room d = effectiveRoom g (cfg d) ∧
  ∀ w1 s w2, socketPath (P := P) E g w1 = (Some (Ok s), w2) → s = sock.
Proof.
  cbv zeta. unfold spawnDaemon_cmd. cbn [cmd_Args cmd_Path cmd_SysProcAttr].
  unfold parseGlobals, spawnDaemon_args. rewrite parse_spawnArgs.
  change (parse_globals ?g [] ["daemon"]) with (g, ["daemon"]). cbn [fst snd].
  intros (Hdir & Hroom & w1 & w2 & Hs)%daemon_boot_result. split_and!; [done..|].
  intros w3 s w4 Hs3. by eapply (socketPath_same E g w3 w4 w1 w2).
Qed.

(** ** Examples *)

(** Flags after the path are arguments, not flags. *)
Example send_flags_after_path :
  let f := (parse send_flags ["a.txt"; "--file"]).2 in
  Flags.args f = ["a.txt"; "--file"] ∧ get_bool f "file" = false.
Proof. split; vm_compute; reflexivity. Qed.

(** A switch takes no value, and ignores one. *)
Example json_false_is_true : parseGlobals ["--json=false"; "status"] =
  (mkGlobals "" "" "" true false false, ["status"]).
Proof. vm_compute. reflexivity. Qed.

#[local] Existing Instance frame_json.
#[local] Existing Instance string_keys.

(** A process that finds no daemon. *)
Definition files_only : Peer FS := {|
  peer_fs f := f; peer_set_fs _ f := f; serve f _ := (mkReader "" EOF, f) |}.
#[local] Existing Instance files_only.

Definition demo_env_ : Env :=
  mkEnv (Ok "/home/u/.config") "host" "/run" "/tmp" false "" None (λ _ _, Err "refused")
    (Ok "/bin/room") (Ok "/tmp/room-daemon-1.log") (λ _, Ok ()) 0 (λ i, 75 * Z.of_nat i)%Z.
Definition demo_client : Globals := mkGlobals "/cfg" "" "lab" false false false.

Definition demo_boot : option (Z + Daemon * string * option string) * World FS :=
  daemon_boot demo_env_ (Ok "key") (Ok ()) (parseGlobals (spawnDaemon_args (spawnArgs demo_client))).1 []
    (mkWorld (mkFS ∅ ∅) "" "").
Definition demo_booted : Daemon :=
  match demo_boot.1 with
  | Some (inr (d, _, _)) => d
  | _ => mkDaemon (mkStore "" (defaultSettings "")) "" "" "" (mkConn None "" false) (NewDedupe 0) []
           ∅ "" (mkSess "" 0 []) false (mkFS ∅ ∅) clip_init ∅
  end.

Lemma demo_boot_ok : demo_boot.1 = Some (inr (demo_booted, "/run/room/daemon.sock", None)).
Proof. vm_compute. reflexivity. Qed.

Lemma spawned_daemon_inherits_witness :
  StoreDir (cfg demo_booted) = "/cfg" ∧ room demo_booted = "lab" ∧
  ∀ w1 s w2, socketPath (P := FS) demo_env_ demo_client w1 = (Some (Ok s), w2) →
    s = "/run/room/daemon.sock".
Proof.
  destruct (spawned_daemon_inherits (P := FS) demo_env_ (Ok "key" : result string (@privkey string_keys))
    (Ok ()) demo_client
    (mkWorld (mkFS ∅ ∅) "" "") demo_boot.2 "/bin/room" demo_booted "/run/room/daemon.sock" None)
    as (_ & _ & _ & Hd & Hr & Hs).
  - rewrite <- demo_boot_ok. exact (surjective_pairing demo_boot).
  - split; [|split; [exact Hr|exact Hs]].
    assert (Ok (StoreDir (cfg demo_booted)) = Ok (E := string) "/cfg") as Hx by exact (eq_sym Hd).
    congruence.
Defined.
