(* ===== verification/Tui.v ===== *)
(** * view.go: the state of the terminal UI and how it is drawn

    [room-go/internal/tui/view.go], and the data of tui.go.  The widgets (bubbles), the styles
    (lipgloss) and the events of the terminal (bubbletea) are third-party: the class [Widgets] has
    their operations, [WidgetLaws] what the properties rely on.  Times are in milliseconds. *)
From S2P Require Import Prelude GoStr GoPath GoOS Wire Ipc.
Open Scope string_scope.
Open Scope list_scope.

(** ** Third-party code *)

(** What the program sets on a [lipgloss.Style]. *)
Inductive position := Left | Right.
Inductive attr :=
| Bold (b : bool)
| Italic (b : bool)
| Foreground (c : string)
| Background (c : string)
| Padding (v h : Z)
| Inline (b : bool)
| MaxWidth (n : Z)
| MaxHeight (n : Z)
| Width (n : Z)
| RoundedBorder
| NormalBorder (top right bottom left : bool)
| ThickBorder (top right bottom left : bool)
| BorderForeground (c : string)
| Align (p : position).

(** [Event]: key presses, mouse events and all other messages of bubbletea; [Extra]: the commands
    the widgets give back; [Viewport] and [Textarea] are bubbles/viewport and bubbles/textarea. *)
Class Widgets := {
  Event : Type;
  Extra : Type;
  Viewport : Type;
  Textarea : Type;
  key_String : Event → string;
  Blink : Extra;
  Extra_msg : Extra → option Event;
  Render : list attr → string → string;
  JoinVertical : position → list string → string;
  Height : string → Z;
  vp_New : Z → Z → Viewport;
  vp_Width : Viewport → Z;
  vp_Height : Viewport → Z;
  vp_YOffset : Viewport → Z;
  vp_lines : Viewport → Z;
  vp_set_size : Viewport → Z → Z → Viewport;
  vp_SetContent : Viewport → string → Viewport;
  vp_GotoBottom : Viewport → Viewport;
  vp_SetYOffset : Viewport → Z → Viewport;
  vp_AtBottom : Viewport → bool;
  vp_Update : Viewport → Event → Viewport * option Extra;
  vp_View : Viewport → string;
  (** the limit of a textarea that sets none *)
  default_CharLimit : Z;
  (** placeholder, prompt, character limit, line numbers *)
  ta_New : string → string → Z → bool → Textarea;
  ta_SetWidth : Textarea → Z → Textarea;
  ta_SetHeight : Textarea → Z → Textarea;
  ta_Focused : Textarea → bool;
  ta_Focus : Textarea → Textarea * option Extra;
  ta_Blur : Textarea → Textarea;
  ta_Value : Textarea → string;
  ta_Reset : Textarea → Textarea;
  ta_Update : Textarea → Event → Textarea * option Extra;
  ta_View : Textarea → string;
}.

(** Width, height and number of lines of a viewport. *)
Definition vp_dims `{Widgets} (v : Viewport) : Z * Z * Z := (vp_Width v, vp_Height v, vp_lines v).

(** The height of a text is its number of lines; a viewport keeps its size, has the lines it was
    given, and clamps its offset; a textarea is
    empty and out of focus at first, and takes no input out of focus. *)
Class WidgetLaws `{Widgets} := {
  dims_new : ∀ w h, vp_Width (vp_New w h) = w ∧ vp_Height (vp_New w h) = h;
  dims_set_size : ∀ v w h, vp_dims (vp_set_size v w h) = (w, h, vp_lines v);
  dims_SetContent : ∀ v s, vp_dims (vp_SetContent v s) =
    (vp_Width v, vp_Height v, Z.of_nat (length (split_lines s)));
  dims_GotoBottom : ∀ v, vp_dims (vp_GotoBottom v) = vp_dims v;
  dims_SetYOffset : ∀ v n, vp_dims (vp_SetYOffset v n) = vp_dims v;
  dims_Update : ∀ v e, vp_dims (vp_Update v e).1 = vp_dims v;
  height_lines : ∀ s, Height s = Z.of_nat (length (split_lines s));
  yoffset_GotoBottom : ∀ v, vp_YOffset (vp_GotoBottom v) = Z.max 0 (vp_lines v - vp_Height v);
  yoffset_SetYOffset : ∀ v n,
    vp_YOffset (vp_SetYOffset v n) = Z.max 0 (Z.min n (vp_lines v - vp_Height v));
  value_new : ∀ p q n b, ta_Value (ta_New p q n b) = "" ∧ ta_Focused (ta_New p q n b) = false;
  value_SetWidth : ∀ t n,
    ta_Value (ta_SetWidth t n) = ta_Value t ∧ ta_Focused (ta_SetWidth t n) = ta_Focused t;
  value_SetHeight : ∀ t n,
    ta_Value (ta_SetHeight t n) = ta_Value t ∧ ta_Focused (ta_SetHeight t n) = ta_Focused t;
  value_Reset : ∀ t, ta_Value (ta_Reset t) = "" ∧ ta_Focused (ta_Reset t) = ta_Focused t;
  value_Blur : ∀ t, ta_Value (ta_Blur t) = ta_Value t ∧ ta_Focused (ta_Blur t) = false;
  value_Focus : ∀ t, ta_Value (ta_Focus t).1 = ta_Value t ∧ ta_Focused (ta_Focus t).1 = true;
  update_unfocused : ∀ t e, ta_Focused t = false →
    ta_Value (ta_Update t e).1 = ta_Value t ∧ ta_Focused (ta_Update t e).1 = false;
  update_focused : ∀ t e, ta_Focused t = true → ta_Focused (ta_Update t e).1 = true;
}.

(** ** Data *)

Record bubble := mkBubble { item : Item; mine : bool; accepted : bool }.

(** client.go, [Options]. *)
Record Options := mkOptions { SocketPath : string; SpawnArgs : list string; Room : string }.

Definition no_status : Status := mkStatus "" "" "" "" false "" 0 0 false.

Section model.
Context `{Widgets}.

Record model := mkModel {
  opts : Options;
  width : Z;
  height : Z;
  vp : Viewport;
  ta : Textarea;
  bubbles : list bubble;
  selected : Z;
  focused : bool;
  status : Status;
  haveStatus : bool;
  live : bool;
  toast : string;
  toastUntil : Z;
  receivedCount : Z;
  quitting : bool;
  lineStarts : list Z;
  contentLines : Z;
}.

Definition set_vp (m : model) (v : Viewport) : model :=
  mkModel (opts m) (width m) (height m) v (ta m) (bubbles m) (selected m) (focused m) (status m)
    (haveStatus m) (live m) (toast m) (toastUntil m) (receivedCount m) (quitting m) (lineStarts m)
    (contentLines m).
Definition set_ta (m : model) (t : Textarea) : model :=
  mkModel (opts m) (width m) (height m) (vp m) t (bubbles m) (selected m) (focused m) (status m)
    (haveStatus m) (live m) (toast m) (toastUntil m) (receivedCount m) (quitting m) (lineStarts m)
    (contentLines m).
Definition set_size (m : model) (w h : Z) (t : Textarea) (v : Viewport) : model :=
  mkModel (opts m) w h v t (bubbles m) (selected m) (focused m) (status m)
    (haveStatus m) (live m) (toast m) (toastUntil m) (receivedCount m) (quitting m) (lineStarts m)
    (contentLines m).
Definition set_bubbles (m : model) (b : list bubble) (n : Z) : model :=
  mkModel (opts m) (width m) (height m) (vp m) (ta m) b (selected m) (focused m) (status m)
    (haveStatus m) (live m) (toast m) (toastUntil m) n (quitting m) (lineStarts m)
    (contentLines m).
Definition set_selected (m : model) (i : Z) : model :=
  mkModel (opts m) (width m) (height m) (vp m) (ta m) (bubbles m) i (focused m) (status m)
    (haveStatus m) (live m) (toast m) (toastUntil m) (receivedCount m) (quitting m) (lineStarts m)
    (contentLines m).
Definition set_focused (m : model) (f : bool) (t : Textarea) : model :=
  mkModel (opts m) (width m) (height m) (vp m) t (bubbles m) (selected m) f (status m)
    (haveStatus m) (live m) (toast m) (toastUntil m) (receivedCount m) (quitting m) (lineStarts m)
    (contentLines m).
Definition set_status (m : model) (s : Status) : model :=
  mkModel (opts m) (width m) (height m) (vp m) (ta m) (bubbles m) (selected m) (focused m) s
    true (live m) (toast m) (toastUntil m) (receivedCount m) (quitting m) (lineStarts m)
    (contentLines m).
Definition set_live (m : model) (l : bool) : model :=
  mkModel (opts m) (width m) (height m) (vp m) (ta m) (bubbles m) (selected m) (focused m)
    (status m) (haveStatus m) l (toast m) (toastUntil m) (receivedCount m) (quitting m)
    (lineStarts m) (contentLines m).
Definition set_toast (m : model) (s : string) (u : Z) : model :=
  mkModel (opts m) (width m) (height m) (vp m) (ta m) (bubbles m) (selected m) (focused m)
    (status m) (haveStatus m) (live m) s u (receivedCount m) (quitting m) (lineStarts m)
    (contentLines m).
Definition set_quitting (m : model) : model :=
  mkModel (opts m) (width m) (height m) (vp m) (ta m) (bubbles m) (selected m) (focused m)
    (status m) (haveStatus m) (live m) (toast m) (toastUntil m) (receivedCount m) true
    (lineStarts m) (contentLines m).
Definition set_lines (m : model) (starts : list Z) (n : Z) (v : Viewport) : model :=
  mkModel (opts m) (width m) (height m) v (ta m) (bubbles m) (selected m) (focused m) (status m)
    (haveStatus m) (live m) (toast m) (toastUntil m) (receivedCount m) (quitting m) starts n.
End model.

(** ** Layout and styles *)

Definition composerTextHeight : Z := 3.
Definition chromeLines : Z := 1 + 1 + (1 + composerTextHeight) + 1.

Definition errNoLocalImage : string := "image not materialized on disk".

Definition colAccent := "205".
Definition colMine := "42".
Definition colTheirs := "39".
Definition colSelect := "214".
Definition colDim := "244".
Definition colWarn := "208".

Definition headerStyle : list attr :=
  [Bold true; Foreground "231"; Background "57"; Padding 0 1].
Definition hintStyle : list attr := [Foreground colDim].
Definition toastStyle : list attr := [Foreground "231"; Background colWarn; Padding 0 1].
Definition metaStyle : list attr := [Foreground colDim].
Definition nudgeStyle : list attr := [Foreground colAccent; Italic true].
Definition labelMine : list attr := [Bold true; Foreground colMine].
Definition labelTheir : list attr := [Bold true; Foreground colTheirs].

(** ** Helpers *)

(** [time.Since] of a time of [ts] milliseconds; a [Duration] saturates. *)
Definition since (now ts : Z) : Z := Z.max (-9223372036854) (Z.min 9223372036854 (now - ts)).

Definition humanTime (now tsMillis : Z) : string :=
  if (tsMillis =? 0)%Z then "now"
  else
    let d := since now (int64 tsMillis) in
    if (d <? 5000)%Z then "now"
    else if (d <? 60000)%Z then itoa (d / 1000)%Z +:+ "s"
    else if (d <? 3600000)%Z then itoa (d / 60000)%Z +:+ "m"
    else if (d <? 24 * 3600000)%Z then itoa (d / 3600000)%Z +:+ "h"
    else itoa (d / (24 * 3600000))%Z +:+ "d".

Definition humanSize (n : Z) : string :=
  if (2 ^ 20 <=? n)%Z then fmt_tenths (float64 n) (2 ^ 20) +:+ " MB"
  else if (2 ^ 10 <=? n)%Z then itoa (div_even n (2 ^ 10)) +:+ " KB"
  else itoa n +:+ " B".

(** What follows the first colon of a fingerprint. *)
Definition fp_body (fp : string) : string :=
  match Cut ":" fp with Some (_, b) => b | None => fp end.

Definition shortFP (fp : string) : string :=
  if String.eqb fp "" then "—"
  else
    let body := fp_body fp in
    let body := if (12 <? len body)%Z then str_take 12 body +:+ "…" else body in
    "🔑" +:+ body.

Definition shortID (fp : string) : string :=
  let body := fp_body fp in
  let body := if (8 <? len body)%Z then str_take 8 body else body in
  if String.eqb body "" then "peer" else "peer-" +:+ body.

Definition imageName (b : bubble) : string :=
  if negb (String.eqb (it_LocalPath (item b)) "") then Base (it_LocalPath (item b))
  else
    match Blob_ (it_Envelope (item b)) with
    | Some bl => if negb (String.eqb (Hash bl) "") then "image-" +:+ str_take 8 (Hash bl) +:+ ".png"
                 else "image.png"
    | None => "image.png"
    end.

(** The name under which [saveImage] saves. *)
Definition save_name (blob : option Blob) : string :=
  match blob with
  | Some bl => if negb (String.eqb (Hash bl) "") then "room-" +:+ str_take 8 (Hash bl) +:+ ".png"
               else "room-image.png"
  | None => "room-image.png"
  end.

(** [home]: [os.UserHomeDir]; [wd]: [os.Getwd]; [tmp]: [os.TempDir]. *)
Definition destDir (home wd : result string string) (tmp : string) (fs : FS) : string :=
  let dl := match home with
            | Ok home => let dl := Join home "Downloads" in
                         match Stat fs dl with Ok Directory => Some dl | _ => None end
            | Err _ => None
            end in
  match dl with
  | Some dl => dl
  | None => match wd with Ok wd => wd | Err _ => tmp end
  end.

(** The destination; the file is written over whatever is there. *)
Definition saveImage (home wd : result string string) (tmp src : string) (blob : option Blob)
    (fs : FS) : result string string * FS :=
  match ReadFile fs src with
  | Err e => (Err (Error e), fs)
  | Ok data =>
      let dst := Join (destDir home wd tmp fs) (save_name blob) in
      match WriteFile fs dst data with
      | (Err e, fs) => (Err (Error e), fs)
      | (Ok _, fs) => (Ok dst, fs)
      end
  end.

(** ** Drawing *)

Section view.
Context `{Widgets}.

Definition resize (m : model) (w h : Z) : model :=
  let w := if (w <? 20)%Z then 20%Z else w in
  let h := if (h <? chromeLines + 3)%Z then (chromeLines + 3)%Z else h in
  set_size m w h (ta_SetHeight (ta_SetWidth (ta m) w) composerTextHeight)
    (vp_set_size (vp m) w (h - chromeLines)).

Definition bubbleWidth (m : model) : Z :=
  (let w := vp_Width (vp m) - 6 in
   let w := if 64 <? w then 64 else w in
   if w <? 16 then 16 else w)%Z.

Definition bubble_label (b : bubble) : string * list attr :=
  if mine b then ("you", labelMine)
  else
    let env := it_Envelope (item b) in
    (if String.eqb (DeviceName env) "" then shortID (Sender env) else DeviceName env, labelTheir).

Definition renderImageBody (b : bubble) : string :=
  let '(dims, size) := match Blob_ (it_Envelope (item b)) with
    | Some bl => (itoa (Blob_W bl) +:+ "×" +:+ itoa (Blob_H bl), humanSize (Size bl))
    | None => ("", "")
    end in
  let head := "🖼  " +:+ imageName b +:+ "  " +:+ dims +:+ " · " +:+ size in
  let hint := Render metaStyle "[inline preview stubbed — y copy · s save · o open]" in
  head +:+ nl +:+ hint.

Definition renderFileBody (b : bubble) : string :=
  let env := it_Envelope (item b) in
  let name := Filename env in
  let name := if String.eqb name "" && negb (String.eqb (it_LocalPath (item b)) "")
              then Base (it_LocalPath (item b)) else name in
  let name := if String.eqb name "" then "file" else name in
  let size := match Blob_ env with Some bl => " · " +:+ humanSize (Size bl) | None => "" end in
  let head := "📄  " +:+ name +:+ size in
  let hint := Render metaStyle "[file — y copy path · s save · o open]" in
  head +:+ nl +:+ hint.

(** [now]: the clock, for the age of the item. *)
Definition renderBubble (now : Z) (m : model) (b : bubble) (sel : bool) : string :=
  let env := it_Envelope (item b) in
  let '(label, labelStyle) := bubble_label b in
  let head := Render labelStyle label +:+ Render metaStyle ("  ·  " +:+ humanTime now (TS env)) in
  let body :=
    if String.eqb (Type_ env) TypeImage then renderImageBody b
    else if String.eqb (Type_ env) TypeFile then renderFileBody b
    else Text env in
  let inner := head +:+ nl +:+ body in
  let inner := if negb (accepted b) then inner +:+ nl +:+ Render nudgeStyle "press y to copy"
               else inner in
  let border := if mine b then colMine else colTheirs in
  let border := if sel then colSelect else border in
  let box := Render [RoundedBorder; BorderForeground border; Padding 0 1; Width (bubbleWidth m)]
               inner in
  Render [Width (vp_Width (vp m)); Align (if mine b then Right else Left)] box.

(** The loop of [rebuild]: the lines drawn so far and where each bubble starts. *)
Fixpoint rebuild_from (now : Z) (m : model) (i : Z) (bs : list bubble) (lines : list string)
    (starts : list Z) : list string * list Z :=
  match bs with
  | [] => (lines, starts)
  | b :: bs =>
      let lines := if (0 <? i)%Z then lines ++ [""] else lines in
      let starts := starts ++ [Z.of_nat (length lines)] in
      let block := renderBubble now m b (i =? selected m)%Z in
      rebuild_from now m (i + 1)%Z bs (lines ++ split_lines block) starts
  end.

Definition empty_line : string :=
  Render metaStyle "  No messages yet. Type below and press Enter to send.".

Definition rebuild (now : Z) (m : model) (stickBottom : bool) : model :=
  let '(lines, starts) := rebuild_from now m 0 (bubbles m) [] [] in
  let lines := match bubbles m with [] => [empty_line] | _ => lines end in
  let v := vp_SetContent (vp m) (join_lines lines) in
  set_lines m starts (Z.of_nat (length lines)) (if stickBottom then vp_GotoBottom v else v).

(** The lines of the selected bubble, first and last. *)
Definition selected_lines (m : model) : option (Z * Z) :=
  if (selected m <? 0)%Z || (Z.of_nat (length (lineStarts m)) <=? selected m)%Z then None
  else
    let i := Z.to_nat (selected m) in
    let top := nth i (lineStarts m) 0%Z in
    let bottom :=
      if (selected m <? Z.of_nat (length (lineStarts m)) - 1)%Z
      then (nth (S i) (lineStarts m) 0 - 2)%Z else (contentLines m - 1)%Z in
    Some (top, bottom).

Definition scrollToSelection (m : model) : model :=
  match selected_lines m with
  | None => m
  | Some (top, bottom) =>
      let v := vp m in
      if (top <? vp_YOffset v)%Z then set_vp m (vp_SetYOffset v top)
      else if (vp_YOffset v + vp_Height v - 1 <? bottom)%Z
      then set_vp m (vp_SetYOffset v (bottom - vp_Height v + 1))
      else m
  end.

(** ** The screen *)

Definition renderHeader (m : model) : string :=
  let s := status m in
  let '(room, fp, conn, auto, clip) :=
    if haveStatus m then
      (if negb (String.eqb (st_Room s) "") then st_Room s else Room (opts m),
       shortFP (st_Fingerprint s),
       if st_Connected s then "● " +:+ st_Server s else "○ not connected",
       st_AutoCopy s,
       if st_Clipboard s then "available" else "unavailable")
    else (Room (opts m), "—", "○ starting…", "notify", "unavailable") in
  let room := if String.eqb room "" then "default" else room in
  let line := "room:" +:+ room +:+ " · " +:+ fp +:+ " · " +:+ conn +:+ " · auto_copy:" +:+ auto +:+
              " · clipboard:" +:+ clip in
  Render (headerStyle ++ [Inline true; MaxWidth (width m); Width (width m)]) line.

Definition quit_prompt : string := "⚑ clear this session? [t]ransient / [a]ll incl sinks / [n]o".

Definition renderToast (m : model) : string :=
  if quitting m then Render (toastStyle ++ [Inline true; MaxWidth (width m)]) quit_prompt
  else if negb (String.eqb (toast m) "")
  then Render (toastStyle ++ [Inline true; MaxWidth (width m)]) ("⚑ " +:+ toast m)
  else
    let mode := if focused m then "compose" else "browse" in
    let s := itoa (Z.of_nat (length (bubbles m))) +:+ " message(s) · " +:+ mode +:+ " mode" in
    let s := if haveStatus m && String.eqb (st_AutoCopy (status m)) "notify"
             then s +:+ " · notify-first: press y to copy received items" else s in
    Render (metaStyle ++ [Inline true; MaxWidth (width m)]) ("  " +:+ s).

Definition renderComposer (m : model) : string :=
  let label :=
    if focused m then Render [Bold true; Foreground colAccent] "▶ compose"
    else Render metaStyle "  composer (press i or Esc to type)" in
  JoinVertical Left [label; ta_View (ta m)].

Definition renderHint (m : model) : string :=
  let h :=
    if quitting m then "t transient · a all incl sinks · n no · ctrl+c force quit"
    else if focused m then "enter send · esc browse · ctrl+c quit"
    else "j/k select · y copy · s save · o open · g/G top/bottom · i compose · q quit" in
  Render (hintStyle ++ [Inline true; MaxWidth (width m)]) h.

Definition View (m : model) : string :=
  let header := renderHeader m in
  let body := vp_View (vp m) in
  let toast := renderToast m in
  let composer := renderComposer m in
  let hint := renderHint m in
  JoinVertical Left [header; body; toast; composer; hint].
End view.

Example humanSize_ex : map humanSize [0; 1023; 1536; 1048575; 1572864; 18446744073709551615]%Z =
  ["0 B"; "1023 B"; "2 KB"; "1024 KB"; "1.5 MB"; "17592186044416.0 MB"].
Proof. vm_compute. reflexivity. Qed.

Example humanTime_ex : map (humanTime 1000000000) [0; 999997000; 999940000; 999000000; 900000000; 1000;
    18446744073709551615]%Z =
  ["now"; "now"; "1m"; "16m"; "1d"; "11d"; "11d"].
Proof. vm_compute. reflexivity. Qed.

Example short_ex : shortFP "SHA256:abcdefghijklmnop" = "🔑abcdefghijkl…" ∧
  shortID "SHA256:abcdef0123456789" = "peer-abcdef01" ∧ shortID "SHA256:" = "peer".
Proof. vm_compute. auto. Qed.
