(* ===== verification/TuiLoop.v ===== *)
(** * tui.go and client.go: the update function of the terminal UI

    [room-go/internal/tui/tui.go] and [client.go].  [Update] maps the model, the clock and a
    message to the new model and the command it asks the runtime to run; [exec] is what a command
    does, in the process monad of [Proc], and the messages that come of it.  The runtime itself
    (bubbletea) is not modelled: [run_msgs] feeds messages to [Update] one at a time, which is what
    it promises. *)
From S2P Require Import Prelude GoStr GoPath GoOS Wire Ipc Proc Tui.
Open Scope string_scope.
Open Scope list_scope.

(** Go does not say whether [return m, m.f()] reads [m] before the call of [f] or after it. *)
Class Compiler := call_first : bool.

(** [errors.New] and [err.Error()] are the identity: an error is its text. *)
Definition opt_err {A} (r : result string A) : option string :=
  match r with Ok _ => None | Err e => Some e end.

(** ** client.go *)

Section client.
Context {P : Type} `{Peer P} `{Cbor Request} `{Cbor Response}.
Context (E : Env) (o : Options).

Definition client_roundtrip (req : Request) : M P (result string Response) :=
  match ipc_dial E (SocketPath o) true (SpawnArgs o) with
  | Err e => mret (Err e)
  | Ok lim =>
      r ← send_req lim req;
      mret (match r with
            | Err e => Err e
            | Ok rd => match (ReadResp rd).1 with
                       | Ok resp => Ok resp
                       | Err e => Err (msg_err_string e)
                       end
            end)
  end.

Definition ipcClient_Status : M P (result string Status) :=
  r ← client_roundtrip (mkRequest IPCVersion OpStatus "" "" "" "" false "" false "" "" "" "");
  mret (match r with
        | Err e => Err e
        | Ok resp =>
            if String.eqb (rs_Kind resp) RespErr then Err "status unavailable"
            else match rs_Status resp with Some st => Ok st | None => Err "status unavailable" end
        end).

(** The warning, or the error. *)
Definition ipcClient_SendText (text : string) : M P (result string string) :=
  r ← client_roundtrip (mkRequest IPCVersion OpSend text "text" "" "" false "" false "" "" "" "");
  mret (match r with
        | Err e => Err e
        | Ok resp =>
            if String.eqb (rs_Kind resp) RespErr then Err (rs_Message resp)
            else if (rs_Code resp =? 4)%Z then Ok (rs_Message resp) else Ok ""
        end).

(** The error of a request that has no other answer. *)
Definition client_err (r : result string Response) : option string :=
  match r with
  | Err e => Some e
  | Ok resp => if String.eqb (rs_Kind resp) RespErr then Some (rs_Message resp) else None
  end.

Definition copy_request (msgID fallbackText : string) : Request :=
  if String.eqb msgID "" && negb (String.eqb fallbackText "")
  then mkRequest IPCVersion OpCopy fallbackText "text" "" "" false msgID false "" "" "" ""
  else mkRequest IPCVersion OpCopy "" "" "" "" false msgID false "" "" "" "".

Definition ipcClient_Copy (msgID fallbackText : string) : M P (option string) :=
  r ← client_roundtrip (copy_request msgID fallbackText); mret (client_err r).

Definition ipcClient_Clear (all : bool) : M P (option string) :=
  r ← client_roundtrip (mkRequest IPCVersion OpClear "" "" "" "" false "" all "" "" "" "");
  mret (client_err r).
End client.

(** ** Messages and commands *)

Section messages.
Context `{Widgets}.

Inductive Msg :=
| WindowSizeMsg (w h : Z)
| itemMsg (it : option Item)
| statusMsg (st : option Status) (err : option string)
| sendResultMsg (warn : string) (err : option string)
| actionResultMsg (msg : string) (err : option string)
| connStateMsg (subscribed : bool) (err : option string)
| tickMsg
| KeyMsg (e : Event)
| MouseMsg (e : Event)
| OtherMsg (e : Event).

(** A command is a closure of the code, by the function that makes it. *)
Inductive Cmd :=
| fetchStatusCmd
| tickCmd
| sendTextCmd (text : string)
| copyCmd (msgID fallback label : string)
| saveImageCmd (b : bubble)
| openImageCmd (b : bubble)
| clearCmd (all : bool)
| ExtraCmd (x : Extra)
| Quit
| Batch (cs : list Cmd)
| Sequence (cs : list Cmd).

Definition extra (c : option Extra) : option Cmd := ExtraCmd <$> c.

(** ** Update *)

Definition newModel (o : Options) : model :=
  let ta := ta_New "Type a message… (Enter to send, Esc to browse)" "┃ " 8000 false in
  let ta := ta_SetHeight ta 3 in
  let m := mkModel o 0 0 (vp_New 80 20) ta [] (-1) true no_status false false "" 0 0 false [] 0 in
  resize m 80 24.

Definition Init : Cmd := Batch [ExtraCmd Blink; fetchStatusCmd; tickCmd].

Definition setToast (now : Z) (m : model) (s : string) : model := set_toast m s (now + 5000).

Definition onItem (now : Z) (m : model) (it : option Item) : model :=
  match it with
  | None => m
  | Some it =>
      let atBottom := vp_AtBottom (vp m) in
      let accepted := negb (String.eqb (st_AutoCopy (status m)) "notify") in
      let m := set_bubbles m (bubbles m ++ [mkBubble it false accepted]) (receivedCount m + 1) in
      let m := rebuild now m atBottom in
      if negb accepted then
        let label := DeviceName (it_Envelope it) in
        let label := if String.eqb label "" then shortID (Sender (it_Envelope it)) else label in
        setToast now m ("new item from " +:+ label +:+ " — press y to copy")
      else m
  end.

Definition anythingReceived (m : model) : bool :=
  (0 <? receivedCount m)%Z || (0 <? st_Buffer (status m))%Z.

Definition maybeQuit (now : Z) (m : model) : model * option Cmd :=
  if anythingReceived m then (rebuild now (set_quitting m) false, None) else (m, Some Quit).

Definition onKeyQuitPrompt (m : model) (key : string) : model * option Cmd :=
  if String.eqb key "t" then (m, Some (Sequence [clearCmd false; Quit]))
  else if String.eqb key "a" then (m, Some (Sequence [clearCmd true; Quit]))
  else if decide (key ∈ ["n"; "esc"; "q"]) then (m, Some Quit)
  else if String.eqb key "ctrl+c" then (m, Some Quit)
  else (m, None).

Definition last_index (m : model) : Z := (Z.of_nat (length (bubbles m)) - 1)%Z.

Definition own_bubble (now : Z) (text : string) : bubble :=
  mkBubble (mkItem (mkEnvelope Version "" TypeText MimeText "you" "you" (uint64 now) "" text None "")
              "") true true.

Definition onKeyCompose (now : Z) (m : model) (e : Event) : model * option Cmd :=
  let key := key_String e in
  if String.eqb key "esc" then
    let m := set_focused m false (ta_Blur (ta m)) in
    let m := if (selected m <? 0)%Z && (0 <? length (bubbles m))%nat
             then set_selected m (last_index m) else m in
    (rebuild now m false, None)
  else if String.eqb key "enter" then
    let text := TrimNewlines (ta_Value (ta m)) in
    if String.eqb (TrimSpace text) "" then (m, None)
    else
      let m := set_bubbles m (bubbles m ++ [own_bubble now text]) (receivedCount m) in
      let m := set_ta m (ta_Reset (ta m)) in
      (rebuild now m true, Some (sendTextCmd text))
  else
    let '(t, cmd) := ta_Update (ta m) e in (set_ta m t, extra cmd).

Definition moveSelection (now : Z) (m : model) (delta : Z) : model :=
  if (length (bubbles m) =? 0)%nat then m
  else
    let i := if (selected m <? 0)%Z then last_index m else (selected m + delta)%Z in
    let i := if (i <? 0)%Z then 0%Z else i in
    let i := if (last_index m <? i)%Z then last_index m else i in
    scrollToSelection (rebuild now (set_selected m i) false).

Definition effectiveSelection (m : model) : Z :=
  if (length (bubbles m) =? 0)%nat then (-1)%Z
  else if (selected m <? 0)%Z || (Z.of_nat (length (bubbles m)) <=? selected m)%Z
  then last_index m else selected m.

(** The bubble at an index that is in range. *)
Definition bubble_at (m : model) (idx : Z) : option bubble :=
  if (idx <? 0)%Z then None else bubbles m !! Z.to_nat idx.

Definition selectedImage (m : model) : option bubble :=
  match bubble_at m (effectiveSelection m) with
  | Some b => if String.eqb (Type_ (it_Envelope (item b))) TypeImage then Some b else None
  | None => None
  end.

Definition copySelected (now : Z) (m : model) : model * option Cmd :=
  let idx := effectiveSelection m in
  match bubble_at m idx with
  | None => (setToast now m "nothing to copy", None)
  | Some b =>
      let m := set_bubbles m (<[Z.to_nat idx := mkBubble (item b) (mine b) true]> (bubbles m))
                 (receivedCount m) in
      let m := rebuild now m false in
      let env := it_Envelope (item b) in
      let label := if String.eqb (Type_ env) TypeImage then "image" else "message" in
      (m, Some (if mine b then copyCmd "" (Text env) label else copyCmd (MsgID env) "" label))
  end.

Context `{Compiler}.

(** [return m, m.ta.Focus()] *)
Definition return_Focus (m : model) : model * option Cmd :=
  let '(t, cmd) := ta_Focus (ta m) in
  (if call_first then set_ta m t else m, extra cmd).

(** [return m, m.copySelected()]: the bubbles are shared by the copies of [m]. *)
Definition return_copySelected (now : Z) (m : model) : model * option Cmd :=
  let '(m', cmd) := copySelected now m in
  (if call_first then m' else set_bubbles m (bubbles m') (receivedCount m), cmd).

Definition compose (now : Z) (m : model) : model * option Cmd :=
  return_Focus (rebuild now (set_focused m true (ta m)) false).

Definition select_end (now : Z) (m : model) (i : Z) : model :=
  let m := if (0 <? length (bubbles m))%nat then set_selected m i else m in
  scrollToSelection (rebuild now m false).

Definition onKeyBrowse (now : Z) (m : model) (e : Event) : model * option Cmd :=
  let key := key_String e in
  if String.eqb key "q" then maybeQuit now m
  else if decide (key ∈ ["i"; "a"; "enter"]) then compose now m
  else if String.eqb key "esc" then compose now m
  else if decide (key ∈ ["up"; "k"]) then (moveSelection now m (-1), None)
  else if decide (key ∈ ["down"; "j"]) then (moveSelection now m 1, None)
  else if decide (key ∈ ["g"; "home"]) then (select_end now m 0, None)
  else if decide (key ∈ ["G"; "end"]) then (select_end now m (last_index m), None)
  else if String.eqb key "y" then return_copySelected now m
  else if String.eqb key "s" then
    match selectedImage m with
    | Some b => (m, Some (saveImageCmd b))
    | None => (setToast now m "no image selected to save", None)
    end
  else if String.eqb key "o" then
    match selectedImage m with
    | Some b => (m, Some (openImageCmd b))
    | None => (setToast now m "no image selected to open", None)
    end
  else
    let '(v, cmd) := vp_Update (vp m) e in (set_vp m v, extra cmd).

Definition onKey (now : Z) (m : model) (e : Event) : model * option Cmd :=
  if quitting m then onKeyQuitPrompt m (key_String e)
  else if String.eqb (key_String e) "ctrl+c" then maybeQuit now m
  else if focused m then onKeyCompose now m e
  else onKeyBrowse now m e.

Definition Update (now : Z) (m : model) (msg : Msg) : model * option Cmd :=
  match msg with
  | WindowSizeMsg w h => (rebuild now (resize m w h) true, None)
  | itemMsg it => (onItem now m it, None)
  | statusMsg st err =>
      (match err, st with None, Some st => set_status m st | _, _ => m end, None)
  | connStateMsg subscribed _ => (set_live m subscribed, None)
  | sendResultMsg warn err =>
      (match err with
       | Some e => setToast now m ("send failed: " +:+ e)
       | None => if negb (String.eqb warn "")
                 then setToast now m ("sent (warning: " +:+ warn +:+ ")") else m
       end, None)
  | actionResultMsg msg err =>
      (match err with
       | Some e => setToast now m ("error: " +:+ e)
       | None => if negb (String.eqb msg "") then setToast now m msg else m
       end, None)
  | tickMsg =>
      (if negb (String.eqb (toast m) "") && (toastUntil m <? now)%Z
       then set_toast m "" (toastUntil m) else m, Some (Batch [fetchStatusCmd; tickCmd]))
  | KeyMsg e => onKey now m e
  | MouseMsg e => let '(v, cmd) := vp_Update (vp m) e in (set_vp m v, extra cmd)
  | OtherMsg e =>
      if focused m then let '(t, cmd) := ta_Update (ta m) e in (set_ta m t, extra cmd)
      else let '(v, cmd) := vp_Update (vp m) e in (set_vp m v, extra cmd)
  end.

(** Messages with their times, one after the other: the last model and the commands asked for. *)
Fixpoint run_msgs (m : model) (msgs : list (Z * Msg)) : model * list Cmd :=
  match msgs with
  | [] => (m, [])
  | (now, msg) :: msgs =>
      let '(m, cmd) := Update now m msg in
      let '(m, cmds) := run_msgs m msgs in (m, option_list cmd ++ cmds)
  end.
End messages.

(** ** What the commands do *)

(** The user's home and working directory, the operating system, and what [exec.Cmd.Start] of a
    program with arguments returns. *)
Record Desk := mkDesk {
  k_home : result string string;
  k_wd : result string string;
  k_goos : string;
  k_start : string → list string → option string;
}.

Section exec.
Context `{Widgets} {P : Type} `{Peer P} `{Cbor Request} `{Cbor Response}.
Context (E : Env) (D : Desk) (o : Options).

Definition openExternally (path : string) : option string :=
  if String.eqb (k_goos D) "darwin" then k_start D "open" [path]
  else if String.eqb (k_goos D) "windows" then k_start D "cmd" ["/c"; "start"; ""; path]
  else k_start D "xdg-open" [path].

Definition fetchStatus : M P Msg :=
  r ← ipcClient_Status E o;
  mret (match r with Ok st => statusMsg (Some st) None | Err e => statusMsg None (Some e) end).

Definition sendText (text : string) : M P Msg :=
  r ← ipcClient_SendText E o text;
  mret (match r with Ok warn => sendResultMsg warn None | Err e => sendResultMsg "" (Some e) end).

Definition copy (msgID fallback label : string) : M P Msg :=
  err ← ipcClient_Copy E o msgID fallback;
  mret (match err with
        | Some e => actionResultMsg "" (Some e)
        | None => actionResultMsg ("copied " +:+ label +:+ " to clipboard") None
        end).

Definition saveImage_run (b : bubble) : M P Msg :=
  let src := it_LocalPath (item b) in
  if String.eqb src "" then mret (actionResultMsg "" (Some errNoLocalImage))
  else
    r ← os_call (saveImage (k_home D) (k_wd D) (e_tmp E) src (Blob_ (it_Envelope (item b))));
    mret (match r with
          | Err e => actionResultMsg "" (Some e)
          | Ok dst => actionResultMsg ("saved image → " +:+ dst) None
          end).

Definition openImage (b : bubble) : Msg :=
  let src := it_LocalPath (item b) in
  if String.eqb src "" then actionResultMsg "" (Some errNoLocalImage)
  else
    match openExternally src with
    | Some e => actionResultMsg "" (Some e)
    | None => actionResultMsg ("opened " +:+ Base src) None
    end.

(** The messages that come of a command; [tea.Quit] ends the program instead. *)
Fixpoint exec (c : Cmd) : M P (list Msg) :=
  let all := fix all (cs : list Cmd) : M P (list Msg) :=
    match cs with
    | [] => mret []
    | c :: cs => ms ← exec c; ms' ← all cs; mret (ms ++ ms')
    end in
  match c with
  | fetchStatusCmd => msg ← fetchStatus; mret [msg]
  | tickCmd => mret [tickMsg]
  | sendTextCmd text => msg ← sendText text; mret [msg]
  | copyCmd msgID fallback label => msg ← copy msgID fallback label; mret [msg]
  | saveImageCmd b => msg ← saveImage_run b; mret [msg]
  | openImageCmd b => mret [openImage b]
  | clearCmd all => ipcClient_Clear E o all;; mret []
  | ExtraCmd x => mret (match Extra_msg x with Some e => [OtherMsg e] | None => [] end)
  | Quit => mret []
  | Batch cs => all cs
  | Sequence cs => all cs
  end.

(** One round of [streamItems]: the messages it sends to the program. *)
Definition stream_round : M P (list Msg) :=
  match ipc_dial E (SocketPath o) true (SpawnArgs o) with
  | Err e => mret [connStateMsg false (Some e)]
  | Ok lim =>
      r ← send_req lim
            (mkRequest IPCVersion OpSubscribe "" "" "" "" false "" false "" "" "" "");
      mret (match r with
            | Err _ => []
            | Ok rd =>
                let resps := (read_msgs (S (String.length (r_buf rd))) rd).1 in
                connStateMsg true None ::
                omap (λ resp : Response,
                        if String.eqb (rs_Kind resp) RespItem
                        then (λ it, itemMsg (Some it)) <$> rs_Item resp else None) resps ++
                [connStateMsg false (Some "subscription closed")]
            end)
  end.

(** [streamItems] over the rounds before its context is cancelled. *)
Fixpoint streamItems (rounds : nat) : M P (list Msg) :=
  match rounds with
  | O => mret []
  | S rounds => ms ← stream_round; ms' ← streamItems rounds; mret (ms ++ ms')
  end.
End exec.
