(* ===== verification/TuiProps.v ===== *)
(** * The terminal UI keeps its promises

    Theorems about [TuiLoop.Update] alone: the shape every reachable model has, scrolling, quitting
    and the composer.  [Chat] puts the UI and the daemon together. *)
From S2P Require Import Prelude GoStr GoPath GoOS Wire Ipc Proc Tui TuiLoop.
Open Scope string_scope.
Open Scope list_scope.

(** ** The shape of the model *)

(** Where the bubbles start: from line 0 on, a blank line between any two, all within [n] lines. *)
Definition laid_out (starts : list Z) (n : Z) : Prop :=
  ∀ i s, starts !! i = Some s →
    (0 ≤ s)%Z ∧ match starts !! S i with Some s' => (s + 2 ≤ s')%Z | None => (s < n)%Z end.

Definition received (bs : list bubble) : Z := Z.of_nat (length (filter (λ b, mine b = false) bs)).

Record model_ok `{Widgets} (m : model) : Prop := {
  ok_selected : (-1 ≤ selected m < Z.of_nat (length (bubbles m)))%Z;
  ok_starts : length (lineStarts m) = length (bubbles m);
  ok_laid : laid_out (lineStarts m) (contentLines m);
  ok_lines : bubbles m ≠ [] → vp_lines (vp m) = contentLines m;
  ok_received : receivedCount m = received (bubbles m);
  ok_mine : Forall (λ b, mine b = true →
              accepted b = true ∧ Type_ (it_Envelope (item b)) = TypeText) (bubbles m);
  ok_size : (20 ≤ width m ∧ chromeLines + 3 ≤ height m)%Z;
  ok_vp : vp_Width (vp m) = width m ∧ vp_Height (vp m) = (height m - chromeLines)%Z;
}.

Section shape.
Context `{WidgetLaws}.

Lemma laid_out_snoc starts n k :
  laid_out starts n → (starts ≠ [] → n + 1 ≤ k)%Z → (0 ≤ k)%Z →
  ∀ n', (k < n')%Z → laid_out (starts ++ [k]) n'.
Proof.
  intros Hl Hk Hk0 n' Hn' i s Hi. destruct (decide (i < length starts)%nat) as [Hlt|Hge].
  - rewrite lookup_app_l in Hi by done. destruct (Hl i s Hi) as [Hs Hnext]. split; [done|].
    destruct (starts !! S i) as [s'|] eqn:E.
    + rewrite lookup_app_l by by eapply lookup_lt_Some. by rewrite E.
    + apply lookup_ge_None in E. rewrite lookup_app_r by done.
      replace (S i - length starts)%nat with 0%nat by lia. cbn.
      assert (starts ≠ []) as Hne by (by intros ->). specialize (Hk Hne). lia.
  - rewrite lookup_app_r in Hi by lia. apply list_lookup_singleton_Some in Hi as [Hz <-].
    split; [done|]. rewrite lookup_ge_None_2; [done|]. rewrite length_app. cbn. lia.
Qed.

Lemma rebuild_from_laid now m i bs lines starts :
  i = Z.of_nat (length starts) → laid_out starts (Z.of_nat (length lines)) →
  Forall no_newline lines →
  let '(lines', starts') := rebuild_from now m i bs lines starts in
  length starts' = (length starts + length bs)%nat ∧
  laid_out starts' (Z.of_nat (length lines')) ∧ Forall no_newline lines' ∧
  (length lines <= length lines')%nat ∧ (bs ≠ [] → lines' ≠ []).
Proof.
  revert i lines starts. induction bs as [|b bs IH]; intros i lines starts Hi Hl Hc.
  { cbn. split_and!; [lia|done..]. }
  cbn [rebuild_from]. set (sep := if (0 <? i)%Z then lines ++ [""] else lines).
  set (block := split_lines _).
  assert (1 <= length block)%nat as Hb.
  { pose proof (split_lines_nonempty (renderBubble now m b (i =? selected m)%Z)) as Hne.
    subst block. destruct (split_lines _); [done|cbn; lia]. }
  assert (length lines <= length sep)%nat as Hsep.
  { subst sep. destruct (0 <? i)%Z; rewrite ?length_app; lia. }
  specialize (IH (i + 1)%Z (sep ++ block) (starts ++ [Z.of_nat (length sep)])).
  destruct (rebuild_from now m (i + 1) bs _ _) as [lines' starts'].
  destruct IH as (Hn & Hlaid & Hclean & Hlen & _).
  - rewrite length_app. cbn. lia.
  - eapply laid_out_snoc; [done| |lia|].
    + intros Hne. subst sep. destruct (Z.ltb_spec 0 i); [rewrite length_app; cbn; lia|].
      destruct starts; [done|cbn in *; lia].
    + rewrite length_app. lia.
  - apply Forall_app. split; [|apply split_lines_clean]. subst sep.
    destruct (0 <? i)%Z; [|done]. apply Forall_app. split; [done|by repeat constructor].
  - rewrite !length_app in *. cbn in *. split_and!; [lia|done..|lia|].
    intros _ ->. cbn in *. lia.
Qed.

Lemma rebuild_ok now m b :
  (-1 ≤ selected m < Z.of_nat (length (bubbles m)))%Z → receivedCount m = received (bubbles m) →
  Forall (λ b, mine b = true → accepted b = true ∧ Type_ (it_Envelope (item b)) = TypeText)
    (bubbles m) →
  (20 ≤ width m ∧ chromeLines + 3 ≤ height m)%Z →
  vp_Width (vp m) = width m ∧ vp_Height (vp m) = (height m - chromeLines)%Z →
  model_ok (rebuild now m b).
Proof.
  intros Hs Hr Hm Hz Hv. unfold rebuild.
  pose proof (rebuild_from_laid now m 0 (bubbles m) [] []) as Hlaid.
  destruct (rebuild_from now m 0 (bubbles m) [] []) as [lines starts].
  destruct Hlaid as (Hn & Hl & Hc & _ & Hne); [done|by intros i s Hi|done|].
  set (lines' := match bubbles m with [] => _ | _ => _ end).
  pose proof (dims_SetContent (vp m) (join_lines lines')) as Hd.
  assert (vp_dims (if b then vp_GotoBottom (vp_SetContent (vp m) (join_lines lines'))
                   else vp_SetContent (vp m) (join_lines lines')) =
          (vp_Width (vp m), vp_Height (vp m), Z.of_nat (length (split_lines (join_lines lines')))))
    as Hd'. { destruct b; [by rewrite dims_GotoBottom|done]. }
  unfold vp_dims in Hd'. injection Hd' as Hw Hh Hk.
  constructor; cbn; try done.
  - destruct (bubbles m) as [|b0 bs] eqn:Eb; [|done].
    intros i s Hi. cbn in Hn. apply lookup_lt_Some in Hi. lia.
  - intros Hbne. rewrite Hk. subst lines'. destruct (bubbles m) as [|b0 bs] eqn:Eb; [done|].
    rewrite split_join_lines; [done..|by apply Hne].
  - by rewrite Hw, Hh.
Qed.

(** A change that does not touch what [model_ok] is about. *)
Lemma model_ok_frame m m' :
  selected m' = selected m → bubbles m' = bubbles m → lineStarts m' = lineStarts m →
  contentLines m' = contentLines m → receivedCount m' = receivedCount m → width m' = width m →
  height m' = height m → vp_dims (vp m') = vp_dims (vp m) → model_ok m → model_ok m'.
Proof.
  intros Es Eb El Ec Er Ew Eh [= Evw Evh Evl] [].
  constructor; rewrite ?Es, ?Eb, ?El, ?Ec, ?Er, ?Ew, ?Eh, ?Evw, ?Evh, ?Evl; done.
Qed.

Lemma rebuild_model_ok now m m' b :
  model_ok m → (-1 ≤ selected m' < Z.of_nat (length (bubbles m)))%Z →
  bubbles m' = bubbles m → receivedCount m' = receivedCount m → width m' = width m →
  height m' = height m → vp m' = vp m → model_ok (rebuild now m' b).
Proof. intros [] Hs Eb Er Ew Eh Ev. apply rebuild_ok; rewrite ?Eb, ?Er, ?Ew, ?Eh, ?Ev; done. Qed.

Lemma set_vp_ok m v : vp_dims v = vp_dims (vp m) → model_ok m → model_ok (set_vp m v).
Proof. intros Hv Hm. by eapply model_ok_frame; [..|exact Hm]. Qed.

Lemma scroll_ok m : model_ok m → model_ok (scrollToSelection m).
Proof.
  intros Hm. unfold scrollToSelection. destruct (selected_lines m) as [[t b]|]; [|done].
  cbv zeta. repeat case_match; try done; (apply set_vp_ok; [apply dims_SetYOffset|done]).
Qed.

Lemma received_snoc bs b :
  received (bs ++ [b]) = (received bs + if mine b then 0 else 1)%Z.
Proof.
  unfold received. rewrite filter_app, length_app, filter_cons, filter_nil.
  destruct (mine b); case_decide; cbn; (done || lia).
Qed.

Lemma received_insert bs i b b' :
  bs !! i = Some b → mine b' = mine b → received (<[i := b']> bs) = received bs.
Proof.
  intros Hi Hm. rewrite <-(take_drop_middle bs i b Hi) at 2. rewrite insert_take_drop;
    [|by eapply lookup_lt_Some].
  unfold received. rewrite !filter_app, !length_app, !filter_cons, Hm. by case_decide.
Qed.

Lemma last_index_range m :
  bubbles m ≠ [] → (0 ≤ last_index m < Z.of_nat (length (bubbles m)))%Z.
Proof. intros Hne. unfold last_index. destruct (bubbles m); [done|]. cbn. lia. Qed.

Lemma resize_size m w h :
  (20 ≤ width (resize m w h) ∧ chromeLines + 3 ≤ height (resize m w h))%Z ∧
  vp_Width (vp (resize m w h)) = width (resize m w h) ∧
  vp_Height (vp (resize m w h)) = (height (resize m w h) - chromeLines)%Z.
Proof.
  unfold resize. cbn. match goal with |- context [vp_set_size ?v ?a ?b] =>
    pose proof (dims_set_size v a b) as Hd end.
  injection Hd as -> -> _. repeat case_match; breflect; lia.
Qed.

Lemma newModel_ok o : model_ok (newModel o).
Proof.
  unfold newModel. match goal with |- model_ok (resize ?m _ _) =>
    destruct (resize_size m 80 24) as [Hs Hv] end.
  constructor; [cbn; lia|done|by intros i s Hi|done|done|by constructor|done..].
Qed.

Lemma onItem_ok now m it : model_ok m → model_ok (onItem now m it).
Proof.
  intros Hm. unfold onItem. destruct it as [it|]; [|done]. cbv zeta.
  match goal with |- context [rebuild now ?m' ?b] => assert (model_ok (rebuild now m' b)) as Hok end.
  { destruct Hm. apply rebuild_ok; cbn; rewrite ?length_app; [cbn; lia| |..|done|done].
    - rewrite received_snoc. cbn. lia.
    - apply Forall_app. split; [done|]. by repeat constructor. }
  case_match; [|done]. eapply model_ok_frame; [..|exact Hok]; done.
Qed.

Lemma moveSelection_ok now m d : model_ok m → model_ok (moveSelection now m d).
Proof.
  intros Hm. unfold moveSelection. destruct (Nat.eqb_spec (length (bubbles m)) 0); [done|].
  apply scroll_ok. eapply rebuild_model_ok; [exact Hm|cbn|done..].
  unfold last_index. repeat case_match; breflect; lia.
Qed.

Lemma bubble_at_effective m b :
  bubble_at m (effectiveSelection m) = Some b →
  (0 ≤ effectiveSelection m)%Z ∧ bubbles m !! Z.to_nat (effectiveSelection m) = Some b.
Proof. unfold bubble_at. destruct (Z.ltb_spec (effectiveSelection m) 0); [done|]. by split. Qed.

Lemma copySelected_ok now m : model_ok m → model_ok (copySelected now m).1.
Proof.
  intros Hm. unfold copySelected. destruct (bubble_at m _) as [b|] eqn:Eb.
  2:{ eapply model_ok_frame; [..|exact Hm]; done. }
  apply bubble_at_effective in Eb as [_ Hb]. destruct Hm.
  apply rebuild_ok; cbn; rewrite ?length_insert; [done| |..|done|done].
  - by erewrite received_insert.
  - apply Forall_insert; [done|]. cbn. intros Hmine. split; [done|].
    by apply (Forall_lookup_1 _ _ _ _ ok_mine0 Hb).
Qed.

Lemma copySelected_bubbles now m :
  length (bubbles (copySelected now m).1) = length (bubbles m) ∧
  receivedCount (copySelected now m).1 = receivedCount m.
Proof.
  unfold copySelected. destruct (bubble_at m _) as [b|]; [|done]. unfold rebuild.
  destruct (rebuild_from _ _ _ _ _ _). cbn. by rewrite length_insert.
Qed.

Lemma return_copySelected_ok `{Compiler} now m : model_ok m → model_ok (return_copySelected now m).1.
Proof.
  intros Hm. unfold return_copySelected. pose proof (copySelected_ok now m Hm) as Hc.
  pose proof (copySelected_bubbles now m) as [Hl Hr].
  destruct (copySelected now m) as [m' cmd]. cbn [fst] in *. destruct call_first; [done|].
  destruct Hm, Hc. constructor; cbn; rewrite ?Hl; try done.
  - intros Hne. apply ok_lines0. intros Hb. apply Hne. rewrite Hb in Hl. by apply nil_length_inv.
  - congruence.
Qed.

Lemma return_Focus_ok `{Compiler} m : model_ok m → model_ok (return_Focus m).1.
Proof.
  intros Hm. unfold return_Focus. destruct (ta_Focus (ta m)) as [t cmd]. cbn [fst].
  destruct call_first; [|done]. eapply model_ok_frame; [..|exact Hm]; done.
Qed.

Lemma maybeQuit_ok now m : model_ok m → model_ok (maybeQuit now m).1.
Proof.
  intros Hm. unfold maybeQuit. destruct (anythingReceived m); [|done].
  eapply rebuild_model_ok; [exact Hm|apply Hm|done..].
Qed.

Lemma onKeyQuitPrompt_ok m k : (onKeyQuitPrompt m k).1 = m.
Proof. unfold onKeyQuitPrompt. by repeat case_match. Qed.

Lemma update_parts_ok m e :
  model_ok m → (∀ t c, ta_Update (ta m) e = (t, c) → model_ok (set_ta m t)) ∧
  (∀ v c, vp_Update (vp m) e = (v, c) → model_ok (set_vp m v)).
Proof.
  intros Hm. split; intros x c Ex.
  - by eapply model_ok_frame; [..|exact Hm].
  - apply set_vp_ok; [|done]. pose proof (dims_Update (vp m) e) as Hd. by rewrite Ex in Hd.
Qed.

Lemma onKeyCompose_ok now m e : model_ok m → model_ok (onKeyCompose now m e).1.
Proof.
  intros Hm. unfold onKeyCompose. destruct (String.eqb (key_String e) "esc").
  { cbn [fst]. case_match.
    - eapply rebuild_model_ok; [exact Hm|cbn|done..]. unfold last_index. cbn. breflect. lia.
    - eapply rebuild_model_ok; [exact Hm|apply Hm|done..]. }
  destruct (String.eqb (key_String e) "enter").
  { destruct (String.eqb _ ""); [done|]. cbn [fst]. destruct Hm. apply rebuild_ok; cbn;
      rewrite ?length_app; [cbn; lia| |..|done|done].
    - rewrite received_snoc. cbn. lia.
    - apply Forall_app. split; [done|]. by repeat constructor. }
  destruct (ta_Update (ta m) e) as [t c] eqn:E. by eapply update_parts_ok.
Qed.

Lemma select_end_ok now m i :
  model_ok m → (bubbles m ≠ [] → 0 ≤ i < Z.of_nat (length (bubbles m)))%Z →
  model_ok (select_end now m i).
Proof.
  intros Hm Hi. unfold select_end. apply scroll_ok. destruct (Nat.ltb_spec 0 (length (bubbles m))).
  - assert (bubbles m ≠ []) as Hne by (by intros Heq; rewrite Heq in *; cbn in *; lia).
    specialize (Hi Hne). eapply rebuild_model_ok; [exact Hm|cbn; lia|done..].
  - eapply rebuild_model_ok; [exact Hm|apply Hm|done..].
Qed.

Lemma onKeyBrowse_ok `{Compiler} now m e : model_ok m → model_ok (onKeyBrowse now m e).1.
Proof.
  intros Hm. assert (model_ok (compose now m).1) as Hc.
  { unfold compose. apply return_Focus_ok. eapply rebuild_model_ok; [exact Hm|apply Hm|done..]. }
  assert (∀ s, model_ok (setToast now m s)) as Ht.
  { intros s. eapply model_ok_frame; [..|exact Hm]; done. }
  unfold onKeyBrowse. cbv zeta.
  destruct (String.eqb _ "q"); [by apply maybeQuit_ok|].
  repeat (case_decide; [first [exact Hc|by apply moveSelection_ok|apply select_end_ok;
    [done|intros Hne; pose proof (last_index_range m Hne); lia]]|] ||
    (destruct (String.eqb _ "esc"); [exact Hc|])).
  destruct (String.eqb _ "y"); [by apply return_copySelected_ok|].
  destruct (String.eqb _ "s"); [destruct (selectedImage m); [exact Hm|apply Ht]|].
  destruct (String.eqb _ "o"); [destruct (selectedImage m); [exact Hm|apply Ht]|].
  destruct (vp_Update (vp m) e) as [v c] eqn:E. by eapply update_parts_ok.
Qed.

Lemma Update_ok `{Compiler} now m msg : model_ok m → model_ok (Update now m msg).1.
Proof.
  intros Hm. assert (∀ s u, model_ok (set_toast m s u)) as Ht.
  { intros s u. eapply model_ok_frame; [..|exact Hm]; done. }
  destruct msg as [w h|it|st err|warn err|s err|sub err| |e|e|e]; cbn [Update].
  - destruct (resize_size m w h) as [Hs Hv]. destruct Hm. by apply rebuild_ok.
  - by apply onItem_ok.
  - destruct err, st; try done. eapply model_ok_frame; [..|exact Hm]; done.
  - destruct err; [apply Ht|]. cbn [fst]. case_match; [apply Ht|done].
  - destruct err; [apply Ht|]. cbn [fst]. case_match; [apply Ht|done].
  - eapply model_ok_frame; [..|exact Hm]; done.
  - cbn [fst]. case_match; [apply Ht|done].
  - unfold onKey. destruct (quitting m); [by rewrite onKeyQuitPrompt_ok|].
    destruct (String.eqb _ _); [by apply maybeQuit_ok|].
    destruct (focused m); [by apply onKeyCompose_ok|by apply onKeyBrowse_ok].
  - destruct (vp_Update (vp m) e) as [v c] eqn:E. by eapply update_parts_ok.
  - destruct (focused m).
    + destruct (ta_Update (ta m) e) as [t c] eqn:E. by eapply update_parts_ok.
    + destruct (vp_Update (vp m) e) as [v c] eqn:E. by eapply update_parts_ok.
Qed.
End shape.

(** ** Reachable models *)

(** The model and the command after a run, one message further. *)
Lemma run_msgs_app `{Widgets} `{Compiler} m msgs msgs' :
  run_msgs m (msgs ++ msgs') =
    let '(m1, c1) := run_msgs m msgs in
    let '(m2, c2) := run_msgs m1 msgs' in (m2, c1 ++ c2).
Proof.
  revert m. induction msgs as [|[now msg] msgs IH]; intros m; cbn [run_msgs app].
  { by destruct (run_msgs m msgs'). }
  destruct (Update now m msg) as [m1 cmd]. rewrite IH.
  destruct (run_msgs m1 msgs) as [m2 c2]. destruct (run_msgs m2 msgs') as [m3 c3].
  by rewrite app_assoc.
Qed.

(** An invariant of [Update] holds after every run. *)
Lemma run_msgs_inv `{Widgets} `{Compiler} (I : model → Prop) m msgs :
  (∀ now m msg, I m → I (Update now m msg).1) → I m → I (run_msgs m msgs).1.
Proof.
  intros Hstep. revert m. induction msgs as [|[now msg] msgs IH]; intros m Hm; cbn [run_msgs]; [done|].
  specialize (Hstep now m msg Hm). destruct (Update now m msg) as [m1 cmd].
  specialize (IH m1 Hstep). by destruct (run_msgs m1 msgs).
Qed.

Section quit.
Context `{Widgets} `{Compiler}.

(** Does a command, or one inside it, pass the test? *)
Fixpoint asks (p : Cmd → bool) (c : Cmd) : bool :=
  match c with
  | Batch cs | Sequence cs => existsb (asks p) cs
  | c => p c
  end.
Definition is_Quit (c : Cmd) : bool := match c with Quit => true | _ => false end.
Definition is_clear (c : Cmd) : bool := match c with clearCmd _ => true | _ => false end.
Definition is_send (c : Cmd) : bool := match c with sendTextCmd _ => true | _ => false end.

Definition is_item (msg : Msg) : bool :=
  match msg with itemMsg (Some _) => true | _ => false end.
Definition items_in (msgs : list (Z * Msg)) : Z :=
  Z.of_nat (length (filter (λ x, is_item x.2 = true) msgs)).

Lemma rebuild_keeps now m b :
  receivedCount (rebuild now m b) = receivedCount m ∧ quitting (rebuild now m b) = quitting m ∧
  status (rebuild now m b) = status m ∧ bubbles (rebuild now m b) = bubbles m ∧
  selected (rebuild now m b) = selected m ∧ focused (rebuild now m b) = focused m ∧
  ta (rebuild now m b) = ta m.
Proof. unfold rebuild. by destruct (rebuild_from _ _ _ _ _ _). Qed.

Lemma scroll_keeps m :
  receivedCount (scrollToSelection m) = receivedCount m ∧
  bubbles (scrollToSelection m) = bubbles m ∧ selected (scrollToSelection m) = selected m ∧
  lineStarts (scrollToSelection m) = lineStarts m ∧
  contentLines (scrollToSelection m) = contentLines m ∧
  focused (scrollToSelection m) = focused m ∧ ta (scrollToSelection m) = ta m.
Proof. unfold scrollToSelection. by repeat case_match. Qed.

Lemma extra_asks p x (c : Cmd) : (∀ x, p (ExtraCmd x) = false) → extra x = Some c → asks p c = false.
Proof. intros Hp. unfold extra. destruct x; [|done]. intros [= <-]. apply Hp. Qed.

(** What a key of each mode can ask for. *)
Lemma compose_key_asks now m e m' c :
  onKeyCompose now m e = (m', Some c) →
  asks is_Quit c = false ∧ asks is_clear c = false ∧
  (asks is_send c = true → String.eqb (TrimSpace (TrimNewlines (ta_Value (ta m)))) "" = false).
Proof.
  unfold onKeyCompose. destruct (String.eqb _ "esc"); [done|].
  destruct (String.eqb _ "enter").
  { destruct (String.eqb _ ""); [done|]. by intros [= _ <-]. }
  destruct (ta_Update (ta m) e) as [t x]. intros [= _ Hx].
  split_and!; try (by eapply extra_asks).
  by rewrite (extra_asks is_send x c) by done.
Qed.

Lemma copySelected_asks now m c : (copySelected now m).2 = Some c → ∃ a b l, c = copyCmd a b l.
Proof.
  unfold copySelected. destruct (bubble_at m _) as [b|]; [|done].
  cbn. intros [= <-]. case_match; eauto.
Qed.

Lemma maybeQuit_asks now m c :
  (maybeQuit now m).2 = Some c → c = Quit ∧ anythingReceived m = false.
Proof. unfold maybeQuit. destruct (anythingReceived m); [done|]. by intros [= <-]. Qed.

Lemma browse_key_asks now m e m' c :
  onKeyBrowse now m e = (m', Some c) →
  asks is_clear c = false ∧ asks is_send c = false ∧
  (asks is_Quit c = true → key_String e = "q" ∧ anythingReceived m = false).
Proof.
  unfold onKeyBrowse. cbv zeta.
  destruct (String.eqb_spec (key_String e) "q") as [Hq|_].
  { intros Hm. destruct (maybeQuit_asks now m c) as [-> Ha]; [by rewrite Hm|]. done. }
  assert (∀ m1, compose now m = (m1, Some c) →
    asks is_clear c = false ∧ asks is_send c = false ∧ asks is_Quit c = false) as Hcomp.
  { intros m1. unfold compose, return_Focus. destruct (ta_Focus _) as [t x]. intros [= _ Hx].
    split_and!; by eapply extra_asks. }
  case_decide; [intros Hm; apply Hcomp in Hm as (? & ? & ?); split_and!; congruence|].
  destruct (String.eqb (key_String e) "esc");
    [intros Hm; apply Hcomp in Hm as (? & ? & ?); split_and!; congruence|].
  do 4 (case_decide; [done|]).
  destruct (String.eqb (key_String e) "y").
  { unfold return_copySelected. pose proof (copySelected_asks now m) as Hc.
    destruct (copySelected now m) as [m1 c1]. intros [= _ ->].
    destruct (Hc c eq_refl) as (a & b & l & ->). done. }
  destruct (String.eqb (key_String e) "s"); [destruct (selectedImage m); [by intros [= _ <-]|done]|].
  destruct (String.eqb (key_String e) "o"); [destruct (selectedImage m); [by intros [= _ <-]|done]|].
  destruct (vp_Update (vp m) e) as [v x]. intros [= _ Hx].
  split_and!; [by eapply extra_asks..|]. by rewrite (extra_asks is_Quit x c).
Qed.

(** Only four keys answer the prompt, and two of them with a clear. *)
Lemma prompt_key_asks m k m' c :
  onKeyQuitPrompt m k = (m', Some c) →
  k ∈ ["t"; "a"; "n"; "esc"; "q"; "ctrl+c"] ∧
  c = (if String.eqb k "t" then Sequence [clearCmd false; Quit]
       else if String.eqb k "a" then Sequence [clearCmd true; Quit] else Quit).
Proof.
  unfold onKeyQuitPrompt.
  destruct (String.eqb_spec k "t") as [->|]; [by intros [= _ <-]; split; [set_solver|]|].
  destruct (String.eqb_spec k "a") as [->|]; [by intros [= _ <-]; split; [set_solver|]|].
  case_decide; [by intros [= _ <-]; split; [set_solver|]|].
  destruct (String.eqb_spec k "ctrl+c") as [->|]; [by intros [= _ <-]; split; [set_solver|]|done].
Qed.

Lemma Update_received now m msg :
  receivedCount (Update now m msg).1 = (receivedCount m + if is_item msg then 1 else 0)%Z.
Proof.
  assert (∀ n m' b, receivedCount m' = receivedCount m →
    receivedCount (rebuild n m' b) = (receivedCount m + 0)%Z) as Hreb.
  { intros n m' b Hr. destruct (rebuild_keeps n m' b) as [-> _]. lia. }
  assert (∀ n m' b, receivedCount m' = receivedCount m →
    receivedCount (scrollToSelection (rebuild n m' b)) = (receivedCount m + 0)%Z) as Hscr.
  { intros n m' b Hr. destruct (scroll_keeps (rebuild n m' b)) as [-> _]. by apply Hreb. }
  destruct msg as [w h|it|st err|warn err|s err|sub err| |e|e|e]; cbn [Update is_item].
  2:{ unfold onItem. destruct it as [it|]; [|cbn; lia]. cbn [fst]. cbv zeta.
      case_match; cbn [setToast set_toast receivedCount];
      match goal with |- context [rebuild ?n ?m' ?b] => destruct (rebuild_keeps n m' b) as [-> _] end;
      cbn; lia. }
  1: by apply Hreb.
  1-5: repeat case_match; cbn; lia.
  2,3: repeat case_match; cbn; lia.
  unfold onKey. destruct (quitting m).
  { unfold onKeyQuitPrompt. repeat case_match; cbn [fst]; lia. }
  assert (receivedCount (maybeQuit now m).1 = (receivedCount m + 0)%Z) as Hq.
  { unfold maybeQuit. destruct (anythingReceived m); cbn [fst]; [by apply Hreb|lia]. }
  destruct (String.eqb _ _); [exact Hq|]. destruct (focused m).
  - unfold onKeyCompose. destruct (String.eqb _ "esc"); [cbn [fst]; apply Hreb; by case_match|].
    destruct (String.eqb _ "enter"); [destruct (String.eqb _ _); cbn [fst]; [lia|by apply Hreb]|].
    destruct (ta_Update _ _). cbn. lia.
  - assert (receivedCount (compose now m).1 = (receivedCount m + 0)%Z) as Hc.
    { unfold compose, return_Focus. destruct (ta_Focus _). cbn [fst].
      case_match; cbn [set_ta receivedCount]; by apply Hreb. }
    assert (∀ i, receivedCount (select_end now m i) = (receivedCount m + 0)%Z) as Hs.
    { intros i. unfold select_end. apply Hscr. by case_match. }
    assert (∀ d, receivedCount (moveSelection now m d) = (receivedCount m + 0)%Z) as Hmv.
    { intros d. unfold moveSelection. case_match; [lia|]. by apply Hscr. }
    unfold onKeyBrowse. cbv zeta. destruct (String.eqb _ "q"); [exact Hq|].
    case_decide; [exact Hc|]. destruct (String.eqb _ "esc"); [exact Hc|].
    do 2 (case_decide; [apply Hmv|]). do 2 (case_decide; [apply Hs|]).
    destruct (String.eqb _ "y").
    { unfold return_copySelected. pose proof (copySelected_bubbles now m) as [_ Hr].
      destruct (copySelected now m). cbn [fst] in *. case_match; cbn; lia. }
    repeat case_match; cbn; lia.
Qed.

Lemma run_received m msgs :
  receivedCount (run_msgs m msgs).1 = (receivedCount m + items_in msgs)%Z.
Proof.
  unfold items_in. revert m. induction msgs as [|[now msg] msgs IH]; intros m; cbn [run_msgs].
  { cbn. lia. }
  pose proof (Update_received now m msg) as Hu. destruct (Update now m msg) as [m1 cmd].
  cbn [fst] in Hu. specialize (IH m1). destruct (run_msgs m1 msgs) as [m2 cs]. cbn [fst] in *.
  rewrite IH, Hu, filter_cons. cbn [snd]. destruct (is_item msg); case_decide; cbn; (done || lia).
Qed.
End quit.

Section scrolling.
Context `{WidgetLaws} `{Compiler}.

(** Every key that moves the selection redraws with some bubble selected and scrolls to it. *)
Lemma nav_key_spec now m e :
  model_ok m → bubbles m ≠ [] →
  key_String e ∈ ["up"; "k"; "down"; "j"; "g"; "home"; "G"; "end"] →
  ∃ i, (0 ≤ i < Z.of_nat (length (bubbles m)))%Z ∧
    (onKeyBrowse now m e).1 = scrollToSelection (rebuild now (set_selected m i) false).
Proof.
  intros Hm Hne Hk. pose proof (last_index_range m Hne) as Hlast. pose proof (ok_selected m Hm) as Hs.
  assert (∀ d, ∃ i, (0 ≤ i < Z.of_nat (length (bubbles m)))%Z ∧
    moveSelection now m d = scrollToSelection (rebuild now (set_selected m i) false)) as Hmv.
  { intros d. unfold moveSelection. destruct (Nat.eqb_spec (length (bubbles m)) 0) as [Hl|_].
    { by apply nil_length_inv in Hl. }
    eexists. split; [|done]. repeat case_match; breflect; lia. }
  assert (∀ i, (0 ≤ i < Z.of_nat (length (bubbles m)))%Z → ∃ j, (0 ≤ j < Z.of_nat (length (bubbles m)))%Z ∧
    select_end now m i = scrollToSelection (rebuild now (set_selected m j) false)) as Hse.
  { intros i Hi. exists i. split; [done|]. unfold select_end.
    destruct (Nat.ltb_spec 0 (length (bubbles m))); [done|lia]. }
  unfold onKeyBrowse. cbv zeta. generalize dependent (key_String e). intros key Hk.
  assert (key = "up" ∨ key = "k" ∨ key = "down" ∨ key = "j" ∨ key = "g" ∨ key = "home" ∨ key = "G" ∨
    key = "end") as Hc by set_solver.
  destruct Hc as [->|[->|[->|[->|[->|[->|[->| ->]]]]]]];
    [apply Hmv|apply Hmv|apply Hmv|apply Hmv|apply (Hse 0%Z)|apply (Hse 0%Z)|apply Hse|apply Hse]; lia.
Qed.

Lemma laid_out_below starts n j s : laid_out starts n → starts !! j = Some s → (s < n)%Z.
Proof.
  intros Hl. remember (length starts - j)%nat as k eqn:Ek.
  revert j s Ek. induction k as [|k IH]; intros j s Ek Hj.
  { apply lookup_lt_Some in Hj. lia. }
  destruct (Hl j s Hj) as [_ Hn]. destruct (starts !! S j) as [s'|] eqn:E'; [|done].
  assert (s' < n)%Z by (apply (IH (S j)); [lia|done]). lia.
Qed.

(** The lines of the selected bubble are lines of the text. *)
Lemma selected_lines_ok m :
  laid_out (lineStarts m) (contentLines m) →
  (0 ≤ selected m < Z.of_nat (length (lineStarts m)))%Z →
  ∃ top bottom, selected_lines m = Some (top, bottom) ∧
    (0 ≤ top ∧ top ≤ bottom ∧ bottom < contentLines m)%Z.
Proof.
  intros Hl Hi. destruct (lookup_lt_is_Some_2 (lineStarts m) (Z.to_nat (selected m))) as [top Htop]; [lia|].
  pose proof (Hl _ _ Htop) as [Ht0 Hnext]. unfold selected_lines.
  destruct (Z.ltb_spec (selected m) 0); [lia|].
  destruct (Z.leb_spec (Z.of_nat (length (lineStarts m))) (selected m)); [lia|]. cbn [orb].
  rewrite (nth_lookup_Some _ _ 0%Z top Htop). eexists _, _. split; [done|].
  destruct (Z.ltb_spec (selected m) (Z.of_nat (length (lineStarts m)) - 1)).
  - destruct (lookup_lt_is_Some_2 (lineStarts m) (S (Z.to_nat (selected m)))) as [top' Htop']; [lia|].
    rewrite Htop' in Hnext. rewrite (nth_lookup_Some _ _ 0%Z top' Htop').
    pose proof (laid_out_below _ _ _ _ Hl Htop'). lia.
  - rewrite lookup_ge_None_2 in Hnext by lia. lia.
Qed.

Lemma scroll_shows m top bottom :
  vp_lines (vp m) = contentLines m → selected_lines m = Some (top, bottom) →
  (0 ≤ top ∧ top ≤ bottom ∧ bottom < contentLines m)%Z →
  (bottom - top < vp_Height (vp m))%Z →
  (vp_YOffset (vp (scrollToSelection m)) ≤ top ∧
   bottom < vp_YOffset (vp (scrollToSelection m)) + vp_Height (vp m))%Z.
Proof.
  intros Hlines Hsl Hb Hfit. unfold scrollToSelection. rewrite Hsl. cbv zeta.
  destruct (Z.ltb_spec top (vp_YOffset (vp m))); cbn [set_vp vp].
  { rewrite yoffset_SetYOffset, Hlines. lia. }
  destruct (Z.ltb_spec (vp_YOffset (vp m) + vp_Height (vp m) - 1) bottom); cbn [set_vp vp]; [|lia].
  rewrite yoffset_SetYOffset, Hlines. lia.
Qed.

Lemma scroll_height m : vp_Height (vp (scrollToSelection m)) = vp_Height (vp m).
Proof.
  unfold scrollToSelection. destruct (selected_lines m) as [[t b]|]; [|done]. cbv zeta.
  repeat case_match; try done; cbn [set_vp vp];
    match goal with |- vp_Height (vp_SetYOffset ?v ?n) = _ => by injection (dims_SetYOffset v n) end.
Qed.
End scrolling.

Section composing.
Context `{WidgetLaws} `{Compiler}.

(** What a key that quits, or clears, was pressed on. *)
Lemma quit_step now m msg m' c :
  Update now m msg = (m', Some c) →
  (asks is_Quit c = true → ∃ e, msg = KeyMsg e ∧
     (quitting m = true ∧ key_String e ∈ ["t"; "a"; "n"; "esc"; "q"; "ctrl+c"] ∨
      quitting m = false ∧ anythingReceived m = false ∧
        (key_String e = "ctrl+c" ∨ key_String e = "q" ∧ focused m = false))) ∧
  (asks is_clear c = true → ∃ e all, msg = KeyMsg e ∧ quitting m = true ∧
     key_String e = (if all : bool then "a" else "t") ∧ c = Sequence [clearCmd all; Quit]).
Proof.
  destruct msg as [w h|it|st err|warn err|s err|sub err| |e|e|e]; cbn [Update]; try done.
  - by intros [= _ <-].
  - unfold onKey. destruct (quitting m) eqn:Eq.
    { intros [Hk ->]%prompt_key_asks. split; [intros _; exists e; eauto|]. revert Hk.
      destruct (String.eqb_spec (key_String e) "t"); [intros; by exists e, false|].
      destruct (String.eqb_spec (key_String e) "a"); [intros; by exists e, true|done]. }
    destruct (String.eqb_spec (key_String e) "ctrl+c").
    { intros Hm. destruct (maybeQuit_asks now m c) as [-> Ha]; [by rewrite Hm|].
      split; [intros _; exists e; eauto 6|done]. }
    destruct (focused m) eqn:Ef.
    + intros (-> & -> & _)%compose_key_asks. done.
    + intros (-> & _ & Hq)%browse_key_asks. split; [|done]. intros Hc. apply Hq in Hc as [? ?].
      exists e. eauto 8.
  - destruct (vp_Update _ _) as [v x]. intros [= _ Hx]. split; by rewrite (extra_asks _ x c).
  - destruct (focused m); [destruct (ta_Update _ _) as [v x]|destruct (vp_Update _ _) as [v x]];
      intros [= _ Hx]; split; by rewrite (extra_asks _ x c).
Qed.

(** The composer holds no text and takes none. *)
Definition deaf (m : model) : Prop := ta_Focused (ta m) = false ∧ ta_Value (ta m) = "".

Lemma deaf_frame m m' : ta m' = ta m → deaf m → deaf m'.
Proof. unfold deaf. by intros ->. Qed.

Lemma newModel_deaf o : deaf (newModel o) ∧ focused (newModel o) = true.
Proof.
  split; [|done]. unfold deaf, newModel, resize. cbn [ta set_size].
  set (t := ta_New _ _ _ _). assert (ta_Value t = "" ∧ ta_Focused t = false) as [Hv Hf] by apply value_new.
  by rewrite !(proj1 (value_SetHeight _ _)), !(proj2 (value_SetHeight _ _)),
    (proj1 (value_SetWidth _ _)), (proj2 (value_SetWidth _ _)),
    (proj1 (value_SetHeight _ _)), (proj2 (value_SetHeight _ _)).
Qed.

Lemma rebuild_frame now m b : ta (rebuild now m b) = ta m ∧ focused (rebuild now m b) = focused m.
Proof. by destruct (rebuild_keeps now m b) as (_ & _ & _ & _ & _ & ? & ?). Qed.

Lemma deaf_update m e t x : deaf m → ta_Update (ta m) e = (t, x) → deaf (set_ta m t).
Proof.
  intros [Hf Hv] E. destruct (update_unfocused (ta m) e Hf) as [Hv' Hf'].
  rewrite E in Hv', Hf'. unfold deaf. cbn in *. by rewrite Hv', Hf'.
Qed.

(** In a deaf composer a key sends nothing. *)
Lemma compose_deaf now m e :
  deaf m →
  deaf (onKeyCompose now m e).1 ∧
  (∀ c, (onKeyCompose now m e).2 = Some c → asks is_send c = false) ∧
  (key_String e ≠ "esc" → focused (onKeyCompose now m e).1 = focused m).
Proof.
  intros [Hf Hv]. unfold onKeyCompose. destruct (String.eqb_spec (key_String e) "esc") as [->|Hne].
  { cbn [fst snd]. split_and!; [|done..]. eapply deaf_frame; [apply rebuild_frame|].
    apply (deaf_frame (set_focused m false (ta_Blur (ta m)))); [by case_match|].
    unfold deaf. cbn. by rewrite (proj1 (value_Blur _)), (proj2 (value_Blur _)). }
  destruct (String.eqb (key_String e) "enter"); [rewrite Hv; by split_and!|].
  destruct (ta_Update (ta m) e) as [t x] eqn:E. cbn [fst snd]. split_and!; [|intros c Hx|done].
  - by eapply deaf_update.
  - by eapply extra_asks.
Qed.

(** Browsing leaves the composer alone, unless the focus it asks for lands. *)
Lemma browse_ta now m e : call_first = false → ta (onKeyBrowse now m e).1 = ta m.
Proof.
  intros Hc. assert (ta (compose now m).1 = ta m) as Hcomp.
  { unfold compose, return_Focus. rewrite Hc. destruct (ta_Focus _). cbn [fst].
    by destruct (rebuild_frame now (set_focused m true (ta m)) false) as [-> _]. }
  assert (∀ m1, ta (scrollToSelection (rebuild now m1 false)) = ta m1) as Hs.
  { intros m1. destruct (scroll_keeps (rebuild now m1 false)) as (_ & _ & _ & _ & _ & _ & ->).
    by rewrite (proj1 (rebuild_frame _ _ _)). }
  unfold onKeyBrowse. cbv zeta. destruct (String.eqb _ "q").
  { unfold maybeQuit. destruct (anythingReceived m); [|done]. cbn [fst]. by rewrite (proj1 (rebuild_frame _ _ _)). }
  case_decide; [exact Hcomp|]. destruct (String.eqb _ "esc"); [exact Hcomp|].
  do 2 (case_decide; [cbn [fst]; unfold moveSelection; case_match; [done|]; by rewrite Hs|]).
  do 2 (case_decide; [cbn [fst]; unfold select_end; rewrite Hs; by case_match|]).
  destruct (String.eqb _ "y").
  { unfold return_copySelected. rewrite Hc. by destruct (copySelected now m). }
  by repeat case_match.
Qed.

Definition is_esc (msg : Msg) : bool :=
  match msg with KeyMsg e => String.eqb (key_String e) "esc" | _ => false end.

(** A key keeps what the composer does not hear. *)
Lemma onKey_deaf now m e :
  deaf m → call_first = false ∨ focused m = true →
  deaf (onKey now m e).1 ∧
  (∀ c, (onKey now m e).2 = Some c → asks is_send c = false) ∧
  (focused m = true → is_esc (KeyMsg e) = false → focused (onKey now m e).1 = true).
Proof.
  intros Hd Hor. unfold onKey. destruct (quitting m).
  { rewrite onKeyQuitPrompt_ok. split_and!; [done| |done]. intros c Hc.
    destruct (onKeyQuitPrompt m (key_String e)) as [m1 c1] eqn:E. cbn in Hc. subst c1.
    apply prompt_key_asks in E as [_ ->]. by repeat case_match. }
  destruct (String.eqb (key_String e) "ctrl+c").
  { split_and!.
    - unfold maybeQuit. destruct (anythingReceived m); [|done]. by eapply deaf_frame; [apply rebuild_frame|].
    - by intros c [-> _]%maybeQuit_asks.
    - unfold maybeQuit. destruct (anythingReceived m); [|done]. cbn [fst].
      by rewrite (proj2 (rebuild_frame _ _ _)). }
  destruct (focused m) eqn:Ef.
  - destruct (compose_deaf now m e Hd) as (Hd' & Hs & Hf). split_and!; [done..|].
    intros _ He. cbn in He. apply String.eqb_neq in He. by rewrite Hf.
  - destruct Hor as [Hc|?]; [|done]. split_and!; [|intros c Hc'|done].
    + eapply deaf_frame; [by apply browse_ta|done].
    + destruct (onKeyBrowse now m e) as [m1 c1] eqn:E. cbn in Hc'. subst c1.
      by apply browse_key_asks in E as (_ & ? & _).
Qed.

Lemma Update_deaf now m msg :
  deaf m → call_first = false ∨ focused m = true →
  deaf (Update now m msg).1 ∧
  (∀ c, (Update now m msg).2 = Some c → asks is_send c = false) ∧
  (focused m = true → is_esc msg = false → focused (Update now m msg).1 = true).
Proof.
  intros Hd Hor. assert (∀ m', ta m' = ta m → focused m' = focused m →
    deaf m' ∧ (focused m = true → focused m' = true)) as Hframe.
  { intros m' Ht Hf. split; [by eapply deaf_frame|by rewrite Hf]. }
  assert (∀ m', ta m' = ta m → focused m' = focused m →
    deaf m' ∧ (∀ c, None = Some c → asks is_send c = false) ∧
    (focused m = true → is_esc msg = false → focused m' = true)) as Hn.
  { intros m' Ht Hf. destruct (Hframe m' Ht Hf). by split_and!; [|intros|auto]. }
  destruct msg as [w h|it|st err|warn err|s err|sub err| |e|e|e]; cbn [Update fst snd].
  - split_and!; [|done|intros Hf _; by rewrite (proj2 (rebuild_frame _ _ _))].
    eapply deaf_frame; [apply rebuild_frame|]. destruct Hd as [Hf Hv]. unfold deaf, resize. cbn.
    by rewrite !(proj1 (value_SetHeight _ _)), !(proj2 (value_SetHeight _ _)),
      (proj1 (value_SetWidth _ _)), (proj2 (value_SetWidth _ _)).
  - unfold onItem. destruct it as [it|]; [|by apply Hn]. cbv zeta.
    case_match; apply Hn; cbn [setToast set_toast ta focused];
      by rewrite ?(proj1 (rebuild_frame _ _ _)), ?(proj2 (rebuild_frame _ _ _)).
  - apply Hn; by repeat case_match.
  - apply Hn; by repeat case_match.
  - apply Hn; by repeat case_match.
  - by apply Hn.
  - split_and!; [by apply Hframe; case_match|by intros c [= <-]|intros; by case_match].
  - by apply onKey_deaf.
  - destruct (vp_Update (vp m) e) as [v x]. cbn [fst snd].
    split_and!; [done|intros c Hx; by eapply extra_asks|done].
  - destruct (focused m) eqn:Ef.
    + destruct (ta_Update (ta m) e) as [t x] eqn:E. cbn [fst snd].
      split_and!; [by eapply deaf_update|intros c Hx; by eapply extra_asks|done].
    + destruct (vp_Update (vp m) e) as [v x]. cbn [fst snd].
      split_and!; [done|intros c Hx; by eapply extra_asks|done].
Qed.

Lemma run_deaf m msgs :
  deaf m → call_first = false ∨ focused m = true ∧ Forall (λ x, is_esc x.2 = false) msgs →
  deaf (run_msgs m msgs).1 ∧ Forall (λ c, asks is_send c = false) (run_msgs m msgs).2 ∧
  (focused m = true → Forall (λ x, is_esc x.2 = false) msgs → focused (run_msgs m msgs).1 = true).
Proof.
  revert m. induction msgs as [|[now msg] msgs IH]; intros m Hd Hinv; cbn [run_msgs].
  { split_and!; [done|constructor|done]. }
  destruct (Update_deaf now m msg Hd) as (Hd1 & Hs1 & Hf1); [tauto|].
  destruct (Update now m msg) as [m1 cmd]. cbn [fst snd] in *.
  destruct (IH m1 Hd1) as (Hd2 & Hs2 & Hf2).
  { destruct Hinv as [?|[? [? ?]%Forall_cons]]; auto. }
  destruct (run_msgs m1 msgs) as [m2 cmds]. cbn [fst snd] in *. split_and!; [done| |].
  - destruct cmd as [c|]; cbn; [|done]. constructor; auto.
  - intros Hf [He Hall]%Forall_cons. auto.
Qed.
End composing.

(** ** Concrete widgets, for the examples *)

Record toy_vp := mkToyVp { tv_w : Z; tv_h : Z; tv_y : Z; tv_n : Z }.

Definition toy_clamp (v : toy_vp) (n : Z) : toy_vp :=
  mkToyVp (tv_w v) (tv_h v) (Z.max 0 (Z.min n (tv_n v - tv_h v))) (tv_n v).

(** Styles draw nothing; a textarea in focus takes the text of an event; no command comes back. *)
Definition toy_widgets : Widgets := {|
  Event := string;
  Extra := unit;
  Viewport := toy_vp;
  Textarea := string * bool;
  key_String e := e;
  Blink := ();
  Extra_msg _ := None;
  Render _ s := s;
  JoinVertical _ ls := join_lines ls;
  Height s := Z.of_nat (length (split_lines s));
  vp_New w h := mkToyVp w h 0 0;
  vp_Width := tv_w;
  vp_Height := tv_h;
  vp_YOffset := tv_y;
  vp_lines := tv_n;
  vp_set_size v w h := mkToyVp w h (tv_y v) (tv_n v);
  vp_SetContent v s := mkToyVp (tv_w v) (tv_h v) (tv_y v) (Z.of_nat (length (split_lines s)));
  vp_GotoBottom v := toy_clamp v (tv_n v - tv_h v);
  vp_SetYOffset := toy_clamp;
  vp_AtBottom v := (tv_n v - tv_h v <=? tv_y v)%Z;
  vp_Update v _ := (v, None);
  vp_View _ := "";
  default_CharLimit := 0;
  ta_New _ _ _ _ := ("", false);
  ta_SetWidth t _ := t;
  ta_SetHeight t _ := t;
  ta_Focused t := t.2;
  ta_Focus t := ((t.1, true), None);
  ta_Blur t := (t.1, false);
  ta_Value t := t.1;
  ta_Reset t := ("", t.2);
  ta_Update t e := (if t.2 then t.1 +:+ e else t.1, t.2, None);
  ta_View t := t.1;
|}.

Lemma toy_widgets_laws : @WidgetLaws toy_widgets.
Proof.
  split; try done; first [intros v; cbn; by rewrite Z.min_id|intros [? []] ?; cbn; by intros].
Qed.

#[local] Existing Instance toy_widgets.
#[local] Existing Instance toy_widgets_laws.

Definition demo_options : Options := mkOptions "/run/room.sock" [] "".
Definition demo_text (id text : string) : Item :=
  mkItem (mkEnvelope 1 id TypeText MimeText "SHA256:a" "laptop" 0 "" text None "") "".
Definition demo_items_msgs : list (Z * Msg) :=
  [(0%Z, WindowSizeMsg 80 12);
   (0%Z, statusMsg (Some (mkStatus "SHA256:a" "dev" "lab" "" true "notify" 0 0 true)) None);
   (1%Z, itemMsg (Some (demo_text "01" "one"))); (2%Z, itemMsg (Some (demo_text "02" "two")));
   (3%Z, itemMsg (Some (demo_text "03" "three"))); (4%Z, KeyMsg "esc"); (5%Z, KeyMsg "g")].
Definition demo_model : model := (@run_msgs toy_widgets true (newModel demo_options) demo_items_msgs).1.

Example demo_model_view :
  bubbles demo_model = [mkBubble (demo_text "01" "one") false false;
    mkBubble (demo_text "02" "two") false false; mkBubble (demo_text "03" "three") false false] ∧
  selected demo_model = 0%Z ∧ lineStarts demo_model = [0; 4; 8]%Z ∧
  contentLines demo_model = 11%Z ∧ vp_YOffset (vp demo_model) = 0%Z ∧
  renderToast demo_model = "⚑ new item from laptop — press y to copy".
Proof. vm_compute. repeat split. Qed.

(** ** Properties *)

Lemma run_model_ok `{WidgetLaws} `{Compiler} o msgs : model_ok (run_msgs (newModel o) msgs).1.
Proof. apply run_msgs_inv; [intros now m msg; apply Update_ok|apply newModel_ok]. Qed.



(** C30. Moving the selection shows it.  In a model of the right shape, in browse mode, each of the
    keys that move the selection leaves a bubble selected whose lines are inside the text; if the
    viewport is high enough for the bubble, all of them are on the screen. *)
Theorem selection_visible `{WidgetLaws} `{Compiler} now m e :
  model_ok m → bubbles m ≠ [] → quitting m = false → focused m = false →
  key_String e ∈ ["up"; "k"; "down"; "j"; "g"; "home"; "G"; "end"] →
  let m' := (Update now m (KeyMsg e)).1 in
  (0 ≤ selected m' < Z.of_nat (length (bubbles m')))%Z ∧
  ∃ top bottom, selected_lines m' = Some (top, bottom) ∧
    (0 ≤ top ∧ top ≤ bottom ∧ bottom < contentLines m')%Z ∧
    (bottom - top < vp_Height (vp m') →
     vp_YOffset (vp m') ≤ top ∧ bottom < vp_YOffset (vp m') + vp_Height (vp m'))%Z.
Proof.
  intros Hm Hne Hq Hf Hk. destruct (nav_key_spec now m e Hm Hne Hk) as (i & Hi & Heq).
  cbn [Update]. unfold onKey. rewrite Hq, Hf.
  assert (String.eqb (key_String e) "ctrl+c" = false) as ->.
  { apply String.eqb_neq. intros Ek. rewrite Ek in Hk. rewrite !elem_of_cons, elem_of_nil in Hk. naive_solver. }
  cbv zeta. rewrite Heq. set (m1 := rebuild now (set_selected m i) false).
  assert (model_ok m1) as Hm1 by by eapply rebuild_model_ok; [exact Hm|cbn; lia|..].
  destruct (rebuild_keeps now (set_selected m i) false) as (_ & _ & _ & Hb & Hsel & _).
  change (bubbles m1 = bubbles m) in Hb. change (selected m1 = i) in Hsel.
  destruct (scroll_keeps m1) as (_ & Eb & Es & El & Ec & _).
  split; [by rewrite Eb, Es, Hb, Hsel|].
  destruct (selected_lines_ok m1) as (top & bottom & Hsl & Hrange); [apply Hm1| |].
  { rewrite Hsel, (ok_starts m1 Hm1), Hb. done. }
  exists top, bottom. rewrite scroll_height, Ec. split; [|split; [done|]].
  - unfold selected_lines in *. by rewrite Es, El, Ec.
  - intros Hfit. apply scroll_shows; try done. apply (ok_lines m1 Hm1). by rewrite Hb.
Qed.

Lemma demo_model_facts :
  bubbles demo_model ≠ [] ∧ quitting demo_model = false ∧ focused demo_model = false.
Proof. vm_compute. split_and!; [discriminate|reflexivity..]. Qed.

Lemma demo_G :
  let m' := (@Update toy_widgets true 6 demo_model (KeyMsg "G")).1 in
  selected_lines m' = Some (8, 10)%Z ∧ vp_Height (vp m') = 5%Z.
Proof. vm_compute. split; reflexivity. Qed.

Lemma selection_visible_witness :
  let m' := (@Update toy_widgets true 6 demo_model (KeyMsg "G")).1 in
  selected_lines m' = Some (8, 10)%Z ∧
  (vp_YOffset (vp m') ≤ 8 ∧ 10 < vp_YOffset (vp m') + 5)%Z.
Proof.
  destruct (@selection_visible toy_widgets toy_widgets_laws true 6 demo_model "G")
    as (_ & top & bottom & Hl & _ & Hv).
  - exact (@run_model_ok toy_widgets toy_widgets_laws true demo_options demo_items_msgs).
  - exact (proj1 demo_model_facts).
  - exact (proj1 (proj2 demo_model_facts)).
  - exact (proj2 (proj2 demo_model_facts)).
  - cbn. set_solver.
  - destruct demo_G as [Hg Hh]. cbv zeta in *. split; [exact Hg|].
    rewrite Hg in Hl. assert (top = 8 ∧ bottom = 10)%Z as [-> ->] by (split; congruence).
    rewrite Hh in Hv. apply Hv. lia.
Defined.

(** C22. Nobody quits by accident.  In any run of the terminal UI, the program is asked to end only
    by a key: on the screen with the question of what to clear, or, when no item has come in and
    the daemon's buffer was empty, by ctrl+c, or by q while browsing.  It asks the daemon to clear
    only on that screen, transiently on t and with the sinks on a, and ends after that. *)
Theorem quit_asks_first `{WidgetLaws} `{Compiler} o msgs m now msg m' c :
  (run_msgs (newModel o) msgs).1 = m →
  Update now m msg = (m', Some c) →
  (asks is_Quit c = true → ∃ e, msg = KeyMsg e ∧
     (quitting m = true ∧ key_String e ∈ ["t"; "a"; "n"; "esc"; "q"; "ctrl+c"] ∧
        renderToast m = Render (toastStyle ++ [Inline true; MaxWidth (width m)]) quit_prompt ∨
      items_in msgs = 0%Z ∧ (st_Buffer (status m) ≤ 0)%Z ∧
        (key_String e = "ctrl+c" ∨ key_String e = "q" ∧ focused m = false))) ∧
  (asks is_clear c = true → ∃ e all, msg = KeyMsg e ∧ quitting m = true ∧
     key_String e = (if all : bool then "a" else "t") ∧ c = Sequence [clearCmd all; Quit]).
Proof.
  intros Hrun Hu. destruct (quit_step _ _ _ _ _ Hu) as [Hq Hc]. split; [|exact Hc].
  intros Hask. destruct (Hq Hask) as (e & -> & [[Hqm Hk]|(_ & Ha & Hk)]); exists e; (split; [done|]).
  - left. split_and!; [done..|]. unfold renderToast. by rewrite Hqm.
  - right. unfold anythingReceived in Ha. breflect.
    pose proof (run_received (newModel o) msgs) as Hr. rewrite Hrun in Hr. unfold items_in in *.
    cbn in Hr. split_and!; [lia..|done].
Qed.

Definition demo_prompt_msgs : list (Z * Msg) := demo_items_msgs ++ [(7%Z, KeyMsg "q")].
Definition demo_prompt : model := (@run_msgs toy_widgets true (newModel demo_options) demo_prompt_msgs).1.

Lemma prompt_a m : quitting m = true →
  @Update toy_widgets true 8 m (KeyMsg "a") = (m, Some (Sequence [clearCmd true; Quit])).
Proof. intros Hq. cbn [Update]. unfold onKey. by rewrite Hq. Qed.

Lemma demo_prompt_up : quitting demo_prompt = true.
Proof. vm_compute. reflexivity. Qed.

Lemma quit_asks_first_witness :
  ∃ e all, KeyMsg "a" = KeyMsg e ∧ quitting demo_prompt = true ∧
     key_String e = (if all : bool then "a" else "t") ∧
     Sequence [clearCmd true; Quit] = Sequence [clearCmd all; Quit].
Proof.
  exact (proj2 (@quit_asks_first toy_widgets toy_widgets_laws true demo_options demo_prompt_msgs
    demo_prompt 8 (KeyMsg "a") demo_prompt (Sequence [clearCmd true; Quit]) eq_refl
    (prompt_a demo_prompt demo_prompt_up)) eq_refl).
Defined.

(** The composer of a fresh terminal UI is deaf.  It is drawn as active, but the textarea was
    never given the focus: until esc has been pressed nothing typed reaches it and enter sends
    nothing, whatever else happens.  If the compiler reads [m] before the call in
    [return m, m.ta.Focus()], no key ever changes that. *)
Theorem composer_starts_deaf `{WidgetLaws} `{Compiler} o msgs :
  call_first = false ∨ Forall (λ x, is_esc x.2 = false) msgs →
  deaf (run_msgs (newModel o) msgs).1 ∧
  Forall (λ c, asks is_send c = false) (run_msgs (newModel o) msgs).2 ∧
  (Forall (λ x, is_esc x.2 = false) msgs → focused (run_msgs (newModel o) msgs).1 = true).
Proof.
  intros Hor. destruct (newModel_deaf o) as [Hd Hf].
  destruct (run_deaf (newModel o) msgs Hd) as (? & ? & ?); [tauto|]. auto.
Qed.

Definition demo_typed : list (Z * Msg) :=
  [(0%Z, KeyMsg "h"); (1%Z, KeyMsg "i"); (2%Z, KeyMsg "enter")].

Lemma demo_typed_no_esc : Forall (λ x, is_esc x.2 = false) demo_typed.
Proof. repeat constructor. Qed.

(** What esc and i change: the same keys are then sent, and shown. *)
Lemma demo_typed_after :
  let r := @run_msgs toy_widgets true (newModel demo_options)
             ([(0%Z, KeyMsg "esc"); (0%Z, KeyMsg "i")] ++ demo_typed) in
  r.2 = [sendTextCmd "hi"] ∧ map (λ b, Text (it_Envelope (item b))) (bubbles r.1) = ["hi"].
Proof. vm_compute. split; reflexivity. Qed.

Lemma composer_starts_deaf_witness :
  (@run_msgs toy_widgets true (newModel demo_options) demo_typed).2 = [] ∧
  focused (@run_msgs toy_widgets true (newModel demo_options) demo_typed).1 = true ∧
  deaf (@run_msgs toy_widgets true (newModel demo_options) demo_typed).1.
Proof.
  destruct (@composer_starts_deaf toy_widgets toy_widgets_laws true demo_options demo_typed
    (or_intror demo_typed_no_esc)) as (Hd & _ & Hf).
  split; [reflexivity|]. split; [exact (Hf demo_typed_no_esc)|exact Hd].
Defined.
