(* ===== verification/Remote.v ===== *)
(** * remote.go: [room remote], a room server over an SSH tunnel

    [room-go/cmd/room/remote.go].  The command drives other programs ([ssh], [scp], [go]), signals
    processes and tries local ports; [Machine] is what it needs of the system for that, with a
    clock for its two waiting loops.  Shell scripts are the strings the code sends. *)
From S2P Require Import Prelude GoStr GoPath GoOS Wire Codec Config Ipc Flags Proc Cli.
Open Scope string_scope.
Open Scope list_scope.

Definition defaultRemotePort : Z := 2299.
Definition remoteBinDisplay : string := "~/.local/bin/room".
Definition remoteServerLog : string := "/tmp/room-remote-server.log".

Record remoteState := mkRemote {
  Host : string;
  r_Room : string;
  RPort : Z;
  LPort : Z;
  TunnelPID : Z;
  ServerStarted : bool;
  RemoteBin : string;
  Target : string;
}.

#[export] Instance remoteState_eq_dec : EqDecision remoteState.
Proof. solve_decision. Defined.

(** [encoding/json] on a state. *)
Class StateJson := {
  state_MarshalIndent : remoteState → result string string;
  state_Unmarshal : string → result string remoteState;
}.

(** Strings that are not valid UTF-8 do not survive JSON; the rest does. *)
Definition state_utf8 (s : remoteState) : Prop :=
  Valid (Host s) = true ∧ Valid (r_Room s) = true ∧ Valid (RemoteBin s) = true ∧
  Valid (Target s) = true.

Class StateJsonLaws `{StateJson} :=
  state_roundtrip : ∀ s b, state_utf8 s → state_MarshalIndent s = Ok b → state_Unmarshal b = Ok s.

(** A program to run, and how it ended: its error, if any, and what it wrote. *)
Record command := mkCommand { prog : string; argv : list string; cwd : string; env : list string }.
Record ended := mkEnded { exit_err : option string; out : string; err_out : string }.

Class Machine (P : Type) := {
  exec : P → command → ended * P;
  start : P → command → result string Z * P;   (** detached; its pid *)
  kill : P → Z → Z → bool * P;                 (** [syscall.Kill(pid, sig) == nil] *)
  listen : P → Z → bool * P;                   (** a listener on the port opened, and closed *)
  connect : P → Z → bool * P;                  (** a connection to the port *)
  now : P → Z;                                 (** milliseconds *)
  sleep : P → Z → P;
}.

(** Time passes, and at least as long as one sleeps. *)
Class MachineLaws P `{Machine P} := {
  now_exec : ∀ p c, (now p ≤ now (exec p c).2)%Z;
  now_kill : ∀ p i s, (now p ≤ now (kill p i s).2)%Z;
  now_connect : ∀ p i, (now p ≤ now (connect p i).2)%Z;
  now_sleep : ∀ p t, (now p + t ≤ now (sleep p t))%Z;
}.

(** The process's own binary, directory and platform. *)
Record Self := mkSelf {
  s_wd : result string string;
  s_exe : result string string;
  s_goos : string;
  s_goarch : string;
}.

Definition SIGKILL : Z := 9.
Definition SIGTERM : Z := 15.

(** ** The small helpers *)

Definition sanitize_byte (c : ascii) : ascii :=
  if decide (c ∈ ["/"; ":"; "@"; " "; "*"]%char) then "_"%char else c.
Fixpoint sanitizeHost (h : string) : string :=
  match h with "" => "" | String c h => String (sanitize_byte c) (sanitizeHost h) end.

Definition mapUname (unameSM : string) : result string (string * string) :=
  match Fields unameSM with
  | os :: arch :: _ =>
      let goos :=
        if String.eqb os "Linux" then Ok "linux"
        else if String.eqb os "Darwin" then Ok "darwin"
        else Err ("unsupported remote OS " +:+ Quote os +:+ " (want Linux/Darwin)") in
      match goos with
      | Err e => Err e
      | Ok goos =>
          if decide (arch ∈ ["x86_64"; "amd64"]) then Ok (goos, "amd64")
          else if decide (arch ∈ ["aarch64"; "arm64"]) then Ok (goos, "arm64")
          else Err ("unsupported remote arch " +:+ Quote arch +:+ " (want x86_64/aarch64)")
      end
  | _ => Err ("unexpected `uname -sm` output " +:+ Quote unameSM)
  end.

(** The loop of [humanBytes]: the divisor and its exponent.  An [int64] is below [1024 ^ 7]. *)
Fixpoint human_scale (fuel : nat) (m div : Z) (exp : nat) : Z * nat :=
  match fuel with
  | O => (div, exp)
  | S fuel =>
      if (1024 <=? m)%Z then human_scale fuel (m / 1024)%Z (div * 1024)%Z (S exp) else (div, exp)
  end.

(** [%.1f] of [n / div], a power of two: the tenths, half to even. *)
Definition tenths (n div : Z) : Z := div_even (10 * n)%Z div.

Definition humanBytes (n : Z) : string :=
  if (n <? 1024)%Z then itoa n +:+ " B"
  else
    let '(div, exp) := human_scale 7 (n / 1024)%Z 1024%Z 0 in
    let t := tenths (float64 n) div in
    itoa (t / 10)%Z +:+ "." +:+ itoa (t mod 10)%Z +:+ " " +:+
    nth exp ["K"; "M"; "G"; "T"; "P"; "E"] "" +:+ "B".

Example humanBytes_ex : map humanBytes [0; 1023; 1024; 1536; 12345678; 9223372036854775807]%Z =
  ["0 B"; "1023 B"; "1.0 KB"; "1.5 KB"; "11.8 MB"; "8.0 EB"].
Proof. vm_compute. reflexivity. Qed.

(** ** The state file *)

Section state_file.
Context `{StateJson}.

Definition loadRemoteState (path : string) (fs : FS) : result oserr (result string remoteState) :=
  match ReadFile fs path with
  | Err e => Err e
  | Ok b => Ok (state_Unmarshal b)
  end.

Definition saveRemoteState (path : string) (s : remoteState) (fs : FS) : result string () * FS :=
  match state_MarshalIndent s with
  | Err e => (Err e, fs)
  | Ok b =>
      let tmp := path +:+ ".tmp" in
      match WriteFile fs tmp b with
      | (Err e, fs) => (Err (Error e), fs)
      | (Ok _, fs) =>
          match Rename fs tmp path with
          | (Err e, fs) => (Err (Error e), fs)
          | (Ok _, fs) => (Ok (), fs)
          end
      end
  end.
End state_file.

Section remote.
Context {P : Type} `{Peer P} `{Machine P} `{StateJson} `{Cbor Request} `{Cbor Response} `{Json}.
Context (E : Env) (self : Self).

Definition mach {A} (f : P → A * P) : M P A := λ w,
  let '(a, p) := f (peer w) in (Some a, mkWorld p (stdout w) (stderr w)).
Definition clock : M P Z := mach (λ p, (now p, p)).
Definition time_Sleep (ms : Z) : M P () := mach (λ p, ((), sleep p ms)).

(** [fmt.Printf] of a line about a host. *)
Definition say (host line : string) : M P () := println ("remote " +:+ host +:+ ": " +:+ line).

(** ** ssh and scp *)

Definition sshBaseOpts : list string :=
  ["-o"; "BatchMode=yes"; "-o"; "ConnectTimeout=10"; "-o"; "StrictHostKeyChecking=accept-new"].

(** The trimmed output, and the error. *)
Definition runSSH (host remoteCmd : string) : M P (string * option string) :=
  r ← mach (λ p, exec p (mkCommand "ssh" (sshBaseOpts ++ [host; remoteCmd]) "" []));
  let so := TrimSpace (out r) in
  mret (so, match exit_err r with
            | None => None
            | Some err =>
                let msg := TrimSpace (err_out r) in
                let msg := if String.eqb msg "" then so else msg in
                Some (if negb (String.eqb msg "") then err +:+ ": " +:+ msg else err)
            end).

Definition scpTo (host localPath : string) : M P (option string) :=
  r ← mach (λ p, exec p (mkCommand "scp"
        (["-q"] ++ sshBaseOpts ++ [localPath; host +:+ ":.local/bin/room"]) "" []));
  mret (match exit_err r with
        | None => None
        | Some err =>
            let msg := TrimSpace (err_out r) in
            Some (if negb (String.eqb msg "") then err +:+ ": " +:+ msg else err)
        end).

(** [strings.Contains]. *)
Fixpoint Contains (s sub : string) : bool :=
  HasPrefix s sub || match s with "" => false | String _ s => Contains s sub end.

Definition remoteBinExists (host : string) : M P (result string bool) :=
  '(out, err) ← runSSH host
    ("test -x " +:+ dq +:+ "$HOME/.local/bin/room" +:+ dq +:+ " && echo YES || echo NO");
  mret (match err with Some e => Err e | None => Ok (Contains out "YES") end).

(** ** The binary to upload *)

(** The walk of [findModuleDir] upwards from a directory. *)
Definition find_module (fuel : nat) (fs : FS) (dir : string) : option string :=
  walk_up (λ dir,
    if is_ok (Stat fs (Join dir "go.mod")) && is_ok (Stat fs (Join (Join dir "cmd") "room"))
    then Some dir else None) fuel dir.

(** The fuel is enough ([GoPath.walk_up_fuel]). *)
Definition findModuleDir (fs : FS) : option string :=
  match s_wd self with
  | Err _ => None
  | Ok dir => find_module (length (resolve dir).2 + 3) fs dir
  end.

(** Its path and how it was made. *)
Definition produceBinary (goos goarch : string) : M P (result string (string * string)) :=
  moduleDir ← os_read findModuleDir;
  match moduleDir with
  | Some moduleDir =>
      let out := Join (e_tmp E) ("room-" +:+ goos +:+ "-" +:+ goarch) in
      r ← mach (λ p, exec p (mkCommand "go" ["build"; "-trimpath"; "-o"; out; "./cmd/room"] moduleDir
            ["CGO_ENABLED=0"; "GOOS=" +:+ goos; "GOARCH=" +:+ goarch]));
      mret (match exit_err r with
            | Some e =>
                Err ("cross-build room for " +:+ goos +:+ "/" +:+ goarch +:+ " failed: " +:+ e +:+
                     ": " +:+ TrimSpace (err_out r))
            | None =>
                Ok (out, "cross-built room (" +:+ goos +:+ "/" +:+ goarch +:+ ", CGO_ENABLED=0)")
            end)
  | None =>
      mret (if String.eqb (s_goos self) goos && String.eqb (s_goarch self) goarch then
              match s_exe self with
              | Err e => Err e
              | Ok exe =>
                  Ok (exe, "copying the running room binary (local host is " +:+ goos +:+ "/" +:+
                           goarch +:+ ")")
              end
            else
              Err ("cannot produce a " +:+ goos +:+ "/" +:+ goarch +:+ " room binary: no go.mod " +:+
                   "found by walking up from the current directory, and this host is " +:+
                   s_goos self +:+ "/" +:+ s_goarch self +:+ " so the running binary can't be " +:+
                   "reused — run `room remote` from inside the room-go repo (needs the local `go` " +:+
                   "toolchain)"))
  end.

(** ** The remote server *)

Definition listening_script (port : Z) : string :=
  "p=" +:+ itoa port +:+ "; if command -v ss >/dev/null 2>&1; then ss -ltn " +:+ dq +:+
  "sport = :$p" +:+ dq +:+ " 2>/dev/null | grep -q LISTEN && echo YES || echo NO; " +:+
  "elif command -v lsof >/dev/null 2>&1; then lsof -nP -iTCP:$p -sTCP:LISTEN >/dev/null 2>&1 " +:+
  "&& echo YES || echo NO; elif command -v netstat >/dev/null 2>&1; then netstat -ltn " +:+
  "2>/dev/null | grep -qE " +:+ dq +:+ "[:.]$p[[:space:]]" +:+ dq +:+ " && echo YES || echo NO; " +:+
  "else echo UNKNOWN; fi".

Definition remoteListening (host : string) (port : Z) : M P bool :=
  '(out, err) ← runSSH host (listening_script port);
  mret (match err with Some _ => false | None => Contains out "YES" end).

Definition start_script (rport : Z) : string :=
  "mkdir -p " +:+ dq +:+ "$HOME/.config/room" +:+ dq +:+ "; setsid nohup " +:+ dq +:+
  "$HOME/.local/bin/room" +:+ dq +:+ " server --addr 127.0.0.1:" +:+ itoa rport +:+
  " --host-key " +:+ dq +:+ "$HOME/.config/room/host_key" +:+ dq +:+ " >" +:+ remoteServerLog +:+
  " 2>&1 </dev/null & echo spawned".

(** [cond] until it holds or the deadline is over; [None]: the fuel ran out. *)
Fixpoint wait_listening (fuel : nat) (host : string) (rport deadline : Z) : M P (option bool) :=
  match fuel with
  | O => mret None
  | S fuel =>
      t ← clock;
      if (t <? deadline)%Z then
        up ← remoteListening host rport;
        if up : bool then mret (Some true)
        else time_Sleep 400;; wait_listening fuel host rport deadline
      else mret (Some false)
  end.

(** Whether it started one, and the error. *)
Definition ensureRemoteServer (host : string) (rport : Z) : M P (bool * option string) :=
  up ← remoteListening host rport;
  if up : bool then mret (false, None)
  else
    '(_, err) ← runSSH host (start_script rport);
    match err with
    | Some e => mret (false, Some ("start remote server: " +:+ e))
    | None =>
        t ← clock;
        up ← wait_listening 26 host rport (t + 10000)%Z;
        if default false up : bool then mret (true, None)
        else
          '(tail, _) ← runSSH host ("tail -n 20 " +:+ remoteServerLog);
          mret (true, Some ("remote server never listened on 127.0.0.1:" +:+ itoa rport +:+
                            "; log:" +:+ nl +:+ tail))
    end.

(** ** The tunnel *)

Definition portFreeLocal (port : Z) : M P bool := mach (λ p, listen p port).
Definition localReachable (port : Z) : M P bool := mach (λ p, connect p port).
Definition pidAlive (pid : Z) : M P bool :=
  if (pid <=? 0)%Z then mret false else mach (λ p, kill p pid 0).

Fixpoint pick_from (n : nat) (p : Z) : M P Z :=
  match n with
  | O => mret 0%Z
  | S n => free ← portFreeLocal p; if free : bool then mret p else pick_from n (p + 1)%Z
  end.

Definition pickLocalPort (start : Z) : M P Z := pick_from 20 start.

(** [None]: the fuel ran out; the error is that of a tunnel that died. *)
Fixpoint wait_tunnel (fuel : nat) (pid lport : Z) (logPath : string) (deadline : Z)
    : M P (option (result string bool)) :=
  match fuel with
  | O => mret None
  | S fuel =>
      t ← clock;
      if (t <? deadline)%Z then
        up ← localReachable lport;
        if up : bool then mret (Some (Ok true))
        else
          alive ← pidAlive pid;
          if negb alive then
            tail ← os_read (λ f, ReadFile f logPath);
            mret (Some (Err ("ssh tunnel exited early: " +:+
                             TrimSpace (match tail with Ok s => s | Err _ => "" end))))
          else time_Sleep 300;; wait_tunnel fuel pid lport logPath deadline
      else mret (Some (Ok false))
  end.

Definition tunnel_args (host : string) (lport rport : Z) : list string :=
  ["-N"; "-o"; "ExitOnForwardFailure=yes"; "-o"; "ServerAliveInterval=30"; "-o";
   "ServerAliveCountMax=3"] ++ sshBaseOpts ++
  ["-L"; itoa lport +:+ ":127.0.0.1:" +:+ itoa rport; host].

Definition openTunnel (host : string) (lport rport : Z) (logPath : string) : M P (result string Z) :=
  _ ← os_call (λ f, WriteFile f logPath "");
  pid ← mach (λ p, start p (mkCommand "ssh" (tunnel_args host lport rport) "" []));
  match pid with
  | Err e => mret (Err ("start ssh tunnel: " +:+ e))
  | Ok pid =>
      t ← clock;
      r ← wait_tunnel 35 pid lport logPath (t + 10000)%Z;
      match r with
      | Some (Ok true) => mret (Ok pid)
      | Some (Err e) => mret (Err e)
      | _ =>
          _ ← mach (λ p, kill p (- pid)%Z SIGKILL);
          tail ← os_read (λ f, ReadFile f logPath);
          mret (Err ("tunnel opened (pid " +:+ itoa pid +:+ ") but localhost:" +:+ itoa lport +:+
                     " never forwarded: " +:+
                     TrimSpace (match tail with Ok s => s | Err _ => "" end)))
      end
  end.

(** ** The command *)

Definition remoteStatePath (g : Globals) (host : string) : M P (result string string) :=
  match resolveConfigDir E g with
  | Err e => mret (Err e)
  | Ok dir =>
      let d := Join dir "remote" in
      r ← os_call (λ f, MkdirAll f d);
      mret (match r with
            | Err e => Err (Error e)
            | Ok _ => Ok (Join d (sanitizeHost host +:+ ".json"))
            end)
  end.

(** Step 2 of [remoteConnect]: the error it stops with. *)
Definition bootstrap (host goos goarch : string) : M P (option string) :=
  present ← remoteBinExists host;
  match present with
  | Err e => mret (Some e)
  | Ok true => say host ("room binary already present at " +:+ remoteBinDisplay);; mret None
  | Ok false =>
      say host "room binary missing — bootstrapping…";;
      b ← produceBinary goos goarch;
      match b with
      | Err e => mret (Some e)
      | Ok (bin, how) =>
          say host (how +:+ " → " +:+ bin);;
          '(_, err) ← runSSH host ("mkdir -p " +:+ dq +:+ "$HOME/.local/bin" +:+ dq);
          match err with
          | Some e => mret (Some ("mkdir ~/.local/bin: " +:+ e))
          | None =>
              err ← scpTo host bin;
              match err with
              | Some e => mret (Some ("scp binary to " +:+ host +:+ ": " +:+ e))
              | None =>
                  '(_, err) ← runSSH host ("chmod +x " +:+ dq +:+ "$HOME/.local/bin/room" +:+ dq);
                  match err with
                  | Some e => mret (Some ("chmod remote binary: " +:+ e))
                  | None =>
                      st ← os_read (λ f, Stat f bin);
                      let sz := match st with Ok n => node_size n | Err _ => 0%Z end in
                      say host ("installed room → " +:+ remoteBinDisplay +:+ " (" +:+
                                humanBytes sz +:+ ")");;
                      mret None
                  end
              end
          end
      end
  end.

Definition tunnel_target (lp : Z) : string := "room@127.0.0.1:" +:+ itoa lp.

(** The state of a tunnel that can be used again. *)
Definition live_tunnel (sp : string) (rport : Z) : M P (option remoteState) :=
  st ← os_read (loadRemoteState sp);
  match st with
  | Ok (Ok st) =>
      if (RPort st =? rport)%Z && (0 <? TunnelPID st)%Z then
        alive ← pidAlive (TunnelPID st);
        if alive : bool then
          up ← localReachable (LPort st);
          mret (if up : bool then Some st else None)
        else mret None
      else mret None
  | _ => mret None
  end.

(** Step 4 of [remoteConnect]: the local port, or the error. *)
Definition ensureTunnel (host room sp : string) (rport lport : Z) (started : bool)
    : M P (result string Z) :=
  st ← live_tunnel sp rport;
  match st with
  | Some st =>
      let lp := LPort st in
      say host ("reusing live SSH tunnel localhost:" +:+ itoa lp +:+ " (pid " +:+
                itoa (TunnelPID st) +:+ ")");;
      _ ← os_call (saveRemoteState sp (mkRemote (Host st) room (RPort st) lp (TunnelPID st)
            (ServerStarted st || started) (RemoteBin st) (tunnel_target lp)));
      mret (Ok lp)
  | None =>
      lp ← pickLocalPort lport;
      if (lp =? 0)%Z then
        mret (Err ("no free local port in [" +:+ itoa lport +:+ "," +:+ itoa (lport + 20) +:+
                   ") for the tunnel"))
      else
        let tlog := Join (Dir sp) (sanitizeHost host +:+ "-tunnel.log") in
        pid ← openTunnel host lp rport tlog;
        match pid with
        | Err e => mret (Err e)
        | Ok pid =>
            say host ("tunnel up  localhost:" +:+ itoa lp +:+ " → " +:+ host +:+ ":127.0.0.1:" +:+
                      itoa rport +:+ " (pid " +:+ itoa pid +:+ ")");;
            r ← os_call (saveRemoteState sp (mkRemote host room rport lp pid started
                  remoteBinDisplay (tunnel_target lp)));
            mret (match r with Ok _ => Ok lp | Err e => Err e end)
        end
  end.

Definition remoteConnect (g : Globals) (host room sp : string) (rport lport : Z) : M P Z :=
  say host "detecting architecture…";;
  '(uname, err) ← runSSH host "uname -sm";
  match err with
  | Some e =>
      fail 1 ("cannot reach " +:+ Quote host +:+
              " over ssh (check ~/.ssh/config + key auth): " +:+ e)
  | None =>
      match mapUname uname with
      | Err e => fail 1 e
      | Ok (goos, goarch) =>
          say host (uname +:+ " → " +:+ goos +:+ "/" +:+ goarch);;
          err ← bootstrap host goos goarch;
          match err with
          | Some e => fail 1 e
          | None =>
              say host ("ensuring room server on 127.0.0.1:" +:+ itoa rport +:+ "…");;
              '(started, err) ← ensureRemoteServer host rport;
              match err with
              | Some e => fail 1 e
              | None =>
                  say host (if started : bool
                            then "started room server on 127.0.0.1:" +:+ itoa rport +:+ " (log " +:+
                                 remoteServerLog +:+ ")"
                            else "reusing running room server on 127.0.0.1:" +:+ itoa rport);;
                  lp ← ensureTunnel host room sp rport lport started;
                  match lp with
                  | Err e => fail 1 e
                  | Ok lp =>
                      call E g (mkRequest IPCVersion OpJoin "" "" "" "" false "" false "" "" ""
                                  (tunnel_target lp)) (λ _,
                      println ("connected to " +:+ host +:+ " via SSH tunnel (room " +:+
                               Quote room +:+ ") — send/recv/tui now reach it");;
                      mret 0%Z)
                  end
              end
          end
      end
  end.

Definition pkill_script (rport : Z) : string :=
  "pkill -f " +:+ dq +:+ "[r]oom server --addr 127.0.0.1:" +:+ itoa rport +:+ dq +:+
  " >/dev/null 2>&1; echo done".

Definition stop_tunnel (host : string) (st : remoteState) : M P () :=
  alive ← (if (0 <? TunnelPID st)%Z then pidAlive (TunnelPID st) else mret false);
  if alive : bool then
    ok ← mach (λ p, kill p (- TunnelPID st)%Z SIGTERM);
    (if negb ok then _ ← mach (λ p, kill p (TunnelPID st) SIGTERM); mret () else mret ());;
    say host ("stopped SSH tunnel (pid " +:+ itoa (TunnelPID st) +:+ ")")
  else say host "tunnel already stopped".

Definition stop_server (host : string) (st : remoteState) : M P () :=
  if ServerStarted st then
    '(_, err) ← runSSH host (pkill_script (RPort st));
    match err with
    | Some e => say host ("warning: could not stop remote server: " +:+ e)
    | None => say host ("stopped remote server on 127.0.0.1:" +:+ itoa (RPort st))
    end
  else mret ().

Definition remoteStop (g : Globals) (host sp : string) : M P Z :=
  st ← os_read (loadRemoteState sp);
  match st with
  | Err e =>
      if IsNotExist e then say host "no active tunnel (nothing to stop)";; mret 0%Z
      else fail 1 (Error e)
  | Ok (Err e) => fail 1 e
  | Ok (Ok st) =>
      stop_tunnel host st;;
      stop_server host st;;
      _ ← os_call (λ f, Remove f sp);
      say host "state cleared";;
      mret 0%Z
  end.

Definition remote_flags : flagSet :=
  f_bool "stop" false (f_int "lport" defaultRemotePort (f_int "rport" defaultRemotePort
    (newFlagSet "remote"))).

Definition cmdRemote (g : Globals) (args : list string) : M P Z :=
  match parseInterspersed remote_flags args with
  | None => panic
  | Some (err, pos, code, fs) =>
      eprint err;;
      if negb (code =? 0)%Z then mret code
      else
        match pos with
        | [] => fail 2 "usage: room remote <ssh-host> [--room NAME] [--rport N] [--lport N] [--stop]"
        | host :: _ =>
            let room := if String.eqb (Room g) "" then "default" else Room g in
            sp ← remoteStatePath g host;
            match sp with
            | Err e => fail 1 e
            | Ok sp =>
                if get_bool fs "stop" then remoteStop g host sp
                else remoteConnect g host room sp (get_int fs "rport") (get_int fs "lport")
            end
        end
  end.
End remote.

(** ** Lemmas *)

Lemma sanitize_no_slash h : no_slash (sanitizeHost h).
Proof.
  induction h as [|c h IH]; [done|]. cbn [sanitizeHost]. apply no_slash_cons. split; [|done].
  unfold sanitize_byte, slash. case_decide as Hc; [done|]. intros ->. set_solver.
Qed.

Lemma state_name_ordinary host e :
  no_slash e → (3 <= String.length e)%nat → ordinary (sanitizeHost host +:+ e).
Proof.
  intros He Hl. split; [by apply no_slash_app; split; [apply sanitize_no_slash|]|].
  split_and!; intros Hx; apply (f_equal String.length) in Hx; rewrite str_length_app in Hx;
    simpl in Hx; lia.
Qed.

(** Where the state of a host is: directly in [remote], whatever the host is called. *)
Definition state_path (dir host : string) : string :=
  Join (Join dir "remote") (sanitizeHost host +:+ ".json").

Lemma remote_dir_ne dir : dir ≠ "" → Join dir "remote" ≠ "".
Proof. intros Hd. apply Join_ne; [done|]. by split_and!. Qed.

Lemma state_path_resolve dir host :
  dir ≠ "" →
  resolve (state_path dir host) =
    ((resolve dir).1, (resolve dir).2 ++ ["remote"; sanitizeHost host +:+ ".json"]) ∧
  resolve (state_path dir host +:+ ".tmp") =
    ((resolve dir).1, (resolve dir).2 ++ ["remote"; (sanitizeHost host +:+ ".json") +:+ ".tmp"]).
Proof.
  intros Hd. unfold state_path. pose proof (remote_dir_ne dir Hd) as Hr.
  assert (ordinary (sanitizeHost host +:+ ".json")) as Ho by (by apply state_name_ordinary; [|cbn; lia]).
  assert (ordinary ((sanitizeHost host +:+ ".json") +:+ ".tmp")) as Ho'.
  { rewrite str_app_assoc. by apply state_name_ordinary; [|cbn; lia]. }
  rewrite resolve_Join, resolve_Join_ext by done.
  rewrite resolve_Join by (done || by split_and!). cbn [fst snd]. by rewrite <- !app_assoc.
Qed.

Lemma state_path_ne dir host :
  dir ≠ "" → resolve (state_path dir host) ≠ resolve (state_path dir host +:+ ".tmp").
Proof.
  intros [-> ->]%(state_path_resolve dir host) Hx. injection Hx as Hx.
  apply app_inv_head in Hx. injection Hx as Hx. apply (f_equal String.length) in Hx.
  rewrite !str_length_app in Hx. simpl in Hx. lia.
Qed.

(** The state that was saved is the state that is loaded. *)
Lemma save_load `{StateJsonLaws} dir host st fs fs' :
  dir ≠ "" → state_utf8 st → saveRemoteState (state_path dir host) st fs = (Ok (), fs') →
  loadRemoteState (state_path dir host) fs' = Ok (Ok st).
Proof.
  intros Hd Hwf. unfold saveRemoteState. destruct (state_MarshalIndent st) as [b|e] eqn:Eb; [|done].
  destruct (WriteFile fs _ b) as [[[]|e] fs1] eqn:Ew; [|done].
  destruct (Rename fs1 _ _) as [[[]|e] fs2] eqn:Er; [|done]. intros [= <-].
  unfold loadRemoteState. rewrite (replace_file _ _ _ _ _ _ (state_path_ne dir host Hd) Ew Er).
  f_equal. by apply state_roundtrip.
Qed.

Section waits.
Context {P : Type} `{Peer P} `{MachineLaws P}.

Lemma runSSH_run host c (w : World P) :
  ∃ r w', runSSH host c w = (Some r, w') ∧ (now (peer w) ≤ now (peer w'))%Z.
Proof.
  unfold runSSH, mbind, M_bind, mach, mret, M_ret.
  pose proof (now_exec (peer w) (mkCommand "ssh" (sshBaseOpts ++ [host; c]) "" [])) as Hn.
  destruct (exec _ _) as [r p]. by eauto.
Qed.

Lemma remoteListening_run host port (w : World P) :
  ∃ b w', remoteListening host port w = (Some b, w') ∧ (now (peer w) ≤ now (peer w'))%Z.
Proof.
  unfold remoteListening, mbind, M_bind.
  destruct (runSSH_run host (listening_script port) w) as ([out err] & w' & -> & Hn).
  unfold mret, M_ret. by eauto.
Qed.

Lemma pidAlive_run pid (w : World P) :
  ∃ b w', pidAlive pid w = (Some b, w') ∧ (now (peer w) ≤ now (peer w'))%Z.
Proof.
  unfold pidAlive. destruct (pid <=? 0)%Z; [by do 2 eexists|]. unfold mach.
  pose proof (now_kill (peer w) pid 0) as Hn. destruct (kill _ _ _) as [b p]. by eauto.
Qed.

(** Each round sleeps: the deadline is over before the fuel is. *)
Lemma wait_listening_ends fuel host rport deadline (w : World P) :
  (deadline - now (peer w) ≤ 400 * (Z.of_nat fuel - 1))%Z → (1 <= fuel)%nat →
  ∃ b w', wait_listening fuel host rport deadline w = (Some (Some b), w') ∧
    (b = false → (deadline ≤ now (peer w'))%Z).
Proof.
  revert w. induction fuel as [|fuel IH]; intros w Hd Hf; [lia|]. cbn [wait_listening].
  unfold mbind, M_bind, clock, mach, mret, M_ret. cbn [peer stdout stderr].
  destruct (Z.ltb_spec (now (peer w)) deadline) as [Hlt|Hge].
  2:{ do 2 eexists. split; [done|]. by intros _. }
  destruct (remoteListening_run host rport (mkWorld (peer w) (stdout w) (stderr w)))
    as (b & w1 & -> & Hn). destruct b; [by do 2 eexists|].
  unfold time_Sleep, mach. pose proof (now_sleep (peer w1) 400) as Hs. cbn [peer] in *.
  apply IH; cbn [peer]; lia.
Qed.

Lemma wait_tunnel_ends fuel pid lport log deadline (w : World P) :
  (deadline - now (peer w) ≤ 300 * (Z.of_nat fuel - 1))%Z → (1 <= fuel)%nat →
  ∃ r w', wait_tunnel fuel pid lport log deadline w = (Some (Some r), w') ∧
    (r = Ok false → (deadline ≤ now (peer w'))%Z).
Proof.
  revert w. induction fuel as [|fuel IH]; intros w Hd Hf; [lia|]. cbn [wait_tunnel].
  unfold mbind, M_bind, clock, mach, mret, M_ret. cbn [peer stdout stderr].
  destruct (Z.ltb_spec (now (peer w)) deadline) as [Hlt|Hge].
  2:{ do 2 eexists. split; [done|]. by intros _. }
  unfold localReachable, mach. pose proof (now_connect (peer w) lport) as Hn1.
  cbn [peer stdout stderr]. destruct (connect (peer w) lport) as [[] p1]; [by do 2 eexists|].
  destruct (pidAlive_run pid (mkWorld p1 (stdout w) (stderr w))) as (b & w2 & -> & Hn2).
  destruct b; cbn [negb].
  - unfold time_Sleep, mach. pose proof (now_sleep (peer w2) 300) as Hs. cbn [peer snd] in *.
    apply IH; cbn [peer]; lia.
  - unfold os_read, os_call. by do 2 eexists.
Qed.

Lemma pick_from_range n p (w : World P) q w' :
  pick_from n p w = (Some q, w') → q ≠ 0%Z → (p ≤ q < p + Z.of_nat n)%Z.
Proof.
  revert p w. induction n as [|n IH]; intros p w; cbn [pick_from]; [by intros [= <- _]|].
  unfold mbind, M_bind, portFreeLocal, mach, mret, M_ret. destruct (listen (peer w) p) as [[] p1].
  - intros [= <- _]. lia.
  - intros Hp Hq. specialize (IH _ _ Hp Hq). lia.
Qed.
End waits.

Section tunnels.
Context {P : Type} `{PeerLaws P} `{!Machine P} `{StateJsonLaws}.

(** A tunnel that had to be opened is recorded with who started the server this time. *)
Lemma ensureTunnel_new host room dir rport lport started (w w1 w2 : World P) lp :
  dir ≠ "" →
  Valid host = true → Valid room = true → Valid (tunnel_target lp) = true →
  live_tunnel (state_path dir host) rport w = (Some None, w1) →
  ensureTunnel host room (state_path dir host) rport lport started w = (Some (Ok lp), w2) →
  lp ≠ 0%Z ∧ (∃ w3, pickLocalPort lport w1 = (Some lp, w3)) ∧
  ∃ pid, loadRemoteState (state_path dir host) (peer_fs (peer w2)) =
    Ok (Ok (mkRemote host room rport lp pid started remoteBinDisplay (tunnel_target lp))).
Proof.
  intros Hd Hvh Hvr Hvt Hl. unfold ensureTunnel. unfold mbind at 1, M_bind at 1. rewrite Hl.
  unfold mbind at 1, M_bind at 1. destruct (pickLocalPort lport w1) as [[q|] w3] eqn:Ep; [|done].
  destruct (Z.eqb_spec q 0) as [|Hq]; [done|]. cbv zeta.
  unfold mbind, M_bind, say, println, print, mret, M_ret, os_call.
  destruct (openTunnel _ _ _ _ w3) as [[[pid|e]|] w4]; [|done..]. cbn [peer stdout stderr].
  destruct (saveRemoteState _ _ _) as [[[]|e] fs'] eqn:Es; [|done]. intros [= <- <-].
  split; [done|]. split; [by eauto|]. exists pid. cbn [peer]. rewrite peer_get_set.
  by eapply save_load; [..|exact Es].
Qed.

End tunnels.

(** ** Properties *)

(** C38. Both waiting loops of [room remote] come to an end: the wait for the server makes at most 26
    rounds and the one for the tunnel at most 35, whatever the remote host, the ports and the
    processes do; and they give up only when their ten seconds are over. *)
Theorem remote_waits_end `{Peer P} `{MachineLaws P} host rport pid lport log (w : World P) :
  let deadline := (now (peer w) + 10000)%Z in
  (∃ b w', wait_listening 26 host rport deadline w = (Some (Some b), w') ∧
     (b = false → (deadline ≤ now (peer w'))%Z)) ∧
  (∃ r w', wait_tunnel 35 pid lport log deadline w = (Some (Some r), w') ∧
     (r = Ok false → (deadline ≤ now (peer w'))%Z)).
Proof.
  cbv zeta. split; [apply wait_listening_ends|apply wait_tunnel_ends]; lia.
Qed.

(** A tunnel that is opened is recorded for [--stop] under the host's own file directly inside
    [remote], with a local port among the twenty asked for.  But when the tunnel had died and the
    server it led to is still up, so that nothing was started this time, the record says that the
    server is not ours, whatever it said before: [--stop] then leaves the server running. *)
Theorem reopened_tunnel_forgets_server {P} `{PeerLaws P} `{!Machine P} `{StateJsonLaws}
    host room dir rport lport (w w1 w2 : World P) lp :
  let sp := state_path dir host in
  dir ≠ "" → Valid host = true → Valid room = true → Valid (tunnel_target lp) = true →
  live_tunnel sp rport w = (Some None, w1) →
  ensureTunnel host room sp rport lport false w = (Some (Ok lp), w2) →
  resolve sp = ((resolve dir).1, (resolve dir).2 ++ ["remote"; sanitizeHost host +:+ ".json"]) ∧
  (lport ≤ lp < lport + 20)%Z ∧
  ∃ st, loadRemoteState sp (peer_fs (peer w2)) = Ok (Ok st) ∧
    RPort st = rport ∧ LPort st = lp ∧ Target st = tunnel_target lp ∧ ServerStarted st = false ∧
    ∀ w', stop_server host st w' = (Some (), w').
Proof.
  cbv zeta. intros Hd Hvh Hvr Hvt Hl He.
  destruct (ensureTunnel_new host room dir rport lport false w w1 w2 lp Hd Hvh Hvr Hvt Hl He)
    as (Hz & (w3 & Hp) & pid & Hst).
  split; [by apply state_path_resolve|]. split; [by apply (pick_from_range 20 lport w1 lp w3)|].
  eexists. split; [exact Hst|]. by split_and!.
Qed.

(** ** Examples *)

(** Different hosts, one state file. *)
Example sanitize_collision : map sanitizeHost ["a:b"; "a@b"; "a_b"] = ["a_b"; "a_b"; "a_b"].
Proof. vm_compute. reflexivity. Qed.

(** A machine with a clock on which every program succeeds, no process is alive, every port is
    free and every port answers. *)
Record Box := mkBox { b_fs : FS; b_now : Z; b_ran : list string }.

Definition box_peer : Peer Box := {|
  peer_fs := b_fs;
  peer_set_fs b f := mkBox f (b_now b) (b_ran b);
  serve b _ := (mkReader "" EOF, b) |}.

Definition box_machine : Machine Box := {|
  exec b c := (mkEnded None "" "", mkBox (b_fs b) (b_now b + 5)%Z (b_ran b ++ [prog c]));
  start b c := (Ok 42%Z, mkBox (b_fs b) (b_now b) (b_ran b ++ [prog c]));
  kill b _ _ := (false, b);
  listen b _ := (true, b);
  connect b _ := (true, b);
  now := b_now;
  sleep b t := mkBox (b_fs b) (b_now b + Z.max 0 t)%Z (b_ran b) |}.

#[local] Existing Instance box_peer.
#[local] Existing Instance box_machine.

Lemma box_peer_laws : PeerLaws Box.
Proof. split; [done|by intros []]. Qed.
Lemma box_machine_laws : MachineLaws Box.
Proof. split; intros; cbn; lia. Qed.

Definition state_fields (s : remoteState) : list string :=
  [Host s; r_Room s; PutUint32 (RPort s); PutUint32 (LPort s); PutUint32 (TunnelPID s);
   enc_bool (ServerStarted s); RemoteBin s; Target s].
Definition state_wf (s : remoteState) : Prop :=
  Forall fits (state_fields s) ∧ u32 (RPort s) ∧ u32 (LPort s) ∧ u32 (TunnelPID s).

#[export] Instance state_wf_dec s : Decision (state_wf s).
Proof.
  exact (and_dec (Forall_dec _ _) (and_dec (u32_dec _) (and_dec (u32_dec _) (u32_dec _)))).
Defined.

Definition enc_state (s : remoteState) : string := enc_fields (state_fields s).
Definition dec_state (b : string) : option remoteState :=
  match dec_fields b with
  | [h; rm; rp; lp; pid; ss; bin; tg] =>
      Some (mkRemote h rm (Uint32 rp) (Uint32 lp) (Uint32 pid) (dec_bool ss) bin tg)
  | _ => None
  end.

(** It refuses what it could not give back. *)
Definition strict_state : StateJson := {|
  state_MarshalIndent s :=
    if decide (state_wf s) then Ok (enc_state s) else Err "json: unsupported value";
  state_Unmarshal b := of_dec (dec_state b) |}.
#[local] Existing Instance strict_state.

Lemma strict_state_laws : StateJsonLaws.
Proof.
  intros s b _. cbn [state_MarshalIndent strict_state].
  destruct (decide (state_wf s)) as [(Hf & Hr & Hl & Hp)|]; [|done]. intros [= <-].
  cbn [state_Unmarshal strict_state]. unfold dec_state, enc_state.
  rewrite dec_enc_fields by done. cbn [state_fields].
  rewrite !dec_enc_u32, dec_enc_bool by done. by destruct s.
Qed.

(** The server was ours, its tunnel has died. *)
Definition demo_old_state : remoteState :=
  mkRemote "pi" "lab" 2299 2299 41 true remoteBinDisplay (tunnel_target 2299).
Definition demo_box : World Box :=
  mkWorld (mkBox (mkFS (<[resolve (state_path "/cfg" "pi") := File (enc_state demo_old_state)]>
    {[ resolve "/cfg" := Directory; resolve "/cfg/remote" := Directory ]}) ∅) 0 []) "" "".
Definition demo_reopened : option (result string Z) * World Box :=
  ensureTunnel "pi" "lab" (state_path "/cfg" "pi") 2299 2299 false demo_box.

Definition demo_live : option (option remoteState) * World Box :=
  live_tunnel (state_path "/cfg" "pi") 2299 demo_box.

Lemma demo_live_none : demo_live.1 = Some None.
Proof. vm_compute. reflexivity. Qed.
Lemma demo_reopened_ok : demo_reopened.1 = Some (Ok 2299%Z).
Proof. vm_compute. reflexivity. Qed.
Lemma demo_old_loaded :
  loadRemoteState (state_path "/cfg" "pi") (peer_fs (peer demo_box)) = Ok (Ok demo_old_state).
Proof. vm_compute. reflexivity. Qed.

Lemma reopened_tunnel_forgets_server_witness :
  loadRemoteState (state_path "/cfg" "pi") (peer_fs (peer demo_box)) = Ok (Ok demo_old_state) ∧
  ServerStarted demo_old_state = true ∧
  ∃ st, loadRemoteState (state_path "/cfg" "pi") (peer_fs (peer demo_reopened.2)) = Ok (Ok st) ∧
    ServerStarted st = false ∧ ∀ w' : World Box, stop_server "pi" st w' = (Some (), w').
Proof.
  split; [exact demo_old_loaded|]. split; [reflexivity|].
  destruct (@reopened_tunnel_forgets_server Box box_peer box_peer_laws box_machine strict_state
    strict_state_laws "pi" "lab" "/cfg" 2299 2299 demo_box demo_live.2 demo_reopened.2 2299)
    as (_ & _ & st & Hst & _ & _ & _ & Hs & Hn).
  - discriminate.
  - reflexivity.
  - reflexivity.
  - vm_compute. reflexivity.
  - rewrite <- demo_live_none. exact (surjective_pairing demo_live).
  - rewrite <- demo_reopened_ok. exact (surjective_pairing demo_reopened).
  - exists st. split; [exact Hst|]. split; [exact Hs|exact Hn].
Defined.

Lemma remote_waits_end_witness :
  (∃ b w', wait_listening 26 "pi" 2299 10000 demo_box = (Some (Some b), w')) ∧
  ∃ r w', wait_tunnel 35 41 2299 "/cfg/log" 10000 demo_box = (Some (Some r), w').
Proof.
  destruct (@remote_waits_end Box box_peer box_machine box_machine_laws "pi" 2299 41 2299 "/cfg/log"
    demo_box) as [(b & w & Hw & _) (r & w' & Hw' & _)].
  split; [exists b, w; exact Hw|exists r, w'; exact Hw'].
Defined.
