(* ===== verification/Room.v ===== *)
(** * main.go: the entry point of [room]

    [room-go/cmd/room/main.go]: [main], [dispatch] and [usage] over the commands of [Cli] and
    [Remote].  What [tui.Run] does is an argument: the scheduler that runs the terminal UI is not modelled. *)
From S2P Require Import Prelude GoStr GoPath GoOS Wire Clip Config Ipc Daemon Server Flags Proc Cli Remote.
Open Scope string_scope.
Open Scope list_scope.

Definition unlines (ls : list string) : string :=
  foldr (λ l s, l +:+ nl +:+ s) "" ls.

Definition usage_text : string := unlines
  ["room — cross-platform clipboard hand-off (room-go, Phase 0)";
   "";
   "Usage:";
   "  room [global flags] <command> [command flags]";
   "";
   "Global flags:";
   "  --config-dir PATH   config/identity directory";
   "  --socket PATH       IPC socket path";
   "  --room NAME         room to join (default " +:+ dq +:+ "default" +:+ dq +:+ ")";
   "  --json              machine-readable output (status)";
   "  -q, --quiet         quieter output";
   "  -v, --verbose       debug logging";
   "";
   "Commands:";
   "  server   [--addr :2222] [--host-key PATH] [--authorized-keys FILE]";
   "  daemon   [--foreground] [--server user@host:port]";
   "  daemon stop";
   "  join     <user@host:port>";
   "  remote   <ssh-host> [--rport N] [--lport N] [--stop]           (one-command SSH-tunnel connect)";
   "  send     [PATH] [--text|--image|--file|--auto] [--name NAME]   (PATH or stdin)";
   "  recv     [--follow] [--latest-image --emit-path] [--out PATH]";
   "  paste";
   "  clear    [--all] [--yes]";
   "  tui                                     (messenger-style chat)";
   "  status   [--json]";
   "  config   set KEY VALUE | get KEY"].

(** What the long-running commands get from outside: the generation of the identity key and of
    the host key, [wish.NewServer], the end of serving, the daemon's [net.Listen]. *)
Record Outside `{SshKeys} := mkOutside {
  o_gen : result string privkey;
  o_hostkey : result string string;
  o_new : string → string → gmap string bool → result string ();
  o_ends : serve_end;
  o_listen : result string ();
}.

Section room.
Context {P : Type} `{Peer P} `{Machine P} `{StateJson} `{Cbor Request} `{Cbor Response} `{Json}
  `{SshKeys} `{AuthorizedKeys}.
Context (E : Env) (self : Self) (o : Outside).
(** [tui.Run] on a socket, the arguments to spawn a daemon with and the room: its error. *)
Context (tui_Run : string → list string → string → M P (option string)).

Definition usage : M P () := eprint usage_text.

Definition cmdTui (g : Globals) (args : list string) : M P Z :=
  with_flags (newFlagSet "tui") args (λ _,
  sock ← socketPath E g;
  match sock with
  | Err e => fail 1 e
  | Ok sock =>
      err ← tui_Run sock (spawnArgs g) (Room g);
      match err with Some e => fail 1 e | None => mret 0%Z end
  end).

Definition dispatch (g : Globals) (sub : string) (args : list string) : M P Z :=
  if String.eqb sub "server" then cmdServer E (o_hostkey o) (o_new o) (o_ends o) g args
  else if String.eqb sub "daemon" then cmdDaemon E (o_gen o) (o_listen o) g args
  else if String.eqb sub "join" then cmdJoin E (o_gen o) g args
  else if String.eqb sub "remote" then cmdRemote E self g args
  else if String.eqb sub "send" then cmdSend E g args
  else if String.eqb sub "recv" then cmdRecv E g args
  else if String.eqb sub "paste" then cmdPaste E g args
  else if String.eqb sub "clear" then cmdClear E g args
  else if String.eqb sub "tui" then cmdTui g args
  else if String.eqb sub "status" then cmdStatus E g args
  else if String.eqb sub "peers" then cmdStatus E g args
  else if String.eqb sub "config" then cmdConfig E g args
  else if decide (sub ∈ ["help"; "-h"; "--help"]) then usage;; mret 0%Z
  else
    eprint ("room: unknown command " +:+ Quote sub +:+ nl);; usage;; mret 2%Z.

(** The exit code of the process; [None]: a panic. *)
Definition main (args : list string) : M P Z :=
  let '(g, rest) := parseGlobals args in
  match rest with
  | [] => usage;; mret 2%Z
  | sub :: args => dispatch g sub args
  end.
End room.

(** ** Exit codes *)

Definition error_response (r : Response) : Prop := rs_Kind r = RespErr → rs_Code r ∈ [1; 2; 5]%Z.

Lemma parse_codes f args : exit_code (parse f args).1.2.
Proof. unfold parse. destruct (parse_args _ _) as [[m r]|e]; auto with runs. Qed.

Section codes.
Context {P : Type} `{Peer P} `{Cbor Request} `{Cbor Response}.
Context `{!PeerSends P error_response} (E : Env) (N : Prop).

Lemma runs_code (c : Z) : exit_code c → runs N (mret c : M P Z) exit_code.
Proof. apply runs_ret. Qed.

Lemma runs_send_req lim req :
  runs N (send_req lim req : M P (result string reader))
    (λ r, match r with Ok rd => ∀ n, Forall error_response (read_msgs n rd).1 | Err _ => True end).
Proof.
  unfold send_req. destruct (WriteReq _ _) as [res wr].
  eapply runs_bind; [apply (runs_exchange error_response)|]. intros rd Hrd.
  apply runs_ret. by destruct res.
Qed.

Lemma runs_roundtrip g req :
  runs N (roundtrip E g req : M P (result Z Response))
    (λ r, match r with Ok resp => error_response resp | Err c => exit_code c end).
Proof.
  unfold roundtrip. eapply runs_bind; [apply runs_os_call|]. intros [sock|e] _.
  2:{ eapply runs_bind; [apply runs_fail, exit_1|]. intros c Hc. by apply runs_ret. }
  destruct (ipc_dial _ _ _ _) as [lim|e].
  2:{ eapply runs_bind; [apply runs_fail, exit_3|]. intros c Hc. by apply runs_ret. }
  eapply runs_bind; [apply runs_send_req|]. intros [rd|e] Hrd.
  2:{ eapply runs_bind; [apply runs_fail, exit_3|]. intros c Hc. by apply runs_ret. }
  destruct (ReadResp rd).1 as [resp|e] eqn:Er.
  - apply runs_ret. by apply (read_one error_response rd).
  - eapply runs_bind; [apply runs_fail, exit_3|]. intros c Hc. by apply runs_ret.
Qed.

Lemma error_code resp : error_response resp → rs_Kind resp = RespErr → exit_code (rs_Code resp).
Proof. intros Hr Hk. by apply exit_error, Hr. Qed.

Lemma runs_call g req k :
  (∀ resp, runs N (k resp) exit_code) → runs N (call E g req k : M P Z) exit_code.
Proof.
  intros Hk. unfold call. eapply runs_bind; [apply runs_roundtrip|]. intros [resp|c] Hr.
  - destruct (String.eqb_spec (rs_Kind resp) RespErr); [|apply Hk].
    apply runs_fail. by apply error_code.
  - by apply runs_ret.
Qed.

Lemma runs_flags f args k :
  (∀ f, runs N (k f) exit_code) → runs N (with_flags f args k : M P Z) exit_code.
Proof.
  intros Hk. unfold with_flags. pose proof (parse_codes f args) as Hc.
  destruct (parse f args) as [[err code] f']. eapply runs_bind; [apply runs_eprint|].
  intros _ _. destruct (negb _); [by apply runs_ret|apply Hk].
Qed.

(** The commands that only call the daemon. *)
Ltac run_cmd :=
  repeat first
    [ solve [auto with runs nocore]
    | apply runs_flags; intros ?
    | apply runs_call; intros ?
    | run_step ].

Context `{Json} `{SshKeys}.

Lemma runs_socketPath g : runs N (socketPath E g : M P (result string string)) (λ _, True).
Proof. unfold socketPath. run_cmd. Qed.
Lemma runs_openConfig g : runs N (openConfig E g : M P (result string Store)) (λ _, True).
Proof. unfold openConfig. run_cmd. Qed.
Lemma runs_copyFile s d : runs N (copyFile s d : M P (result string ())) (λ _, True).
Proof. unfold copyFile. run_cmd. Qed.
Lemma runs_send_any lim req : runs N (send_req lim req : M P (result string reader)) (λ _, True).
Proof. by eapply runs_weaken; [apply runs_send_req|]. Qed.
#[local] Hint Resolve runs_socketPath runs_openConfig runs_copyFile : runs.

Lemma runs_join gen g args : runs N (cmdJoin E gen g args : M P Z) exit_code.
Proof. unfold cmdJoin. run_cmd. Qed.
Lemma runs_send g args : runs N (cmdSend E g args : M P Z) exit_code.
Proof. unfold cmdSend, send_input. run_cmd. Qed.
Lemma runs_paste g args : runs N (cmdPaste E g args : M P Z) exit_code.
Proof. unfold cmdPaste. run_cmd. Qed.
Lemma runs_clear g args : runs N (cmdClear E g args : M P Z) exit_code.
Proof. unfold cmdClear, clear_consent, promptYesNo. run_cmd. Qed.
Lemma runs_config g args : runs N (cmdConfig E g args : M P Z) exit_code.
Proof. unfold cmdConfig. run_cmd. Qed.
Lemma runs_status g args : runs N (cmdStatus E g args : M P Z) exit_code.
Proof.
  unfold cmdStatus. eapply runs_bind; [apply runs_roundtrip|]. intros [resp|c] Hr.
  - run_cmd.
  - by apply runs_ret.
Qed.

(** A request, and what to do with a response that is not an error. *)
Lemma runs_reply lim req (k : Response → M P Z) :
  (∀ resp, runs N (k resp) exit_code) →
  runs N (r ← send_req lim req;
          match r with
          | Err e => fail 3 e
          | Ok rd =>
              match (ReadResp rd).1 with
              | Err e => fail 3 (msg_err_string e)
              | Ok resp =>
                  if String.eqb (rs_Kind resp) RespErr
                  then fail (rs_Code resp) (rs_Message resp) else k resp
              end
          end : M P Z) exit_code.
Proof.
  intros Hk. eapply runs_bind; [apply runs_send_req|]. intros [rd|e] Hrd; [|run_cmd].
  destruct (ReadResp rd).1 as [resp|e] eqn:Er; [|run_cmd].
  destruct (String.eqb_spec (rs_Kind resp) RespErr); [|apply Hk].
  apply runs_fail. apply error_code; [by apply (read_one error_response rd)|done].
Qed.

Lemma runs_resolve g : runs N (resolveClearOnExit E g : M P string) (λ _, True).
Proof. unfold resolveClearOnExit, promptChoice. run_cmd. Qed.

Lemma runs_stop g args : runs N (cmdDaemonStop E g args : M P Z) exit_code.
Proof.
  unfold cmdDaemonStop. apply runs_flags; intros f.
  eapply runs_bind; [apply runs_socketPath|]. intros [sock|e] _; [|run_cmd].
  destruct (ipc_dial _ _ _ _) as [lim|e]; [|run_cmd].
  eapply runs_bind; [apply runs_resolve|]. intros scope _. apply runs_reply. intros resp. run_cmd.
Qed.

Lemma runs_boot gen listen g args :
  runs N (daemon_boot E gen listen g args : M P (Z + Daemon * string * option string))
    (λ r, match r with inl c => exit_code c | inr _ => True end).
Proof.
  unfold daemon_boot. pose proof (parse_codes daemon_flags args) as Hc.
  destruct (parse daemon_flags args) as [[err code] fs]. cbv zeta.
  assert (∀ e, runs N (c ← fail 1 e; mret (inl c) : M P (Z + Daemon * string * option string))
    (λ r, match r with inl c => exit_code c | inr _ => True end)) as Hbail.
  { intros e. eapply runs_bind; [apply runs_fail, exit_1|]. intros c Hx. by apply runs_ret. }
  repeat first [solve [auto with runs nocore] | apply Hbail | run_step | done].
Qed.

Lemma runs_daemon gen listen g args : runs N (cmdDaemon E gen listen g args : M P Z) exit_code.
Proof.
  unfold cmdDaemon.
  assert (runs N (r ← daemon_boot E gen listen g args;
    mret (match r with inl code => code | inr _ => 0%Z end) : M P Z) exit_code) as Hboot.
  { eapply runs_bind; [apply runs_boot|]. intros [c|x] Hx; by apply runs_ret, Hx || apply runs_ret, exit_0. }
  destruct args as [|a args]; [exact Hboot|]. by repeat case_match; try exact Hboot; apply runs_stop.
Qed.

Context `{AuthorizedKeys}.

Lemma runs_server gen new ends g args :
  runs N (cmdServer E gen new ends g args : M P Z) exit_code.
Proof. unfold cmdServer, loadAuthorizedKeys. run_cmd. Qed.

(** [recv] may panic: [printItem] follows a nil blob. *)
Lemma runs_printItem resp emit out : N → runs N (printItem resp emit out : M P ()) (λ _, True).
Proof.
  intros HN. unfold printItem. repeat first [run_step | by intros w | solve [auto with runs nocore]].
Qed.

Lemma runs_recv g args : N → runs N (cmdRecv E g args : M P Z) exit_code.
Proof.
  intros HN. unfold cmdRecv. apply runs_flags; intros f. cbv zeta.
  eapply runs_bind; [apply runs_socketPath|]. intros [sock|e] _; [|run_cmd].
  destruct (ipc_dial _ _ _ _) as [lim|e]; [|run_cmd].
  destruct (get_bool f "follow").
  - eapply runs_bind; [apply runs_send_any|]. intros [rd|e] _; [|run_cmd].
    run_step; [|run_cmd]. generalize ((read_msgs (S (String.length (r_buf rd))) rd).1).
    induction l as [|resp l IH]; cbn [printItems]; [run_cmd|].
    run_step; [by apply runs_printItem|exact IH].
  - apply runs_reply. intros resp. run_step; [by apply runs_printItem|run_cmd].
Qed.

Context `{Machine P} `{StateJson} (self : Self) (o : Outside).

Lemma runs_mach {A} (f : P → A * P) : runs N (mach f : M P A) (λ _, True).
Proof. intros w. unfold mach. by destruct (f _). Qed.
Lemma runs_say host line : runs N (say host line : M P ()) (λ _, True).
Proof. done. Qed.
#[local] Hint Resolve runs_mach runs_say : runs.

Lemma runs_ssh host c : runs N (runSSH host c : M P _) (λ _, True).
Proof. unfold runSSH. run_cmd. Qed.
Lemma runs_scp host p : runs N (scpTo host p : M P _) (λ _, True).
Proof. unfold scpTo. run_cmd. Qed.
#[local] Hint Resolve runs_ssh runs_scp : runs.

Lemma runs_bootstrap host os arch : runs N (bootstrap E self host os arch : M P _) (λ _, True).
Proof. unfold bootstrap, remoteBinExists, produceBinary. run_cmd. Qed.

Lemma runs_listening host p : runs N (remoteListening host p : M P _) (λ _, True).
Proof. unfold remoteListening. run_cmd. Qed.
#[local] Hint Resolve runs_listening : runs.

Lemma runs_wait_listening n host p d : runs N (wait_listening n host p d : M P _) (λ _, True).
Proof. induction n; cbn [wait_listening]; unfold clock, time_Sleep; run_cmd. Qed.
#[local] Hint Resolve runs_wait_listening : runs.

Lemma runs_ensureServer host p : runs N (ensureRemoteServer host p : M P _) (λ _, True).
Proof. unfold ensureRemoteServer, clock. run_cmd. Qed.

Lemma runs_alive pid : runs N (pidAlive pid : M P _) (λ _, True).
Proof. unfold pidAlive. run_cmd. Qed.
#[local] Hint Resolve runs_alive : runs.

Lemma runs_pick n p : runs N (pick_from n p : M P _) (λ _, True).
Proof. revert p. induction n; intros p; cbn [pick_from]; unfold portFreeLocal; run_cmd. Qed.

Lemma runs_wait_tunnel n pid lp log d : runs N (wait_tunnel n pid lp log d : M P _) (λ _, True).
Proof.
  induction n; cbn [wait_tunnel]; unfold clock, localReachable, time_Sleep; run_cmd.
Qed.
#[local] Hint Resolve runs_pick runs_wait_tunnel : runs.

Lemma runs_openTunnel host lp rp log : runs N (openTunnel host lp rp log : M P _) (λ _, True).
Proof. unfold openTunnel, clock. run_cmd. Qed.
#[local] Hint Resolve runs_openTunnel : runs.

Lemma runs_ensureTunnel host room sp rp lp st :
  runs N (ensureTunnel host room sp rp lp st : M P _) (λ _, True).
Proof. unfold ensureTunnel, live_tunnel, localReachable, pickLocalPort. run_cmd. Qed.
#[local] Hint Resolve runs_bootstrap runs_ensureServer runs_ensureTunnel : runs.

Lemma runs_connect g host room sp rp lp :
  runs N (remoteConnect E self g host room sp rp lp : M P Z) exit_code.
Proof. unfold remoteConnect. run_cmd. Qed.

Lemma runs_remoteStop g host sp : runs N (remoteStop g host sp : M P Z) exit_code.
Proof. unfold remoteStop, stop_tunnel, stop_server. run_cmd. Qed.

Lemma runs_remote g args : runs N (cmdRemote E self g args : M P Z) exit_code.
Proof.
  unfold cmdRemote. destruct (parseInterspersed_total remote_flags args) as [x Hx]. rewrite Hx.
  destruct x as [[[err pos] code] fs]. apply interspersed_code in Hx.
  assert (exit_code code) as Hc by (destruct Hx as [-> | ->]; auto with runs).
  run_step; [run_cmd|]. run_step; [by apply runs_ret|].
  destruct pos as [|host pos]; [run_cmd|]. cbv zeta. unfold remoteStatePath.
  run_step; [run_cmd|]. run_step; [|run_cmd].
  run_step; [apply runs_remoteStop|apply runs_connect].
Qed.

Context (tui_Run : string → list string → string → M P (option string)).

(** Whatever the command line, as long as the terminal UI does not panic. *)
Lemma runs_main args :
  (∀ s a r, runs N (tui_Run s a r) (λ _, True)) → ((parseGlobals args).2 !! 0%nat = Some "recv" → N) →
  runs N (main E self o tui_Run args) exit_code.
Proof.
  intros Htui Hrecv. unfold main, usage. destruct (parseGlobals args) as [g [|sub rest]]; [run_cmd|].
  cbn [snd lookup list_lookup] in Hrecv. unfold dispatch, usage.
  repeat match goal with |- runs _ (if String.eqb sub ?s then _ else _) _ =>
    destruct (String.eqb_spec sub s) as [->|] end.
  all: auto using runs_server, runs_daemon, runs_join, runs_remote, runs_send, runs_paste,
    runs_clear, runs_status, runs_config, runs_recv.
  - unfold cmdTui. apply runs_flags; intros f. run_step; [run_cmd|]. run_step; [|run_cmd].
    run_step; [apply Htui|run_cmd].
  - run_cmd.
Qed.
End codes.
