(* ===== verification/Local.v ===== *)
(** * The daemon as the peer of its clients

    Joins [handlers.go] and [main.go]: [daemon_serve] runs [Handlers.handleConn] on the bytes a
    client sent and lets a waiting or streaming handler go on with what comes in meanwhile.  It is
    the instance of [Proc.Peer] the theorems about the commands are about. *)
From S2P Require Import Prelude GoStr GoPath GoOS Wire Codec Ipc Clip Config Sinks Daemon Handlers Flags Proc Cli.
Open Scope string_scope.
Open Scope list_scope.

(** What a connection finds: the next message id, the clock, and the envelopes (with their times)
    that come from the server before the connection ends. *)
Class Moment := mkMoment { m_ulid : string; m_now : Z; m_later : list (Z * Envelope) }.

Section local.
Context `{Cbor Envelope} `{Blake3} `{ImageCodec} `{MimeTable} `{Clipboard} `{Json}.
Context `{Cbor Request} `{Cbor Response} `{Moment}.

Definition daemon_serve (d : Daemon) (sent : string) : reader * Daemon :=
  let '(o, d, _, w) := handleConn m_ulid m_now d (mkReader sent EOF) (mkWriter "" None) in
  match o with
  | Reply _ | Closed => (mkReader (w_buf w) EOF, d)
  | Waiting ch kind =>
      match resume_wait (ingest_all d m_later) ch kind with
      | (Reply r, d) => (mkReader (w_buf (WriteResp w r).2) EOF, d)
      | (_, d) => (mkReader (w_buf w) EOF, d)
      end
  | Streaming ch kind =>
      let '(rs, d) := resume_stream (ingest_all d m_later) ch kind in
      (mkReader (w_buf (write_msgs w rs).2) EOF, d)
  end.

#[export] Instance daemon_peer : Peer Daemon := {|
  peer_fs := fs;
  peer_set_fs d f := set_sess d (sess d) f;
  serve := daemon_serve |}.

#[export] Instance daemon_peer_laws : PeerLaws Daemon.
Proof. split; [done|by intros []]. Qed.

(** The responses of the daemon: an error has one of the codes of its handlers. *)
Definition daemon_response (r : Response) : Prop :=
  rs_Kind r = RespErr → rs_Code r ∈ [1; 2; 5]%Z.

Lemma errResp_codes c m : c ∈ [1; 2; 5]%Z → daemon_response (errResp c m).
Proof. by intros Hc _. Qed.

Lemma handleSend_response ulid ms d req : daemon_response (handleSend ulid ms d req).1.
Proof.
  unfold handleSend. destruct (_ =? _)%Z; [apply errResp_codes; set_solver|].
  destruct (build_envelope _ _ _ _) as [env|r] eqn:E.
  2:{ apply build_envelope_err in E as [_ Hr]. intros _. cbn [fst]. set_solver. }
  destruct (Marshal env); [|apply errResp_codes; set_solver].
  by destruct (sendFrame d _) as [[] ?].
Qed.

Lemma handleReq_response ulid ms d req r d' go :
  handleReq ulid ms d req = (Reply r, d', go) → daemon_response r.
Proof.
  intros Hr. assert (∀ c m, c ∈ [1; 2; 5]%Z → daemon_response (errResp c m)) as He
    by (apply errResp_codes).
  assert (Reply r = (handleReq ulid ms d req).1.1) as Hq by (by rewrite Hr). revert Hq. clear Hr.
  unfold handleReq. destruct (negb _); [intros [= ->]; apply He; set_solver|].
  repeat match goal with |- context [if String.eqb (rq_Op req) ?o then _ else _] =>
    destruct (String.eqb (rq_Op req) o) end; cbn [reply hold fst snd].
  - by intros [= ->].
  - intros [= ->]. apply handleSend_response.
  - unfold handleRecv, recv_latest, recv_subscribe, handleSubscribe.
    repeat case_match; simplify_eq/=; by intros [= ->].
  - intros [= ->]. unfold handlePaste. destruct (latest d "any"); [|apply He; set_solver].
    destruct (writeClipboard d _) as [[] ?]; [apply He; set_solver|done].
  - intros [= ->]. unfold handleCopy, handlePaste.
    repeat case_match; try done; apply He; set_solver.
  - done.
  - intros [= ->]. unfold handleStatus. by destruct (Available _).
  - intros [= ->]. unfold handleConfigSet. destruct (SetKey _ _ _ _) as [[[|] ?] ?]; [done|].
    apply He; set_solver.
  - intros [= ->]. unfold handleConfigGet. destruct (GetKey _ _); [done|]. apply He; set_solver.
  - unfold handleJoin. destruct (String.eqb _ _); [intros [= ->]; apply He; set_solver|].
    destruct (SetServer _ _ _) as [[[|] ?] ?]; intros [= ->]; [done|apply He; set_solver].
  - by intros [= ->].
  - by intros [= ->].
  - intros [= ->]. apply He; set_solver.
Qed.

Lemma resume_wait_response d ch kind r d' :
  resume_wait d ch kind = (Reply r, d') → daemon_response r.
Proof. unfold resume_wait. repeat case_match; by intros [= <-]. Qed.

(** What a client can read: some of the first of a list of responses. *)
Lemma daemon_serve_responses d sent :
  ∃ rs, Forall daemon_response rs ∧
    (daemon_serve d sent).1 = mkReader (w_buf (write_msgs (mkWriter "" None) rs).2) EOF.
Proof.
  assert (∀ r, daemon_response r → ∃ rs, Forall daemon_response rs ∧
    mkReader (w_buf (WriteResp (mkWriter "" None) r).2) EOF =
    mkReader (w_buf (write_msgs (mkWriter "" None) rs).2) EOF) as Hone.
  { intros r Hr. exists [r]. split; [by constructor|]. cbn [write_msgs]. unfold WriteResp.
    by destruct (write_msg _ r) as [[[]|] ?]. }
  assert (∃ rs, Forall daemon_response rs ∧
    mkReader "" EOF = mkReader (w_buf (write_msgs (mkWriter "" None) rs).2) EOF) as Hnone.
  { exists []. by split. }
  unfold daemon_serve, handleConn. destruct (ReadReq _).1 as [req|e]; [|exact Hnone].
  destruct (handleReq m_ulid m_now d req) as [[o d'] go] eqn:E. destruct o as [r| |ch kind|ch kind].
  - apply Hone. by eapply handleReq_response.
  - exact Hnone.
  - destruct (resume_wait _ ch kind) as [o' d2] eqn:Ew. destruct o'; try exact Hnone.
    apply Hone. by eapply resume_wait_response.
  - unfold resume_stream. destruct (subs _ !! ch) as [c|]; [|exact Hnone].
    eexists. split; [|done]. apply Forall_map. by apply Forall_forall.
Qed.

#[export] Instance daemon_sends `{!CborSound Response} : PeerSends Daemon daemon_response.
Proof.
  intros d sent n. unfold serve, daemon_peer. cbv beta iota.
  destruct (daemon_serve_responses d sent) as (rs & Hrs & ->).
  destruct (read_written rs n) as [k ->]. by apply Forall_take.
Qed.

(** ** Calls that arrive *)

(** The socket is given and a daemon answers there at once. *)
Record daemon_at (E : Env) (g : Globals) : Prop := {
  at_socket : Socket g ≠ "";
  at_dial : e_dial E (Socket g) 0 = Ok None;
}.

Lemma socketPath_run E g (w : World Daemon) :
  Socket g ≠ "" → socketPath E g w = (Some (Ok (Socket g)), w).
Proof.
  intros Hs. unfold socketPath, os_call, SocketPath. apply String.eqb_neq in Hs. rewrite Hs.
  cbn [negb]. rewrite peer_set_get. by destruct w.
Qed.

Lemma ipc_dial_run E g auto args : daemon_at E g → ipc_dial E (Socket g) auto args = Ok None.
Proof. intros [_ Hd]. unfold ipc_dial, Dial. by rewrite Hd. Qed.

(** The bytes of a response. *)
Definition answered (r : Response) : reader :=
  mkReader (w_buf (WriteResp (mkWriter "" None) r).2) EOF.

Lemma answered_read r : transmits r → (ReadResp (answered r)).1 = Ok r.
Proof.
  intros Hr. destruct (write_transmits r "" Hr) as (b & _ & _ & Hw & Hb).
  unfold answered, ReadResp, WriteResp. rewrite Hw. cbn [snd w_buf String.append]. by rewrite Hb.
Qed.

Lemma send_req_run req r d d' go so se :
  transmits req → handleReq m_ulid m_now d req = (Reply r, d', go) →
  send_req None req (mkWorld d so se) = (Some (Ok (answered r)), mkWorld d' so se).
Proof.
  intros Hq Hh. destruct (write_transmits req "" Hq) as (b & _ & _ & Hw & Hb).
  unfold send_req, WriteReq. rewrite Hw. cbn [w_buf String.append].
  unfold mbind, M_bind, exchange. cbn [peer serve daemon_peer].
  unfold daemon_serve, handleConn, ReadReq. rewrite Hb. cbn [fst]. by rewrite Hh.
Qed.

(** A call of a running daemon is its handler. *)
Lemma call_run E g req k r d d' go so se :
  daemon_at E g → transmits req → handleReq m_ulid m_now d req = (Reply r, d', go) → transmits r →
  call E g req k (mkWorld d so se) =
    if String.eqb (rs_Kind r) RespErr
    then (Some (rs_Code r), mkWorld d' so (se +:+ "room: " +:+ rs_Message r +:+ nl))
    else k r (mkWorld d' so se).
Proof.
  intros Hat Hq Hh Hr. unfold call, roundtrip. unfold mbind, M_bind.
  rewrite socketPath_run by apply Hat. rewrite ipc_dial_run by done.
  rewrite (send_req_run req r d d' go) by done. rewrite answered_read by done.
  unfold mret, M_ret. by destruct (String.eqb _ _).
Qed.
End local.
