(* ===== verification/Handoff.v ===== *)
(** * The hand-off, end to end

    Puts the parts together: [room send] on one machine, its daemon, the relay, the daemon and
    [room recv] on another ([Cli], [Local], [Handlers], [Server], [Conn]); and what the whole
    command line promises. *)
From S2P Require Import Prelude GoStr GoPath GoOS Wire Codec Chan Broker Server Dedupe Ipc Clip Config Sinks Daemon Handlers Conn Flags Proc Cli Remote Room Local.
Open Scope string_scope.
Open Scope list_scope.

(** ** Runs of the commands against a daemon *)

Section clients.
Context `{Cbor Envelope} `{Blake3} `{ImageCodec} `{MimeTable} `{Clipboard} `{Json}.
Context `{Cbor Request} `{Cbor Response}.

(** A command in a fresh process, at the moment its connection is served. *)
Definition room_send (m : Moment) (E : Env) (g : Globals) (args : list string) (d : Daemon)
    : option Z * World Daemon := cmdSend E g args (mkWorld d "" "").
Definition room_recv (m : Moment) (E : Env) (g : Globals) (args : list string) (d : Daemon)
    : option Z * World Daemon := cmdRecv E g args (mkWorld d "" "").
Definition room_clear (m : Moment) (E : Env) (g : Globals) (args : list string) (d : Daemon)
    : option Z * World Daemon := cmdClear E g args (mkWorld d "" "").
End clients.

(** ** Sending *)

Section sending.
Context `{Cbor Envelope} `{Blake3} `{ImageCodec} `{MimeTable} `{Clipboard} `{Json}.
Context `{Cbor Request} `{Cbor Response} `{SshKeys}.

Definition text_request (s : string) : Request :=
  mkRequest IPCVersion OpSend s "text" "" "" false "" false "" "" "" "".

Definition text_envelope (m : Moment) (d : Daemon) (s : string) : Envelope :=
  mkEnvelope Version m_ulid TypeText MimeText (fp d) (deviceName d) (uint64 m_now) "" s None "".

(** The daemon has a session that takes whatever is written to it. *)
Record connected (d : Daemon) (r : ref) (sent : string) : Prop := {
  con_in : c_in (d_conn d) = Some r;
  con_up : c_connected (d_conn d) = true;
  con_link : links d !! r = Some (mkWriter sent None);
}.

Lemma sendFrame_connected d r sent frame :
  connected d r sent → fits frame →
  sendFrame d frame =
    (None, set_conn d (d_conn d) (<[r := mkWriter (sent +:+ frame_bytes frame) None]> (links d))).
Proof.
  intros [Hi Hu Hl] Hf. unfold sendFrame. by rewrite Hi, Hu, Hl, WriteFrame_unlimited.
Qed.

Lemma handleSend_text (m : Moment) d r sent s frame :
  connected d r sent → s ≠ "" → Marshal (text_envelope m d s) = Ok frame → fits frame →
  handleReq m_ulid m_now d (text_request s) =
    (Reply okResp,
     set_conn d (d_conn d) (<[r := mkWriter (sent +:+ frame_bytes frame) None]> (links d)), None).
Proof.
  intros Hc Hs Hm Hf.
  change (handleReq m_ulid m_now d (text_request s)) with
    (reply (handleSend m_ulid m_now d (text_request s))).
  unfold handleSend. destruct (Z.eqb_spec (len (rq_Bytes (text_request s))) 0) as [Hz|_].
  { by apply len_zero in Hz. }
  change (build_envelope m_ulid m_now d (text_request s)) with (Ok (E := Response) (text_envelope m d s)).
  cbv iota. rewrite Hm. by rewrite (sendFrame_connected d r sent frame).
Qed.

Lemma with_flags_run {P} `{Peer P} f l k (w : World P) f' :
  parse f l = ("", 0%Z, f') → with_flags f l k w = k f' w.
Proof.
  intros Hp. unfold with_flags. rewrite Hp. unfold mbind, M_bind, eprint. cbn [Z.eqb negb].
  rewrite str_app_nil_r. by destruct w.
Qed.

Definition send_text_flags : flagSet := (parse send_flags ["--text"]).2.
Lemma parse_send_text : parse send_flags ["--text"] = ("", 0%Z, send_text_flags).
Proof. vm_compute. reflexivity. Qed.

(** [room send --text] with text on standard input. *)
Lemma cmdSend_text (m : Moment) E g d r sent s frame so se :
  daemon_at E g → connected d r sent → ReadAll E = Ok s → s ≠ "" →
  transmits (text_request s) → transmits okResp → Marshal (text_envelope m d s) = Ok frame →
  fits frame →
  cmdSend E g ["--text"] (mkWorld d so se) =
    (Some 0%Z,
     mkWorld (set_conn d (d_conn d) (<[r := mkWriter (sent +:+ frame_bytes frame) None]> (links d)))
       so se).
Proof.
  intros Hat Hc Hin Hs Hq Hr Hm Hf. unfold cmdSend. rewrite (with_flags_run _ _ _ _ _ parse_send_text).
  unfold mbind at 1, M_bind at 1, send_input.
  change (Flags.args send_text_flags) with (@nil string). cbv iota. rewrite Hin.
  unfold mret at 1, M_ret at 1. cbv beta iota.
  change (get_string send_text_flags "name") with "". cbn [String.eqb negb].
  change (send_force send_text_flags) with "text".
  destruct (Z.eqb_spec (len s) 0) as [Hz|_]; [by apply len_zero in Hz|].
  erewrite (call_run E g (text_request s)); [|done|done|by eapply handleSend_text|done].
  done.
Qed.
End sending.

(** ** Through the relay *)

(** Two sessions of a room: [s] is about to read the frame, [t] has an empty queue and a channel
    that takes what is written to it. *)
Record route (st : Sys) (s t : sid) (frame : string) : Prop := {
  rt_live : crashed st = false;
  rt_from : ∃ r ses rest e, relays st !! s = Some r ∧ heap st !! s = Some ses ∧ at_ r = Reading ∧
              inp r = mkReader (frame_bytes frame +:+ rest) e ∧ t ∈ targets (brk st) (Broker.Room ses) s;
  rt_to : ∃ r ses, relays st !! t = Some r ∧ heap st !! t = Some ses ∧
            queue (Out ses) = [] ∧ closed (Out ses) = false ∧ (0 < chan_cap (Out ses))%nat ∧
            writer_done r = false ∧ w_left (Server.out r) = None;
}.

(** What was written to the client of a session. *)
Definition client_bytes (st : Sys) (t : sid) : string :=
  match relays st !! t with Some r => w_buf (Server.out r) | None => "" end.

Lemma run_cons st l st1 ls st2 :
  step_fn st l = Some st1 → run st1 ls = Some st2 → run st (l :: ls) = Some st2.
Proof. intros Hl Hr. cbn [run]. by rewrite Hl. Qed.

Lemma relay_pass st s t frame :
  fits frame → route st s t frame →
  ∃ st', run st [LRead s; LSnapshot s; LDeliver s t; LWrite t] = Some st' ∧
    client_bytes st' t = client_bytes st t +:+ frame_bytes frame.
Proof.
  intros Hf [Hlive (r & ses & rest & e & Hr & Hs & Hat & Hin & Ht)
    (rt & ts & Hrt & Hts & Hq & Hc & Hcap & Hwd & Hlim)].
  assert (s ≠ t) as Hne by (unfold targets in Ht; set_solver).
  destruct (Server.out rt) as [wb wl] eqn:Eo. cbn [w_left] in Hlim. subst wl.
  eexists. split.
  - eapply run_cons; [unfold step_fn; rewrite Hlive, Hr, Hs, Hat; unfold read;
      by rewrite Hin, ReadFrame_frame|].
    eapply run_cons; [unfold step_fn; cbn [crashed set_relay relays heap];
      by rewrite Hlive, lookup_insert_eq, Hs|].
    eapply run_cons; [unfold step_fn; cbn [crashed set_relay relays heap brk];
      rewrite Hlive, lookup_insert_eq; cbn [set_at at_]; by rewrite decide_True|].
    eapply run_cons; [|done]. unfold deliver_one, deliver. cbn [heap set_relay].
    rewrite Hts. unfold try_send. rewrite Hc, Hq. destruct (Nat.ltb_spec (length (@nil string)) (chan_cap (Out ts)));
      [|cbn in *; lia].
    unfold step_fn. cbn [crashed relays heap set_relay]. rewrite Hlive, !lookup_insert_ne by done.
    rewrite Hrt, lookup_insert_eq, Hwd. unfold write. cbn [Out set_Out queue app].
    by rewrite Eo, WriteFrame_unlimited.
  - unfold client_bytes. cbn [relays]. by rewrite lookup_insert_eq, Hrt, Eo.
Qed.

(** ** Receiving *)

Section receiving.
Context `{Cbor Envelope} `{Blake3} `{ImageCodec} `{MimeTable} `{Clipboard} `{Json}.
Context `{Cbor Request} `{Cbor Response} `{SshKeys}.

Lemma recvLoop_one now d frame env :
  fits frame → Unmarshal frame = Ok env →
  recvLoop now d (mkReader (frame_bytes frame) EOF) = ingest now d env.
Proof.
  intros Hf Hu. rewrite recvLoop_spec.
  destruct (read_back_torn [frame] "" EOF) as [err Hr]; [by apply Forall_cons_2|by left|].
  rewrite str_app_nil_r in Hr. cbn [frames_bytes] in Hr. rewrite str_app_nil_r in Hr. rewrite Hr.
  cbn [fst omap list_omap]. by rewrite Hu.
Qed.

Lemma newest_snoc p l it : p it = true → newest p (l ++ [it]) = Some it.
Proof.
  intros Hp. apply newest_spec. by exists l, [].
Qed.

Lemma lastn_snoc {A} n (l : list A) x : (0 < n)%nat → ∃ k, lastn n (l ++ [x]) = k ++ [x].
Proof.
  intros Hn. unfold lastn. rewrite length_app. cbn [length].
  rewrite drop_app_le by lia. by eexists.
Qed.

(** An item without a blob that has not been seen is the newest of the buffer. *)
Lemma ingest_newest now d env :
  dedupe_wf (d_dedupe d) → MsgID env ∉ seen (d_dedupe d) →
  Type_ env ≠ TypeImage → Type_ env ≠ TypeFile →
  latest (ingest now d env) "any" = Some (mkItem env "").
Proof.
  intros Hw Hn Hi Hf. assert (materialize d env = (Some (mkItem env ""), fs d)) as Hm.
  { unfold materialize. apply String.eqb_neq in Hi, Hf. by rewrite Hi, Hf. }
  destruct (ingest_accepted now d env _ _ Hw Hn Hm) as (_ & Hb & _). unfold latest. rewrite Hb.
  destruct (lastn_snoc bufferCap (buffer d) (mkItem env "")) as [k ->]; [unfold bufferCap; lia|].
  by apply newest_snoc.
Qed.

Definition recv_request : Request :=
  mkRequest IPCVersion OpRecv "" "" "" "any" false "" false "" "" "" "".

Lemma handleReq_recv (m : Moment) d item :
  latest d "any" = Some item →
  handleReq m_ulid m_now d recv_request = (Reply (itemResp item), d, None).
Proof.
  intros Hl.
  change (handleReq m_ulid m_now d recv_request) with (hold (handleRecv d recv_request)).
  unfold handleRecv, recv_latest. change (recv_kind recv_request) with "any".
  change (rq_Follow recv_request) with false. cbv iota. by rewrite Hl.
Qed.

Lemma parse_recv : parse recv_flags [] = ("", 0%Z, recv_flags).
Proof. vm_compute. reflexivity. Qed.

(** [room recv] is [printItem] of the newest item. *)
Lemma cmdRecv_latest (m : Moment) E g d item so se :
  daemon_at E g → transmits recv_request → transmits (itemResp item) →
  latest d "any" = Some item →
  cmdRecv E g [] (mkWorld d so se) =
    (printItem (itemResp item) false "";; mret 0%Z) (mkWorld d so se).
Proof.
  intros Hat Hq Hr Hl. unfold cmdRecv. rewrite (with_flags_run _ _ _ _ _ parse_recv). cbv zeta.
  change (get_bool recv_flags "latest-image") with false.
  change (get_bool recv_flags "follow") with false.
  change (get_bool recv_flags "emit-path") with false.
  change (get_string recv_flags "out") with "". cbn [orb].
  unfold mbind at 1, M_bind at 1. rewrite socketPath_run by apply Hat.
  rewrite ipc_dial_run by done. unfold mbind at 1, M_bind at 1.
  fold recv_request.
  rewrite (send_req_run recv_request (itemResp item) d d None) by (done || by apply handleReq_recv).
  rewrite answered_read by done. done.
Qed.
End receiving.

(** ** Clearing *)

Section clearing.
Context `{Cbor Envelope} `{Blake3} `{ImageCodec} `{MimeTable} `{Clipboard} `{Json}.
Context `{Cbor Request} `{Cbor Response} `{SshKeys}.

(** The user said that the sinks may be cleared. *)
Definition consents (E : Env) (f : flagSet) : Prop :=
  get_bool f "all" = true ∧
  (get_bool f "yes" = true ∨ e_tty E = true ∧ answer E ∈ ["y"; "yes"]).

#[export] Instance consents_dec E f : Decision (consents E f).
Proof. unfold consents. apply _. Defined.

Lemma clear_consent_run E f (w : World Daemon) :
  ∃ se, clear_consent E (get_bool f "all") (get_bool f "yes") w =
    (Some (bool_decide (consents E f)), mkWorld (peer w) (stdout w) se).
Proof.
  unfold clear_consent, promptYesNo, mbind, M_bind, mret, M_ret, eprint.
  destruct (get_bool f "all") eqn:Ea.
  2:{ rewrite bool_decide_eq_false_2 by (intros [Hx _]; congruence). exists (stderr w). by destruct w. }
  destruct (get_bool f "yes") eqn:Ey.
  { rewrite bool_decide_eq_true_2 by (split; [done|by left]). exists (stderr w). by destruct w. }
  destruct (e_tty E) eqn:Et.
  - eexists. do 2 f_equal.
    destruct (bool_decide_reflect (consents E f)) as [[_ [?|[_ Hin]]]|Hn]; [congruence| |].
    + by assert (answer E = "y" ∨ answer E = "yes") as [-> | ->] by set_solver.
    + apply orb_false_iff. split; apply String.eqb_neq; intros Hx; apply Hn; split; try done;
        right; split; try done; rewrite Hx; set_solver.
  - rewrite bool_decide_eq_false_2; [by eexists|]. intros [_ [?|[? _]]]; congruence.
Qed.

Definition clear_request (all : bool) : Request :=
  mkRequest IPCVersion OpClear "" "" "" "" false "" all "" "" "" "".

Lemma handleReq_clear (m : Moment) d all :
  handleReq m_ulid m_now d (clear_request all) =
    (Reply okResp, applyClearScope d (if all then "all" else "transient"), None).
Proof. done. Qed.

(** A transient clear leaves everything outside the blob cache alone. *)
Lemma transient_keeps d q :
  StoreDir (cfg d) ≠ "" → fs_wf (fs d) → ¬ in_blobs (cfg d) q →
  nodes (fs (applyClearScope d "transient")) !! q = nodes (fs d) !! q ∧
  sess (applyClearScope d "transient") = sess d.
Proof.
  intros Hst Hwf Hq. destruct (clearBlobs_spec (cfg d) (fs d) Hst Hwf) as (_ & Hk & _).
  split; [by apply Hk|done].
Qed.
End clearing.

(** ** Properties *)

(** C1. The hand-off.  [room send --text] on a connected machine exits with 0 and hands its
    standard input to the daemon's session as one frame; the relay, having read that frame, writes
    the same bytes to the other session of the room; and once the daemon there has received them,
    [room recv] prints exactly that text and a newline and exits with 0. *)
Theorem handoff_text `{Cbor Envelope} `{Blake3} `{ImageCodec} `{MimeTable} `{Clipboard} `{Json}
    `{Cbor Request} `{Cbor Response} `{!CborSound Envelope}
    (mA mB : Moment) EA EB gA gB dA dB r sent text frame st s t now :
  daemon_at EA gA → connected dA r sent → ReadAll EA = Ok text → text ≠ "" →
  Marshal (text_envelope mA dA text) = Ok frame → fits frame →
  transmits (text_request text) → transmits okResp → transmits recv_request →
  transmits (itemResp (mkItem (text_envelope mA dA text) "")) →
  route st s t frame →
  daemon_at EB gB → dedupe_wf (d_dedupe dB) → @m_ulid mA ∉ seen (d_dedupe dB) →
  ∃ dA' st',
    room_send mA EA gA ["--text"] dA = (Some 0%Z, mkWorld dA' "" "") ∧
    links dA' !! r = Some (mkWriter (sent +:+ frame_bytes frame) None) ∧
    run st [LRead s; LSnapshot s; LDeliver s t; LWrite t] = Some st' ∧
    client_bytes st' t = client_bytes st t +:+ frame_bytes frame ∧
    let dB' := recvLoop now dB (mkReader (frame_bytes frame) EOF) in
    room_recv mB EB gB [] dB' = (Some 0%Z, mkWorld dB' (text +:+ nl) "").
Proof.
  intros HatA Hc Hin Hne Hm Hf Hq Hok Hrq Hrs Hroute HatB Hw Hfresh.
  destruct (relay_pass st s t frame Hf Hroute) as (st' & Hrun & Hbytes).
  eexists _, st'. split; [by eapply cmdSend_text|].
  split; [cbn; by rewrite lookup_insert_eq|]. split; [done|]. split; [done|]. cbv zeta.
  rewrite (recvLoop_one now dB frame (text_envelope mA dA text)) by (done || by apply cbor_sound).
  unfold room_recv. erewrite cmdRecv_latest; [|done..|by apply ingest_newest]. done.
Qed.

(** C19. [room clear] never touches the sinks without consent.  The command reaches the daemon and
    exits with 0; the daemon clears the sinks only when [--all] was given together with [--yes] or
    with a [y] or [yes] typed on a terminal; otherwise no file outside the blob cache changes and
    the session still knows what it wrote. *)
Theorem clear_needs_consent `{Cbor Envelope} `{Blake3} `{ImageCodec} `{MimeTable} `{Clipboard} `{Json}
    `{Cbor Request} `{Cbor Response} (m : Moment) E g args f d :
  daemon_at E g → (∀ all, transmits (clear_request all)) → transmits okResp →
  parse clear_flags args = ("", 0%Z, f) →
  ∃ w, room_clear m E g args d = (Some 0%Z, w) ∧
    peer w = applyClearScope d (if decide (consents E f) then "all" else "transient") ∧
    (¬ consents E f → StoreDir (cfg d) ≠ "" → fs_wf (fs d) →
     sess (peer w) = sess d ∧
     ∀ q, ¬ in_blobs (cfg d) q → nodes (fs (peer w)) !! q = nodes (fs d) !! q).
Proof.
  intros Hat Hq Hok Hp. unfold room_clear, cmdClear. rewrite (with_flags_run _ _ _ _ _ Hp).
  destruct (clear_consent_run E f (mkWorld d "" "")) as [se Hc].
  unfold mbind at 1, M_bind at 1. rewrite Hc. cbn [peer stdout].
  set (b := bool_decide (consents E f)).
  erewrite (call_run E g (clear_request b)); [|done|done|by apply handleReq_clear|done].
  assert ((if decide (consents E f) then "all" else "transient") =
          (if b then "all" else "transient")) as ->.
  { subst b. by destruct (decide (consents E f)) as [Hx|Hx];
      [rewrite bool_decide_eq_true_2|rewrite bool_decide_eq_false_2]. }
  change (String.eqb (rs_Kind okResp) RespErr) with false. cbv iota.
  unfold mbind, M_bind, mret, M_ret, println, print.
  destruct (Quiet g), b eqn:Eb; cbn [negb]; (eexists; split; [reflexivity|]; cbn [peer]; split; [done|]);
    intros Hn Hst Hwf; try (apply bool_decide_eq_true_1 in Eb; done);
    (split; [done|]); intros q Hb; by apply transient_keeps.
Qed.

(** An envelope of an unknown type without a blob takes down the receiving command: the daemon
    accepts it, and [room recv] then dereferences its missing blob.  Any device of the room can
    send one. *)
Theorem recv_unknown_type_panics `{Cbor Envelope} `{Blake3} `{ImageCodec} `{MimeTable} `{Clipboard} `{Json}
    `{Cbor Request} `{Cbor Response} (m : Moment) E g d now env :
  daemon_at E g → transmits recv_request → transmits (itemResp (mkItem env "")) →
  dedupe_wf (d_dedupe d) → MsgID env ∉ seen (d_dedupe d) →
  Type_ env ∉ [TypeText; TypeImage; TypeFile] → Blob_ env = None →
  (room_recv m E g [] (ingest now d env)).1 = None.
Proof.
  intros Hat Hq Hr Hw Hn Ht Hb.
  assert (Type_ env ≠ TypeText ∧ Type_ env ≠ TypeImage ∧ Type_ env ≠ TypeFile) as (Htt & Hti & Htf)
    by set_solver.
  unfold room_recv. erewrite cmdRecv_latest; [|done..|by apply ingest_newest].
  unfold mbind, M_bind. unfold printItem. cbn [itemResp rs_Item rs_Kind it_Envelope it_LocalPath].
  rewrite String.eqb_refl. cbn [negb]. unfold TypeText, TypeFile in Htt, Htf.
  apply String.eqb_neq in Htt, Htf. rewrite Htt, Htf. cbn [String.eqb negb andb orb].
  by rewrite Hb.
Qed.


(** ** Examples *)

#[local] Existing Instance pad_blake3.
#[local] Existing Instance clipboard_works.
#[local] Existing Instance frame_json.
#[local] Existing Instance strict_env.
#[local] Existing Instance strict_env_sound.
#[local] Existing Instance strict_req.
#[local] Existing Instance strict_resp.
#[local] Existing Instance strict_resp_sound.
#[local] Existing Instance no_images.
#[local] Existing Instance no_mime.

Definition demo_proc (stdin : string) : Env :=
  mkEnv (Err "") "host" "/run" "/tmp" false stdin None (λ _ _, Ok None) (Ok "/bin/room") (Err "") (λ _, Ok ()) 0
    (λ i, 75 * Z.of_nat i)%Z.
Definition demo_globals : Globals := mkGlobals "" "/run/room.sock" "" false false false.
Definition demo_moment (id : string) : Moment := mkMoment id 5 [].

Lemma demo_at stdin : daemon_at (demo_proc stdin) demo_globals.
Proof. by split. Qed.

Definition demo_text_env : Envelope := text_envelope (demo_moment "01") demo_connected "hi".
Definition demo_frame : string := bytes_of_msg demo_text_env.
Definition demo_route : Sys :=
  match run (init ∅)
    [LJoin 1 "fpA" ["lab"] (mkReader (frame_bytes demo_frame) EOF) None;
     LJoin 2 "fpB" ["lab"] (mkReader "" EOF) None] with
  | Some st => st
  | None => init ∅
  end.

Lemma demo_frame_ok : Marshal demo_text_env = Ok demo_frame ∧ fits demo_frame.
Proof.
  split; [vm_compute; reflexivity|]. apply (bool_decide_eq_true (fits demo_frame)).
  vm_compute. reflexivity.
Qed.

Lemma demo_transmits :
  transmits (text_request "hi") ∧ transmits okResp ∧ transmits recv_request ∧
  transmits (itemResp (mkItem demo_text_env "")).
Proof.
  split_and!.
  - apply (transmits_dec _ (bytes_of_msg (text_request "hi"))); vm_compute; reflexivity.
  - apply (transmits_dec _ (bytes_of_msg okResp)); vm_compute; reflexivity.
  - apply (transmits_dec _ (bytes_of_msg recv_request)); vm_compute; reflexivity.
  - apply (transmits_dec _ (bytes_of_msg (itemResp (mkItem demo_text_env ""))));
      vm_compute; reflexivity.
Qed.

Lemma demo_connected_ok : connected demo_connected 0%nat "".
Proof. by split. Qed.

Lemma demo_target : 2%nat ∈ targets (brk demo_route) "lab" 1%nat.
Proof.
  assert (bool_decide (2%nat ∈ targets (brk demo_route) "lab" 1%nat) = true) as Hb
    by (vm_compute; reflexivity).
  by apply bool_decide_eq_true_1 in Hb.
Qed.

Lemma demo_route_ok : route demo_route 1%nat 2%nat demo_frame.
Proof.
  split; [vm_compute; reflexivity| |].
  - do 2 eexists. exists "", EOF. rewrite str_app_nil_r.
    split; [vm_compute; reflexivity|]. split; [vm_compute; reflexivity|].
    split; [vm_compute; reflexivity|]. split; [vm_compute; reflexivity|].
    exact demo_target.
  - do 2 eexists. split; [vm_compute; reflexivity|]. split; [vm_compute; reflexivity|].
    split; [vm_compute; reflexivity|]. split; [vm_compute; reflexivity|].
    split; [vm_compute; lia|]. split; vm_compute; reflexivity.
Qed.

Lemma demo_dedupe : dedupe_wf (d_dedupe (demo_daemon "notify")) ∧ "01" ∉ seen (d_dedupe (demo_daemon "notify")).
Proof. split; [apply NewDedupe_wf|set_solver]. Qed.

Lemma handoff_text_witness :
  ∃ dA' st',
    room_send (demo_moment "01") (demo_proc "hi") demo_globals ["--text"] demo_connected =
      (Some 0%Z, mkWorld dA' "" "") ∧
    client_bytes st' 2%nat = frame_bytes demo_frame ∧
    stdout (room_recv (demo_moment "02") (demo_proc "") demo_globals []
      (recvLoop 7 (demo_daemon "notify") (mkReader (frame_bytes demo_frame) EOF))).2 = "hi" +:+ nl.
Proof.
  destruct demo_frame_ok as [Hm Hf]. destruct demo_transmits as (Hq & Hok & Hrq & Hrs).
  destruct demo_dedupe as [Hw Hn].
  destruct (handoff_text (demo_moment "01") (demo_moment "02") (demo_proc "hi") (demo_proc "")
    demo_globals demo_globals demo_connected (demo_daemon "notify") 0%nat "" "hi" demo_frame demo_route
    1%nat 2%nat 7%Z (demo_at "hi") demo_connected_ok eq_refl ltac:(discriminate) Hm Hf Hq Hok Hrq Hrs
    demo_route_ok (demo_at "") Hw Hn) as (dA' & st' & Hs & _ & _ & Hb & Hr).
  exists dA', st'. split; [exact Hs|]. split; [exact Hb|]. rewrite Hr. reflexivity.
Defined.

(** Clearing: with [--all --yes], and with [--all] alone on no terminal. *)
Definition demo_clear_flags (l : list string) : flagSet := (parse clear_flags l).2.

Lemma demo_clear_parses :
  parse clear_flags ["--all"; "--yes"] = ("", 0%Z, demo_clear_flags ["--all"; "--yes"]) ∧
  parse clear_flags ["--all"] = ("", 0%Z, demo_clear_flags ["--all"]).
Proof. split; vm_compute; reflexivity. Qed.

Lemma demo_clear_transmits all : transmits (clear_request all).
Proof.
  apply (transmits_dec _ (bytes_of_msg (clear_request all))); destruct all; vm_compute; reflexivity.
Qed.

Lemma demo_consents :
  bool_decide (consents (demo_proc "") (demo_clear_flags ["--all"; "--yes"])) = true ∧
  bool_decide (consents (demo_proc "") (demo_clear_flags ["--all"])) = false.
Proof. split; vm_compute; reflexivity. Qed.

Lemma demo_scopes :
  (if decide (consents (demo_proc "") (demo_clear_flags ["--all"; "--yes"]))
   then "all" else "transient") = "all" ∧
  (if decide (consents (demo_proc "") (demo_clear_flags ["--all"]))
   then "all" else "transient") = "transient".
Proof.
  destruct demo_consents as [Hc Hc'].
  apply bool_decide_eq_true_1 in Hc. apply bool_decide_eq_false_1 in Hc'.
  split; by case_decide.
Qed.

Lemma clear_needs_consent_witness :
  (∃ w, room_clear (demo_moment "01") (demo_proc "") demo_globals ["--all"; "--yes"] demo_connected =
     (Some 0%Z, w) ∧ peer w = applyClearScope demo_connected "all") ∧
  ∃ w, room_clear (demo_moment "01") (demo_proc "") demo_globals ["--all"] demo_connected =
     (Some 0%Z, w) ∧ peer w = applyClearScope demo_connected "transient".
Proof.
  destruct demo_clear_parses as [H1 H2]. destruct demo_scopes as [S1 S2].
  destruct demo_transmits as (_ & Hok & _). split.
  - destruct (clear_needs_consent (demo_moment "01") (demo_proc "") demo_globals _ _ demo_connected
      (demo_at "") demo_clear_transmits Hok H1) as (w & Hw & Hp & _).
    exists w. split; [exact Hw|]. rewrite S1 in Hp. exact Hp.
  - destruct (clear_needs_consent (demo_moment "01") (demo_proc "") demo_globals _ _ demo_connected
      (demo_at "") demo_clear_transmits Hok H2) as (w & Hw & Hp & _).
    exists w. split; [exact Hw|]. rewrite S2 in Hp. exact Hp.
Defined.

(** An envelope of a type this version does not know. *)
Definition demo_note : Envelope :=
  mkEnvelope Version "02" "note" "" "SHA256:peer" "peer" 5 "" "hello" None "".

Lemma demo_note_transmits : transmits (itemResp (mkItem demo_note "")).
Proof.
  apply (transmits_dec _ (bytes_of_msg (itemResp (mkItem demo_note "")))); vm_compute; reflexivity.
Qed.

Lemma recv_unknown_type_panics_witness :
  (room_recv (demo_moment "01") (demo_proc "") demo_globals [] (ingest 7 demo_connected demo_note)).1
    = None.
Proof.
  destruct demo_transmits as (_ & _ & Hrq & _). destruct demo_dedupe as [Hw _].
  apply (recv_unknown_type_panics (demo_moment "01") (demo_proc "") demo_globals demo_connected 7 demo_note
    (demo_at "") Hrq demo_note_transmits Hw).
  - set_solver.
  - set_solver.
  - reflexivity.
Defined.

(** A machine on which nothing but the daemon happens. *)
Definition idle_machine : Machine Daemon := {|
  exec d _ := (mkEnded (Some "exec") "" "", d);
  Remote.start d _ := (Err "exec", d);
  kill d _ _ := (false, d);
  listen d _ := (true, d);
  connect d _ := (false, d);
  Remote.now _ := 0%Z;
  sleep d _ := d |}.
#[local] Existing Instance idle_machine.
#[local] Existing Instance strict_state.
#[local] Existing Instance string_keys.
Definition no_keys : AuthorizedKeys := λ _, Err "ssh: no key found".
#[local] Existing Instance no_keys.

Definition demo_self : Self := mkSelf (Ok "/src") (Ok "/bin/room") "linux" "amd64".
Definition demo_outside : Outside :=
  mkOutside _ (Ok "key" : result string (@privkey string_keys)) (Ok "pem") (λ _ _ _, Ok ()) ServeNil (Ok ()).
Definition demo_main (m : Moment) (args : list string) : option Z :=
  (main (demo_proc "") demo_self demo_outside (λ _ _ _, mret None) args
     (mkWorld demo_connected "" "")).1.

Definition demo_lines : list (list string) :=
  [["--socket"; "/s"; "status"]; ["send"]; ["config"; "get"; "nope"; "--socket=/s"]; ["bogus"]].

Lemma demo_main_runs :
  map (demo_main (demo_moment "01")) demo_lines = [Some 0; Some 2; Some 2; Some 2]%Z.
Proof. vm_compute. reflexivity. Qed.

Definition demo_now : Moment := demo_moment "01".
#[local] Existing Instance demo_now.

Lemma demo_main_status :
  (main (demo_proc "") demo_self demo_outside (λ _ _ _, mret None) ["--socket"; "/s"; "status"]
     (mkWorld demo_connected "" "")).1 = Some 0%Z.
Proof. vm_compute. reflexivity. Qed.

