(* ===== verification/Rooms.v ===== *)
(** * Any number of machines in a room

    The daemons and the relay together, against an abstract room.  [feed] says what a room promises
    a member: posts of other members of its room, whole, and those of each poster in the order in
    which they were posted.  The theorem at the end is that what a daemon keeps is such a feed, in
    every reachable state of the relay under every interleaving, wherever connections break. *)
From S2P Require Import Prelude GoStr GoPath GoOS Wire Codec Chan Broker Server Dedupe Ipc Clip GoTime Config Sinks Daemon Handlers Conn.
Open Scope string_scope.
Open Scope list_scope.

(** ** The abstract room *)

(** [h] is a feed of the members that satisfy [peer], when [posts s] is what [s] has posted. *)
Record feed {A} (peer : sid → Prop) (posts : sid → list A) (h : list (sid * A)) : Prop := {
  feed_from : ∀ s a, (s, a) ∈ h → peer s;
  feed_order : ∀ s, map snd (filter (λ x, x.1 = s) h) `sublist_of` posts s;
}.

(** ** A machine that sends *)

(** What a link holds: frames, and when its writer has failed, a part of one more and no room. *)
Definition link_holds (w : writer) (frames : list string) : Prop :=
  Forall fits frames ∧ ∃ t, w_buf w = frames_bytes frames +:+ t ∧
    (t = "" ∨ (∃ p b, fits p ∧ frame_bytes p = t +:+ b ∧ b ≠ "") ∧ w_left w = Some 0%nat).

Lemma WriteFrame_stuck w p : w_left w = Some 0%nat → ∃ e, WriteFrame w p = (Err e, w).
Proof.
  destruct w as [buf l]. cbn. intros ->. unfold WriteFrame. destruct (MaxFrame <? len p)%Z; [by eexists|].
  unfold Write. cbn [w_left w_buf]. rewrite length_PutUint32. cbn.
  rewrite str_app_nil_r. by eexists.
Qed.

Lemma WriteFrame_left w p e w' : WriteFrame w p = (Err (FrameIO e), w') → w_left w' = Some 0%nat.
Proof.
  unfold WriteFrame. destruct (MaxFrame <? len p)%Z; [done|]. unfold Write.
  repeat case_match; intros; simplify_eq/=; done.
Qed.

Lemma WriteFrame_wrote w p u w' :
  WriteFrame w p = (Ok u, w') → fits p ∧ w_buf w' = w_buf w +:+ frame_bytes p.
Proof.
  unfold WriteFrame. destruct (Z.ltb_spec MaxFrame (len p)); [done|]. intros Hw. split; [done|].
  revert Hw. rewrite uint32_fits by done. unfold Write, frame_bytes.
  repeat case_match; intros; simplify_eq/=; by rewrite str_app_assoc.
Qed.

Lemma WriteFrame_large w p n w' :
  WriteFrame w p = (Err (FrameTooLarge n), w') → w' = w.
Proof.
  unfold WriteFrame. destruct (MaxFrame <? len p)%Z; [by intros [=]|]. unfold Write.
  repeat case_match; intros; by simplify_eq/=.
Qed.

Lemma WriteFrame_link w frames p r w' :
  link_holds w frames → WriteFrame w p = (r, w') →
  link_holds w' (frames ++ if is_ok r then [p] else []).
Proof.
  intros [Hf (t & Hb & Ht)] Hw. destruct (decide (w_left w = Some 0%nat)) as [El|El].
  { destruct (WriteFrame_stuck w p El) as [e He]. rewrite He in Hw. injection Hw as <- <-. cbn [is_ok].
    rewrite app_nil_r. split; [done|]. by exists t. }
  destruct Ht as [->|[_ ?]]; [|done]. rewrite str_app_nil_r in Hb. destruct r as [u|[n|e]]; cbn [is_ok].
  - apply WriteFrame_wrote in Hw as [Hp Hw]. split; [apply Forall_app; by split; [|constructor]|].
    exists "". split; [|by left]. rewrite Hw, Hb, frames_bytes_app. cbn [frames_bytes].
    by rewrite !str_app_nil_r.
  - apply WriteFrame_large in Hw as ->. rewrite app_nil_r. split; [done|]. exists "".
    split; [by rewrite str_app_nil_r|by left].
  - rewrite app_nil_r. split; [done|].
    destruct (WriteFrame_torn _ _ _ _ Hw) as (a & b & Hab & Hne & Hw'). exists a.
    split; [by rewrite Hw', Hb|]. right. split; [|by eapply WriteFrame_left].
    exists p, b. split_and!; [|done|done]. unfold fits. unfold WriteFrame in Hw.
    destruct (Z.ltb_spec MaxFrame (len p)); [done|lia].
Qed.

Section rooms.
Context `{Cbor Envelope} `{Blake3} `{ImageCodec} `{MimeTable}.

(** A [send] request, with the message id and the clock it gets. *)
Definition post : Type := string * Z * Request.

(** The envelopes that [handleSend] took, and the daemon behind a number of requests. *)
Fixpoint send_all (d : Daemon) (posts : list post) : list Envelope * Daemon :=
  match posts with
  | [] => ([], d)
  | (ulid, ms, req) :: posts =>
      let '(r, d1) := handleSend ulid ms d req in
      let took := match build_envelope ulid ms d req with
                  | Ok env => if (rs_Code r =? 0)%Z then [env] else []
                  | Err _ => []
                  end in
      let '(envs, d2) := send_all d1 posts in
      (took ++ envs, d2)
  end.

(** A machine of the room: its daemon with a fresh session [m_link], and what is sent from it. *)
Record machine := mkMachine { m_daemon : Daemon; m_link : ref; m_posts : list post }.

Definition posted (m : machine) : list Envelope := (send_all (m_daemon m) (m_posts m)).1.
Definition sent_bytes (m : machine) : string :=
  match links (send_all (m_daemon m) (m_posts m)).2 !! m_link m with
  | Some w => w_buf w
  | None => ""
  end.

Definition machine_ok (m : machine) : Prop :=
  c_in (d_conn (m_daemon m)) = Some (m_link m) ∧ c_connected (d_conn (m_daemon m)) = true ∧
  ∃ lim, links (m_daemon m) !! m_link m = Some (mkWriter "" lim).

(** The frames of the envelopes, in order. *)
Definition encodes (envs : list Envelope) (frames : list string) : Prop :=
  Forall2 (λ env f, Marshal env = Ok f) envs frames.

Lemma sendFrame_link d r w frames frame e d' :
  c_in (d_conn d) = Some r → c_connected (d_conn d) = true → links d !! r = Some w →
  link_holds w frames → sendFrame d frame = (e, d') →
  d_conn d' = d_conn d ∧ fp d' = fp d ∧
  ∃ w', links d' !! r = Some w' ∧
    link_holds w' (frames ++ match e with None => [frame] | Some _ => [] end).
Proof.
  intros Hi Hc Hl Hw. unfold sendFrame. rewrite Hi, Hc, Hl. cbn [negb].
  destruct (WriteFrame w frame) as [res w'] eqn:E. apply (WriteFrame_link _ _ _ _ _ Hw) in E.
  destruct res as [u|er]; cbn [is_ok] in E; intros [= <- <-]; (split_and!; [done|done|]);
    exists w'; (split; [apply lookup_insert_eq|done]).
Qed.

Lemma handleSend_link d r w frames ulid ms req rs d' :
  c_in (d_conn d) = Some r → c_connected (d_conn d) = true → links d !! r = Some w →
  link_holds w frames → handleSend ulid ms d req = (rs, d') →
  d_conn d' = d_conn d ∧ fp d' = fp d ∧
  ∃ w' envs fr, links d' !! r = Some w' ∧ link_holds w' (frames ++ fr) ∧ encodes envs fr ∧
    Forall (λ env, Sender env = fp d) envs ∧
    envs = match build_envelope ulid ms d req with
           | Ok env => if (rs_Code rs =? 0)%Z then [env] else []
           | Err _ => []
           end.
Proof.
  intros Hi Hc Hl Hw. unfold handleSend.
  assert (∀ rs d', (rs_Code rs ≠ 0)%Z ∨ is_ok (build_envelope ulid ms d req) = false → d' = d →
    d_conn d' = d_conn d ∧ fp d' = fp d ∧
    ∃ w' envs fr, links d' !! r = Some w' ∧ link_holds w' (frames ++ fr) ∧ encodes envs fr ∧
      Forall (λ env, Sender env = fp d) envs ∧
      envs = match build_envelope ulid ms d req with
             | Ok env => if (rs_Code rs =? 0)%Z then [env] else []
             | Err _ => []
             end) as Hno.
  { intros rs' d1 Hn ->. split_and!; [done..|]. exists w, [], []. rewrite app_nil_r.
    split_and!; [done|done|constructor|constructor|]. destruct (build_envelope _ _ _ _) as [env|]; [|done].
    destruct Hn as [Hn|Hn]; [|done]. by rewrite (proj2 (Z.eqb_neq _ _) Hn). }
  destruct (Z.eqb_spec (len (rq_Bytes req)) 0) as [Hz|Hz]; [intros [= <- <-]; apply (Hno (errResp 2 "empty payload")); [by left|done]|].
  revert Hno. destruct (build_envelope ulid ms d req) as [env|r0] eqn:Eb; intros Hno;
    [|intros [= <- <-]; apply (Hno r0); [by right|done]].
  destruct (Marshal env) as [frame|e] eqn:Em; [|intros [= <- <-]; apply (Hno (errResp 1 e)); [by left|done]].
  destruct (sendFrame d frame) as [e d1] eqn:Es.
  destruct (sendFrame_link _ _ _ _ _ _ _ Hi Hc Hl Hw Es) as (Hd & Hf & w' & Hl' & Hw').
  apply build_envelope_ok in Eb as [(_ & _ & Hsd & _) _ _].
  destruct e as [e|]; intros [= <- <-]; (split_and!; [done|done|]).
  - exists w', [], []. split_and!; try done; constructor.
  - exists w', [env], [frame]. split_and!; try done; by repeat constructor.
Qed.

(** What a machine has written to its session. *)
Lemma send_all_link posts d r w frames envs d' :
  c_in (d_conn d) = Some r → c_connected (d_conn d) = true → links d !! r = Some w →
  link_holds w frames → send_all d posts = (envs, d') →
  Forall (λ env, Sender env = fp d) envs ∧
  ∃ w' fr, links d' !! r = Some w' ∧ link_holds w' (frames ++ fr) ∧ encodes envs fr.
Proof.
  revert d w frames envs. induction posts as [|[[ulid ms] req] posts IH]; intros d w frames envs Hi Hc Hl Hw;
    cbn [send_all].
  { intros [= <- <-]. split; [constructor|]. exists w, []. rewrite app_nil_r.
    split_and!; [done|done|constructor]. }
  destruct (handleSend ulid ms d req) as [rs d1] eqn:Es.
  destruct (handleSend_link _ _ _ _ _ _ _ _ _ Hi Hc Hl Hw Es)
    as (Hd & Hf & w1 & es & fr & Hl1 & Hw1 & Hen & Hsd & Hes). rewrite <-Hes.
  destruct (send_all d1 posts) as [envs2 d2] eqn:E2. intros [= <- <-].
  destruct (IH d1 w1 (frames ++ fr) envs2) as (Hsd2 & w2 & fr2 & Hl2 & Hw2 & Hen2);
    [by rewrite Hd|by rewrite Hd|done|done|done|].
  split; [apply Forall_app; split; [done|by rewrite <-Hf]|]. exists w2, (fr ++ fr2).
  split_and!; [done|by rewrite app_assoc|by apply Forall2_app].
Qed.

(** What the relay reads from a machine: its envelopes, encoded. *)
Lemma machine_frames m e :
  machine_ok m →
  Forall (λ env, Sender env = fp (m_daemon m)) (posted m) ∧
  encodes (posted m) (ReadFrames (mkReader (sent_bytes m) e)).1.
Proof.
  intros (Hi & Hc & lim & Hl). unfold posted, sent_bytes.
  destruct (send_all (m_daemon m) (m_posts m)) as [envs d'] eqn:E. cbn [fst snd].
  destruct (send_all_link (m_posts m) _ _ _ [] envs d' Hi Hc Hl) as (Hsd & w & fr & -> & [Hf (t & Hb & Ht)] & Hen);
    [split; [constructor|]; exists ""; split; [done|by left]|done|].
  split; [done|]. cbn [app] in *. rewrite Hb.
  destruct (read_back_torn fr t e) as [err ->]; [done|destruct Ht as [->|[Ht _]]; [by left|by right]|done].
Qed.

(** ** A machine that receives *)

Definition decode (frame : string) : option Envelope :=
  match Unmarshal frame with Ok env => Some env | Err _ => None end.

(** What a client is handed, with the session it came from. *)
Definition history (ds : list delivery) : list (sid * Envelope) :=
  omap (λ dl, pair (d_from dl) <$> decode (d_frame dl)) ds.

Lemma history_all ds : map snd (history ds) = omap decode (map d_frame ds).
Proof.
  unfold history. induction ds as [|dl ds IH]; [done|]. cbn.
  by destruct (decode (d_frame dl)); cbn; rewrite IH.
Qed.

Lemma history_from s ds :
  map snd (filter (λ x, x.1 = s) (history ds)) =
  omap decode (map d_frame (filter (λ dl, d_from dl = s) ds)).
Proof.
  unfold history. induction ds as [|dl ds IH]; [done|]. cbn [omap list_omap]. rewrite filter_cons.
  destruct (decode (d_frame dl)) as [env|] eqn:E; cbn [fmap option_fmap option_map].
  - rewrite filter_cons. cbn [fst]. case_decide; cbn; rewrite ?E, ?IH; done.
  - case_decide; cbn; rewrite ?E, ?IH; done.
Qed.

Lemma history_elem s env ds :
  (s, env) ∈ history ds → ∃ dl, dl ∈ ds ∧ d_from dl = s ∧ decode (d_frame dl) = Some env.
Proof.
  unfold history. intros (dl & Hin & Hd)%list_elem_of_omap. exists dl. split; [done|].
  destruct (decode (d_frame dl)); [|done]. by injection Hd as -> ->.
Qed.

Lemma sublist_omap {A B} (f : A → option B) l k : l `sublist_of` k → omap f l `sublist_of` omap f k.
Proof. induction 1; cbn; [done|..]; destruct (f _); cbn; by try constructor. Qed.

Context `{!CborSound Envelope}.

Lemma decode_encodes envs frames : encodes envs frames → omap decode frames = envs.
Proof.
  induction 1 as [|env f envs frames Hm _ IH]; [done|]. cbn [omap list_omap].
  unfold decode at 1, Unmarshal. rewrite (cbor_sound env f) by done. by f_equal.
Qed.

(** What a client decodes is a feed, when what the others write are the encodings of [posts]. *)
Lemma client_feed al st t rt e (posts : sid → list Envelope) (P : sid → Envelope → Prop) :
  reaches (init al) st → relays st !! t = Some rt →
  (∀ s rs, relays st !! s = Some rs → s ≠ t →
     Forall (P s) (posts s) ∧ encodes (posts s) (ReadFrames (inp0 rs)).1) →
  ∃ h, feed (λ s, s ≠ t ∧ ∃ a b, heap st !! s = Some a ∧ heap st !! t = Some b ∧ Room a = Room b) posts h ∧
    (∀ s env, (s, env) ∈ h → P s env) ∧
    map snd h = omap decode (ReadFrames (mkReader (w_buf (out rt)) e)).1.
Proof.
  intros Hr Ht Hms. destruct (relay_history al st t rt e Hr Ht) as (ds & err & Hds & Hfrom & Hsent).
  exists (history ds). rewrite Hds, history_all.
  assert (∀ s env, (s, env) ∈ history ds → ∃ rs, relays st !! s = Some rs ∧ s ≠ t ∧
    ∃ a b, heap st !! s = Some a ∧ heap st !! t = Some b ∧ Room a = Room b) as Hpeer.
  { intros s env (dl & Hin & <- & _)%history_elem.
    destruct (Hfrom dl Hin) as (_ & Hne & [rs Hrs] & Hroom). by exists rs. }
  assert (∀ s, map snd (filter (λ x, x.1 = s) (history ds)) `sublist_of` posts s) as Hord.
  { intros s. destruct (map snd _) as [|env l] eqn:E; [apply sublist_nil_l|]. rewrite <-E.
    assert ((∃ env, (s, env) ∈ history ds)) as [env' Hin].
    { destruct (filter _ _) as [|[s' env'] l'] eqn:Ef; [done|]. exists env'.
      assert ((s', env') ∈ filter (λ x, x.1 = s) (history ds)) as Hx by (rewrite Ef; by left).
      apply list_elem_of_filter in Hx as [Hx1 Hx2]. cbn in Hx1. by subst. }
    destruct (Hpeer s env' Hin) as (rs & Hrs & Hne & _). destruct (Hms s rs Hrs Hne) as [_ Hen].
    rewrite history_from, <-(decode_encodes _ _ Hen). by apply sublist_omap, Hsent. }
  split_and!; [split; [|done]|..|done].
  - intros s env (rs & _ & Hp)%Hpeer. exact Hp.
  - intros s env Hin. destruct (Hpeer s env Hin) as (rs & Hrs & Hne & _).
    destruct (Hms s rs Hrs Hne) as [Hsd _]. rewrite Forall_forall in Hsd. apply Hsd.
    eapply elem_of_subseteq; [by eapply sublist_subseteq, (Hord s)|].
    apply list_elem_of_fmap. exists (s, env). split; [done|]. by apply list_elem_of_filter.
Qed.

Context `{Clipboard} `{Json}.

Lemma recvLoop_items now d r :
  daemon_ok d →
  ∃ items, buffer (recvLoop now d r) = lastn bufferCap (buffer d ++ items) ∧ Forall item_ok items ∧
    map it_Envelope items `sublist_of` omap decode (ReadFrames r).1.
Proof.
  intros Hok. rewrite recvLoop_spec. set (envs := omap _ _).
  exists (accepted d envs). destruct (accepted_ok d envs) as [Hi Hs].
  split_and!; [by apply ingest_all_buffer|done|]. etrans; [exact Hs|]. unfold envs, decode.
  clear. induction (ReadFrames r).1 as [|f fs IH]; [done|]. cbn.
  destruct (Unmarshal f); cbn; [by apply sublist_skip|done].
Qed.
End rooms.

(** ** Properties *)

(** A room.  In every reachable state of the relay, whatever the interleaving, when the other
    sessions belong to daemons that were asked to [send], what is in the buffer of a daemon that
    receives is a feed of the abstract room: whole envelopes that daemons of the same room built
    from what they were asked to send, signed with the sender's identity, those of each sender in
    its order, none twice, every image and file among them intact; the last 64 of those the daemon
    accepted.  Connections may break anywhere, on both sides. *)
Theorem room_feeds_members `{Cbor Envelope} `{Blake3} `{ImageCodec} `{MimeTable} `{Clipboard} `{Json}
    `{!CborSound Envelope} al st t rt e (ms : sid → machine) now d :
  reaches (init al) st → relays st !! t = Some rt →
  (∀ s rs, relays st !! s = Some rs → s ≠ t →
     machine_ok (ms s) ∧ ∃ e, inp0 rs = mkReader (sent_bytes (ms s)) e) →
  daemon_ok d →
  ∃ h items,
    feed (λ s, s ≠ t ∧ ∃ a b, heap st !! s = Some a ∧ heap st !! t = Some b ∧ Room a = Room b)
      (λ s, posted (ms s)) h ∧
    (∀ s env, (s, env) ∈ h → Sender env = fp (m_daemon (ms s))) ∧
    buffer (recvLoop now d (mkReader (w_buf (out rt)) e)) = lastn bufferCap (buffer d ++ items) ∧
    map it_Envelope items `sublist_of` map snd h ∧ Forall item_ok items.
Proof.
  intros Hr Ht Hms Hok.
  destruct (recvLoop_items now d (mkReader (w_buf (out rt)) e) Hok) as (items & Hb & Hi & Hs).
  destruct (client_feed al st t rt e (λ s, posted (ms s)) (λ s env, Sender env = fp (m_daemon (ms s))) Hr Ht)
    as (h & Hf & Hp & Hh).
  { intros s rs Hrs Hne. destruct (Hms s rs Hrs Hne) as [Hm [e' ->]]. by apply machine_frames. }
  rewrite <-Hh in Hs. by exists h, items.
Qed.

(** ** An example *)

#[local] Existing Instance pad_blake3.
#[local] Existing Instance clipboard_works.
#[local] Existing Instance frame_json.
#[local] Existing Instance strict_env.
#[local] Existing Instance strict_env_sound.
#[local] Existing Instance no_images.
#[local] Existing Instance no_mime.

(** Session 1 is a daemon that is asked to send a text and an empty one, and session 2 receives. *)
Definition demo_machine : machine :=
  mkMachine demo_connected 0 [("01", 5%Z, demo_send "hello" "" ""); ("02", 6%Z, demo_send "" "" "")].

Definition demo_room : list label :=
  [LJoin 1 "SHA256:a" ["lab"] (mkReader (sent_bytes demo_machine) EOF) None;
   LJoin 2 "SHA256:b" ["lab"] (mkReader "" EOF) None;
   LRead 1; LSnapshot 1; LDeliver 1 2; LDelivered 1; LRead 1; LWrite 2].

Definition demo_room_end : Sys := sys_after demo_room.

Lemma demo_room_reaches : reaches (init ∅) demo_room_end.
Proof. apply sys_after_reaches. vm_compute. by eexists. Qed.

Lemma demo_room_sessions : dom (relays demo_room_end) = {[1%nat; 2%nat]}.
Proof. apply (bool_decide_unpack _). vm_compute. exact I. Qed.

Lemma demo_room_first : inp0 <$> relays demo_room_end !! 1%nat = Some (mkReader (sent_bytes demo_machine) EOF).
Proof. vm_compute. reflexivity. Qed.

Lemma demo_room_inputs s rs :
  relays demo_room_end !! s = Some rs → s ≠ 2%nat → inp0 rs = mkReader (sent_bytes demo_machine) EOF.
Proof.
  intros Hs Hne. assert (s ∈ dom (relays demo_room_end)) as Hd by by apply elem_of_dom_2 in Hs.
  rewrite demo_room_sessions in Hd. apply elem_of_union in Hd as [Hd|Hd]; apply elem_of_singleton in Hd as ->; [|done].
  pose proof demo_room_first as Hf. rewrite Hs in Hf. cbn in Hf. congruence.
Qed.

Definition demo_rt : relay :=
  default (mkRelay Reading (mkReader "" EOF) (mkWriter "" None) false (mkReader "" EOF) [])
    (relays demo_room_end !! 2%nat).

Lemma demo_rt_there : relays demo_room_end !! 2%nat = Some demo_rt.
Proof. vm_compute. reflexivity. Qed.

Lemma room_feeds_members_witness :
  ∃ h items,
    buffer (recvLoop 0 (demo_daemon "notify") (mkReader (w_buf (out demo_rt)) EOF)) = lastn bufferCap ([] ++ items) ∧
    map it_Envelope items `sublist_of` map snd h ∧
    map snd (filter (λ x, x.1 = 1%nat) h) `sublist_of` posted demo_machine ∧
    map Text (posted demo_machine) = ["hello"].
Proof.
  destruct (room_feeds_members ∅ demo_room_end 2%nat demo_rt EOF (λ _, demo_machine) 0
    (demo_daemon "notify") demo_room_reaches demo_rt_there) as (h & items & [_ Ho] & _ & Hb & Hs & _).
  - intros s rs Hs Hne. split; [|exists EOF; by apply (demo_room_inputs s)].
    split_and!; [reflexivity|reflexivity|by exists None].
  - apply demo_daemon_ok.
  - exists h, items. split_and!; [exact Hb|exact Hs|exact (Ho 1%nat)|vm_compute; reflexivity].
Defined.
