(* ===== verification/Delivery.v ===== *)
(** * Nothing is lost

    What the relay and the daemons deliver, as opposed to what they may deliver ([Rooms]).  The
    relay drops a frame only when the queue of a session is full; so as long as fewer frames have
    been queued for a session than its queue holds, every frame that another session of the room
    sends from then on comes through, and every text of it is accepted by the daemon behind it. *)
From S2P Require Import Prelude GoStr GoPath GoOS Wire Codec Chan Broker Server Dedupe Ipc Clip GoTime Config Sinks Daemon Handlers Conn Rooms.
Open Scope string_scope.
Open Scope list_scope.

(** ** What a step does to a session *)

(** The session whose goroutine takes the step. *)
Definition actor (l : label) : sid :=
  match l with
  | LJoin s _ _ _ _ | LRead s | LSnapshot s | LDeliver s _ | LDelivered s | LWrite s | LLeave s => s
  end.

(** A session's reader loop as the others see it. *)
Definition same_loop (r r' : relay) : Prop := at_ r' = at_ r ∧ got r' = got r.

Lemma settled_same r r' t : same_loop r r' → settled r' t = settled r t.
Proof. intros [Ha Hg]. unfold settled. by rewrite Ha, Hg. Qed.

(** Nobody but its own goroutines moves a session. *)
Lemma step_other st l st' x r :
  step_fn st l = Some st' → actor l ≠ x → relays st !! x = Some r → relays st' !! x = Some r.
Proof.
  unfold step_fn. destruct (crashed st); [done|]. intros Hst Hne Hx.
  destruct l; cbn [actor] in Hne; unfold join, read, deliver_one, write, set_relay in Hst;
    repeat split_match; simplify_eq; cbn [relays]; by rewrite ?lookup_insert_ne by done.
Qed.

(** Writing leaves the reader loop where it is. *)
Lemma step_write st x st' r :
  step_fn st (LWrite x) = Some st' → relays st !! x = Some r →
  log st' = log st ∧ ∃ r', relays st' !! x = Some r' ∧ same_loop r r'.
Proof.
  unfold step_fn. destruct (crashed st); [done|]. intros Hst Hx. rewrite Hx in Hst.
  unfold write, set_relay in Hst. repeat split_match; simplify_eq; cbn [relays log];
    (split; [done|]); rewrite lookup_insert_eq; by eexists.
Qed.

(** The log only grows, and only by what is delivered. *)
Lemma step_log st l st' :
  step_fn st l = Some st' →
  log st' = log st ∨ ∃ s t f, l = LDeliver s t ∧ log st' = log st ++ [mkDelivery s t f].
Proof.
  unfold step_fn. destruct (crashed st); [done|]. intros Hst.
  destruct l as [s fp cmd input lim|s|s|s t|s|s|s]; unfold join, read, deliver_one, write, set_relay in Hst;
    repeat split_match; simplify_eq; cbn [log]; eauto. right. by eexists _, _, _.
Qed.

(** Sessions stay, in their room, and a loop that has ended has ended. *)
Lemma step_heap st l st' : step_fn st l = Some st' → heap_ext (heap st) (heap st').
Proof.
  unfold step_fn. destruct (crashed st); [done|]. intros Hst.
  destruct l as [s fp cmd input lim|s|s|s t|s|s|s]; unfold join, read, deliver_one, write, set_relay in Hst;
    repeat split_match; simplify_eq; cbn [heap]; eauto using heap_ext_refl, heap_ext_insert, heap_ext_fresh.
  all: match goal with H : deliver _ _ _ = _ |- _ => apply deliver_cases in H as [[-> ->]|(ses & Ht & _ & -> & _)] end;
    [apply heap_ext_refl|by apply heap_ext_insert].
Qed.

Lemma step_ended st l st' x r :
  sys_inv st → step_fn st l = Some st' → relays st !! x = Some r →
  ∃ r', relays st' !! x = Some r' ∧ inp0 r' = inp0 r ∧ (ended (at_ r') = false → ended (at_ r) = false).
Proof.
  intros HI Hst Hx. destruct (decide (actor l = x)) as [<-|Hne];
    [|exists r; split; [by eapply step_other|done]].
  assert (is_Some (heap st !! actor l)) as [ses Hses] by (apply (si_dom _ HI); eauto).
  unfold step_fn in Hst. destruct (crashed st); [done|].
  destruct l as [s fp cmd input lim|s|s|s t|s|s|s]; cbn [actor] in *; rewrite ?Hx, ?Hses in Hst;
    unfold join, read, deliver_one, write, set_relay in Hst; rewrite ?Hses in Hst;
    repeat split_match; simplify_eq; cbn [relays];
    rewrite ?lookup_insert_eq; eexists; (split; [done|]); (split; [done|]); cbn [at_ set_at ended];
    repeat match goal with H : at_ r = _ |- _ => rewrite H; clear H end; done.
Qed.

(** ** The invariant *)

(** The two sessions are in one room. *)
Definition share_room (st : Sys) (s t : sid) : Prop :=
  ∃ a b, heap st !! s = Some a ∧ heap st !! t = Some b ∧ Room a = Room b.

Lemma share_room_ext st st' s t :
  heap_ext (heap st) (heap st') → share_room st s t → share_room st' s t.
Proof.
  intros Hh (a & b & (a' & ? & ? & _)%Hh & (b' & ? & ? & _)%Hh & ?).
  exists a', b'. split_and!; congruence.
Qed.

(** The session still takes frames, and its queue never was full. *)
Definition roomy (st : Sys) (t : sid) : Prop :=
  (∃ rt, relays st !! t = Some rt ∧ ended (at_ rt) = false) ∧
  (length (frames_to t (log st)) < OutCap)%nat.

Lemma roomy_back st l st' t rt :
  sys_inv st → step_fn st l = Some st' → relays st !! t = Some rt → roomy st' t → roomy st t.
Proof.
  intros HI Hst Ht [(rt' & Hrt' & He) Hl]. destruct (step_ended _ _ _ _ _ HI Hst Ht) as (r1 & Hr1 & _ & Hr).
  rewrite Hrt' in Hr1. injection Hr1 as <-. split; [by eauto|].
  destruct (step_log _ _ _ Hst) as [<-|(a & b & f & _ & Hlog)]; [done|].
  rewrite Hlog, frames_to_snoc, length_app in Hl. lia.
Qed.

(** Since a state in which [t] had had its turn for [g] and had been handed [base], it has been
    handed all it has had its turn for. *)
Definition kept (s t : sid) (g base : list string) (st : Sys) : Prop :=
  roomy st t → ∀ r, relays st !! s = Some r →
  ∃ x, settled r t = g ++ x ∧ frames_between s t (log st) = base ++ x.

(** A step that moves neither the loop of [s] nor the log between the two. *)
Lemma kept_same s t g base st l st' r r' :
  sys_inv st → step_fn st l = Some st' → is_Some (relays st !! t) →
  relays st !! s = Some r → relays st' !! s = Some r' →
  settled r' t = settled r t → frames_between s t (log st') = frames_between s t (log st) →
  kept s t g base st → kept s t g base st'.
Proof.
  intros HI Hst [rt Ht] Hr Hr' Hs Hf Hk Hroom r1 Hr1. rewrite Hr' in Hr1. injection Hr1 as <-.
  rewrite Hs, Hf. eapply Hk, Hr. by eapply roomy_back.
Qed.

Lemma frames_between_other s t st l st' :
  step_fn st l = Some st' → l ≠ LDeliver s t → frames_between s t (log st') = frames_between s t (log st).
Proof.
  intros [->|(a & b & f & -> & ->)]%step_log Hne; [done|]. rewrite frames_between_snoc. cbn [d_from d_to].
  rewrite decide_False; [by rewrite app_nil_r|]. intros [-> ->]. done.
Qed.

(** Its turn comes: a snapshot taken while [t] is in the room has [t]. *)
Lemma snapshot_has st s t r frame :
  sys_inv st → s ≠ t → share_room st s t → roomy st t → relays st !! s = Some r → at_ r = Got frame →
  ∀ ses, heap st !! s = Some ses →
  settled (set_at r (Fanning frame (targets (brk st) (Room ses) s))) t = settled r t.
Proof.
  intros HI Hne (a & b & Ha & Hb & Hab) [(rt & Hrt & He) _] Hr Hat ses Hses.
  rewrite Ha in Hses. injection Hses as ->. unfold settled. cbn [at_ set_at got]. rewrite Hat.
  rewrite decide_True; [done|]. apply targets_elem. split; [|done]. rewrite Hab.
  apply (ri_member _ _ _ _ (si_relay _ HI _ _ _ Hrt Hb)). by intros Hl; rewrite Hl in He.
Qed.

(** Its turn is taken: the queue has room. *)
Lemma delivery_taken s t g base st st' :
  sys_inv st → roomy st' t → is_Some (relays st !! t) →
  step_fn st (LDeliver s t) = Some st' → kept s t g base st → kept s t g base st'.
Proof.
  intros HI Hroomy [rt Ht] Hst Hk _ r' Hr'. pose proof (roomy_back _ _ _ _ _ HI Hst Ht Hroomy) as Hro.
  pose proof Hro as [(rt1 & Hrt1 & He) Hl]. rewrite Ht in Hrt1. injection Hrt1 as <-.
  unfold step_fn in Hst. destruct (crashed st); [done|].
  destruct (relays st !! s) as [r|] eqn:Hr; [|done]. destruct (at_ r) as [| |frame rest| |] eqn:Hat; try done.
  destruct (decide (t ∈ rest)) as [Hin|]; [|done]. injection Hst as <-.
  assert (is_Some (heap st !! s)) as [ses Hses] by (apply (si_dom _ HI); eauto).
  assert (is_Some (heap st !! t)) as [st_t Hst_t] by (apply (si_dom _ HI); eauto).
  pose proof (si_relay _ HI _ _ _ Hr Hses) as HIs. pose proof (si_relay _ HI _ _ _ Ht Hst_t) as HIt.
  destruct (ri_stream _ _ _ _ HIt) as (w & lim & res & Hto & _).
  destruct (ri_cap _ _ _ _ HIt) as [Hcap _].
  unfold deliver_one, deliver in Hr' |- *. rewrite Hst_t in Hr' |- *. unfold try_send in Hr' |- *.
  rewrite (ri_closed _ _ _ _ HIt), He in Hr' |- *.
  assert ((length (queue (Out st_t)) <? chan_cap (Out st_t))%nat = true) as Hq.
  { apply Nat.ltb_lt. rewrite Hto, length_app in Hl. lia. }
  rewrite Hq in Hr' |- *. cbn [relays log] in Hr' |- *. rewrite lookup_insert_eq in Hr'. injection Hr' as <-.
  change (1 =? 0)%Z with false. cbv iota. rewrite frames_between_snoc. cbn [d_from d_to d_frame].
  rewrite decide_True by done. destruct (Hk Hro r Hr) as (x & Hx & Hf). exists (x ++ [frame]).
  unfold settled in Hx |- *. rewrite Hat, decide_True in Hx by done. cbn [at_ set_at got].
  rewrite decide_False by set_solver. rewrite Hf, !app_assoc. split; [|done]. rewrite <-Hx.
  destruct (ri_current _ _ _ _ HIs frame) as [pre ->]; [by unfold current; rewrite Hat|].
  by rewrite removelast_last.
Qed.

#[local] Instance delivers_dec l s t : Decision (l = LDeliver s t).
Proof.
  destruct l as [| | |a b| | |]; try (by right). destruct (decide (a = s ∧ b = t)) as [[-> ->]|Hn]; [by left|].
  right. intros [= -> ->]. by apply Hn.
Defined.

(** Every step keeps it. *)
Lemma step_kept s t g base st l st' :
  sys_inv st → s ≠ t → share_room st s t → step_fn st l = Some st' →
  kept s t g base st → kept s t g base st'.
Proof.
  intros HI Hne Hsh Hst Hk Hroomy. pose proof Hsh as (a & b & Ha & Hb & _).
  assert (is_Some (relays st !! t)) as Ht by (apply (si_dom _ HI); eauto).
  assert (is_Some (relays st !! s)) as [r Hr] by (apply (si_dom _ HI); eauto).
  assert (roomy st t) as Hro by (destruct Ht as [rt Ht]; by eapply roomy_back).
  destruct (decide (l = LDeliver s t)) as [->|Hl]; [by eapply delivery_taken|].
  pose proof (frames_between_other _ _ _ _ _ Hst Hl) as Hf. revert Hroomy.
  assert (∃ r', relays st' !! s = Some r' ∧ settled r' t = settled r t) as (r' & Hr' & Hse);
    [|by eapply kept_same]. clear Hf.
  destruct (decide (actor l = s)) as [Hs|Hs]; [|exists r; split; [by eapply step_other|done]].
  destruct l as [s0 fp cmd input lim|s0|s0|s0 t0|s0|s0|s0]; cbn [actor] in Hs; subst s0.
  6: { destruct (step_write _ _ _ _ Hst Hr) as (_ & r' & Hr' & Hsame).
       exists r'. split; [done|by apply settled_same]. }
  all: unfold step_fn in Hst; destruct (crashed st); [done|]; rewrite ?Hr, ?Ha in Hst.
  - unfold join in Hst. rewrite Ha in Hst. by destruct (publicKeyAuth _ _).
  - destruct (at_ r) eqn:Hat; try done. injection Hst as <-. unfold read.
    destruct (ReadFrame (inp r)) as [[f|e] i]; cbn [relays set_relay]; rewrite lookup_insert_eq;
      (eexists; split; [done|]); unfold settled; cbn [at_ got]; rewrite Hat; [by rewrite removelast_last|done].
  - destruct (at_ r) eqn:Hat; try done. injection Hst as <-. cbn [relays set_relay].
    rewrite lookup_insert_eq. eexists. split; [done|]. by eapply snapshot_has.
  - destruct (at_ r) as [| |f rest| |] eqn:Hat; try done. destruct (decide (t0 ∈ rest)); [|done].
    injection Hst as <-. assert (t ≠ t0) as Htt by by intros ->.
    unfold deliver_one. destruct (deliver _ _ _) as [[n h]|]; cbn [relays];
      [|by exists r]. rewrite lookup_insert_eq. eexists. split; [done|]. unfold settled. cbn [at_ set_at got].
    rewrite Hat. by repeat case_decide; set_solver.
  - destruct (at_ r) as [| |f rest| |] eqn:Hat; try done. destruct (decide (rest = ∅)) as [->|]; [|done].
    injection Hst as <-. cbn [relays set_relay]. rewrite lookup_insert_eq. eexists. split; [done|].
    unfold settled. cbn [at_ set_at got]. rewrite Hat, decide_False; [done|set_solver].
  - destruct (at_ r) eqn:Hat; try done. destruct (writer_done r); [|done]. injection Hst as <-. cbn [relays].
    rewrite lookup_insert_eq. eexists. split; [done|]. unfold settled. cbn [at_ set_at got]. by rewrite Hat.
Qed.

Lemma run_kept s t g base st ls st' :
  sys_inv st → s ≠ t → share_room st s t → run st ls = Some st' → kept s t g base st → kept s t g base st'.
Proof.
  revert st. induction ls as [|l ls IH]; intros st HI Hne Hsh; cbn [run]; [by intros [= <-]|].
  destruct (step_fn st l) as [st1|] eqn:E; [|done]. intros Hrun Hk. eapply IH; [..|exact Hrun|].
  - by eapply step_fn_inv.
  - done.
  - by eapply share_room_ext, Hsh; eapply step_heap.
  - by eapply step_kept.
Qed.

(** Every frame that [s] has read since [t] has had its turn for: none is lost on the way to [t]. *)
Lemma nothing_lost st ls st' s t r r' :
  sys_inv st → s ≠ t → share_room st s t → run st ls = Some st' → roomy st' t →
  relays st !! s = Some r → relays st' !! s = Some r' →
  ∃ x, settled r' t = settled r t ++ x ∧
       frames_between s t (log st') = frames_between s t (log st) ++ x.
Proof.
  intros HI Hne Hsh Hrun Hro Hr Hr'. eapply (run_kept s t); try done.
  intros _ r0 Hr0. rewrite Hr in Hr0. injection Hr0 as <-. exists []. by rewrite !app_nil_r.
Qed.

Lemma run_sent st ls st' s r :
  sys_inv st → run st ls = Some st' → relays st !! s = Some r →
  ∃ r', relays st' !! s = Some r' ∧ inp0 r' = inp0 r.
Proof.
  revert st r. induction ls as [|l ls IH]; intros st r HI; cbn [run]; [intros [= <-] ?; by exists r|].
  destruct (step_fn st l) as [st1|] eqn:E; [|done]. intros Hrun Hr.
  destruct (step_ended _ _ _ _ _ HI E Hr) as (r1 & Hr1 & <- & _).
  eapply IH; [|done..]. by eapply step_fn_inv.
Qed.

(** A session that had read nothing has, when its loop has ended, handed over everything its client
    sent. *)
Lemma all_handed_over st ls st' s t r r' :
  sys_inv st → s ≠ t → share_room st s t → run st ls = Some st' → roomy st' t →
  relays st !! s = Some r → got r = [] → relays st' !! s = Some r' → ended (at_ r') = true →
  frames_between s t (log st') = (ReadFrames (inp0 r)).1.
Proof.
  intros HI Hne Hsh Hrun Hro Hr Hg Hr' He. pose proof Hsh as (a & _ & Ha & _).
  destruct (nothing_lost _ _ _ _ _ _ _ HI Hne Hsh Hrun Hro Hr Hr') as (x & Hx & ->).
  destruct (run_sent _ _ _ _ _ HI Hrun Hr) as (r1 & Hr1 & <-). rewrite Hr' in Hr1. injection Hr1 as <-.
  assert (settled r t = []) as Hs0 by (apply sublist_nil_r; rewrite <-Hg; apply settled_got).
  pose proof (ri_order _ _ _ _ (si_relay _ HI _ _ _ Hr Ha) t) as Hord. rewrite Hs0 in *.
  apply sublist_nil_r in Hord. rewrite Hord. cbn [app] in *. subst x.
  assert (sys_inv st') as HI' by by eapply run_inv.
  assert (is_Some (heap st' !! s)) as [a' Ha'] by (apply (si_dom _ HI'); eauto).
  rewrite (ri_reads _ _ _ _ (si_relay _ HI' _ _ _ Hr' Ha')), He, app_nil_r.
  unfold settled. by destruct (at_ r').
Qed.

(** ** What the client reads *)

(** The writer has written all that was queued, and its channel took it. *)
Definition drained (st : Sys) (t : sid) (rt : relay) : Prop :=
  relays st !! t = Some rt ∧ writer_done rt = false ∧
  queue (default (make_chan 0) (Out <$> heap st !! t)) = [].

Lemma drained_decodes st t rt e :
  sys_inv st → drained st t rt →
  ∃ err, ReadFrames (mkReader (w_buf (out rt)) e) = (frames_to t (log st), Some err).
Proof.
  intros HI (Hr & Hw & Hq). assert (is_Some (heap st !! t)) as [ses Hs] by (apply (si_dom _ HI); eauto).
  rewrite Hs in Hq. cbn in Hq.
  destruct (ri_stream _ _ _ _ (si_relay _ HI _ _ _ Hr Hs)) as (w & lim & res & Hto & Hwf & Hres).
  rewrite Hq, app_nil_r in Hto. pose proof (frames_to_fit st t HI) as HF. rewrite Hto in HF |- *.
  destruct (WriteFrames_broken _ _ _ _ HF Hwf) as (k & tl & Hb & Hall & _).
  destruct (Hall (Hres Hw)) as [-> ->]. rewrite Hb, firstn_all. cbn [w_buf String.append].
  apply read_back_torn; [done|by left].
Qed.

(** ** What the daemon accepts *)

Section accepting.
Context `{Blake3} `{Clipboard}.

Definition is_text (env : Envelope) : Prop := Type_ env = TypeText.

Lemma materialize_text d env : is_text env → (materialize d env).1 = Some (mkItem env "").
Proof. unfold is_text, materialize. by intros ->. Qed.

(** An envelope makes its own id known, and no other. *)
Lemma ingest_marks now d env x :
  dedupe_wf (d_dedupe d) → x ∈ seen (d_dedupe (ingest now d env)) →
  x ∈ seen (d_dedupe d) ∨ x = MsgID env.
Proof.
  intros Hw. destruct (ingest_cases now d env Hw) as [[_ ->]|[(_ & _ & ->)|(item & f & Hn & Hm)]].
  - by left.
  - cbn [d_dedupe set_dedupe]. by apply Seen_only.
  - destruct (ingest_accepted now d env item f Hw Hn Hm) as (-> & _). by apply Seen_only.
Qed.

(** Of envelopes with fresh ids, the texts are accepted. *)
Lemma accepted_texts now d envs :
  daemon_ok d → NoDup (map MsgID envs) → (∀ env, env ∈ envs → MsgID env ∉ seen (d_dedupe d)) →
  filter is_text envs `sublist_of` map it_Envelope (accepted d (map (pair now) envs)).
Proof.
  revert d. induction envs as [|env envs IH]; intros d Hok Hn Hf; [done|].
  cbn [map] in Hn |- *. apply NoDup_cons in Hn as [Hx Hn]. cbn [accepted fst snd].
  assert (dedupe_wf (d_dedupe d)) as Hw by apply Hok.
  assert (filter is_text envs `sublist_of`
    map it_Envelope (accepted (ingest now d env) (map (pair now) envs))) as Hrest.
  { apply IH; [by apply ingest_ok|done|]. intros e He [Hs|Hs]%ingest_marks; [|by destruct Hx; rewrite <-Hs; apply list_elem_of_fmap_2|done].
    eapply Hf, Hs. by right. }
  rewrite map_app, filter_cons. case_decide as Ht; [|by apply sublist_inserts_l].
  unfold accepts. rewrite decide_False by (apply Hf; by left). rewrite materialize_text by done.
  cbn [map app it_Envelope]. by apply sublist_skip.
Qed.
End accepting.

Lemma recv_envs `{Cbor Envelope} (now : Z) (frames : list string) :
  omap (λ f, match Unmarshal f with Ok e => Some (now, e) | Err _ => None end) frames =
  map (pair now) (omap decode frames).
Proof.
  induction frames as [|f fs IH]; [done|]. cbn [omap list_omap]. unfold decode at 1.
  destruct (Unmarshal f) as [e|]; cbn [map]; by rewrite IH.
Qed.

(** ** Properties *)

(** Delivery.  A machine joins a room in which there is another session, and its daemon is asked to
    [send] any number of times.  Whatever the other sessions do, wherever its own connection breaks,
    once the relay has read what it sent, and the other session has written its queue, the other
    session's client has decoded exactly what the machine posted, in its order, whatever else it
    decoded in between; provided fewer frames than its queue holds were queued for it, so that no
    queue was full.  When no message id comes twice, the daemon behind it accepts every text among
    them, in that order. *)
Theorem room_delivers `{Cbor Envelope} `{Blake3} `{ImageCodec} `{MimeTable} `{Clipboard} `{Json}
    `{!CborSound Envelope} al st ls st' s t r r' rt m e0 now d e :
  reaches (init al) st → run st ls = Some st' → s ≠ t → share_room st s t →
  relays st !! s = Some r → got r = [] → machine_ok m → inp0 r = mkReader (sent_bytes m) e0 →
  relays st' !! s = Some r' → ended (at_ r') = true → roomy st' t → drained st' t rt →
  let envs := omap decode (ReadFrames (mkReader (w_buf (out rt)) e)).1 in
  (∃ h, map snd h = envs ∧ map snd (filter (λ x, x.1 = s) h) = posted m) ∧
  (daemon_ok d → NoDup (map MsgID envs) → (∀ env, env ∈ envs → MsgID env ∉ seen (d_dedupe d)) →
   ∃ items, buffer (recvLoop now d (mkReader (w_buf (out rt)) e)) = lastn bufferCap (buffer d ++ items) ∧
     filter is_text (posted m) `sublist_of` map it_Envelope items).
Proof.
  intros Hre Hrun Hne Hsh Hr Hg Hm Hin Hr' He Hro Hdr envs. pose proof (reaches_inv _ _ Hre) as HI.
  assert (sys_inv st') as HI' by by eapply run_inv.
  pose proof (all_handed_over _ _ _ _ _ _ _ HI Hne Hsh Hrun Hro Hr Hg Hr' He) as Hall.
  destruct (drained_decodes _ _ _ e HI' Hdr) as [err Hd].
  destruct (machine_frames m e0 Hm) as [_ Hen]. rewrite <-Hin, <-Hall in Hen.
  set (ds := filter (λ d, d_to d = t) (log st')).
  assert (map snd (history ds) = envs) as Hh.
  { rewrite history_all. unfold envs. by rewrite Hd. }
  assert (map snd (filter (λ x, x.1 = s) (history ds)) = posted m) as Hp.
  { rewrite history_from, <-(decode_encodes _ _ Hen). unfold frames_between, ds.
    by rewrite list_filter_filter. }
  split; [by exists (history ds)|]. intros Hok Hn Hf.
  exists (accepted d (map (pair now) envs)). split.
  - rewrite recvLoop_spec, recv_envs. by apply ingest_all_buffer.
  - etrans; [|by apply accepted_texts]. rewrite <-Hp, <-Hh.
    apply sublist_filter, sublist_map, list.sublist_filter.
Qed.

(** ** An example *)

#[local] Existing Instance pad_blake3.
#[local] Existing Instance clipboard_works.
#[local] Existing Instance frame_json.
#[local] Existing Instance strict_env.
#[local] Existing Instance strict_env_sound.
#[local] Existing Instance no_images.
#[local] Existing Instance no_mime.

(** The room of [demo_room], from where both have joined to where session 1's channel has ended. *)
Definition demo_joined : Sys := sys_after (take 2 demo_room).
Definition demo_heard : Sys := demo_room_end.

Definition relay_at (st : Sys) (s : sid) : relay :=
  default (mkRelay Reading (mkReader "" EOF) (mkWriter "" None) false (mkReader "" EOF) []) (relays st !! s).

Lemma demo_joined_reaches : reaches (init ∅) demo_joined.
Proof. apply sys_after_reaches. vm_compute. by eexists. Qed.

Lemma demo_heard_run : run demo_joined (drop 2 demo_room) = Some demo_heard.
Proof. vm_compute. reflexivity. Qed.

Lemma demo_joined_states :
  share_room demo_joined 1%nat 2%nat ∧ relays demo_joined !! 1%nat = Some (relay_at demo_joined 1%nat) ∧
  got (relay_at demo_joined 1%nat) = [] ∧
  inp0 (relay_at demo_joined 1%nat) = mkReader (sent_bytes demo_machine) EOF.
Proof.
  split; [do 2 eexists; split; [vm_compute; reflexivity|split; vm_compute; reflexivity]|].
  split_and!; vm_compute; reflexivity.
Qed.

Lemma demo_heard_states :
  relays demo_heard !! 1%nat = Some (relay_at demo_heard 1%nat) ∧
  ended (at_ (relay_at demo_heard 1%nat)) = true ∧
  roomy demo_heard 2%nat ∧ drained demo_heard 2%nat (relay_at demo_heard 2%nat).
Proof.
  split_and!; [vm_compute; reflexivity|vm_compute; reflexivity| |].
  - split; [eexists; split; vm_compute; reflexivity|]. apply Nat.ltb_lt. vm_compute. reflexivity.
  - split_and!; vm_compute; reflexivity.
Qed.

Definition demo_envs_heard : list Envelope :=
  omap decode (ReadFrames (mkReader (w_buf (out (relay_at demo_heard 2%nat))) EOF)).1.

Lemma demo_heard_fresh :
  NoDup (map MsgID demo_envs_heard) ∧
  ∀ env, env ∈ demo_envs_heard → MsgID env ∉ seen (d_dedupe (demo_daemon "notify")).
Proof.
  assert (map MsgID demo_envs_heard = ["01"]) as Hm by (vm_compute; reflexivity). rewrite Hm.
  split; [apply NoDup_singleton|]. intros env _. apply not_elem_of_empty.
Qed.

Lemma room_delivers_witness :
  ∃ items, buffer (recvLoop 0 (demo_daemon "notify")
      (mkReader (w_buf (out (relay_at demo_heard 2%nat))) EOF)) = lastn bufferCap ([] ++ items) ∧
    filter is_text (posted demo_machine) `sublist_of` map it_Envelope items ∧
    map Text (filter is_text (posted demo_machine)) = ["hello"].
Proof.
  destruct demo_joined_states as (Hsh & Hr & Hg & Hi). destruct demo_heard_states as (Hr' & He & Hro & Hdr).
  destruct demo_heard_fresh as [Hn Hf].
  assert (machine_ok demo_machine) as Hm by (split_and!; [reflexivity|reflexivity|by exists None]).
  destruct (room_delivers ∅ demo_joined _ demo_heard 1%nat 2%nat _ _ (relay_at demo_heard 2%nat)
    demo_machine EOF 0 (demo_daemon "notify") EOF demo_joined_reaches demo_heard_run ltac:(discriminate)
    Hsh Hr Hg Hm Hi Hr' He Hro Hdr) as [_ Ha].
  destruct (Ha (demo_daemon_ok "notify") Hn Hf) as (items & Hb & Hs).
  exists items. split_and!; [exact Hb|exact Hs|vm_compute; reflexivity].
Defined.
