(* ===== verification/Network.v ===== *)
(** * Processes in a room

    The whole of room-go at once: the relay of [Server] under every interleaving of its goroutines,
    and behind its sessions daemons that are processes of [RoomServe], each under every interleaving
    of its clients, its connection loops and its signals.  What a client of one of them is shown
    comes from requests that other daemons of the room were asked to [send]. *)
From S2P Require Import Prelude GoStr GoPath GoOS Wire Codec Chan Broker Server Dedupe Ipc Clip GoTime Config Sinks Daemon Handlers Conn Serve RoomServe Rooms.
Open Scope string_scope.
Open Scope list_scope.

Section network.
Context `{Cbor Envelope} `{Blake3} `{ImageCodec} `{MimeTable} `{Clipboard} `{Json}.

(** ** What a daemon writes to its sessions *)

(** Neither the identity nor the sessions change. *)
Definition same_sent (d d' : Daemon) : Prop := fp d' = fp d ∧ links d' = links d.

Lemma writeClipboard_sent d it : same_sent d (writeClipboard d it).2.
Proof. pose proof (writeClipboard_frame d it) as Hf. cbn zeta in Hf. by destruct_and!. Qed.

Lemma applyClearScope_sent d scope : same_sent d (applyClearScope d scope).
Proof.
  assert (∀ x, same_sent x (d_clearSinks x)) as Hs.
  { intros x. unfold d_clearSinks. by destruct (clearSinks (sess x) (fs x)). }
  unfold applyClearScope. repeat case_match; [|done..]. apply (Hs (clearTransient d)).
Qed.

Lemma handlePaste_sent d : same_sent d (handlePaste d).2.
Proof.
  unfold handlePaste. destruct (latest d "any") as [it|]; [|done].
  pose proof (writeClipboard_sent d it) as Hw. by destruct (writeClipboard d it) as [[e|] d'].
Qed.

Lemma applyAutoCopy_sent d it : same_sent d (applyAutoCopy d it).
Proof. unfold applyAutoCopy. repeat case_match; try done. apply writeClipboard_sent. Qed.

Lemma recv_frame_sent now d frame : same_sent d (recv_frame now d frame).
Proof.
  unfold recv_frame. destruct (Unmarshal frame) as [env|]; [|done]. unfold ingest.
  destruct (Seen _ _) as [[] dd]; [done|]. destruct (materialize _ _) as [[it|] f]; [|done].
  destruct (routeSinks _ _ _ _ _) as [s' f'].
  match goal with |- same_sent d (applyAutoCopy ?x it) => exact (applyAutoCopy_sent x it) end.
Qed.

(** Only [send] writes. *)
Lemma handleReq_sent ulid ms d req :
  (rq_Op req = OpSend ∧ (handleReq ulid ms d req).1.2 = (handleSend ulid ms d req).2) ∨
  same_sent d (handleReq ulid ms d req).1.2.
Proof.
  unfold handleReq. destruct (negb _); [by right|].
  destruct (String.eqb (rq_Op req) OpPing); [by right|].
  destruct (String.eqb_spec (rq_Op req) OpSend) as [Ho|Ho].
  { left. split; [done|]. by destruct (handleSend ulid ms d req). }
  right. repeat match goal with |- context [if String.eqb (rq_Op req) ?o then _ else _] =>
    destruct (String.eqb (rq_Op req) o) end; cbn [reply hold fst snd]; try done.
  - unfold handleRecv. by repeat case_match.
  - apply handlePaste_sent.
  - unfold handleCopy. destruct (negb (String.eqb _ _)).
    + destruct (findByID d _) as [it|]; [|done].
      pose proof (writeClipboard_sent d it) as Hw. by destruct (writeClipboard d it) as [[e|] d'].
    + destruct (0 <? _)%Z; [|apply handlePaste_sent].
      by destruct (WriteText (clip d) (rq_Bytes req)) as [[e|] c].
  - unfold handleStatus. by destruct (Available (clip d)).
  - unfold handleConfigSet. destruct (SetKey _ _ _ _) as [[[u|e] c] f]; [|done].
    by repeat case_match.
  - unfold handleConfigGet. by destruct (GetKey _ _).
  - unfold handleJoin. destruct (String.eqb (rq_Target req) ""); [done|].
    by destruct (SetServer _ _ _) as [[[u|e] c] f].
  - apply applyClearScope_sent.
  - apply applyClearScope_sent.
Qed.

(** Every session holds frames of envelopes that satisfy [P], and when it broke a part of one more. *)
Definition links_hold (P : Envelope → Prop) (d : Daemon) : Prop :=
  ∀ r w, links d !! r = Some w → ∃ envs frames, link_holds w frames ∧ encodes envs frames ∧ Forall P envs.

Lemma links_hold_sent P d d' : same_sent d d' → links_hold P d → links_hold P d'.
Proof. intros [_ Hl] HP r w. rewrite Hl. apply HP. Qed.

(** [handleSend] writes the frame of the envelope it built, or nothing. *)
Lemma handleSend_links P ulid ms d req :
  (∀ env, build_envelope ulid ms d req = Ok env → P env) →
  links_hold P d → links_hold P (handleSend ulid ms d req).2 ∧ fp (handleSend ulid ms d req).2 = fp d.
Proof.
  intros Hb HP. unfold handleSend. destruct (len (rq_Bytes req) =? 0)%Z; [done|].
  destruct (build_envelope ulid ms d req) as [env|r]; [|done].
  destruct (Marshal env) as [frame|e] eqn:Em; [|done].
  assert (links_hold P (sendFrame d frame).2 ∧ fp (sendFrame d frame).2 = fp d) as [Hl Hfp].
  { unfold sendFrame. destruct (c_in (d_conn d)) as [r|]; [|done]. destruct (negb _); [done|].
    destruct (links d !! r) as [w|] eqn:El; [|done]. destruct (HP r w El) as (envs & frames & Hw & He & Hf).
    destruct (WriteFrame w frame) as [res w'] eqn:Ew. pose proof (WriteFrame_link _ _ _ _ _ Hw Ew) as Hw'.
    assert (links_hold P (set_conn d (d_conn d) (<[r := w']> (links d)))) as Hd.
    { intros x v. cbn [links set_conn]. rewrite lookup_insert. case_decide; [|apply HP]. intros [= <-].
      exists (envs ++ if is_ok res then [env] else []), (frames ++ if is_ok res then [frame] else []).
      split_and!; [done| |].
      - apply Forall2_app; [done|]. destruct (is_ok res); by repeat constructor.
      - apply Forall_app. split; [done|]. destruct (is_ok res); repeat constructor. by apply Hb. }
    by destruct res. }
  destruct (sendFrame d frame) as [[e|] d1]; cbn [fst snd] in *; by split.
Qed.

(** ** Processes *)

Context `{Cbor Request} `{Cbor Response}.

(** A daemon from its start, and the state it has come to. *)
Record process := mkProcess {
  p_socket : string;
  p_daemon : Daemon;
  p_steps : list (slabel (string * Z) clabel);
  p_state : Srv Loops Item;
}.

Definition now_daemon (p : process) : Daemon := daemon (sv_d (p_state p)).

Definition process_ok (p : process) : Prop :=
  daemon_ok (p_daemon p) ∧ subs (p_daemon p) = ∅ ∧ d_conn (p_daemon p) = mkConn None "" false ∧
  links (p_daemon p) = ∅ ∧
  @srun _ _ _ _ _ _ (room_server (p_socket p)) (sv_start (start (p_daemon p))) (p_steps p) = Some (p_state p).

(** The envelope was built for one of the [send] requests the process was given, and carries its
    identity. *)
Definition requested (p : process) (env : Envelope) : Prop :=
  Sender env = fp (p_daemon p) ∧
  ∃ c x rd req d, SRequest c x rd ∈ p_steps p ∧ (ReadReq rd).1 = Ok req ∧ rq_Op req = OpSend ∧
    build_envelope x.1 x.2 d req = Ok env.

(** Its sessions hold nothing else. *)
Lemma process_links p : process_ok p → links_hold (requested p) (now_daemon p).
Proof.
  intros (_ & _ & _ & Hl0 & Hrun).
  set (Q st := fp (daemon st) = fp (p_daemon p) ∧ links_hold (requested p) (daemon st)).
  assert (∀ st d, same_sent (daemon st) d → Q st → fp d = fp (p_daemon p) ∧ links_hold (requested p) d) as Hsame.
  { intros st d Hs [Hf Hh]. split; [by rewrite (proj1 Hs)|by eapply links_hold_sent]. }
  assert (Q (sv_d (p_state p))) as [_ Hh]; [|exact Hh]. revert Hrun.
  apply (srun_keeps_in Q); unfold Q; cbn.
  - intros c x st rd w h st' w' Hin HQ. unfold room_handleConn, handleConn.
    destruct (ReadReq rd).1 as [req|e] eqn:Er; [|by intros [= _ <- _]].
    assert (fp (handleReq x.1 x.2 (daemon st) req).1.2 = fp (p_daemon p) ∧
      links_hold (requested p) (handleReq x.1 x.2 (daemon st) req).1.2) as Hd.
    { destruct (handleReq_sent x.1 x.2 (daemon st) req) as [[Ho ->]|Hs]; [|by eapply Hsame].
      destruct HQ as [Hf Hh]. destruct (handleSend_links (requested p) x.1 x.2 (daemon st) req) as [H1' H2'];
        [|done|by rewrite H2'].
      intros env Hb. split; [|by exists c, x, rd, req, (daemon st)].
      apply build_envelope_ok in Hb as [(_ & _ & -> & _) _ _]. done. }
    destruct (handleReq x.1 x.2 (daemon st) req) as [[o d] go]. cbn [fst snd] in Hd.
    intros Hx; simplify_eq. by destruct go.
  - intros l st st' HQ Hs.
    destruct l as [i|i ulid ms req|i r lim|i|i now frame|i|i| |i]; cbn [room_background cstep] in Hs;
      unfold spawn, set_loop in Hs; step_cases Hs; cbn [daemon]; try exact HQ.
    + destruct HQ as [Hf Hh]. split; [done|]. intros x w. cbn [links publish set_conn]. rewrite lookup_insert.
      case_decide; [|apply Hh]. intros [= <-]. exists [], []. split_and!; [|constructor..].
      split; [constructor|]. exists "". split; [done|by left].
    + eapply Hsame, HQ. apply recv_frame_sent.
  - intros b st HQ. eapply Hsame, HQ. unfold shutdown, applyClearOnExit.
    destruct b; [apply applyClearScope_sent|done].
  - intros x st HQ. exact HQ.
  - intros st ch HQ. exact HQ.
  - intros st ch c it q HQ _ _. exact HQ.
  - split; [done|]. intros r w. cbn. by rewrite Hl0, lookup_empty.
Qed.

(** What a process received, and what it accepted of it. *)
Definition received (ls : list (slabel (string * Z) clabel)) : list string :=
  omap (λ l, match l with SBack (CRecv _ _ frame) => Some frame | _ => None end) ls.

Lemma new_items_envelope d env : map it_Envelope (new_items d env) `sublist_of` [env].
Proof.
  unfold new_items. destruct (Seen _ _).1; [apply sublist_nil_l|].
  destruct (materialize d env) as [[it|] f] eqn:Em; [|apply sublist_nil_l].
  apply materialize_some in Em as (<- & _). done.
Qed.

Lemma srun_hist socketPath ls st st' :
  @srun _ _ _ _ _ _ (room_server socketPath) st ls = Some st' →
  ∃ k, hist st' = hist st ++ k ∧ map it_Envelope k `sublist_of` omap decode (received ls).
Proof.
  revert st. induction ls as [|l ls IH]; intros st; cbn [srun].
  { intros [= <-]. exists []. by rewrite app_nil_r. }
  destruct (sstep st l) as [st1|] eqn:E; [|done]. intros (k & Hk & Hs)%IH.
  pose proof (sstep_hist (Server0 := room_server socketPath) st l st1 E) as E'.
  exists (news (Server0 := room_server socketPath) (sv_d st) l ++ k). rewrite Hk, E', app_assoc. split; [done|].
  rewrite map_app.
  assert (omap decode (received (l :: ls)) = omap decode (received [l]) ++ omap decode (received ls)) as ->.
  { unfold received. change (l :: ls) with ([l] ++ ls). by rewrite !omap_app. }
  apply sublist_app; [|done].
  destruct l as [| | | | | | |[i|i ulid ms req|i r lim|i|i now frame|i|i| |i]]; cbn; try apply sublist_nil_l.
  unfold decode. destruct (Unmarshal frame) as [env|]; [|apply sublist_nil_l]. apply new_items_envelope.
Qed.

(** What the relay reads from a session that a process writes to: the envelopes of its requests. *)
Lemma process_frames `{!CborSound Envelope} p r w e :
  process_ok p → links (now_daemon p) !! r = Some w →
  let frames := (ReadFrames (mkReader (w_buf w) e)).1 in
  Forall (requested p) (omap decode frames) ∧ encodes (omap decode frames) frames.
Proof.
  intros Hp Hw. destruct (process_links p Hp r w Hw) as (envs & frames & [Hf (tl & Hb & Ht)] & He & HP).
  assert ((ReadFrames (mkReader (w_buf w) e)).1 = frames) as ->.
  { rewrite Hb. destruct (read_back_torn frames tl e) as [err ->]; [done| |done].
    destruct Ht as [->|[Ht _]]; [by left|by right]. }
  cbv zeta. by rewrite (decode_encodes _ _ He).
Qed.
End network.

(** What a session's client has sent, as the relay reads it. *)
Definition sent_by `{Cbor Envelope} (st : Sys) (s : sid) : list Envelope :=
  match relays st !! s with
  | Some rs => omap decode (ReadFrames (inp0 rs)).1
  | None => []
  end.

(** ** Properties *)


(** ** An example *)

#[local] Existing Instance pad_blake3.
#[local] Existing Instance clipboard_works.
#[local] Existing Instance frame_json.
#[local] Existing Instance strict_env.
#[local] Existing Instance strict_env_sound.
#[local] Existing Instance strict_req.
#[local] Existing Instance strict_resp.
#[local] Existing Instance no_images.
#[local] Existing Instance no_mime.

Definition process_at (ls : list (slabel (string * Z) clabel)) : process :=
  mkProcess "/run/room.sock" demo_server ls
    (default (sv_start (start demo_server))
       (@srun _ _ _ _ _ _ (room_server "/run/room.sock") (sv_start (start demo_server)) ls)).

(** One process is asked to send a text, and another, which a client follows, receives it. *)
Definition sender_steps : list (slabel (string * Z) clabel) :=
  [SBack (CSpawn 0); SBack (CDialOk 0 7 None); SAccept 1 (mkWriter "" None);
   SRequest 1 ("01", 5%Z) (mkReader (frame_bytes (bytes_of_msg (demo_send "hello" "" ""))) EOF)].
Definition sender : process := process_at sender_steps.
Definition sender_bytes : string :=
  match links (now_daemon sender) !! 7%nat with Some w => w_buf w | None => "" end.
Definition sender_frame : string := hd "" (ReadFrames (mkReader sender_bytes EOF)).1.

Definition follower_steps : list (slabel (string * Z) clabel) :=
  [SBack (CSpawn 0); SBack (CDialOk 0 7 None); SAccept 1 (mkWriter "" None);
   SRequest 1 ("", 0%Z) (demo_says OpSubscribe); SBack (CRecv 0 0 sender_frame); STake 1].
Definition follower : process := process_at follower_steps.

Definition net_labels : list label :=
  [LJoin 1 "SHA256:a" ["lab"] (mkReader sender_bytes EOF) None;
   LJoin 2 "SHA256:b" ["lab"] (mkReader "" EOF) None;
   LRead 1; LSnapshot 1; LDeliver 1 2; LDelivered 1; LWrite 2].
Definition net_end : Sys := sys_after net_labels.
Definition net_rt : relay :=
  default (mkRelay Reading (mkReader "" EOF) (mkWriter "" None) false (mkReader "" EOF) [])
    (relays net_end !! 2%nat).

Lemma net_reaches : reaches (init ∅) net_end.
Proof. apply sys_after_reaches. vm_compute. by eexists. Qed.

Lemma net_states :
  relays net_end !! 2%nat = Some net_rt ∧
  received (p_steps follower) = (ReadFrames (mkReader (w_buf (out net_rt)) EOF)).1.
Proof. split; vm_compute; reflexivity. Qed.

Lemma net_sessions : dom (relays net_end) = {[1%nat; 2%nat]}.
Proof. apply (bool_decide_unpack _). vm_compute. exact I. Qed.

Lemma net_first : inp0 <$> relays net_end !! 1%nat = Some (mkReader sender_bytes EOF).
Proof. vm_compute. reflexivity. Qed.

Lemma net_inputs s rs :
  relays net_end !! s = Some rs → s ≠ 2%nat → inp0 rs = mkReader sender_bytes EOF.
Proof.
  intros Hs Hne. assert (s ∈ dom (relays net_end)) as Hd by by apply elem_of_dom_2 in Hs.
  rewrite net_sessions in Hd.
  apply elem_of_union in Hd as [Hd|Hd]; apply elem_of_singleton in Hd as ->; [|by destruct Hne].
  pose proof net_first as Hf. rewrite Hs in Hf. injection Hf as Hf. exact Hf.
Qed.

Lemma process_at_ok ls :
  is_Some (@srun _ _ _ _ _ _ (room_server "/run/room.sock") (sv_start (start demo_server)) ls) →
  process_ok (process_at ls).
Proof.
  intros [st Hst]. split_and!; [exact demo_server_ok|reflexivity..|].
  unfold process_at. cbn [p_socket p_daemon p_steps p_state]. by rewrite Hst.
Qed.

Lemma net_processes : process_ok sender ∧ process_ok follower.
Proof. split; apply process_at_ok; vm_compute; by eexists. Qed.

Lemma sender_link : ∃ w, links (now_daemon sender) !! 7%nat = Some w ∧ w_buf w = sender_bytes.
Proof. eexists. split; vm_compute; reflexivity. Qed.

Lemma follower_client :
  match conns (p_state follower) !! 1%nat with
  | Some cl => g_hold cl = Some (true, "any") ∧ g_w0 cl = mkWriter "" None ∧
               w_buf (g_w cl) ≠ ""
  | None => False
  end.
Proof. vm_compute. by split_and!. Qed.

Definition net_process (s : sid) : process := if decide (s = 2%nat) then follower else sender.

Lemma net_process_2 : net_process 2%nat = follower.
Proof. unfold net_process. by rewrite decide_True. Qed.
Lemma net_process_other s : s ≠ 2%nat → net_process s = sender.
Proof. intros Hs. unfold net_process. by rewrite decide_False. Qed.

Lemma net_fp s : fp (p_daemon (net_process s)) = fp demo_server.
Proof. unfold net_process. by case_decide. Qed.

