(* ===== verification/NetworkDelivery.v ===== *)
(** * Nothing is lost between processes

    The counterpart of [Network]: what the processes of a room deliver to each other's clients, as
    opposed to what they may deliver.  On the sending side, what a session holds is exactly the
    envelopes of the requests to [send] that were answered with code 0 while it was the connection;
    on the receiving side, every text with a fresh id is accepted, and a client that follows, and
    whose channel was never full, is sent all of them. *)
From S2P Require Import Prelude GoStr GoPath GoOS Wire Codec Chan Broker Server Dedupe Ipc Clip GoTime Config Sinks Daemon Handlers Conn Serve RoomServe Rooms Delivery Network.
Open Scope string_scope.
Open Scope list_scope.

Section delivery.
Context `{Cbor Envelope} `{Blake3} `{ImageCodec} `{MimeTable} `{Clipboard} `{Json}.
Context `{Cbor Request} `{Cbor Response}.

(** ** What a process sent *)

(** The envelope of a request to [send] that is answered with code 0, and the session it goes to. *)
Definition acked (ulid : string) (ms : Z) (d : Daemon) (req : Request) : list (ref * Envelope) :=
  match build_envelope ulid ms d req, c_in (d_conn d) with
  | Ok env, Some r => if (rs_Code (handleSend ulid ms d req).1 =? 0)%Z then [(r, env)] else []
  | _, _ => []
  end.

Definition step_posts (st : Srv Loops Item) (l : slabel (string * Z) clabel) : list (ref * Envelope) :=
  match l with
  | SRequest c x rd =>
      match (ReadReq rd).1 with
      | Ok req =>
          if (rq_IPCVersion req =? IPCVersion)%Z && String.eqb (rq_Op req) OpSend
          then acked x.1 x.2 (daemon (sv_d st)) req else []
      | Err _ => []
      end
  | _ => []
  end.

Fixpoint posts (socketPath : string) (st : Srv Loops Item) (ls : list (slabel (string * Z) clabel))
    : list (ref * Envelope) :=
  match ls with
  | [] => []
  | l :: ls =>
      match @sstep _ _ _ _ _ _ (room_server socketPath) st l with
      | Some st' => step_posts st l ++ posts socketPath st' ls
      | None => []
      end
  end.

(** What a process sent on one of its sessions. *)
Definition sent_on (p : process) (r : ref) : list Envelope :=
  map snd (filter (λ x, x.1 = r) (posts (p_socket p) (sv_start (start (p_daemon p))) (p_steps p))).

(** Each session holds what was posted on it, and when it broke a part of one more. *)
Definition links_post (ps : list (ref * Envelope)) (d : Daemon) : Prop :=
  (∀ r w, links d !! r = Some w →
     ∃ frames, link_holds w frames ∧ encodes (map snd (filter (λ x, x.1 = r) ps)) frames) ∧
  Forall (λ x, is_Some (links d !! x.1)) ps.

Lemma links_post_same ps d d' : same_sent d d' → links_post ps d → links_post ps d'.
Proof. intros [_ Hl] [H1' H2']. split; [|apply (Forall_impl _ _ _ H2'); intros x]; by rewrite Hl. Qed.

(** A frame is written to the session [r]. *)
Lemma links_post_write ps d r w env frame res w' d' :
  links_post ps d → links d !! r = Some w → Marshal env = Ok frame → WriteFrame w frame = (res, w') →
  links d' = <[r := w']> (links d) →
  links_post (ps ++ if is_ok res then [(r, env)] else []) d'.
Proof.
  intros [Hl Hs] Hr Hm Hw Hd. split.
  - intros r' v. rewrite Hd, lookup_insert. case_decide as Hrr.
    + intros [= <-]. subst r'. destruct (Hl r w Hr) as (frames & Hf & He).
      exists (frames ++ if is_ok res then [frame] else []). split; [by eapply WriteFrame_link|].
      rewrite filter_app, map_app. apply Forall2_app; [done|].
      destruct (is_ok res); [|constructor]. rewrite filter_cons_True by done. by repeat constructor.
    + intros Hv. destruct (Hl r' v Hv) as (frames & Hf & He). exists frames. split; [done|].
      rewrite filter_app, map_app.
      assert (filter (λ x : ref * Envelope, x.1 = r') (if is_ok res then [(r, env)] else []) = []) as ->;
        [|by rewrite app_nil_r]. destruct (is_ok res); [by rewrite filter_cons_False|done].
  - rewrite Hd. apply Forall_app. split.
    + apply (Forall_impl _ _ _ Hs). intros x Hx. rewrite lookup_insert. by case_decide.
    + destruct (is_ok res); repeat constructor. rewrite lookup_insert_eq. by eexists.
Qed.

Lemma handleSend_posts ps ulid ms d req :
  links_post ps d → links_post (ps ++ acked ulid ms d req) (handleSend ulid ms d req).2.
Proof.
  intros HP. unfold acked.
  destruct (build_envelope ulid ms d req) as [env|e] eqn:Eb.
  2:{ rewrite app_nil_r. unfold handleSend. rewrite Eb. by destruct (_ =? 0)%Z. }
  unfold handleSend. rewrite Eb. destruct (len (rq_Bytes req) =? 0)%Z.
  { cbn. destruct (c_in _); by rewrite app_nil_r. }
  destruct (Marshal env) as [frame|e] eqn:Em; [|cbn; destruct (c_in _); by rewrite app_nil_r].
  unfold sendFrame. destruct (c_in (d_conn d)) as [r|]; [|by rewrite app_nil_r].
  destruct (negb _); [by rewrite app_nil_r|]. destruct (links d !! r) as [w|] eqn:El; [|by rewrite app_nil_r].
  destruct (WriteFrame w frame) as [res w'] eqn:Ew.
  pose proof (links_post_write ps d r w env frame res w' (set_conn d (d_conn d) (<[r := w']> (links d)))
    HP El Em Ew eq_refl) as HP'. by destruct res.
Qed.

(** A request posts what it was acknowledged for. *)
Lemma handleReq_posts ps ulid ms d req :
  links_post ps d →
  links_post (ps ++ if (rq_IPCVersion req =? IPCVersion)%Z && String.eqb (rq_Op req) OpSend
                    then acked ulid ms d req else []) (handleReq ulid ms d req).1.2.
Proof.
  intros HP. destruct (handleReq_sent ulid ms d req) as [[Ho Hd]|Hs].
  - rewrite Ho. change (String.eqb OpSend OpSend) with true. rewrite andb_true_r.
    destruct (rq_IPCVersion req =? IPCVersion)%Z eqn:Ev; [rewrite Hd; by apply handleSend_posts|].
    unfold handleReq. rewrite Ev. by rewrite app_nil_r.
  - destruct (_ && _) eqn:E; [|rewrite app_nil_r; by eapply links_post_same].
    apply andb_prop in E as [Ev Eo]. pose proof (handleSend_posts ps ulid ms d req HP) as HP'.
    assert ((handleReq ulid ms d req).1.2 = (handleSend ulid ms d req).2) as ->; [|done].
    apply String.eqb_eq in Eo. unfold handleReq. rewrite Ev, Eo. cbn.
    by destruct (handleSend ulid ms d req).
Qed.

Lemma step_posts_ok socketPath ps st l st' :
  @sstep _ _ _ _ _ _ (room_server socketPath) st l = Some st' →
  links_post ps (daemon (sv_d st)) → links_post (ps ++ step_posts st l) (daemon (sv_d st')).
Proof.
  intros Hs HP. apply (sstep_daemon (Server0 := room_server socketPath)) in Hs.
  destruct l as [c w|e x|c x rd|c|c|signalled| |l]; cbn [step_posts]; rewrite ?app_nil_r.
  - by rewrite Hs.
  - rewrite Hs. exact HP.
  - destruct Hs as (w & h & w' & Hs). revert Hs. cbn. unfold room_handleConn, handleConn.
    destruct (ReadReq rd).1 as [req|e]; [|rewrite app_nil_r; by intros [= _ <- _]].
    pose proof (handleReq_posts ps x.1 x.2 _ req HP) as HP'.
    destruct (handleReq x.1 x.2 (daemon (sv_d st)) req) as [[o d] go]. cbn [fst snd] in HP'.
    intros Hx. injection Hx as _ <- _. by destruct go.
  - destruct Hs as [s ->]. exact HP.
  - destruct Hs as [s ->]. exact HP.
  - rewrite Hs. eapply links_post_same, HP. cbn. unfold shutdown, applyClearOnExit.
    destruct signalled; [apply applyClearScope_sent|done].
  - by rewrite Hs.
  - revert Hs. cbn. generalize (sv_d st') as st1. intros st1 Hs.
    destruct l as [i|i ulid ms req|i r lim|i|i now frame|i|i| |i]; cbn [room_background cstep] in Hs;
      unfold spawn, set_loop in Hs.
    all: try (step_cases Hs; exact HP).
    + destruct (loops (sv_d st) !! i) as [[t []]|]; try done.
      destruct (links (daemon (sv_d st)) !! r) eqn:El; [done|]. injection Hs as <-. destruct HP as [Hl Hf].
      split; cbn [daemon links publish set_conn].
      * intros r' w. rewrite lookup_insert. case_decide as Hrr; [|apply Hl]. intros [= <-]. subst r'.
        exists []. split; [split; [constructor|]; exists ""; by split; [|left]|].
        assert (filter (λ x : ref * Envelope, x.1 = r) ps = []) as ->; [|constructor].
        clear -Hf El. induction Hf as [|x ps [w Hw] _ IH]; [done|]. rewrite filter_cons_False; [done|]. congruence.
      * apply (Forall_impl _ _ _ Hf). intros x Hx. rewrite lookup_insert. by case_decide.
    + step_cases Hs. eapply links_post_same, HP. apply recv_frame_sent.
Qed.

Lemma posts_ok socketPath ps st ls st' :
  @srun _ _ _ _ _ _ (room_server socketPath) st ls = Some st' →
  links_post ps (daemon (sv_d st)) → links_post (ps ++ posts socketPath st ls) (daemon (sv_d st')).
Proof.
  revert ps st. induction ls as [|l ls IH]; intros ps st; cbn [srun posts]; [intros [= <-]; by rewrite app_nil_r|].
  destruct (sstep st l) as [st1|] eqn:E; [|done]. intros Hr HP. rewrite app_assoc. apply IH; [done|].
  by eapply step_posts_ok.
Qed.

(** What the relay reads from a session of a process is what was sent on it. *)
Lemma process_sent `{!CborSound Envelope} p r w e :
  process_ok p → links (now_daemon p) !! r = Some w →
  let frames := (ReadFrames (mkReader (w_buf w) e)).1 in
  omap decode frames = sent_on p r ∧ encodes (sent_on p r) frames.
Proof.
  intros (_ & _ & _ & Hl0 & Hrun) Hw.
  destruct (posts_ok (p_socket p) [] _ _ _ Hrun) as [Hl _].
  { split; [|constructor]. intros r' w'. cbn. by rewrite Hl0, lookup_empty. }
  destruct (Hl r w Hw) as (frames & [Hf (tl & Hb & Ht)] & He).
  assert ((ReadFrames (mkReader (w_buf w) e)).1 = frames) as ->.
  { rewrite Hb. destruct (read_back_torn frames tl e) as [err ->]; [done| |done].
    destruct Ht as [->|[Ht _]]; [by left|by right]. }
  split; [|exact He]. by apply decode_encodes.
Qed.

(** ** What a process accepts *)

Lemma handleReq_dedupe ulid ms d req : d_dedupe (handleReq ulid ms d req).1.2 = d_dedupe d.
Proof.
  assert (∀ d d', same_store d d' → d_dedupe d' = d_dedupe d) as Hst by by intros ? ? (_ & ? & _).
  unfold handleReq. destruct (negb _); [done|].
  repeat match goal with |- context [if String.eqb (rq_Op req) ?o then _ else _] =>
    destruct (String.eqb (rq_Op req) o) end; cbn [reply hold fst snd]; try done.
  - pose proof (handleSend_store ulid ms d req) as Hs. destruct (handleSend ulid ms d req). by apply Hst.
  - unfold handleRecv. destruct (rq_Follow req); [done|]. unfold recv_subscribe.
    destruct (subscribe d) as [ch d'] eqn:E. apply subscribe_spec in E. destruct_and?.
    by destruct (recv_latest d req).
  - apply Hst. unfold handlePaste. destruct (latest d "any") as [it|]; [|done].
    pose proof (writeClipboard_store d it). by destruct (writeClipboard d it) as [[e|] d'].
  - apply Hst, handleCopy_store.
  - apply Hst, handleStatus_store.
  - unfold handleConfigSet. destruct (SetKey _ _ _ _) as [[[u|e] c] f]; [|done]. by repeat case_match.
  - unfold handleConfigGet. by destruct (GetKey _ _).
  - unfold handleJoin. destruct (String.eqb (rq_Target req) ""); [done|].
    by destruct (SetServer _ _ _) as [[[u|e] c] f].
  - apply applyClearScope_dedupe.
  - apply applyClearScope_dedupe.
Qed.

(** Only what is received makes ids known. *)
Lemma step_dedupe socketPath st l st' :
  @sstep _ _ _ _ _ _ (room_server socketPath) st l = Some st' →
  d_dedupe (daemon (sv_d st')) =
  match l with
  | SBack (CRecv _ now frame) => d_dedupe (recv_frame now (daemon (sv_d st)) frame)
  | _ => d_dedupe (daemon (sv_d st))
  end.
Proof.
  intros Hs. apply (sstep_daemon (Server0 := room_server socketPath)) in Hs.
  destruct l as [c w|e x|c x rd|c|c|signalled| |l].
  - by rewrite Hs.
  - by rewrite Hs.
  - destruct Hs as (w & h & w' & Hs). revert Hs. cbn. unfold room_handleConn, handleConn.
    destruct (ReadReq rd).1 as [req|e]; [|by intros [= _ <- _]].
    pose proof (handleReq_dedupe x.1 x.2 (daemon (sv_d st)) req) as Hd.
    destruct (handleReq x.1 x.2 (daemon (sv_d st)) req) as [[o d] go]. intros Hx. injection Hx as _ <- _.
    by destruct go.
  - by destruct Hs as [s ->].
  - by destruct Hs as [s ->].
  - rewrite Hs. cbn. unfold shutdown, applyClearOnExit. destruct signalled; [apply applyClearScope_dedupe|done].
  - by rewrite Hs.
  - revert Hs. cbn. generalize (sv_d st') as st1. intros st1 Hs.
    destruct l as [i|i ulid ms req|i r lim|i|i now frame|i|i| |i]; cbn [room_background cstep] in Hs;
      unfold spawn, set_loop in Hs; by step_cases Hs.
Qed.

(** Of envelopes with fresh ids, a process accepts every text. *)
Lemma srun_accepts socketPath st ls st' :
  @srun _ _ _ _ _ _ (room_server socketPath) st ls = Some st' →
  daemon_ok (daemon (sv_d st)) → NoDup (map MsgID (omap decode (received ls))) →
  (∀ env, env ∈ omap decode (received ls) → MsgID env ∉ seen (d_dedupe (daemon (sv_d st)))) →
  ∃ k, hist st' = hist st ++ k ∧
       filter is_text (omap decode (received ls)) `sublist_of` map it_Envelope k.
Proof.
  revert st. induction ls as [|l ls IH]; intros st; cbn [srun].
  { intros [= <-] _ _ _. exists []. by rewrite app_nil_r. }
  destruct (sstep st l) as [st1|] eqn:E; [|done]. intros Hrun Hok Hn Hf.
  pose proof (sstep_hist (Server0 := room_server socketPath) st l st1 E) as Eh.
  pose proof (step_dedupe _ _ _ _ E) as Ed.
  assert (daemon_ok (daemon (sv_d st1))) as Hok1 by by (eapply (room_run_ok _ st [l]); [done|]; cbn [srun]; by rewrite E).
  assert (omap decode (received (l :: ls)) = omap decode (received [l]) ++ omap decode (received ls)) as Er.
  { unfold received. change (l :: ls) with ([l] ++ ls). by rewrite !omap_app. }
  rewrite Er, map_app in Hn. apply NoDup_app in Hn as (_ & Hx & Hn).
  destruct (IH st1 Hrun Hok1 Hn) as (k & Hk & Hs).
  { intros env Henv Hin. assert (MsgID env ∉ seen (d_dedupe (daemon (sv_d st)))) as Hns
      by (apply Hf; rewrite Er; apply elem_of_app; by right).
    rewrite Ed in Hin.
    destruct l as [| | | | | | |[i|i ulid ms req|i r lim|i|i now frame|i|i| |i]]; try by destruct Hns.
    revert Hin Hx. cbn. unfold recv_frame, decode. destruct (Unmarshal frame) as [e|]; [|by intros Hin; destruct Hns].
    intros [Hin|Hin]%ingest_marks Hx; [by destruct Hns| |by apply Hok].
    apply (Hx (MsgID e)); [by left|]. rewrite <-Hin. by apply list_elem_of_fmap_2. }
  exists (news (Server0 := room_server socketPath) (sv_d st) l ++ k). rewrite Hk, Eh, app_assoc. split; [done|].
  rewrite Er, filter_app, map_app. apply sublist_app; [|done].
  destruct l as [| | | | | | |[i|i ulid ms req|i r lim|i|i now frame|i|i| |i]]; cbn; try apply sublist_nil_l.
  revert Hf. rewrite Er. cbn. unfold decode. destruct (Unmarshal frame) as [env|]; [|intros _; apply sublist_nil_l].
  intros Hf. cbn [option_list app]. rewrite filter_cons, filter_nil. case_decide as Ht; [|apply sublist_nil_l].
  assert (MsgID env ∉ seen (d_dedupe (daemon (sv_d st)))) as Hns by (apply Hf; by left).
  unfold new_items. destruct (Seen_fresh (d_dedupe (daemon (sv_d st))) (MsgID env)) as (dd & -> & _);
    [apply Hok|done|]. cbn [fst]. by rewrite materialize_text.
Qed.
End delivery.

Lemma texts_shown kind (items : list Item) :
  kind ≠ TypeImage →
  filter is_text (map it_Envelope items) `sublist_of`
  map it_Envelope (filter (λ it, matchesKind it kind = true) items).
Proof.
  intros Hk. apply sublist_filter_map. intros it Ht. unfold matchesKind. rewrite Ht.
  rewrite (proj2 (String.eqb_neq kind TypeImage)) by done. by repeat case_match.
Qed.

Lemma frames_between_to s t l : frames_between s t l `sublist_of` frames_to t l.
Proof.
  induction l as [|d l IH] using rev_ind; [done|]. rewrite frames_between_snoc, frames_to_snoc.
  apply sublist_app; [done|]. repeat case_decide; try done; [by destruct_and?|apply sublist_nil_l].
Qed.

(** ** Properties *)


(** ** An example *)

#[local] Existing Instance pad_blake3.
#[local] Existing Instance clipboard_works.
#[local] Existing Instance frame_json.
#[local] Existing Instance strict_env.
#[local] Existing Instance strict_env_sound.
#[local] Existing Instance strict_req.
#[local] Existing Instance strict_resp.
#[local] Existing Instance no_images.
#[local] Existing Instance no_mime.

(** The processes of [Network], from where both sessions have joined to where the relay has read all
    of the first. *)
Definition net_joined : Sys := sys_after (take 2 net_labels).
Definition net_heard : Sys := sys_after (net_labels ++ [LRead 1]).
Definition sender_writer : writer := default (mkWriter "" None) (links (now_daemon sender) !! 7%nat).
Definition follower_at : client Item :=
  default (mkClient Finished (mkWriter "" None) (mkWriter "" None) None 0 []) (conns (p_state follower) !! 1%nat).
Definition follower_chan : nat := default 0%nat (chan_of follower_at).

Lemma net_joined_reaches : reaches (init ∅) net_joined.
Proof. apply sys_after_reaches. vm_compute. by eexists. Qed.

Lemma net_heard_run : run net_joined (drop 2 net_labels ++ [LRead 1]) = Some net_heard.
Proof. vm_compute. reflexivity. Qed.

Lemma net_joined_states :
  share_room net_joined 1%nat 2%nat ∧ relays net_joined !! 1%nat = Some (relay_at net_joined 1%nat) ∧
  got (relay_at net_joined 1%nat) = [] ∧ inp0 (relay_at net_joined 1%nat) = mkReader (w_buf sender_writer) EOF.
Proof.
  split; [do 2 eexists; split; [vm_compute; reflexivity|split; vm_compute; reflexivity]|].
  split_and!; vm_compute; reflexivity.
Qed.

Lemma net_heard_states :
  relays net_heard !! 1%nat = Some (relay_at net_heard 1%nat) ∧
  ended (at_ (relay_at net_heard 1%nat)) = true ∧
  roomy net_heard 2%nat ∧ drained net_heard 2%nat (relay_at net_heard 2%nat).
Proof.
  split_and!; [vm_compute; reflexivity|vm_compute; reflexivity| |].
  - split; [eexists; split; vm_compute; reflexivity|]. apply Nat.ltb_lt. vm_compute. reflexivity.
  - split_and!; vm_compute; reflexivity.
Qed.

Lemma sender_session : links (now_daemon sender) !! 7%nat = Some sender_writer.
Proof. vm_compute. reflexivity. Qed.

Lemma follower_heard :
  received (p_steps follower) = (ReadFrames (mkReader (w_buf (out (relay_at net_heard 2%nat))) EOF)).1.
Proof. vm_compute. reflexivity. Qed.

Lemma follower_fresh :
  let envs := omap decode (received (p_steps follower)) in
  NoDup (map MsgID envs) ∧ (∀ env, env ∈ envs → MsgID env ∉ seen (d_dedupe (p_daemon follower))) ∧
  (length envs ≤ subCap)%nat.
Proof.
  cbv zeta. set (envs := omap decode _).
  assert (map MsgID envs = ["01"]) as Hm by (vm_compute; reflexivity).
  split; [rewrite Hm; apply NoDup_singleton|]. split; [intros env _; apply not_elem_of_empty|].
  rewrite <-(length_map MsgID), Hm. cbn. unfold subCap. lia.
Qed.

Lemma follower_states :
  conns (p_state follower) !! 1%nat = Some follower_at ∧
  g_at follower_at = Holding true follower_chan "any" ∧ g_from follower_at = 0%nat ∧
  queue (default (make_chan 0) (subs (now_daemon follower) !! follower_chan)) = [] ∧
  g_w0 follower_at = mkWriter "" None.
Proof. split_and!; vm_compute; reflexivity. Qed.

Lemma sender_sent : map Text (filter is_text (sent_on sender 7%nat)) = ["hello"].
Proof. vm_compute. reflexivity. Qed.

