(* ===== verification/Chat.v ===== *)
(** * The terminal UI and the daemons, end to end

    Puts the UI of [TuiLoop] on the daemon of [Local]: a message typed on one machine appears as a
    bubble on another, and copying a bubble puts it on the clipboard of the daemon. *)
From S2P Require Import Prelude GoStr GoPath GoOS Wire Codec Chan Broker Server Dedupe Ipc Clip Config Sinks Daemon Handlers Conn Flags Proc Cli Local Handoff Tui TuiLoop TuiProps.
Open Scope string_scope.
Open Scope list_scope.

Section chat.
Context `{Cbor Envelope} `{Blake3} `{ImageCodec} `{MimeTable} `{Clipboard} `{Json}.
Context `{Cbor Request} `{Cbor Response} `{Widgets}.

(** A daemon answers at the socket of the UI. *)
Definition ui_at (E : Env) (o : Options) : Prop := e_dial E (SocketPath o) 0 = Ok None.

Lemma ui_dial E o auto args : ui_at E o → ipc_dial E (SocketPath o) auto args = Ok None.
Proof. unfold ui_at. intros Hd. unfold ipc_dial, Dial. by rewrite Hd. Qed.

(** A command of the UI, and one round of its stream, at the moment their connection is served. *)
Definition ui_exec (mo : Moment) (E : Env) (D : Desk) (o : Options) (c : Cmd) (d : Daemon)
    : option (list Msg) * World Daemon := exec E D o c (mkWorld d "" "").
Definition ui_stream (mo : Moment) (E : Env) (o : Options) (d : Daemon)
    : option (list Msg) * World Daemon := stream_round E o (mkWorld d "" "").

(** A request of the UI is the daemon's handler. *)
Lemma client_roundtrip_run (mo : Moment) E o req r d d' go so se :
  ui_at E o → transmits req → handleReq m_ulid m_now d req = (Reply r, d', go) → transmits r →
  client_roundtrip E o req (mkWorld d so se) = (Some (Ok r), mkWorld d' so se).
Proof.
  intros Hat Hq Hh Hr. unfold client_roundtrip. rewrite ui_dial by done.
  unfold mbind, M_bind. rewrite (send_req_run req r d d' go) by done. by rewrite answered_read.
Qed.

(** What [y] puts on the clipboard for a bubble. *)
Definition copied (b : bubble) : clip_write :=
  if mine b then FmtText (Text (it_Envelope (item b)))
  else
    let '(isImage, text, png, _) := clipContent (item b) in
    if isImage : bool then FmtImage png else FmtText text.

(** The daemon can copy the bubble: it is the user's own text, or still in the buffer. *)
Definition copyable (d : Daemon) (b : bubble) : Prop :=
  if mine b then Text (it_Envelope (item b)) ≠ ""
  else MsgID (it_Envelope (item b)) ≠ "" ∧ findByID d (MsgID (it_Envelope (item b))) = Some (item b).

(** The request [y] makes the UI send. *)
Definition y_request (b : bubble) : Request :=
  if mine b then copy_request "" (Text (it_Envelope (item b)))
  else copy_request (MsgID (it_Envelope (item b))) "".

Lemma writeClipboard_ok d it :
  (ensure (clip d)).1 = None →
  ∃ c h, writeClipboard d it = (None, set_clip d c h) ∧
    written c = written (clip d) ++
      [let '(isImage, text, png, _) := clipContent it in
       if isImage : bool then FmtImage png else FmtText text].
Proof.
  intros Hen. unfold writeClipboard. destruct (clipContent it) as [[[isImage text] png] hash].
  unfold WritePNG, WriteText. pose proof (ensure_written (clip d)) as Hw.
  destruct (ensure (clip d)) as [[e|] c]; [done|]. cbn [snd] in Hw.
  destruct isImage; eexists _, _; (split; [done|]); cbn; by rewrite Hw.
Qed.

Lemma handleReq_copy (mo : Moment) d b :
  (ensure (clip d)).1 = None → copyable d b →
  ∃ c h, handleReq m_ulid m_now d (y_request b) = (Reply okResp, set_clip d c h, None) ∧
    written c = written (clip d) ++ [copied b].
Proof.
  intros Hen Hb.
  assert (handleReq m_ulid m_now d (y_request b) = reply (handleCopy d (y_request b))) as ->.
  { unfold y_request, copy_request. by repeat case_match. }
  unfold copyable in Hb. unfold y_request, copied, copy_request, handleCopy.
  destruct (mine b).
  - cbn [String.eqb]. apply String.eqb_neq in Hb as Hbe. rewrite Hbe.
    cbn [negb andb rq_MsgID rq_Bytes String.eqb].
    destruct (Z.ltb_spec 0 (len (Text (it_Envelope (item b))))) as [_|Hle].
    2:{ pose proof (len_nonneg (Text (it_Envelope (item b)))). exfalso. apply Hb, len_zero. lia. }
    unfold WriteText. pose proof (ensure_written (clip d)) as Hw.
    destruct (ensure (clip d)) as [[e|] c]; [done|]. cbn [snd] in Hw.
    eexists _, _. split; [done|]. cbn. by rewrite Hw.
  - destruct Hb as [Hid Hfind]. apply String.eqb_neq in Hid. rewrite Hid.
    cbn [negb andb rq_MsgID String.eqb]. rewrite Hid. cbn [negb]. rewrite Hfind.
    destruct (writeClipboard_ok d (item b) Hen) as (c & h & -> & Hw). eexists c, h. by split.
Qed.

(** Pressing [y]: the bubble counts as accepted, and a copy of it is asked for. *)
Lemma y_update `{Compiler} now m e b :
  quitting m = false → focused m = false → key_String e = "y" →
  bubble_at m (effectiveSelection m) = Some b →
  let label := if String.eqb (Type_ (it_Envelope (item b))) TypeImage then "image" else "message" in
  ∃ m', Update now m (KeyMsg e) =
      (m', Some (if mine b then copyCmd "" (Text (it_Envelope (item b))) label
                 else copyCmd (MsgID (it_Envelope (item b))) "" label)) ∧
    bubbles m' = <[Z.to_nat (effectiveSelection m) := mkBubble (item b) (mine b) true]> (bubbles m).
Proof.
  intros Hq Hf Hk Hb label. cbn [Update]. unfold onKey. rewrite Hq, Hf, Hk. cbn [String.eqb].
  unfold onKeyBrowse. rewrite Hk. cbn. unfold return_copySelected, copySelected. rewrite Hb.
  set (m1 := set_bubbles m _ _).
  destruct (rebuild_keeps now m1 false) as (_ & _ & _ & Hbs & _).
  eexists. split; [done|]. destruct call_first; [done|]. exact Hbs.
Qed.

(** What [enter] sends is the request of [room send --text]. *)
Lemma sendText_run (mo : Moment) E D o d r sent text frame so se :
  ui_at E o → connected d r sent → text ≠ "" → transmits (text_request text) → transmits okResp →
  Marshal (text_envelope mo d text) = Ok frame → fits frame →
  exec E D o (sendTextCmd text) (mkWorld d so se) =
    (Some [sendResultMsg "" None],
     mkWorld (set_conn d (d_conn d) (<[r := mkWriter (sent +:+ frame_bytes frame) None]> (links d)))
       so se).
Proof.
  intros Hat Hc Hne Hq Hr Hm Hf. cbn [exec]. unfold sendText, ipcClient_SendText.
  fold (text_request text). unfold mbind, M_bind.
  by rewrite (client_roundtrip_run mo E o _ okResp d _ None) by (done || by eapply handleSend_text).
Qed.

(** [enter] on a text: a bubble of one's own, an empty composer, and the request to send it. *)
Lemma enter_update `{!WidgetLaws} `{Compiler} now m e :
  quitting m = false → focused m = true → key_String e = "enter" →
  TrimSpace (TrimNewlines (ta_Value (ta m))) ≠ "" →
  ∃ m', Update now m (KeyMsg e) = (m', Some (sendTextCmd (TrimNewlines (ta_Value (ta m))))) ∧
    bubbles m' = bubbles m ++ [own_bubble now (TrimNewlines (ta_Value (ta m)))] ∧
    ta_Value (ta m') = "".
Proof.
  intros Hq Hf Hk Ht. cbn [Update]. unfold onKey. rewrite Hq, Hf, Hk. cbn [String.eqb].
  unfold onKeyCompose. rewrite Hk. cbn [String.eqb]. apply String.eqb_neq in Ht. cbn. rewrite Ht.
  match goal with |- context [rebuild now ?m1 true] =>
    destruct (rebuild_keeps now m1 true) as (_ & _ & _ & Hb & _ & _ & Hta) end.
  eexists. split; [done|]. split; [by rewrite Hb|]. rewrite Hta. apply value_Reset.
Qed.

Definition subscribe_request : Request :=
  mkRequest IPCVersion OpSubscribe "" "" "" "" false "" false "" "" "" "".

Lemma write_all_transmits {A} `{Cbor A} (l : list A) s :
  Forall transmits l →
  ∃ bs, (write_msgs (mkWriter s None) l).2 = mkWriter (s +:+ frames_bytes bs) None ∧
    length bs = length l ∧
    ∀ n, (length l <= n)%nat → (read_msgs n (mkReader (frames_bytes bs) EOF)).1 = l.
Proof.
  intros Hl. revert s. induction Hl as [|a l (b & Hm & Hf & Hu) Hl IH]; intros s.
  { exists []. cbn. rewrite str_app_nil_r. split_and!; [done..|]. by intros [|n] _. }
  destruct (IH (s +:+ frame_bytes b)) as (bs & Hw & Hlen & Hr). exists (b :: bs).
  cbn [write_msgs frames_bytes length]. unfold write_msg. rewrite Hm, WriteFrame_unlimited by done.
  rewrite Hw, str_app_assoc. split_and!; [done|lia|]. intros [|n] Hn; [cbn in Hn; lia|].
  cbn [read_msgs]. unfold read_msg. rewrite ReadFrame_frame, Hu by done.
  specialize (Hr n). destruct (read_msgs n _) as [l' x]. cbn [fst] in *. by rewrite Hr by (cbn in Hn; lia).
Qed.

Lemma filter_all_any (l : list Item) : filter (λ it, matchesKind it "any" = true) l = l.
Proof. induction l as [|it l IH]; [done|]. rewrite filter_cons, decide_True by done. by rewrite IH. Qed.

Lemma omap_items (l : list Item) :
  omap (λ resp : Response, if String.eqb (rs_Kind resp) RespItem
                           then (λ it, itemMsg (Some it)) <$> rs_Item resp else None)
    (map itemResp l) = map (λ it, itemMsg (Some it)) l.
Proof. induction l as [|it l IH]; [done|]. cbn [map omap list_omap]. cbn. by f_equal. Qed.

(** Every item accepted while the UI is subscribed is a message to its program, in order. *)
Lemma stream_round_items (mo : Moment) E o d so se :
  let d1 := (subscribe d).2 in
  ui_at E o → transmits subscribe_request → daemon_ok d →
  Forall (λ it, transmits (itemResp it)) (Daemon.accepted d1 m_later) →
  (length (Daemon.accepted d1 m_later) <= subCap)%nat →
  ∃ d', stream_round E o (mkWorld d so se) =
    (Some (connStateMsg true None :: map (λ it, itemMsg (Some it)) (Daemon.accepted d1 m_later) ++
           [connStateMsg false (Some "subscription closed")]), mkWorld d' so se) ∧
    buffer d' = buffer (ingest_all d1 m_later).
Proof.
  intros d1 Hat Hq Hok Hall Hlen. unfold stream_round. rewrite ui_dial by done.
  fold subscribe_request. unfold mbind, M_bind, send_req, WriteReq.
  destruct (write_transmits subscribe_request "" Hq) as (b & _ & _ & Hw & Hb). rewrite Hw.
  cbn [w_buf String.append]. unfold mbind, M_bind, exchange. cbn [peer serve daemon_peer].
  unfold daemon_serve, handleConn, ReadReq. rewrite Hb. cbn [fst].
  change (handleReq ?u ?n d subscribe_request) with (hold (handleSubscribe d "any")).
  unfold handleSubscribe. destruct (subscribe d) as [ch d2] eqn:Es. cbn [snd] in d1. subst d1.
  pose proof (subscribe_ok _ _ _ Es Hok) as Hok1. cbn [hold fst snd].
  pose proof (subscribe_spec _ _ _ Es) as (_ & Hsubs & _).
  assert (subs d2 !! ch = Some (make_chan subCap)) as Hch by (by rewrite Hsubs, lookup_insert_eq).
  pose proof (ingest_all_sub d2 m_later ch _ Hok1 Hch eq_refl Hlen) as Hsub.
  unfold resume_stream. rewrite Hsub. cbn [queue make_chan app].
  rewrite filter_all_any.
  destruct (write_all_transmits (map itemResp (Daemon.accepted d2 m_later)) "") as (bs & Hwr & Hlb & Hrd).
  { by apply Forall_map. }
  rewrite Hwr. cbn [w_buf String.append]. eexists. split.
  - unfold mret, M_ret. cbn [r_buf].
    rewrite Hrd by (rewrite <-Hlb; pose proof (length_frames_bytes bs); lia).
    by rewrite omap_items.
  - done.
Qed.
End chat.

(** ** Properties *)

(** C2. A message of the chat.  Enter on a non-blank text shows it as one's own bubble and empties
    the composer; the command it asks for hands the text to the daemon as one frame; the relay
    writes that frame to the other session of the room; it decodes to the envelope that was sent;
    and when it comes in at the daemon of a subscribed terminal UI, that UI gets it as a message and
    shows a bubble with exactly this text that is not its own. *)
Theorem chat_message `{Cbor Envelope} `{Blake3} `{ImageCodec} `{MimeTable} `{Clipboard} `{Json}
    `{Cbor Request} `{Cbor Response} `{!CborSound Envelope} `{WidgetLaws} `{Compiler}
    (mA mB : Moment) EA EB D oA oB dA dB r sent text frame st s t uA uB e nowA nowB nowU :
  quitting uA = false → focused uA = true → key_String e = "enter" →
  text = TrimNewlines (ta_Value (ta uA)) → TrimSpace text ≠ "" →
  ui_at EA oA → connected dA r sent → Marshal (text_envelope mA dA text) = Ok frame → fits frame →
  transmits (text_request text) → transmits okResp → route st s t frame →
  ui_at EB oB → transmits subscribe_request →
  transmits (itemResp (mkItem (text_envelope mA dA text) "")) →
  daemon_ok dB → @m_ulid mA ∉ seen (d_dedupe dB) →
  @m_later mB = [(nowB, text_envelope mA dA text)] →
  let it := mkItem (text_envelope mA dA text) "" in
  ∃ uA' dA' st' dB',
    Update nowA uA (KeyMsg e) = (uA', Some (sendTextCmd text)) ∧
    bubbles uA' = bubbles uA ++ [own_bubble nowA text] ∧ ta_Value (ta uA') = "" ∧
    ui_exec mA EA D oA (sendTextCmd text) dA =
      (Some [sendResultMsg "" None], mkWorld dA' "" "") ∧
    links dA' !! r = Some (mkWriter (sent +:+ frame_bytes frame) None) ∧
    run st [LRead s; LSnapshot s; LDeliver s t; LWrite t] = Some st' ∧
    client_bytes st' t = client_bytes st t +:+ frame_bytes frame ∧
    Unmarshal frame = Ok (text_envelope mA dA text) ∧
    ui_stream mB EB oB dB =
      (Some [connStateMsg true None; itemMsg (Some it);
             connStateMsg false (Some "subscription closed")], mkWorld dB' "" "") ∧
    bubbles (Update nowU uB (itemMsg (Some it))).1 =
      bubbles uB ++ [mkBubble it false (negb (String.eqb (st_AutoCopy (status uB)) "notify"))].
Proof.
  intros Hq Hf Hk -> Ht HatA Hc Hm Hfit Hreq Hok Hroute HatB Hsub Hit HokB Hn Hlater it.
  destruct (enter_update nowA uA e Hq Hf Hk Ht) as (uA' & Hu & Hb & Hv).
  destruct (relay_pass st s t frame Hfit Hroute) as (st' & Hrun & Hbytes).
  assert (Daemon.accepted (subscribe dB).2 (@m_later mB) = [it]) as Hacc.
  { rewrite Hlater. cbn [Daemon.accepted snd]. rewrite app_nil_r. unfold accepts.
    rewrite decide_False by (cbn; exact Hn). done. }
  assert (TrimNewlines (ta_Value (ta uA)) ≠ "") as Hne by (intros Heq; by rewrite Heq in Ht).
  destruct (stream_round_items mB EB oB dB "" "" HatB Hsub HokB) as (dB' & Hs & _).
  { rewrite Hacc. by constructor. }
  { rewrite Hacc. cbn. unfold subCap. lia. }
  rewrite Hacc in Hs. eexists uA', _, st', dB'. split; [exact Hu|]. split; [exact Hb|].
  split; [exact Hv|]. split; [by eapply sendText_run|].
  split; [cbn; by rewrite lookup_insert_eq|]. split; [exact Hrun|]. split; [exact Hbytes|].
  split; [by apply cbor_sound|]. split; [exact Hs|].
  cbn [Update fst]. unfold onItem. cbv zeta. case_match; cbn [setToast set_toast bubbles];
    by match goal with |- context [rebuild nowU ?m1 ?b] =>
      destruct (rebuild_keeps nowU m1 b) as (_ & _ & _ & -> & _) end.
Qed.


(** ** Examples *)

#[local] Existing Instance pad_blake3.
#[local] Existing Instance clipboard_works.
#[local] Existing Instance frame_json.
#[local] Existing Instance strict_env.
#[local] Existing Instance strict_env_sound.
#[local] Existing Instance strict_req.
#[local] Existing Instance strict_resp.
#[local] Existing Instance no_images.
#[local] Existing Instance no_mime.
#[local] Existing Instance toy_widgets.
#[local] Existing Instance toy_widgets_laws.
#[local] Instance demo_order : Compiler := true.

Definition demo_desk : Desk := mkDesk (Ok "/home/u") (Ok "/") "linux" (λ _ _, None).

(** Two UIs: one with a text in its composer, one that has received items. *)
Definition demo_writer : model :=
  (run_msgs (newModel demo_options)
     [(0%Z, KeyMsg "esc"); (0%Z, KeyMsg "i"); (0%Z, KeyMsg "hi")]).1.

Lemma demo_writer_facts :
  quitting demo_writer = false ∧ focused demo_writer = true ∧
  "hi" = TrimNewlines (ta_Value (ta demo_writer)) ∧ TrimSpace "hi" ≠ "".
Proof. vm_compute. split_and!; [reflexivity..|discriminate]. Qed.

Definition demo_arrival : Moment := mkMoment "" 6 [(7%Z, demo_text_env)].

Lemma demo_subscribe_transmits : transmits subscribe_request.
Proof. apply (transmits_dec _ (bytes_of_msg subscribe_request)); vm_compute; reflexivity. Qed.

Lemma demo_reader_bubbles :
  length (bubbles demo_model) = 3%nat ∧ st_AutoCopy (status demo_model) = "notify".
Proof. vm_compute. split; reflexivity. Qed.

Lemma chat_message_witness :
  ∃ uA' dA' st' dB',
    Update 1 demo_writer (KeyMsg "enter") = (uA', Some (sendTextCmd "hi")) ∧
    client_bytes st' 2%nat = frame_bytes demo_frame ∧
    links dA' !! 0%nat = Some (mkWriter (frame_bytes demo_frame) None) ∧
    ui_stream demo_arrival (demo_proc "") demo_options (demo_daemon "notify") =
      (Some [connStateMsg true None; itemMsg (Some (mkItem demo_text_env ""));
             connStateMsg false (Some "subscription closed")], mkWorld dB' "" "") ∧
    bubbles (Update 8 demo_model (itemMsg (Some (mkItem demo_text_env "")))).1 =
      bubbles demo_model ++ [mkBubble (mkItem demo_text_env "") false false].
Proof.
  destruct demo_frame_ok as [Hm Hf]. destruct demo_transmits as (Hq & Hok & _ & Hit).
  destruct demo_dedupe as [_ Hn]. destruct demo_writer_facts as (Wq & Wf & Wt & Wne).
  destruct (chat_message (demo_moment "01") demo_arrival (demo_proc "") (demo_proc "") demo_desk
    demo_options demo_options demo_connected (demo_daemon "notify") 0%nat "" "hi" demo_frame demo_route
    1%nat 2%nat demo_writer demo_model "enter" 1 7 8 Wq Wf eq_refl Wt Wne eq_refl demo_connected_ok Hm Hf
    Hq Hok demo_route_ok eq_refl demo_subscribe_transmits Hit (demo_daemon_ok "notify") Hn eq_refl)
    as (uA' & dA' & st' & dB' & Hu & _ & _ & _ & Hl & _ & Hc & _ & Hs & Hb).
  exists uA', dA', st', dB'. split; [exact Hu|]. split; [exact Hc|]. split; [exact Hl|].
  split; [exact Hs|]. destruct demo_reader_bubbles as [_ Ha]. rewrite Ha in Hb. exact Hb.
Defined.

Definition demo_copier : model :=
  (run_msgs (newModel demo_options)
     [(0%Z, itemMsg (Some (mkItem demo_text_env ""))); (1%Z, KeyMsg "esc")]).1.
Definition demo_copier_bubble : bubble := mkBubble (mkItem demo_text_env "") false true.
Definition demo_holder : Daemon := ingest 7 (demo_daemon "notify") demo_text_env.

Lemma demo_copier_facts :
  quitting demo_copier = false ∧ focused demo_copier = false ∧
  bubble_at demo_copier (effectiveSelection demo_copier) = Some demo_copier_bubble.
Proof. vm_compute. split_and!; reflexivity. Qed.

Lemma demo_copyable : copyable demo_holder demo_copier_bubble.
Proof. split; [vm_compute; discriminate|vm_compute; reflexivity]. Qed.

Lemma demo_holder_clip : (ensure (clip demo_holder)).1 = None ∧ written (clip demo_holder) = [].
Proof. vm_compute. split; reflexivity. Qed.

Lemma demo_copied : copied demo_copier_bubble = FmtText "hi".
Proof. vm_compute. reflexivity. Qed.

Lemma demo_y_transmits : transmits (y_request demo_copier_bubble).
Proof. apply (transmits_dec _ (bytes_of_msg (y_request demo_copier_bubble))); vm_compute; reflexivity. Qed.

