(* ===== verification/ProbeConfig.v ===== *)
(** * The experiments: settings

    [experiments/shared-go/config/config.go], the settings of the transport probes.  It is
    room-go's [config.go] without the [server] key and the identity key, and with the name of the
    probe in the default directory; [forget] says how the two correspond. *)
From S2P Require Import Prelude GoStr GoPath GoOS.
From S2P Require Config.
Open Scope string_scope.
Open Scope list_scope.

Record Settings := mkSettings {
  AutoCopy : string;
  SaveDir : string;
  TextFile : string;
  ClearOnExit : string;
  DeviceName_ : string;
  Room_ : string;
  Internet : string;
  BroadcastOnCopy : string;
}.

#[export] Instance Settings_eq_dec : EqDecision Settings.
Proof. solve_decision. Defined.

Class Json := {
  json_MarshalIndent : Settings → result string string;
  json_Unmarshal : string → Settings → result string Settings;
}.

(** [host]: what [os.Hostname] returns. *)
Definition defaultSettings (host : string) : Settings :=
  let host := if String.eqb host "" then "probe-device" else host in
  mkSettings "notify" "" "" "ask" host "default" "off" "off".

Record Store := mkStore { Dir_ : string; settings : Settings }.

Definition set_settings (s : Store) (c : Settings) : Store := mkStore (Dir_ s) c.

Definition configPath (s : Store) : string := Join (Dir_ s) "config.json".
Definition BlobDir (s : Store) : string := Join (Dir_ s) "blobs".
Definition Path (s : Store) (name : string) : string := Join (Dir_ s) name.

Definition DefaultDir (base : result string string) (bin : string) : result string string :=
  match base with Ok base => Ok (Join base bin) | Err e => Err e end.

Section config.
Context `{Json}.

Definition save (s : Store) (fs : FS) : result string unit * FS :=
  match json_MarshalIndent (settings s) with
  | Err e => (Err e, fs)
  | Ok b =>
      let tmp := configPath s +:+ ".tmp" in
      match WriteFile fs tmp b with
      | (Err e, fs) => (Err (Error e), fs)
      | (Ok _, fs) =>
          match Rename fs tmp (configPath s) with
          | (Err e, fs) => (Err (Error e), fs)
          | (Ok _, fs) => (Ok (), fs)
          end
      end
  end.

Definition load (host : string) (s : Store) (fs : FS) : result string unit * Store * FS :=
  match ReadFile fs (configPath s) with
  | Err e =>
      if IsNotExist e then let '(r, fs) := save s fs in (r, s, fs)
      else (Err (Error e), s, fs)
  | Ok b =>
      match json_Unmarshal b (defaultSettings host) with
      | Err e => (Err ("parse config.json: " +:+ e), s, fs)
      | Ok cur => (Ok (), set_settings s cur, fs)
      end
  end.

Definition Open (host : string) (base : result string string) (dir bin : string) (fs : FS)
    : result string Store * FS :=
  match (if String.eqb dir "" then DefaultDir base bin else Ok dir) with
  | Err e => (Err e, fs)
  | Ok dir =>
      match MkdirAll fs dir with
      | (Err e, fs) => (Err (Error e), fs)
      | (Ok _, fs) =>
          match load host (mkStore dir (defaultSettings host)) fs with
          | (Err e, _, fs) => (Err e, fs)
          | (Ok _, s, fs) => (Ok s, fs)
          end
      end
  end.

Definition Get (s : Store) : Settings := settings s.

(** The switch of [SetKey]. *)
Definition set_field (c : Settings) (key value : string) : result string Settings :=
  let '(mkSettings ac sd tf ce dn rm it bc) := c in
  if String.eqb key "auto_copy" then
    if decide (value ∈ ["notify"; "on"; "off"])
    then Ok (mkSettings value sd tf ce dn rm it bc)
    else Err ("auto_copy must be notify|on|off, got " +:+ Quote value)
  else if String.eqb key "save_dir" then Ok (mkSettings ac value tf ce dn rm it bc)
  else if String.eqb key "text_file" then Ok (mkSettings ac sd value ce dn rm it bc)
  else if String.eqb key "clear_on_exit" then
    if decide (value ∈ ["ask"; "transient"; "all"; "never"])
    then Ok (mkSettings ac sd tf value dn rm it bc)
    else Err ("clear_on_exit must be ask|transient|all|never, got " +:+ Quote value)
  else if String.eqb key "device_name" then Ok (mkSettings ac sd tf ce value rm it bc)
  else if String.eqb key "room" then Ok (mkSettings ac sd tf ce dn value it bc)
  else if String.eqb key "internet" then Ok (mkSettings ac sd tf ce dn rm value bc)
  else if String.eqb key "broadcast_on_copy" then Ok (mkSettings ac sd tf ce dn rm it value)
  else Err ("unknown config key " +:+ Quote key).

Definition SetKey (s : Store) (fs : FS) (key value : string) : result string unit * Store * FS :=
  match set_field (settings s) key value with
  | Err e => (Err e, s, fs)
  | Ok c =>
      let s := set_settings s c in
      let '(r, fs) := save s fs in (r, s, fs)
  end.

Definition GetKey (s : Store) (key : string) : result string string :=
  let cur := Get s in
  if String.eqb key "auto_copy" then Ok (AutoCopy cur)
  else if String.eqb key "save_dir" then Ok (SaveDir cur)
  else if String.eqb key "text_file" then Ok (TextFile cur)
  else if String.eqb key "clear_on_exit" then Ok (ClearOnExit cur)
  else if String.eqb key "device_name" then Ok (DeviceName_ cur)
  else if String.eqb key "room" then Ok (Room_ cur)
  else if String.eqb key "internet" then Ok (Internet cur)
  else if String.eqb key "broadcast_on_copy" then Ok (BroadcastOnCopy cur)
  else Err ("unknown config key " +:+ Quote key).
End config.

(** ** The same settings as room-go's *)

Definition forget (c : Config.Settings) : Settings :=
  mkSettings (Config.AutoCopy c) (Config.SaveDir c) (Config.TextFile c) (Config.ClearOnExit c)
    (Config.DeviceName_ c) (Config.Room_ c) (Config.Internet c) (Config.BroadcastOnCopy c).

Definition map_ok {A B} (f : A → B) (r : result string A) : result string B :=
  match r with Ok a => Ok (f a) | Err e => Err e end.

(** Setting and reading a key agree with room-go for every key but [server], errors included. *)
Lemma set_field_forget c key value :
  key ≠ "server" →
  set_field (forget c) key value = map_ok forget (Config.set_field c key value).
Proof.
  intros Hk. apply String.eqb_neq in Hk. destruct c. cbn. rewrite Hk. by repeat case_match.
Qed.

Lemma GetKey_forget dir c key :
  key ≠ "server" →
  GetKey (mkStore dir (forget c)) key = Config.GetKey (Config.mkStore dir c) key.
Proof. intros Hk. apply String.eqb_neq in Hk. unfold GetKey, Config.GetKey. by rewrite Hk. Qed.

Lemma set_field_server c v :
  set_field c "server" v = Err ("unknown config key " +:+ Quote "server").
Proof. by destruct c. Qed.
