(* ===== verification/ProbeIpc.v ===== *)
(** * The experiments: wire, transport interface and local contract

    [experiments/shared-go]: ipc/ipc.go, transport/transport.go, and what wire/wire.go has that
    room-go's has not ([MimeForFile]; the rest of that file is in [ProbeWire]). *)
From S2P Require Import Prelude GoStr GoPath GoOS Wire.
From S2P Require Ipc.
Open Scope string_scope.
Open Scope list_scope.

(** ** wire.go *)

Definition MimeForFile `{MimeTable} (filename : string) : string :=
  let ext := Ext filename in
  if negb (String.eqb ext "") then
    let m := TypeByExtension ext in
    if negb (String.eqb m "") then m else MimeOctet
  else MimeOctet.

(** ** transport.go *)

Record Peer := mkPeer { ID : string; Name : string; Addr : string }.

#[export] Instance Peer_eq_dec : EqDecision Peer.
Proof. solve_decision. Defined.

(** What the daemon asks of a transport.  The callback of [OnReceive] is the daemon's [ingest],
    which a transport calls for each envelope that comes in. *)
Class Transport (T : Type) := {
  Identity : T → string;
  Start : T → option string * T;
  Broadcast : T → Envelope → option string * T;
  Peers : T → list Peer;
  Close : T → T;
}.

(** ** ipc.go *)

Definition IPCVersion : Z := 1.

Record Request := mkRequest {
  rq_IPCVersion : Z;
  rq_Op : string;
  rq_Bytes : string;
  rq_Force : string;
  rq_Name : string;
  rq_Kind : string;
  rq_Follow : bool;
  rq_All : bool;
  rq_Key : string;
  rq_Value : string;
}.

Definition OpSend := "send".
Definition OpRecv := "recv".
Definition OpPaste := "paste".
Definition OpCopy := "copy".
Definition OpClear := "clear".
Definition OpSubscribe := "subscribe".
Definition OpStatus := "status".
Definition OpPeers := "peers".
Definition OpConfigSet := "config_set".
Definition OpConfigGet := "config_get".
Definition OpDaemonStop := "daemon_stop".
Definition OpPing := "ping".

Record Item := mkItem { it_Envelope : Envelope; it_LocalPath : string }.

Record Status := mkStatus {
  st_Identity : string;
  st_DeviceName : string;
  st_Room : string;
  st_Transport : string;
  st_AutoCopy : string;
  st_Clipboard : string;
  st_Peers : list Peer;
  st_Buffer : Z;
}.

Record Response := mkResponse {
  rs_IPCVersion : Z;
  rs_Kind : string;
  rs_Code : Z;
  rs_Message : string;
  rs_Item : option Item;
  rs_Status : option Status;
  rs_Value : string;
}.

Definition RespOK := "ok".
Definition RespErr := "err".
Definition RespItem := "item".
Definition RespStatus := "status".
Definition RespValue := "value".

#[export] Instance Request_eq_dec : EqDecision Request.
Proof. solve_decision. Defined.
#[export] Instance Item_eq_dec : EqDecision Item.
Proof. solve_decision. Defined.
#[export] Instance Status_eq_dec : EqDecision Status.
Proof. solve_decision. Defined.
#[export] Instance Response_eq_dec : EqDecision Response.
Proof. solve_decision. Defined.

Definition WriteReq `{Cbor Request} (w : writer) (r : Request) : result Ipc.msg_err unit * writer :=
  Ipc.write_msg w r.
Definition ReadReq `{Cbor Request} (rd : reader) : result Ipc.msg_err Request * reader :=
  Ipc.read_msg rd.
Definition WriteResp `{Cbor Response} (w : writer) (r : Response) : result Ipc.msg_err unit * writer :=
  Ipc.write_msg w r.
Definition ReadResp `{Cbor Response} (rd : reader) : result Ipc.msg_err Response * reader :=
  Ipc.read_msg rd.

(** [runtime]: $XDG_RUNTIME_DIR; [tmp]: [os.TempDir()]; [bin]: the name of the probe. *)
Definition SocketPath (runtime tmp explicit bin : string) (fs : FS) : result string string * FS :=
  if negb (String.eqb explicit "") then (Ok explicit, fs)
  else
    let base := if String.eqb runtime "" then tmp else runtime in
    let dir := Join base bin in
    match MkdirAll fs dir with
    | (Err e, fs) => (Err (Error e), fs)
    | (Ok _, fs) => (Ok (Join dir "daemon.sock"), fs)
    end.

(** *** Spawning *)

Definition detachAttr : Ipc.SysProcAttr := Ipc.mkSysProcAttr true.

(** The argument list of the spawned process. *)
Definition spawnDaemon_args (spawnArgs : list string) : list string := spawnArgs ++ ["daemon"].

(** [exe]: what [os.Executable] returns; [logf]: the log file, if [os.CreateTemp] makes one; [Start]:
    the method of [exec.Cmd]. *)
Definition spawnDaemon (exe logf : result string string) (Start : Ipc.Cmd → result string unit)
    (spawnArgs : list string) : result string unit :=
  match exe with
  | Err e => Err e
  | Ok exe =>
      let out := match logf with Ok f => Some f | Err _ => None end in
      Start (Ipc.mkCmd exe (spawnDaemon_args spawnArgs) None out out detachAttr)
  end.

Section dial.
Context {conn : Type} (dial : nat → result string conn) (start : Z) (now : nat → Z).

(** As [Ipc.Dial], with a deadline of six seconds. *)
Definition Dial (fuel : nat) (socketPath : string) (autoSpawn : bool) (spawn : result string unit)
    : option (result string conn) :=
  match dial 0 with
  | Ok c => Some (Ok c)
  | Err err =>
      if negb autoSpawn then Some (Err err)
      else
        match spawn with
        | Err serr => Some (Err ("spawn daemon: " +:+ serr))
        | Ok _ =>
            let deadline := (start + 6000)%Z in
            Ipc.dial_wait dial now fuel 0 socketPath err deadline
        end
  end.
End dial.

(** [MimeForFile] is room-go's [MimeForFilename] before trimming. *)
Lemma MimeForFile_trim `{MimeTable} name :
  MimeForFile name = MimeForFilename name ∨
  MimeForFilename name = TrimSpace (MimeForFile name) ∧ Ext name ≠ "".
Proof.
  unfold MimeForFile, MimeForFilename. destruct (String.eqb_spec (Ext name) ""); cbn [negb]; [by left|].
  destruct (String.eqb (TypeByExtension (Ext name)) ""); cbn [negb]; [by left|]. by right.
Qed.
