(* ===== verification/ProbeCodec.v ===== *)
(** * The experiments: a concrete codec

    Requests and responses of [experiments/shared-go] on the codec of [Codec], and its settings, for
    the examples.  It says nothing of the bytes CBOR and JSON produce. *)
From S2P Require Import Prelude GoStr GoPath GoOS Wire Codec ProbeConfig ProbeIpc.
Open Scope string_scope.
Open Scope list_scope.

(** ** Requests *)

Definition req_fields (r : Request) : list string :=
  [PutUint32 (rq_IPCVersion r); rq_Op r; rq_Bytes r; rq_Force r; rq_Name r; rq_Kind r;
   enc_bool (rq_Follow r); enc_bool (rq_All r); rq_Key r; rq_Value r].
Definition dec_req (s : string) : option Request :=
  match dec_fields s with
  | [v; op; by_; fo; na; ki; fw; al; k; va] =>
      Some (mkRequest (Uint32 v) op by_ fo na ki (dec_bool fw) (dec_bool al) k va)
  | _ => None
  end.

Definition req_wf (r : Request) : Prop := Forall fits (req_fields r) ∧ u32 (rq_IPCVersion r).
#[export] Instance req_wf_dec r : Decision (req_wf r).
Proof. exact (and_dec (Forall_dec _ _) (u32_dec _)). Defined.

Lemma probe_dec_enc_req r : req_wf r → dec_req (enc_fields (req_fields r)) = Some r.
Proof.
  intros [Hf Hv]. unfold dec_req. rewrite dec_enc_fields by done. cbn [req_fields].
  rewrite !dec_enc_bool, dec_enc_u32 by done. by destruct r.
Qed.

Definition probe_req : Cbor Request := guarded req_wf (λ r, enc_fields (req_fields r)) dec_req.

(** ** Responses *)

Definition dec_item (s : string) : option Item :=
  match dec_fields s with
  | [e; p] => match dec_env e with Some e => Some (mkItem e p) | None => None end
  | _ => None
  end.
Definition enc_item (i : Item) : string := enc_fields [enc_env (it_Envelope i); it_LocalPath i].

Definition peer_fields (p : Peer) : list string := [ID p; Name p; Addr p].
Definition dec_peer (s : string) : list Peer :=
  match dec_fields s with [i; n; a] => [mkPeer i n a] | _ => [] end.
Definition peers_fields (l : list Peer) : list string := map (λ p, enc_fields (peer_fields p)) l.

Definition status_fields (s : Status) : list string :=
  [st_Identity s; st_DeviceName s; st_Room s; st_Transport s; st_AutoCopy s; st_Clipboard s;
   enc_fields (peers_fields (st_Peers s)); PutUint32 (st_Buffer s)].
Definition dec_status (s : string) : option Status :=
  match dec_fields s with
  | [i; dn; rm; tr; ac; cl; pe; bu] =>
      Some (mkStatus i dn rm tr ac cl (flat_map dec_peer (dec_fields pe)) (Uint32 bu))
  | _ => None
  end.

Definition resp_fields (r : Response) : list string :=
  [PutUint32 (rs_IPCVersion r); rs_Kind r; PutUint32 (rs_Code r); rs_Message r;
   enc_option enc_item (rs_Item r); enc_option (λ s, enc_fields (status_fields s)) (rs_Status r);
   rs_Value r].
Definition dec_resp (s : string) : option Response :=
  match dec_fields s with
  | [v; k; c; m; i; st; va] =>
      match dec_option dec_item i, dec_option dec_status st with
      | Some i, Some st => Some (mkResponse (Uint32 v) k (Uint32 c) m i st va)
      | _, _ => None
      end
  | _ => None
  end.

Definition item_wf (i : Item) : Prop :=
  env_wf (it_Envelope i) ∧ Forall fits [enc_env (it_Envelope i); it_LocalPath i].
Definition status_wf (s : Status) : Prop :=
  Forall fits (status_fields s) ∧ Forall fits (peers_fields (st_Peers s)) ∧
  Forall (λ p, Forall fits (peer_fields p)) (st_Peers s) ∧ u32 (st_Buffer s).
Definition resp_wf (r : Response) : Prop :=
  Forall fits (resp_fields r) ∧ u32 (rs_IPCVersion r) ∧ u32 (rs_Code r) ∧
  from_option item_wf True (rs_Item r) ∧ from_option status_wf True (rs_Status r).

#[export] Instance item_wf_dec i : Decision (item_wf i).
Proof. exact (and_dec (env_wf_dec _) (Forall_dec _ _)). Defined.
#[export] Instance status_wf_dec s : Decision (status_wf s).
Proof.
  refine (and_dec (Forall_dec _ _) (and_dec (Forall_dec _ _) (and_dec (Forall_dec _ _) (u32_dec _)))).
Defined.
#[export] Instance resp_wf_dec r : Decision (resp_wf r).
Proof.
  unfold resp_wf. refine (and_dec (Forall_dec _ _) (and_dec (u32_dec _) (and_dec (u32_dec _) (and_dec _ _)))).
  - destruct (rs_Item r) as [i|]; [exact (item_wf_dec i)|exact True_dec].
  - destruct (rs_Status r) as [s|]; [exact (status_wf_dec s)|exact True_dec].
Defined.

Lemma probe_dec_enc_item i : item_wf i → dec_item (enc_item i) = Some i.
Proof.
  intros [He Hf]. unfold dec_item, enc_item. rewrite (dec_enc_fields _ Hf).
  rewrite dec_enc_env by done. by destruct i.
Qed.

Lemma dec_enc_peers l :
  Forall (λ p, Forall fits (peer_fields p)) l → flat_map dec_peer (peers_fields l) = l.
Proof.
  induction 1 as [|p l Hp _ IH]; [done|]. cbn [peers_fields map flat_map]. unfold dec_peer at 1.
  rewrite (dec_enc_fields _ Hp). unfold peers_fields in IH. rewrite IH. by destruct p.
Qed.

Lemma probe_dec_enc_status s : status_wf s → dec_status (enc_fields (status_fields s)) = Some s.
Proof.
  intros (Hf & Hp & Hps & Hb). unfold dec_status. rewrite (dec_enc_fields _ Hf).
  cbn [status_fields]. rewrite (dec_enc_fields _ Hp), dec_enc_peers, dec_enc_u32 by done.
  by destruct s.
Qed.

Lemma probe_dec_enc_resp r : resp_wf r → dec_resp (enc_fields (resp_fields r)) = Some r.
Proof.
  intros (Hf & Hv & Hc & Hi & Hs). unfold dec_resp. rewrite dec_enc_fields by done.
  cbn [resp_fields]. rewrite !dec_enc_option.
  - rewrite !dec_enc_u32 by done. by destruct r.
  - intros s E. rewrite E in Hs. by apply probe_dec_enc_status.
  - intros i E. rewrite E in Hi. by apply probe_dec_enc_item.
Qed.

Definition probe_resp : Cbor Response := guarded resp_wf (λ r, enc_fields (resp_fields r)) dec_resp.
Lemma probe_resp_sound : @CborSound Response probe_resp.
Proof. apply guarded_sound, probe_dec_enc_resp. Qed.

(** ** Settings *)

Definition probe_json : Json := {|
  json_MarshalIndent c := Ok (enc_fields [AutoCopy c; SaveDir c; TextFile c; ClearOnExit c;
    DeviceName_ c; Room_ c; Internet c; BroadcastOnCopy c]);
  json_Unmarshal b _ :=
    match dec_fields b with
    | [ac; sd; tf; ce; dn; rm; it; bc] => Ok (mkSettings ac sd tf ce dn rm it bc)
    | _ => Err "unexpected end of JSON input"
    end |}.
