(* ===== verification/ProbeDaemon.v ===== *)
(** * The experiments: the daemon behind a transport

    [experiments/shared-go/daemon]: daemon.go and sinks.go, the resident agent of every probe.  It
    is generic in the transport, an instance of [ProbeIpc.Transport].  The dedupe set and the
    clipboard are those of [Dedupe] and [Clip], whose Go files are copies of each other. *)
From S2P Require Import Prelude GoStr GoPath GoOS GoTime Wire Chan Dedupe Clip ProbeConfig ProbeIpc.
From S2P Require Sinks Daemon.
Open Scope string_scope.
Open Scope list_scope.

Definition bufferCap : nat := 64.
Definition subCap : nat := 16.
Definition ref : Type := nat.

Record Daemon (T : Type) := mkDaemon {
  cfg : Store;
  room : string;
  transportTag : string;
  tr : T;
  fp : string;
  deviceName : string;
  d_dedupe : Dedupe;
  buffer : list Item;
  subs : gmap ref (chan Item);
  lastCopy : string;
  sessionSaveFiles : list string;
  textBaseline : gmap string Z;
  gotReceive : bool;
  stopPolicy : string;
  cancelled : bool;    (** [d.cancel] was called *)
  fs : FS;
  clip : Clip;
}.
Arguments mkDaemon {T}.
Arguments cfg {T}.
Arguments room {T}.
Arguments transportTag {T}.
Arguments tr {T}.
Arguments fp {T}.
Arguments deviceName {T}.
Arguments d_dedupe {T}.
Arguments buffer {T}.
Arguments subs {T}.
Arguments lastCopy {T}.
Arguments sessionSaveFiles {T}.
Arguments textBaseline {T}.
Arguments gotReceive {T}.
Arguments stopPolicy {T}.
Arguments cancelled {T}.
Arguments fs {T}.
Arguments clip {T}.

Section setters.
Context {T : Type}.
Implicit Types d : Daemon T.

Definition set_cfg d (c : Store) (n : string) (f : FS) : Daemon T :=
  mkDaemon c (room d) (transportTag d) (tr d) (fp d) n (d_dedupe d) (buffer d) (subs d) (lastCopy d)
    (sessionSaveFiles d) (textBaseline d) (gotReceive d) (stopPolicy d) (cancelled d) f (clip d).
Definition set_tr d (t : T) : Daemon T :=
  mkDaemon (cfg d) (room d) (transportTag d) t (fp d) (deviceName d) (d_dedupe d) (buffer d) (subs d)
    (lastCopy d) (sessionSaveFiles d) (textBaseline d) (gotReceive d) (stopPolicy d) (cancelled d)
    (fs d) (clip d).
Definition set_dedupe d (x : Dedupe) : Daemon T :=
  mkDaemon (cfg d) (room d) (transportTag d) (tr d) (fp d) (deviceName d) x (buffer d) (subs d)
    (lastCopy d) (sessionSaveFiles d) (textBaseline d) (gotReceive d) (stopPolicy d) (cancelled d)
    (fs d) (clip d).
Definition set_buffer d (b : list Item) (s : gmap ref (chan Item)) (got : bool) : Daemon T :=
  mkDaemon (cfg d) (room d) (transportTag d) (tr d) (fp d) (deviceName d) (d_dedupe d) b s
    (lastCopy d) (sessionSaveFiles d) (textBaseline d) got (stopPolicy d) (cancelled d)
    (fs d) (clip d).
Definition set_clip d (c : Clip) (h : string) : Daemon T :=
  mkDaemon (cfg d) (room d) (transportTag d) (tr d) (fp d) (deviceName d) (d_dedupe d) (buffer d)
    (subs d) h (sessionSaveFiles d) (textBaseline d) (gotReceive d) (stopPolicy d) (cancelled d)
    (fs d) c.
Definition set_files d (saved : list string) (base : gmap string Z) (f : FS) : Daemon T :=
  mkDaemon (cfg d) (room d) (transportTag d) (tr d) (fp d) (deviceName d) (d_dedupe d) (buffer d)
    (subs d) (lastCopy d) saved base (gotReceive d) (stopPolicy d) (cancelled d) f (clip d).
Definition set_fs d (f : FS) : Daemon T := set_files d (sessionSaveFiles d) (textBaseline d) f.
Definition set_stop d (p : string) : Daemon T :=
  mkDaemon (cfg d) (room d) (transportTag d) (tr d) (fp d) (deviceName d) (d_dedupe d) (buffer d)
    (subs d) (lastCopy d) (sessionSaveFiles d) (textBaseline d) (gotReceive d) p true (fs d) (clip d).
End setters.

(** ** Small helpers *)

Definition short (s : string) : string :=
  if (len s <=? 16)%Z then s else str_take 16 s +:+ "…".

Definition matchesKind (item : Item) (kind : string) : bool :=
  if String.eqb kind "" || String.eqb kind "any" then true
  else if String.eqb kind TypeText then String.eqb (Type_ (it_Envelope item)) TypeText
  else if String.eqb kind TypeImage then String.eqb (Type_ (it_Envelope item)) TypeImage
  else if String.eqb kind TypeFile then String.eqb (Type_ (it_Envelope item)) TypeFile
  else true.

(** "<filename or hash>.png" *)
Definition imageSinkName (env : Envelope) : string :=
  let name := Filename env in
  let name := if String.eqb name "" then match Blob_ env with Some b => Hash b | None => name end
              else name in
  TrimSuffix name (Ext name) +:+ ".png".

Definition fileSinkName (env : Envelope) : string :=
  if negb (String.eqb (Filename env) "") then Filename env
  else match Blob_ env with Some b => Hash b | None => "file" end.

Definition pathExists (fs : FS) (p : string) : bool := is_ok (Stat fs p).

(** [dedupPath]; its loop is that of room-go ([Sinks.dedup_from]).  [None]: the fuel ran out. *)
Definition dedupPath (fuel : nat) (fs : FS) (dir name : string) : option string :=
  let name := if String.eqb name "" then "file" else name in
  let candidate := Join dir name in
  if negb (pathExists fs candidate) then Some candidate
  else Sinks.dedup_from fuel fs dir name 2.

Definition text_block (env : Envelope) : string :=
  let device := DeviceName env in
  let device := if String.eqb device "" then short (Sender env) else device in
  nl +:+ "---" +:+ nl +:+ device +:+ " " +:+ RFC3339 (int64 (TS env)) +:+ nl +:+ Text env +:+ nl.

Section daemon.
Context {T : Type} `{Blake3} `{Clipboard}.
Implicit Types d : Daemon T.

(** ** sinks.go *)

Definition recordTextBaseline d (path : string) : Daemon T :=
  if String.eqb path "" then d
  else
    match textBaseline d !! path with
    | Some _ => d
    | None => set_files d (sessionSaveFiles d)
                (<[path := Sinks.fileSize (fs d) path]> (textBaseline d)) (fs d)
    end.

Definition appendTextFile d (path : string) (env : Envelope) : Daemon T :=
  let d := recordTextBaseline d path in
  set_fs d (AppendFile (fs d) path (text_block env)).2.

Definition saveToDir d (dir name data : string) : Daemon T :=
  match MkdirAll (fs d) dir with
  | (Err _, f) => set_fs d f
  | (Ok _, f) =>
      match dedupPath (Sinks.dedup_fuel f) f dir name with
      | None => set_fs d f
      | Some path =>
          match WriteFile f path data with
          | (Err _, f) => set_fs d f
          | (Ok _, f) => set_files d (sessionSaveFiles d ++ [path]) (textBaseline d) f
          end
      end
  end.

Definition routeSinks d (item : Item) : Daemon T :=
  let env := it_Envelope item in
  let s := Get (cfg d) in
  if String.eqb (Type_ env) TypeText then
    if negb (String.eqb (TextFile s) "") then appendTextFile d (TextFile s) env else d
  else if String.eqb (Type_ env) TypeImage then
    if negb (String.eqb (SaveDir s) "") then saveToDir d (SaveDir s) (imageSinkName env) (BlobData env)
    else d
  else if String.eqb (Type_ env) TypeFile then
    if negb (String.eqb (SaveDir s) "") then saveToDir d (SaveDir s) (fileSinkName env) (BlobData env)
    else d
  else d.

(** ** daemon.go *)

(** [applyAutoCopy]: in mode [on] the text or the image is written; an envelope of another type
    writes nothing but forgets the last hash. *)
Definition applyAutoCopy d (item : Item) : Daemon T :=
  let env := it_Envelope item in
  if String.eqb (AutoCopy (Get (cfg d))) "on" then
    if String.eqb (Type_ env) TypeText then
      match WriteText (clip d) (Text env) with
      | (Some _, c) => set_clip d c (lastCopy d)
      | (None, c) => set_clip d c (HashHex (Text env))
      end
    else if String.eqb (Type_ env) TypeImage then
      let hash := match Blob_ env with Some b => Hash b | None => "" end in
      match WritePNG (clip d) (BlobData env) with
      | (Some _, c) => set_clip d c (lastCopy d)
      | (None, c) => set_clip d c hash
      end
    else if String.eqb (Type_ env) TypeFile then d
    else set_clip d (clip d) ""
  else d.

(** Where the bytes of a blob are kept, and the item; [None]: dropped. *)
Definition materialize d (env : Envelope) : option Item * FS :=
  if String.eqb (Type_ env) TypeImage || String.eqb (Type_ env) TypeFile then
    match Blob_ env with
    | None => (None, fs d)
    | Some b =>
        if negb (String.eqb (HashHex (BlobData env)) (Hash b)) then (None, fs d)
        else
          let name := Hash b in
          let name := if String.eqb (Type_ env) TypeImage then name +:+ ".png"
                      else if negb (String.eqb (Ext (Filename env)) "")
                      then name +:+ Ext (Filename env) else name in
          let path := Join (BlobDir (cfg d)) name in
          match WriteFile (fs d) path (BlobData env) with
          | (Err _, f) => (None, f)
          | (Ok _, f) => (Some (mkItem env path), f)
          end
    end
  else (Some (mkItem env ""), fs d).

(** Non-blocking sends to all subscribers. *)
Definition notify_subs (s : gmap ref (chan Item)) (item : Item) : gmap ref (chan Item) :=
  (λ ch, match try_send ch item with Sent ch => ch | _ => ch end) <$> s.

Definition push_buffer (b : list Item) (item : Item) : list Item :=
  let b := b ++ [item] in
  if (bufferCap <? length b)%nat then drop (length b - bufferCap) b else b.

Definition ingest d (env : Envelope) : Daemon T :=
  let '(seen_before, dd) := Seen (d_dedupe d) (MsgID env) in
  let d := set_dedupe d dd in
  if seen_before then d
  else if String.eqb (Sender env) (fp d) then d
  else
    match materialize d env with
    | (None, f) => set_fs d f
    | (Some item, f) =>
        let d := set_fs d f in
        let d := set_buffer d (push_buffer (buffer d) item) (notify_subs (subs d) item) true in
        let d := applyAutoCopy d item in
        routeSinks d item
    end.

Definition latest d (kind : string) : option Item :=
  head (filter (λ it, matchesKind it kind = true) (reverse (buffer d))).

Definition bufferLen d : Z := Z.of_nat (length (buffer d)).

Definition subscribe d : ref * Daemon T :=
  let r := fresh (dom (subs d)) in
  (r, set_buffer d (buffer d) (<[r := make_chan subCap]> (subs d)) (gotReceive d)).

Definition unsubscribe d (r : ref) : Daemon T :=
  set_buffer d (buffer d) (delete r (subs d)) (gotReceive d).

(** [waitFor] without a timeout, over what is in the channel: the first match and the rest. *)
Fixpoint waitFor (q : list Item) (kind : string) : option Item * list Item :=
  match q with
  | [] => (None, [])
  | item :: q => if matchesKind item kind then (Some item, q) else waitFor q kind
  end.

(** ** Clearing *)

Definition clearTransient d : Daemon T :=
  let d := set_buffer d [] (subs d) (gotReceive d) in
  match ReadDir (fs d) (BlobDir (cfg d)) with
  | Err _ => d
  | Ok entries => set_fs d (foldl (λ f name, (Remove f (Join (BlobDir (cfg d)) name)).2) (fs d) entries)
  end.

(** [clearSinks]; [order]: the order in which Go goes through the map of baselines. *)
Definition clearSinks (order : list (string * Z)) d : Daemon T :=
  let files := sessionSaveFiles d in
  let f := foldl (λ f p, (Truncate f p.1 p.2).2) (fs d) order in
  let f := foldl (λ f p, (Remove f p).2) f files in
  set_files d [] (textBaseline d) f.

Definition clear (order : list (string * Z)) d (all : bool) : Daemon T :=
  let d := clearTransient d in
  if all then clearSinks order d else d.

Definition applyExitPolicy (order : list (string * Z)) d : Daemon T :=
  let policy := if String.eqb (stopPolicy d) "" then ClearOnExit (Get (cfg d)) else stopPolicy d in
  let policy := if String.eqb policy "ask" || String.eqb policy "" then "transient" else policy in
  if String.eqb policy "never" then d
  else if String.eqb policy "all" then clear order d true
  else clear order d false.

(** ** Start *)

Context `{Transport T}.

Definition New_ (c : Store) (f : FS) (cl : Clip) (room transportTag : string) (t : T) : Daemon T :=
  let settings := Get c in
  let room := if String.eqb room "" then Room_ settings else room in
  let room := if String.eqb room "" then "default" else room in
  mkDaemon c room transportTag t (Identity t) (DeviceName_ settings) (NewDedupe 4096) [] ∅ "" [] ∅
    false "" false f cl.

(** [Run] up to the accept loop: its error, with the exit policy applied, or the daemon that
    serves.  [listen]: what [net.Listen] returns. *)
Definition Run_start (order : gmap string Z → list (string * Z)) d (socketPath : string)
    (listen : option string) : option string * Daemon T :=
  match MkdirAll (fs d) (BlobDir (cfg d)) with
  | (Err e, f) => (Some (Error e), set_fs d f)
  | (Ok _, f) =>
      let d := recordTextBaseline (set_fs d f) (TextFile (Get (cfg d))) in
      let '(err, t) := Start (tr d) in
      let d := set_tr d t in
      match err with
      | Some e => (Some e, applyExitPolicy (order (textBaseline d)) d)
      | None =>
          let d := set_fs d (Remove (fs d) socketPath).2 in
          match listen with
          | Some e => (Some e, applyExitPolicy (order (textBaseline d)) (set_tr d (Close (tr d))))
          | None => (None, d)
          end
      end
  end.

(** The deferred calls of [Run] when the accept loop ends. *)
Definition Run_end (order : list (string * Z)) d (socketPath : string) : Daemon T :=
  let d := set_fs d (Remove (fs d) socketPath).2 in
  applyExitPolicy order (set_tr d (Close (tr d))).
End daemon.
