(* ===== verification/ProbeHandlers.v ===== *)
(** * The experiments: the operations the daemon serves

    [experiments/shared-go/daemon/handlers.go] over [ProbeDaemon].  A handler maps the state and
    the request to what it does with the connection and the new state. *)
From S2P Require Import Prelude GoStr GoPath GoOS GoTime Wire Chan Dedupe Clip ProbeConfig ProbeIpc ProbeDaemon.
From S2P Require Sinks.
Open Scope string_scope.
Open Scope list_scope.

Definition okResp : Response := mkResponse IPCVersion RespOK 0 "" None None "".
Definition errResp (code : Z) (msg : string) : Response :=
  mkResponse IPCVersion RespErr code msg None None "".
Definition itemResp (item : Item) : Response :=
  mkResponse IPCVersion RespItem 0 "" (Some item) None "".

Inductive outcome :=
| Reply (r : Response)
| Closed
| Waiting (ch : ref) (kind : string)
| Streaming (ch : ref) (kind : string).

(** [env] with the fields [fillImage] and [fillFile] set. *)
Definition fill (env : Envelope) (ty mime filename text : string) (b : option Blob) (data : string)
    : Envelope :=
  mkEnvelope (V env) (MsgID env) ty mime (Sender env) (DeviceName env) (TS env) filename text b data.

Section fill.
Context `{Blake3} `{ImageCodec} `{MimeTable}.

Definition fillImage (env : Envelope) (data filename : string) : result string Envelope :=
  match Sniff data with
  | Err _ => Err "not a supported image (PNG/JPEG)"
  | Ok kind =>
      if negb (bool_decide (kind = KindPNG)) && negb (bool_decide (kind = KindJPEG))
      then Err "not a supported image (PNG/JPEG)"
      else
        match ToPNG kind data with
        | Err perr => Err perr
        | Ok png =>
            match PNGDims png with
            | Err derr => Err ("decode png dims: " +:+ derr)
            | Ok (w, h) =>
                Ok (fill env TypeImage MimePNG filename (Text env)
                      (Some (mkBlob (HashHex png) (len png) w h)) png)
            end
        end
  end.

Definition fillFile (env : Envelope) (data filename : string) : Envelope :=
  fill env TypeFile (MimeForFile filename) filename (Text env)
    (Some (mkBlob (HashHex data) (len data) 0 0)) data.

Definition fillText (env : Envelope) (data : string) : Envelope :=
  fill env TypeText MimeText (Filename env) data (Blob_ env) (BlobData env).
End fill.

(** The bytes of a paste, and whether they are an image. *)
Definition clipboardPayload (item : Item) : bool * string :=
  let env := it_Envelope item in
  if String.eqb (Type_ env) TypeImage then (true, BlobData env)
  else if String.eqb (Type_ env) TypeFile then (false, it_LocalPath item)
  else (false, Text env).

Section handlers.
Context {T : Type} `{Transport T} `{Blake3} `{ImageCodec} `{MimeTable} `{Clipboard} `{Json}.
Implicit Types d : Daemon T.

(** ** send *)

(** The envelope [handleSend] builds, or the response it refuses with. *)
Definition build_envelope (ulid : string) (ms : Z) d (req : Request) : result Response Envelope :=
  let env := mkEnvelope Version ulid "" "" (fp d) (deviceName d) (uint64 ms) "" "" None "" in
  if String.eqb (rq_Force req) "text" then Ok (fillText env (rq_Bytes req))
  else if String.eqb (rq_Force req) "image" then
    match fillImage env (rq_Bytes req) (rq_Name req) with
    | Err serr => Err (errResp 2 serr)
    | Ok env => Ok env
    end
  else if String.eqb (rq_Force req) "file" then Ok (fillFile env (rq_Bytes req) (rq_Name req))
  else
    match Sniff (rq_Bytes req) with
    | Ok KindText => Ok (fillText env (rq_Bytes req))
    | Ok _ =>
        match fillImage env (rq_Bytes req) (rq_Name req) with
        | Err ferr => Err (errResp 1 ferr)
        | Ok env => Ok env
        end
    | Err _ => Ok (fillFile env (rq_Bytes req) (rq_Name req))
    end.

(** [waitForPeers]: the clock at the [i]-th test of the loop, the deadline, and the transport as
    it is after the [i]-th sleep.  The result, and the transport to go on with; [None]: the fuel
    ran out. *)
Fixpoint wait_peers (now : nat → Z) (later : nat → T) (deadline : Z) (fuel i : nat) (t : T)
    : option (bool * T) :=
  match fuel with
  | O => None
  | S fuel =>
      if (now i <? deadline)%Z then
        let t := later i in
        if (0 <? length (Peers t))%nat then Some (true, t)
        else wait_peers now later deadline fuel (S i) t
      else Some (false, t)
  end.

Definition waitForPeers (now : nat → Z) (later : nat → T) (start max : Z) (fuel : nat) (t : T)
    : option (bool * T) :=
  if (0 <? length (Peers t))%nat then Some (true, t)
  else wait_peers now later (start + max) fuel 0 t.

(** [waited]: the transport after [waitForPeers]. *)
Definition handleSend (ulid : string) (ms : Z) (waited : T → T) d (req : Request)
    : Response * Daemon T :=
  if (len (rq_Bytes req) =? 0)%Z then (errResp 2 "empty payload", d)
  else
    match build_envelope ulid ms d req with
    | Err r => (r, d)
    | Ok env =>
        let d := set_dedupe d (Seen (d_dedupe d) (MsgID env)).2 in
        let t := waited (tr d) in
        let '(err, t) := Broadcast t env in
        let d := set_tr d t in
        match err with
        | Some e => (errResp 1 e, d)
        | None =>
            if (length (Peers t) =? 0)%nat
            then (mkResponse IPCVersion RespOK 4 "no peers connected yet" None None "", d)
            else (okResp, d)
        end
    end.

(** ** recv and subscribe *)

Definition handleSubscribe d (kind : string) : outcome * Daemon T :=
  let '(ch, d) := subscribe d in (Streaming ch kind, d).

Definition handleRecv d (req : Request) : outcome * Daemon T :=
  let kind := if String.eqb (rq_Kind req) "" then "any" else rq_Kind req in
  if rq_Follow req then handleSubscribe d kind
  else
    match latest d kind with
    | Some item => (Reply (itemResp item), d)
    | None => let '(ch, d) := subscribe d in (Waiting ch kind, d)
    end.

(** A waiting [recv] runs: it answers with the first match, or has emptied its channel. *)
Definition resume_wait d (ch : ref) (kind : string) : outcome * Daemon T :=
  match subs d !! ch with
  | None => (Waiting ch kind, d)
  | Some c =>
      match waitFor (queue c) kind with
      | (Some item, q) => (Reply (itemResp item), unsubscribe d ch)
      | (None, q) =>
          (Waiting ch kind,
           set_buffer d (buffer d) (<[ch := mkChan q (chan_cap c) (closed c)]> (subs d)) (gotReceive d))
      end
  end.

(** The streaming loop takes all there is: the items it writes. *)
Definition resume_stream d (ch : ref) (kind : string) : list Response * Daemon T :=
  match subs d !! ch with
  | None => ([], d)
  | Some c =>
      (map itemResp (filter (λ it, matchesKind it kind = true) (queue c)),
       set_buffer d (buffer d) (<[ch := mkChan [] (chan_cap c) (closed c)]> (subs d)) (gotReceive d))
  end.

(** ** paste and copy *)

Definition writeClipboard d (item : Item) : option string * Daemon T :=
  let '(isImage, data) := clipboardPayload item in
  let '(err, c) := if isImage : bool then WritePNG (clip d) data else WriteText (clip d) data in
  match err with
  | Some e => (Some e, set_clip d c (lastCopy d))
  | None => (None, set_clip d c (HashHex data))
  end.

Definition handlePaste d : Response * Daemon T :=
  match latest d "any" with
  | None => (errResp 5 "nothing to paste", d)
  | Some item =>
      match writeClipboard d item with
      | (Some e, d) => (errResp 1 ("clipboard: " +:+ e), d)
      | (None, d) => (okResp, d)
      end
  end.

Definition handleCopy d (req : Request) : Response * Daemon T :=
  if (len (rq_Bytes req) =? 0)%Z then (errResp 2 "empty payload", d)
  else
    let '(err, c) := if String.eqb (rq_Force req) "image" then WritePNG (clip d) (rq_Bytes req)
                     else WriteText (clip d) (rq_Bytes req) in
    match err with
    | Some e => (errResp 1 ("clipboard: " +:+ e), set_clip d c (lastCopy d))
    | None => (okResp, set_clip d c (HashHex (rq_Bytes req)))
    end.

(** ** status, config, clear, stop *)

Definition handleStatus d : Response * Daemon T :=
  let s := Get (cfg d) in
  let '(av, c) := Available (clip d) in
  let clipState := if av : bool then "available" else "unavailable" in
  let st := mkStatus (fp d) (deviceName d) (room d) (transportTag d) (AutoCopy s) clipState
              (Peers (tr d)) (bufferLen d) in
  (mkResponse IPCVersion RespStatus 0 "" None (Some st) "", set_clip d c (lastCopy d)).

Definition handleConfigSet d (req : Request) : Response * Daemon T :=
  match SetKey (cfg d) (fs d) (rq_Key req) (rq_Value req) with
  | (Err e, c, f) => (errResp 2 e, set_cfg d c (deviceName d) f)
  | (Ok _, c, f) =>
      let d := set_cfg d c (deviceName d) f in
      let d :=
        if String.eqb (rq_Key req) "device_name" then set_cfg d c (rq_Value req) f
        else if String.eqb (rq_Key req) "text_file" then recordTextBaseline d (rq_Value req)
        else d in
      (okResp, d)
  end.

Definition handleConfigGet d (req : Request) : Response * Daemon T :=
  match GetKey (cfg d) (rq_Key req) with
  | Err e => (errResp 2 e, d)
  | Ok v => (mkResponse IPCVersion RespValue 0 "" None None v, d)
  end.

Definition handleClear (order : list (string * Z)) d (req : Request) : Response * Daemon T :=
  (okResp, clear order d (rq_All req)).

Definition handleDaemonStop d (req : Request) : Response * Daemon T :=
  (okResp, set_stop d (rq_Value req)).

(** ** Dispatch *)

Definition reply (x : Response * Daemon T) : outcome * Daemon T := (Reply x.1, x.2).

Definition version_error (req : Request) : Response :=
  errResp 2 ("IPC version mismatch: client " +:+ itoa (rq_IPCVersion req) +:+ " daemon " +:+
             itoa IPCVersion).

Definition handleReq (ulid : string) (now : Z) (waited : T → T) (order : list (string * Z)) d
    (req : Request) : outcome * Daemon T :=
  if negb (rq_IPCVersion req =? IPCVersion)%Z then (Reply (version_error req), d)
  else
    let op := rq_Op req in
    if String.eqb op OpPing then (Reply okResp, d)
    else if String.eqb op OpSend then reply (handleSend ulid now waited d req)
    else if String.eqb op OpRecv then handleRecv d req
    else if String.eqb op OpPaste then reply (handlePaste d)
    else if String.eqb op OpCopy then reply (handleCopy d req)
    else if String.eqb op OpClear then reply (handleClear order d req)
    else if String.eqb op OpSubscribe then handleSubscribe d "any"
    else if decide (op ∈ [OpStatus; OpPeers]) then reply (handleStatus d)
    else if String.eqb op OpConfigSet then reply (handleConfigSet d req)
    else if String.eqb op OpConfigGet then reply (handleConfigGet d req)
    else if String.eqb op OpDaemonStop then reply (handleDaemonStop d req)
    else (Reply (errResp 2 ("unknown op: " +:+ op)), d).

Context `{Cbor Request} `{Cbor Response}.

(** The bytes of one connection. *)
Definition handleConn (ulid : string) (now : Z) (waited : T → T) (order : list (string * Z)) d
    (rd : reader) (w : writer) : outcome * Daemon T * writer :=
  match (ReadReq rd).1 with
  | Err _ => (Closed, d, w)
  | Ok req =>
      let '(o, d) := handleReq ulid now waited order d req in
      let w := match o with Reply r => (WriteResp w r).2 | _ => w end in
      (o, d, w)
  end.

(** [send] on a transport that takes the envelope and has a peer. *)
Lemma handleSend_sent ulid ms (waited : T → T) d req env t' :
  (0 < len (rq_Bytes req))%Z → build_envelope ulid ms d req = Ok env →
  Broadcast (waited (tr d)) env = (None, t') → Peers t' ≠ [] →
  handleSend ulid ms waited d req =
    (okResp, set_tr (set_dedupe d (Seen (d_dedupe d) (MsgID env)).2) t').
Proof.
  intros Hlen Hb Hs Hp. unfold handleSend. rewrite (proj2 (Z.eqb_neq _ _)), Hb by lia.
  cbn [tr set_dedupe]. rewrite Hs. by destruct (Peers t').
Qed.
End handlers.

(** ** The wait of [send] ends *)

Section wait.
Context {T : Type} `{Transport T}.

(** Every round sleeps for a tenth of a second, so the clock of round [i] is at least that far on. *)
Definition sleeps (now : nat → Z) (start : Z) : Prop := ∀ i, (start + 100 * Z.of_nat i <= now i)%Z.

Lemma wait_peers_ends now later start max fuel i (t : T) :
  sleeps now start → (max <= 100 * Z.of_nat (i + fuel - 1))%Z → (0 < fuel)%nat →
  ∃ b t', wait_peers now later (start + max) fuel i t = Some (b, t') ∧ (b = true → Peers t' ≠ []).
Proof.
  intros Hs. revert i t. induction fuel as [|fuel IH]; intros i t Hm Hf; [lia|]. cbn [wait_peers].
  destruct (Z.ltb_spec (now i) (start + max)) as [Hlt|]; [|by eexists false, _].
  destruct (Nat.ltb_spec 0 (length (Peers (later i)))) as [Hp|].
  - eexists true, _. split; [done|]. intros _ E. rewrite E in Hp. cbn in Hp. lia.
  - specialize (Hs i). apply IH; lia.
Qed.

(** With the five seconds of [handleSend], 51 rounds are enough; the answer is true only when the
    transport has a peer. *)
Lemma waitForPeers_ends now later start (t : T) :
  sleeps now start →
  ∃ b t', waitForPeers now later start 5000 51 t = Some (b, t') ∧ (b = true → Peers t' ≠ []).
Proof.
  intros Hs. unfold waitForPeers. destruct (Nat.ltb_spec 0 (length (Peers t))) as [Hp|].
  - eexists true, t. split; [done|]. intros _ E. rewrite E in Hp. cbn in Hp. lia.
  - apply wait_peers_ends; [done|lia..].
Qed.
End wait.
