(* ===== verification/ProbeSinks.v ===== *)
(** * The experiments: what the sinks of the daemon do to the files

    [experiments/shared-go/daemon/sinks.go], as [ProbeDaemon] models it.  Its [dedupPath] is that of
    room-go, but the name it is given is the sender's and not reduced to its last component: the
    sinks overwrite nothing, and they do not stay in the folder. *)
From S2P Require Import Prelude GoStr GoPath GoOS GoTime Wire Chan Dedupe Clip ProbeConfig ProbeIpc ProbeDaemon.
From S2P Require Sinks Daemon Handlers.
Open Scope string_scope.
Open Scope list_scope.

(** ** Names with slashes *)

Lemma dedup_cand_slash dir pre n i :
  no_slash n →
  Sinks.dedup_cand dir (pre +:+ "/" +:+ n) i = Join dir (pre +:+ "/" +:+ Sinks.cand_name n i).
Proof.
  intros Hn. unfold Sinks.dedup_cand, Sinks.cand_name, Sinks.cand_stem, Sinks.cand_ext.
  rewrite Ext_last, stem_last by done. destruct (String.eqb_spec n "/") as [->|]; [by compute in Hn|].
  by rewrite !str_app_assoc.
Qed.

(** The loop of [dedupPath] ends for every name. *)
Lemma dedup_from_any fs dir name i fuel :
  dir ≠ "" → (size (nodes fs) < fuel)%nat → is_Some (Sinks.dedup_from fuel fs dir name i).
Proof.
  intros Hd Hf. destruct (name_cases name) as [Hn|(pre & n & -> & Hn)].
  - apply Sinks.dedup_from_total; [done|by left|done].
  - assert (∀ j, ordinary (Sinks.cand_name n j)) as Ho
      by (intros j; apply Sinks.cand_name_ordinary; by left).
    apply (Sinks.dedup_from_distinct _ _ _ _ _ (resolve (Join dir pre)) (Sinks.cand_name n)); [| | |done].
    + intros j. rewrite dedup_cand_slash by done. by apply resolve_Join_last.
    + apply Sinks.cand_name_inj.
    + intros j. by destruct (Ho j) as (_ & _ & _ & ?).
Qed.

Lemma dedupPath_some fs dir name :
  dir ≠ "" → ∃ p, dedupPath (Sinks.dedup_fuel fs) fs dir name = Some p ∧ pathExists fs p = false.
Proof.
  intros Hd. unfold dedupPath. set (nm := if String.eqb name "" then "file" else name).
  destruct (pathExists fs (Join dir nm)) eqn:E; cbn [negb]; [|by eauto].
  destruct (dedup_from_any fs dir nm 2 (Sinks.dedup_fuel fs) Hd) as [p Hp].
  { unfold Sinks.dedup_fuel. lia. }
  exists p. split; [done|]. by apply Sinks.dedup_from_some in Hp as (j & _ & _ & ? & _).
Qed.

Section sinks.
Context {T : Type}.
Implicit Types d : Daemon T.

(** A file saved is a new file, and recorded; or nothing but directories is new. *)
Lemma saveToDir_spec d dir name data :
  dir ≠ "" →
  let d' := saveToDir d dir name data in
  textBaseline d' = textBaseline d ∧ cfg d' = cfg d ∧
  ∃ r f, MkdirAll (fs d) dir = (r, f) ∧
    (sessionSaveFiles d' = sessionSaveFiles d ∧ fs d' = f ∨
     ∃ p, dedupPath (Sinks.dedup_fuel f) f dir name = Some p ∧
       nodes f !! resolve p = None ∧ resolve p ∉ denied f ∧ r = Ok () ∧
       sessionSaveFiles d' = sessionSaveFiles d ++ [p] ∧ fs d' = put f (resolve p) (File data)).
Proof.
  intros Hd. unfold saveToDir. destruct (MkdirAll (fs d) dir) as [[[]|e] f].
  2:{ split_and!; [done..|]. eexists _, f. split; [done|]. by left. }
  destruct (dedupPath_some f dir name Hd) as (p & Hp & He). rewrite Hp.
  destruct (WriteFile f p data) as [r f'] eqn:Ew.
  apply WriteFile_spec in Ew as (_ & [(e & -> & ->)|(-> & Hden & -> & Hnd)]).
  { split_and!; [done..|]. eexists _, f. split; [done|]. by left. }
  split_and!; [done..|]. eexists _, f. split; [done|]. right. exists p.
  pose proof (Sinks.not_exists_node _ _ He Hden) as [_ Hno]%node_at_none. by split_and!.
Qed.

Lemma saveToDir_keeps d dir name data :
  dir ≠ "" →
  let d' := saveToDir d dir name data in
  (∀ q n, nodes (fs d) !! q = Some n → nodes (fs d') !! q = Some n) ∧
  (∀ q dt, nodes (fs d) !! q = None → nodes (fs d') !! q = Some (File dt) →
     dt = data ∧ ∃ p, q = resolve p ∧ sessionSaveFiles d' = sessionSaveFiles d ++ [p]).
Proof.
  intros Hd d'. destruct (saveToDir_spec d dir name data Hd) as (_ & _ & r & f & Hm & Hs).
  apply MkdirAll_spec in Hm as [_ Hq].
  assert (∀ q n, nodes (fs d) !! q = Some n → nodes f !! q = Some n) as Hk.
  { intros q n Hn. destruct (Hq q) as [->|[Hno _]]; congruence. }
  assert (∀ q dt, nodes (fs d) !! q = None → nodes f !! q ≠ Some (File dt)) as Hnew.
  { intros q dt Hn. destruct (Hq q) as [->|[_ ->]]; congruence. }
  fold d' in Hs. destruct Hs as [[_ Hf]|(p & _ & Hno & _ & _ & Hsave & Hf)]; rewrite Hf.
  - split; [done|]. intros q dt Hn Hfl. by destruct (Hnew q dt Hn).
  - split; intros q n; rewrite put_lookup; case_decide as Hp.
    + subst q. intros Hn%Hk. congruence.
    + apply Hk.
    + intros _ [= ->]. split; [done|]. by exists p.
    + intros Hn Hfl. by destruct (Hnew q n Hn).
Qed.

(** C25. The sinks of an experiment destroy nothing.  Whatever item is routed, every file and
    directory there was stays as it is, but for the append file of a text, which is extended by
    the text's block; and every new file holds the bytes of the item, and is recorded so that
    [clear --all] finds it, or is the append file. *)
Theorem probe_sinks_keep `{Blake3} d item :
  let d' := routeSinks d item in
  let env := it_Envelope item in
  let log q := Type_ env = TypeText ∧ TextFile (Get (cfg d)) ≠ "" ∧ q = resolve (TextFile (Get (cfg d))) in
  (∀ q n, nodes (fs d) !! q = Some n →
     nodes (fs d') !! q = Some n ∨
     log q ∧ ∃ old, n = File old ∧ nodes (fs d') !! q = Some (File (old +:+ text_block env))) ∧
  (∀ q dt, nodes (fs d) !! q = None → nodes (fs d') !! q = Some (File dt) →
     log q ∧ dt = text_block env ∨
     dt = BlobData env ∧ ∃ p, q = resolve p ∧ sessionSaveFiles d' = sessionSaveFiles d ++ [p]).
Proof.
  intros d' env log. subst d'. unfold routeSinks. fold env.
  assert (∀ (b : bool) name, let d' := if b then saveToDir d (SaveDir (Get (cfg d))) name (BlobData env) else d in
    b = negb (String.eqb (SaveDir (Get (cfg d))) "") →
    (∀ q n, nodes (fs d) !! q = Some n → nodes (fs d') !! q = Some n) ∧
    (∀ q dt, nodes (fs d) !! q = None → nodes (fs d') !! q = Some (File dt) →
     dt = BlobData env ∧ ∃ p, q = resolve p ∧ sessionSaveFiles d' = sessionSaveFiles d ++ [p])) as Hsave.
  { intros b name d' ->. destruct (String.eqb_spec (SaveDir (Get (cfg d))) ""); [|by apply saveToDir_keeps].
    split; [done|]. intros q dt Hn Hs. cbn in d'. unfold d' in Hs. congruence. }
  destruct (String.eqb_spec (Type_ env) TypeText) as [Ht|Ht].
  - destruct (String.eqb_spec (TextFile (Get (cfg d))) "") as [|Hf]; cbn [negb].
    { split; [by left|]. intros q dt Hn Hs. congruence. }
    unfold appendTextFile.
    assert (fs (recordTextBaseline d (TextFile (Get (cfg d)))) = fs d) as ->.
    { unfold recordTextBaseline. by repeat case_match. }
    destruct (AppendFile (fs d) _ (text_block env)) as [r f] eqn:Ea.
    apply AppendFile_spec in Ea as [_ [(e & _ & ->)|(old & _ & _ & -> & Hold)]]; cbn [fs set_fs set_files snd].
    { split; [by left|]. intros q dt Hn Hs. congruence. }
    split; intros q n; rewrite put_lookup; case_decide as Hq; subst; intros Hn; [|by left| |congruence].
    + right. split; [done|]. destruct Hold as [Ho|[Ho _]]; [|congruence].
      exists old. by split; [congruence|].
    + intros [= <-]. left. destruct Hold as [Ho|[_ ->]]; [congruence|done].
  - destruct (String.eqb (Type_ env) TypeImage);
      [|destruct (String.eqb (Type_ env) TypeFile)].
    + destruct (Hsave _ (imageSinkName env) eq_refl) as [Hk Hn]. split; [by left; auto|by right; auto].
    + destruct (Hsave _ (fileSinkName env) eq_refl) as [Hk Hn]. split; [by left; auto|by right; auto].
    + split; [by left|]. intros q dt Hn Hs. congruence.
Qed.

(** A peer chooses where a file goes.  A verified file whose name is two dots, a slash and a
    name is saved beside the folder of [save_dir], and not in it, when nothing has that name
    there. *)
Theorem probe_sink_escapes d item x r l c :
  let env := it_Envelope item in
  let dir := SaveDir (Get (cfg d)) in
  Type_ env = TypeFile → Filename env = "../" +:+ x → ordinary x → x ≠ c →
  resolve dir = (r, l ++ [c]) → c ≠ ".." → is_path (fs d) (resolve dir) →
  nodes (fs d) !! (r, l ++ [x]) = None → (r, l ++ [x]) ∉ denied (fs d) →
  let d' := routeSinks d item in
  nodes (fs d') !! (r, l ++ [x]) = Some (File (BlobData env)) ∧ ¬ below (resolve dir) (r, l ++ [x]).
Proof.
  intros env dir Ht Hfn Hx Hxc Hr Hc Hp Hno Hden d'.
  assert (dir ≠ "") as Hd by (intros E; rewrite E in Hr; by destruct l).
  split.
  2:{ intros [_ [t Hl]]. rewrite Hr in Hl. cbn in Hl. rewrite <- app_assoc in Hl.
      apply app_inv_head in Hl. by injection Hl as ->. }
  unfold d', routeSinks. fold env dir. rewrite Ht.
  change (String.eqb TypeFile TypeText) with false. change (String.eqb TypeFile TypeImage) with false.
  rewrite String.eqb_refl, (proj2 (String.eqb_neq _ _) Hd). cbn [negb].
  unfold fileSinkName. rewrite Hfn. change (String.eqb ("../" +:+ x) "") with false. cbn [negb].
  unfold saveToDir. rewrite MkdirAll_id by done. unfold dedupPath.
  change (String.eqb ("../" +:+ x) "") with false. cbn [negb].
  pose proof (resolve_Join_sibling dir x r l c Hr Hc Hx) as Hj.
  assert (top (r, l ++ [x]) = false) as Htop by (apply top_snoc; by destruct Hx as (_ & _ & _ & ?)).
  assert (pathExists (fs d) (Join dir ("../" +:+ x)) = false) as ->.
  { unfold pathExists, Stat. rewrite Hj, node_at_nodes, Hno by done. done. }
  cbn [negb]. unfold WriteFile, open_create. rewrite Hj, decide_False, node_at_nodes, Hno by done.
  assert (is_dir (node_at (fs d) (parent (r, l ++ [x]))) = true) as ->.
  { unfold parent. cbn [fst snd]. rewrite removelast_last.
    specialize (Hp l). rewrite Hr in Hp. cbn [fst snd] in Hp. rewrite Hp; [done|]. by exists [c]. }
  cbn. apply lookup_insert_eq.
Qed.
End sinks.

Lemma str_take_all n s : (String.length s <= n)%nat → str_take n s = s.
Proof.
  revert n. induction s as [|a s IH]; intros [|n] Hn; cbn in *; [done..|lia|]. f_equal. apply IH. lia.
Qed.

Section clear.
Context {T : Type}.
Implicit Types d : Daemon T.

(** [clear --all] can make the append file longer.  When the user has shortened the file below
    the size it had at the start of the session, the experiment's daemon fills it with zero bytes up
    to that size; room-go's daemon, in the same situation, leaves it alone. *)
Theorem probe_clear_pads d order path size dt s :
  textBaseline d = {[path := size]} → order ≡ₚ map_to_list (textBaseline d) → sessionSaveFiles d = [] →
  nodes (fs d) !! resolve path = Some (File dt) → resolve path ∉ denied (fs d) →
  top (resolve path) = false → (len dt < size)%Z →
  Sinks.textFilePath s = path → Sinks.textFileOffset s = size → Sinks.savedFiles s = [] →
  nodes (fs (clearSinks order d)) !! resolve path =
    Some (File (dt +:+ zeros (Z.to_nat (size - len dt)))) ∧
  (Sinks.clearSinks s (fs d)).2 = fs d.
Proof.
  intros Hb Hord Hs Hf Hden Htop Hlt Hp Ho Hsv.
  rewrite Hb, map_to_list_singleton in Hord. apply Permutation_singleton_r in Hord as ->. split.
  - unfold clearSinks. rewrite Hs. cbn. unfold Truncate.
    rewrite decide_False, node_at_nodes, Hf by done. cbn. rewrite lookup_insert_eq.
    do 2 f_equal. unfold resize, len in *. f_equal; [|f_equal; lia]. apply str_take_all. lia.
  - unfold Sinks.clearSinks. rewrite Hp, Ho, Hsv. cbn [foldl].
    destruct (String.eqb path ""); cbn [negb]; [done|]. unfold Stat.
    rewrite node_at_nodes, Hf, decide_False by done. cbn [node_size].
    by rewrite (proj2 (Z.ltb_ge _ _)) by lia.
Qed.
End clear.

(** ** Examples *)

#[local] Existing Instance Codec.pad_blake3.

Definition sink_demo (f : FS) (base : gmap string Z) : Daemon unit :=
  mkDaemon (mkStore "/cfg" (mkSettings "off" "/in" "/log.txt" "ask" "dev" "default" "off" "off"))
    "default" "LAN" () "SHA256:me" "dev" (NewDedupe 4096) [] ∅ "" [] base false "" false f clip_init.

Definition sink_tree : FS :=
  mkFS (<[(true, ["in"]) := Directory]> (<[(true, ["log.txt"]) := File "old"]> ∅)) ∅.

Definition evil_item : Item := mkItem (Daemon.demo_file "9" "../pwned" "AAAA") "".

Lemma sink_tree_in : is_path sink_tree (true, ["in"]).
Proof. intros pre Hpre. by destruct pre as [|a [|b pre]], Hpre as [k [=]]; subst. Qed.

Lemma probe_sink_escapes_witness :
  nodes (fs (routeSinks (sink_demo sink_tree ∅) evil_item)) !! (true, ["pwned"]) = Some (File "AAAA").
Proof.
  apply (probe_sink_escapes (sink_demo sink_tree ∅) evil_item "pwned" true [] "in");
    [reflexivity|reflexivity|by split_and!|done|reflexivity|done|exact sink_tree_in|reflexivity|set_solver].
Defined.

Lemma probe_clear_pads_witness :
  nodes (fs (clearSinks [("/log.txt", 5%Z)] (sink_demo sink_tree {["/log.txt" := 5%Z]}))) !!
    (true, ["log.txt"]) = Some (File ("old" +:+ zeros 2)).
Proof.
  apply (probe_clear_pads (sink_demo sink_tree {["/log.txt" := 5%Z]}) [("/log.txt", 5%Z)] "/log.txt" 5 "old"
           (Sinks.mkSess "/log.txt" 5 [])); try reflexivity. set_solver.
Defined.
