(* ===== verification/ProbeWire.v ===== *)
(** * The experiments: the copies of room-go's files

    [experiments/shared-go/wire/wire.go], [daemon/dedupe.go] and [clip/clip.go] are code of their own:
    the experiments may not import the internal packages of room-go, and say that they are identical
    in shape.  Here they are translated from the copies, and [probe_wire_agrees] and the lemmas
    before it say that each function is room-go's on every input; which is why the files on the
    experiments use [Wire], [Dedupe] and [Clip].  The structs are those of room-go, field for
    field.  What the copies do not have is [Classify], [MimeForFilename] and [ReadText]; what
    they have instead, [MimeForFile], is in [ProbeIpc]. *)
From S2P Require Import Prelude GoStr.
From S2P Require Wire Dedupe Clip Codec.
Open Scope string_scope.
Open Scope list_scope.

(** ** wire.go *)

Section wire.
Notation Envelope := Wire.Envelope.
Notation Cbor := Wire.Cbor.
Notation reader := Wire.reader.
Notation writer := Wire.writer.

Definition Version : Z := 1.
Definition MaxFrame : Z := Z.shiftl 32 20.
Definition TypeText := "text".
Definition TypeImage := "image".
Definition TypeFile := "file".
Definition MimeText := "text/plain; charset=utf-8".
Definition MimePNG := "image/png".
Definition MimeJPEG := "image/jpeg".
Definition MimeOctet := "application/octet-stream".

Definition Marshal `{Cbor Envelope} (e : Envelope) : result string string := Wire.cbor_Marshal e.
Definition Unmarshal `{Cbor Envelope} (b : string) : result string Envelope :=
  match Wire.cbor_Unmarshal b with
  | Err err => Err err
  | Ok e => Ok e
  end.

Definition WriteFrame (w : writer) (p : string) : result Wire.frame_err unit * writer :=
  if (MaxFrame <? len p)%Z then (Err (Wire.FrameTooLarge (len p)), w)
  else
    let hdr := PutUint32 (uint32 (len p)) in
    match Wire.Write w hdr with
    | (Err err, w) => (Err (Wire.FrameIO err), w)
    | (Ok _, w) =>
        let '(err, w) := Wire.Write w p in
        (match err with Ok _ => Ok () | Err err => Err (Wire.FrameIO err) end, w)
    end.

Definition ReadFrame (r : reader) : result Wire.frame_err string * reader :=
  match Wire.ReadFull r 4 with
  | (Err err, r) => (Err (Wire.FrameIO err), r)
  | (Ok hdr, r) =>
      let n := Uint32 hdr in
      if (MaxFrame <? n)%Z then (Err (Wire.FrameTooLarge n), r)
      else
        match Wire.ReadFull r n with
        | (Err err, r) => (Err (Wire.FrameIO err), r)
        | (Ok p, r) => (Ok p, r)
        end
  end.

Definition pngMagic : string := Wire.bytes_of [137; 80; 78; 71; 13; 10; 26; 10]%N.
Definition jpegMagic : string := Wire.bytes_of [255; 216; 255]%N.

Definition Sniff (b : string) : result string Wire.Kind :=
  if HasPrefix b pngMagic then Ok Wire.KindPNG
  else if HasPrefix b jpegMagic then Ok Wire.KindJPEG
  else if Valid b then Ok Wire.KindText
  else Err "unrecognized content: not PNG, JPEG, or valid UTF-8".

Definition ToPNG `{Wire.ImageCodec} (kind : Wire.Kind) (b : string) : result string string :=
  match kind with
  | Wire.KindPNG => Ok b
  | Wire.KindJPEG =>
      match Wire.jpeg_Decode b with
      | Err err => Err ("decode jpeg: " +:+ err)
      | Ok img =>
          match Wire.png_Encode img with
          | Err err => Err ("encode png: " +:+ err)
          | Ok out => Ok out
          end
      end
  | Wire.KindText => Err "not an image"
  end.

Definition PNGDims `{Wire.ImageCodec} (b : string) : result string (Z * Z) :=
  match Wire.png_DecodeConfig b with
  | Err err => Err err
  | Ok (w, h) => Ok (uint32 w, uint32 h)
  end.

Definition HashHex `{Wire.Blake3} (b : string) : string := EncodeToString (Wire.Sum256 b).
End wire.

(** ** dedupe.go *)

Definition NewDedupe (capN : Z) : Dedupe.Dedupe :=
  Dedupe.mkDedupe ∅ [] (if (capN <=? 0)%Z then 1024%Z else capN).

Definition Seen (d : Dedupe.Dedupe) (id : string) : bool * Dedupe.Dedupe :=
  if decide (id ∈ Dedupe.seen d) then (true, d)
  else
    let seen := {[id]} ∪ Dedupe.seen d in
    let order := Dedupe.order d ++ [id] in
    if (Dedupe.cap d <? Z.of_nat (length order))%Z then
      match order with
      | old :: order => (false, Dedupe.mkDedupe (seen ∖ {[old]}) order (Dedupe.cap d))
      | [] => (false, Dedupe.mkDedupe seen order (Dedupe.cap d))
      end
    else (false, Dedupe.mkDedupe seen order (Dedupe.cap d)).

(** ** clip.go *)

Section clip.
Notation Clip := Clip.Clip.
Context `{Clip.Clipboard}.

Definition ensure (c : Clip) : option string * Clip :=
  match Clip.once c with
  | Some initErr => (initErr, c)
  | None =>
      let initErr := match Clip.clipboard_Init with
        | Clip.InitOk => None
        | Clip.InitErr e => Some e
        | Clip.InitPanic => Some "clipboard unavailable on this host"
        end in
      (initErr, Clip.mkClip (Some initErr) (Clip.written c))
  end.

Definition Available (c : Clip) : bool * Clip :=
  let '(err, c) := ensure c in (bool_decide (err = None), c).

Definition WriteText (c : Clip) (s : string) : option string * Clip :=
  match ensure c with
  | (Some err, c) => (Some err, c)
  | (None, c) => (None, Clip.clip_put c (Clip.FmtText s))
  end.

Definition WritePNG (c : Clip) (png : string) : option string * Clip :=
  match ensure c with
  | (Some err, c) => (Some err, c)
  | (None, c) => (None, Clip.clip_put c (Clip.FmtImage png))
  end.
End clip.

(** ** They are room-go's *)

Lemma WriteFrame_agrees w p : WriteFrame w p = Wire.WriteFrame w p.
Proof.
  unfold WriteFrame, Wire.WriteFrame. change MaxFrame with Wire.MaxFrame.
  destruct (_ <? _)%Z; [done|]. destruct (Wire.Write w _) as [[[]|e] w1]; [|done].
  by destruct (Wire.Write w1 p) as [[[]|e] w2].
Qed.

Lemma Unmarshal_agrees `{Wire.Cbor Wire.Envelope} b : Unmarshal b = Wire.Unmarshal b.
Proof. unfold Unmarshal, Wire.Unmarshal. by destruct (Wire.cbor_Unmarshal b). Qed.

Lemma Seen_agrees d id : Seen d id = Dedupe.Seen d id.
Proof.
  unfold Seen, Dedupe.Seen. case_decide; [done|]. cbn [Dedupe.seen Dedupe.order Dedupe.cap].
  case_match; [|done]. by destruct (Dedupe.order d ++ [id]).
Qed.

Lemma Available_agrees `{Clip.Clipboard} c : Available c = Clip.Available c.
Proof. unfold Available, Clip.Available. change (ensure c) with (Clip.ensure c). by destruct (Clip.ensure c) as [[]]. Qed.

(** The copies are room-go's, function by function; so a frame that either side writes, the other
    reads. *)
Theorem probe_wire_agrees `{Wire.Cbor Wire.Envelope} `{Wire.Blake3} `{Wire.ImageCodec} `{Clip.Clipboard} :
  (∀ w p, WriteFrame w p = Wire.WriteFrame w p) ∧ (∀ r, ReadFrame r = Wire.ReadFrame r) ∧
  (∀ e, Marshal e = Wire.Marshal e) ∧ (∀ b, Unmarshal b = Wire.Unmarshal b) ∧
  (∀ b, Sniff b = Wire.Sniff b) ∧ (∀ k b, ToPNG k b = Wire.ToPNG k b) ∧
  (∀ b, PNGDims b = Wire.PNGDims b) ∧ (∀ b, HashHex b = Wire.HashHex b) ∧
  (∀ n, NewDedupe n = Dedupe.NewDedupe n) ∧ (∀ d id, Seen d id = Dedupe.Seen d id) ∧
  (∀ c, Available c = Clip.Available c) ∧ (∀ c s, WriteText c s = Clip.WriteText c s) ∧
  (∀ c png, WritePNG c png = Clip.WritePNG c png).
Proof.
  split_and!; auto using WriteFrame_agrees, Unmarshal_agrees, Seen_agrees, Available_agrees.
Qed.
