(* ===== verification/ProbeAgree.v ===== *)
(** * The experiments agree with room-go

    The daemon of the experiments started as a copy of room-go's behind a transport interface.
    These theorems say how far the two still are the same program: what [send] makes of its input,
    and what an item that comes in does to the buffer, the subscribers, the clipboard and the blob
    cache. *)
From S2P Require Import Prelude GoStr GoPath GoOS Wire Codec Chan Dedupe Clip ProbeConfig ProbeIpc ProbeDaemon ProbeHandlers.
From S2P Require Ipc Config Sinks Daemon Handlers.
Open Scope string_scope.
Open Scope list_scope.

(** ** The correspondence *)

Definition probe_item (it : Ipc.Item) : Item := mkItem (Ipc.it_Envelope it) (Ipc.it_LocalPath it).

Definition probe_chan (c : chan Ipc.Item) : chan Item :=
  mkChan (map probe_item (queue c)) (chan_cap c) (closed c).

Record agree {T} (d : Daemon.Daemon) (p : Daemon T) : Prop := {
  ag_dir : Dir_ (cfg p) = Config.StoreDir (Daemon.cfg d);
  ag_settings : settings (cfg p) = forget (Config.settings (Daemon.cfg d));
  ag_fp : fp p = Daemon.fp d;
  ag_name : deviceName p = Daemon.deviceName d;
  ag_dedupe : d_dedupe p = Daemon.d_dedupe d;
  ag_buffer : buffer p = map probe_item (Daemon.buffer d);
  ag_subs : subs p = probe_chan <$> Daemon.subs d;
  ag_clip : clip p = Daemon.clip d;
  ag_last : lastCopy p = Daemon.lastCopy d;
  ag_fs : fs p = Daemon.fs d;
}.

(** The request of the one program as a request of the other. *)
Definition probe_request (r : Ipc.Request) : Request :=
  mkRequest (Ipc.rq_IPCVersion r) (Ipc.rq_Op r) (Ipc.rq_Bytes r) (Ipc.rq_Force r)
    (Ipc.rq_Filename r) (Ipc.rq_Kind r) (Ipc.rq_Follow r) (Ipc.rq_All r) (Ipc.rq_Key r)
    (Ipc.rq_Value r).

(** Two envelopes that differ in nothing but the white space around a file's MIME type. *)
Definition same_but_mime (a b : Envelope) : Prop :=
  V a = V b ∧ MsgID a = MsgID b ∧ Type_ a = Type_ b ∧ Sender a = Sender b ∧
  DeviceName a = DeviceName b ∧ TS a = TS b ∧ Filename a = Filename b ∧ Text a = Text b ∧
  Blob_ a = Blob_ b ∧ BlobData a = BlobData b ∧
  (Mime a = Mime b ∨ Mime a = TrimSpace (Mime b) ∧ Type_ a = TypeFile).

Section agree.
Context {T : Type} `{Blake3} `{Clipboard}.

(** ** An item that comes in *)

Lemma probe_blob_path (d : Daemon.Daemon) (p : Daemon T) env b :
  agree d p →
  Join (BlobDir (cfg p))
    (if String.eqb (Type_ env) TypeImage then Hash b +:+ ".png"
     else if negb (String.eqb (Ext (Filename env)) "") then Hash b +:+ Ext (Filename env) else Hash b) =
  Daemon.blob_path d env (Hash b).
Proof.
  intros []. unfold Daemon.blob_path, BlobDir, Config.BlobDir, Sinks.fileExt. rewrite ag_dir0.
  destruct (String.eqb (Type_ env) TypeImage); [done|].
  destruct (String.eqb_spec (Ext (Filename env)) "") as [->|]; cbn [negb]; [|done].
  by rewrite str_app_nil_r.
Qed.

Lemma probe_materialize (d : Daemon.Daemon) (p : Daemon T) env :
  agree d p →
  materialize p env =
    (probe_item <$> (Daemon.materialize d env).1, (Daemon.materialize d env).2).
Proof.
  intros Ha. unfold materialize, Daemon.materialize. destruct (_ || _) eqn:Et.
  - destruct (Blob_ env) as [b|]; [|by rewrite (ag_fs _ _ Ha)].
    destruct (negb (String.eqb (HashHex (BlobData env)) (Hash b))); [by rewrite (ag_fs _ _ Ha)|].
    cbv zeta. rewrite <-(probe_blob_path d p env b Ha), (ag_fs _ _ Ha).
    by destruct (WriteFile _ _ _) as [[[]|e] f].
  - by rewrite (ag_fs _ _ Ha).
Qed.

Lemma probe_try_send ch it :
  match try_send (probe_chan ch) (probe_item it) with Sent c => c | _ => probe_chan ch end =
  probe_chan (match try_send ch it with Sent c => c | _ => ch end).
Proof.
  destruct ch as [q n []]; [done|]. unfold try_send, probe_chan. cbn [closed queue chan_cap].
  rewrite length_map. destruct (length q <? n)%nat; [|done]. cbn [queue chan_cap closed].
  by rewrite map_app.
Qed.

Lemma probe_notify s it :
  notify_subs (probe_chan <$> s) (probe_item it) = probe_chan <$> Daemon.notify_subs s it.
Proof.
  unfold notify_subs, Daemon.notify_subs. rewrite <-!map_fmap_compose.
  apply map_fmap_ext. intros i ch _. cbn. apply probe_try_send.
Qed.

Lemma probe_push b it :
  push_buffer (map probe_item b) (probe_item it) = map probe_item (Daemon.push_buffer b it).
Proof.
  unfold push_buffer, Daemon.push_buffer.
  change (map probe_item b ++ [probe_item it]) with (map probe_item b ++ map probe_item [it]).
  rewrite <-map_app, length_map. change bufferCap with Daemon.bufferCap.
  destruct (_ <? _)%nat; [|done]. by rewrite skipn_map.
Qed.

Lemma applyAutoCopy_cfg (p : Daemon T) it : cfg (applyAutoCopy p it) = cfg p.
Proof. unfold applyAutoCopy. by repeat case_match. Qed.

Definition known_type (env : Envelope) : Prop := Type_ env ∈ [TypeText; TypeImage; TypeFile].

(** The clipboard policy is the same, for the three types of items. *)
Lemma probe_autocopy (d : Daemon.Daemon) (p : Daemon T) it :
  agree d p → known_type (Ipc.it_Envelope it) → Sinks.item_ok it →
  agree (Daemon.applyAutoCopy d it) (applyAutoCopy p (probe_item it)).
Proof.
  intros Ha Hk Hok. pose proof (ag_clip _ _ Ha) as Hc. pose proof (ag_last _ _ Ha) as Hl.
  assert (AutoCopy (Get (cfg p)) = Config.AutoCopy (Config.Get (Daemon.cfg d))) as Hmode.
  { unfold Get, Config.Get. by rewrite (ag_settings _ _ Ha). }
  assert (∀ c h, agree (Daemon.set_clip d c h) (set_clip p c h)) as Hset.
  { intros c h. destruct Ha. by split. }
  unfold applyAutoCopy, Daemon.applyAutoCopy, Daemon.writeClipboard, Sinks.clipContent.
  cbn [probe_item it_Envelope]. rewrite Hmode. destruct (String.eqb _ "on"); [|done].
  unfold known_type in Hk. set (env := Ipc.it_Envelope it) in *.
  assert (Type_ env = TypeText ∨ Type_ env = TypeImage ∨ Type_ env = TypeFile) as Ht by set_solver.
  destruct Ht as [Ht|[Ht|Ht]]; rewrite Ht; cbn.
  - rewrite Hc, Hl. destruct (WriteText _ _) as [[e|] c]; apply Hset.
  - rewrite Hc, Hl. destruct (Hok (or_introl Ht)) as (b & Hb & Hh). fold env in Hb, Hh.
    unfold Sinks.blobHash. rewrite Hb.
    assert ((if negb (String.eqb (Hash b) "") then Hash b else HashHex (BlobData env)) = Hash b) as ->.
    { by destruct (String.eqb (Hash b) ""). }
    destruct (WritePNG _ _) as [[e|] c]; apply Hset.
  - done.
Qed.

(** Neither program has a sink. *)
Definition no_sinks (c : Config.Settings) : Prop := Config.SaveDir c = "" ∧ Config.TextFile c = "".

Lemma probe_routeSinks (p : Daemon T) it :
  SaveDir (Get (cfg p)) = "" → TextFile (Get (cfg p)) = "" → routeSinks p it = p.
Proof. intros Hs Ht. unfold routeSinks. rewrite Hs, Ht. cbn. by repeat case_match. Qed.

Lemma room_routeSinks now c s f it : no_sinks c → Sinks.routeSinks now c s f it = (s, f).
Proof. intros [Hs Ht]. unfold Sinks.routeSinks. rewrite Hs, Ht. cbn. by repeat case_match. Qed.

Lemma agree_no_sinks (d : Daemon.Daemon) (p : Daemon T) :
  agree d p → no_sinks (Config.Get (Daemon.cfg d)) →
  SaveDir (Get (cfg p)) = "" ∧ TextFile (Get (cfg p)) = "".
Proof. intros Ha. unfold Get. rewrite (ag_settings _ _ Ha). done. Qed.

Lemma agree_ingest now (d : Daemon.Daemon) (p : Daemon T) env :
  agree d p → no_sinks (Config.Get (Daemon.cfg d)) → known_type env → Sender env ≠ Daemon.fp d →
  agree (Daemon.ingest now d env) (ingest p env).
Proof.
  intros Ha Hn Hk Hs. unfold ingest, Daemon.ingest. rewrite (ag_dedupe _ _ Ha).
  destruct (Seen (Daemon.d_dedupe d) (MsgID env)) as [before dd].
  assert (agree (Daemon.set_dedupe d dd) (set_dedupe p dd)) as Ha1 by (destruct Ha; by split).
  destruct before; [done|]. cbn [fp set_dedupe].
  rewrite (ag_fp _ _ Ha), (proj2 (String.eqb_neq _ _) Hs).
  rewrite (probe_materialize _ _ env Ha1).
  destruct (Daemon.materialize (Daemon.set_dedupe d dd) env) as [[it|] f] eqn:Em; cbn.
  2: by destruct Ha; split.
  destruct (Daemon.materialize_some _ _ _ _ Em) as (He & Hok & _).
  rewrite room_routeSinks by done. rewrite probe_routeSinks.
  - apply probe_autocopy; [|by rewrite He|done]. destruct Ha. split; cbn; try done.
    + by rewrite ag_buffer0, probe_push.
    + rewrite ag_subs0. apply probe_notify.
  - rewrite applyAutoCopy_cfg. apply (agree_no_sinks _ _ Ha Hn).
  - rewrite applyAutoCopy_cfg. apply (agree_no_sinks _ _ Ha Hn).
Qed.
End agree.

(** ** What [send] makes of its input *)

Section send.
Context {T : Type} `{Blake3} `{ImageCodec} `{MimeTable}.
Implicit Types p : Daemon T.

(** Sniffing and classifying take the same three ways. *)
Lemma sniff_classify b :
  (Sniff b = Ok KindPNG ∨ Sniff b = Ok KindJPEG) ∧ Classify b false = TypeImage ∨
  Sniff b = Ok KindText ∧ Classify b false = TypeText ∨
  (∃ e, Sniff b = Err e) ∧ Classify b false = TypeFile.
Proof.
  unfold Sniff, Classify. destruct (HasPrefix b pngMagic); cbn [orb]; [by eauto|].
  destruct (HasPrefix b jpegMagic); [by eauto|]. destruct (Valid b); [by eauto|]. eauto.
Qed.

(** Both refuse with the same message, or both build the same envelope. *)
Definition send_agree (a : result Ipc.Response Envelope) (b : result Response Envelope) : Prop :=
  match a, b with
  | Ok x, Ok y => same_but_mime x y
  | Err x, Err y => Ipc.rs_Message x = rs_Message y ∧ Ipc.rs_Kind x = Ipc.RespErr ∧ rs_Kind y = RespErr
  | _, _ => False
  end.

Lemma send_agree_image v (fp1 dn : string) ts ulid data name c :
  let env := mkEnvelope v ulid "" "" fp1 dn ts "" "" None "" in
  send_agree
    (match Sniff data with
     | Err _ => Err (Handlers.errResp 2 "not a supported image (PNG/JPEG)")
     | Ok kind =>
         if negb (bool_decide (kind = KindPNG)) && negb (bool_decide (kind = KindJPEG))
         then Err (Handlers.errResp 2 "not a supported image (PNG/JPEG)")
         else
           match ToPNG kind data with
           | Err perr => Err (Handlers.errResp 1 perr)
           | Ok png =>
               match PNGDims png with
               | Err derr => Err (Handlers.errResp 1 ("decode png dims: " +:+ derr))
               | Ok (w, h) =>
                   Ok (mkEnvelope v ulid TypeImage MimePNG fp1 dn ts name ""
                         (Some (mkBlob (HashHex png) (len png) w h)) png)
               end
           end
     end)
    (match fillImage env data name with Err e => Err (errResp c e) | Ok env => Ok env end).
Proof.
  cbv zeta. unfold fillImage. destruct (Sniff data) as [kind|e]; [|done].
  destruct (negb _ && negb _); [done|]. destruct (ToPNG kind data) as [png|e]; [|done].
  destruct (PNGDims png) as [[w h]|e]; [|done]. split_and!; try done. by left.
Qed.

Lemma send_agree_file v (fp1 dn : string) ts ulid data name :
  let env := mkEnvelope v ulid "" "" fp1 dn ts "" "" None "" in
  send_agree
    (Ok (mkEnvelope v ulid TypeFile (MimeForFilename name) fp1 dn ts name ""
           (Some (mkBlob (HashHex data) (len data) 0 0)) data))
    (Ok (fillFile env data name)).
Proof.
  cbv zeta. unfold send_agree, same_but_mime. cbn. split_and!; try done.
  destruct (MimeForFile_trim name) as [->|[-> _]]; [by left|by right].
Qed.

(** C29. What [send] makes of its input is the same in room-go and in the experiments.  For daemons
    that know themselves under the same name, both refuse a request with the same message or both
    build the same envelope, but for the white space around a file's MIME type, which only room-go
    removes. *)
Theorem probe_send_agrees ulid ms (d : Daemon.Daemon) p (req : Ipc.Request) :
  agree d p →
  send_agree (Handlers.build_envelope ulid ms d req) (build_envelope ulid ms p (probe_request req)).
Proof.
  intros Ha. unfold Handlers.build_envelope, build_envelope. cbv zeta. cbn [probe_request rq_Force rq_Bytes rq_Name].
  rewrite (ag_fp _ _ Ha), (ag_name _ _ Ha).
  destruct (String.eqb (Ipc.rq_Force req) "text"); [by split_and!; try left|].
  destruct (String.eqb (Ipc.rq_Force req) "image"); [apply send_agree_image|].
  destruct (String.eqb (Ipc.rq_Force req) "file"); [apply send_agree_file|].
  destruct (sniff_classify (Ipc.rq_Bytes req)) as [[Hs ->]|[[Hs ->]|[[e Hs] ->]]]; cbn -[fillImage].
  - pose proof (send_agree_image Version (Daemon.fp d) (Daemon.deviceName d) (uint64 ms) ulid
      (Ipc.rq_Bytes req) (Ipc.rq_Filename req) 1) as Hi. by destruct Hs as [Hs|Hs]; rewrite Hs in *.
  - rewrite Hs. by split_and!; try left.
  - rewrite Hs. apply send_agree_file.
Qed.
End send.

(** ** Sequences of envelopes *)

Section agreement.
Context {T : Type} `{Blake3} `{Clipboard}.

(** C13. The daemons agree.  Take room-go's daemon and an experiment's daemon in corresponding
    states, without sinks, and give both the same envelopes of the three types, none of them with
    their own fingerprint as the sender: their buffers, subscribers, dedupe sets, clipboards, last
    hashes and file systems correspond after every one of them. *)
Theorem probe_ingest_agrees (d : Daemon.Daemon) (p : Daemon T) envs :
  Daemon.daemon_ok d → agree d p → no_sinks (Config.Get (Daemon.cfg d)) →
  Forall (λ e, known_type e.2 ∧ Sender e.2 ≠ Daemon.fp d) envs →
  agree (Daemon.ingest_all d envs) (foldl (λ p e, ingest p e.2) p envs).
Proof.
  unfold Daemon.ingest_all. intros Hok Ha Hn Hf. revert d p Hok Ha Hn Hf.
  induction envs as [|e envs IH]; intros d p Hok Ha Hn Hf; [done|].
  apply Forall_cons in Hf as [[Hk Hs] Hf]. cbn [foldl].
  pose proof (Daemon.ingest_cfg e.1 d e.2 (Daemon.ok_dedupe _ Hok)) as Hc.
  apply IH; [by apply Daemon.ingest_ok|by apply agree_ingest|by rewrite Hc|].
  by rewrite Daemon.ingest_fp by apply Hok.
Qed.
End agreement.

(** ** An example *)

#[local] Existing Instance pad_blake3.
#[local] Existing Instance Handlers.no_images.
#[local] Existing Instance Handlers.no_mime.
#[local] Existing Instance Daemon.clipboard_works.

Definition plain_config : Config.Store :=
  Config.mkStore "/cfg" (Config.mkSettings "on" "" "" "ask" "dev" "default" "" "off" "off").

Definition plain_room : Daemon.Daemon :=
  Daemon.mkDaemon plain_config "default" "SHA256:me" "dev" (Daemon.mkConn None "" false)
    (NewDedupe 4096) [] ∅ "" (Sinks.newSession Daemon.demo_tree "") false Daemon.demo_tree clip_init ∅.

Definition plain_probe : Daemon unit :=
  mkDaemon (mkStore "/cfg" (forget (Config.settings plain_config))) "default" "LAN" () "SHA256:me"
    "dev" (NewDedupe 4096) [] ∅ "" [] ∅ false "" false Daemon.demo_tree clip_init.

Lemma plain_agree : agree plain_room plain_probe.
Proof. by split. Qed.

Lemma plain_room_ok : Daemon.daemon_ok plain_room.
Proof. split; [cbn; lia|constructor|apply NewDedupe_wf|apply map_Forall_empty]. Qed.

Lemma demo_envs_known :
  Forall (λ e, known_type e.2 ∧ Sender e.2 ≠ Daemon.fp plain_room) Daemon.demo_envs.
Proof. repeat constructor; try set_solver; discriminate. Qed.

Lemma probe_ingest_agrees_witness :
  agree (Daemon.ingest_all plain_room Daemon.demo_envs)
    (foldl (λ p e, ingest p e.2) plain_probe Daemon.demo_envs).
Proof.
  exact (probe_ingest_agrees plain_room plain_probe Daemon.demo_envs plain_room_ok plain_agree
           (conj eq_refl eq_refl) demo_envs_known).
Defined.

Lemma probe_send_agrees_witness :
  send_agree (Handlers.build_envelope "1" 0 plain_room (Handlers.demo_send "hi" "" ""))
    (build_envelope "1" 0 plain_probe (probe_request (Handlers.demo_send "hi" "" ""))).
Proof. exact (probe_send_agrees "1" 0 plain_room plain_probe _ plain_agree). Defined.
