(* ===== verification/ProbeCli.v ===== *)
(** * The experiments: the shared command line

    [experiments/shared-go/cli]: cli.go and remote.go, and [cmdTUI] of tui.go up to the program it
    runs.  Every probe has these commands; what differs is its name and its transport, the record
    [App].  The commands run in the process monad of [Proc], as room-go's do in [Cli]; the loop of
    [parseGlobals] and the copying of a file are room-go's. *)
From S2P Require Import Prelude GoStr GoPath GoOS Wire Clip Flags Proc ProbeConfig ProbeIpc ProbeDaemon.
From S2P Require Ipc Cli.
Open Scope string_scope.
Open Scope list_scope.

Record App (T : Type) := mkApp {
  BinName : string;
  Tagline : string;
  TransportTag : string;
  (** on the store, the effective room and the device name; it may write files *)
  NewTransport : Store → string → string → FS → result string T * FS;
}.
Arguments mkApp {T}.
Arguments BinName {T}.
Arguments Tagline {T}.
Arguments TransportTag {T}.
Arguments NewTransport {T}.

Record Globals (T : Type) := mkGlobals {
  app : App T;
  ConfigDir : string;
  Socket : string;
  Room : string;
  JSON : bool;
  Quiet : bool;
  Verbose : bool;
}.
Arguments mkGlobals {T}.
Arguments app {T}.
Arguments ConfigDir {T}.
Arguments Socket {T}.
Arguments Room {T}.
Arguments JSON {T}.
Arguments Quiet {T}.
Arguments Verbose {T}.

(** encoding/json on a status and on a list of peers. *)
Class ProbeJson := { json_Status : Status → string; json_Peers : list Peer → string }.

(** ** flag.FlagSet with its own messages *)

(** A flag set, and its flags in alphabetical order with their usage. *)
Record flags := mkFlags { fs_set : flagSet; fs_usage : list (string * string) }.

(** [PrintDefaults]; no default differs from zero and no usage has a line break. *)
Definition flag_defaults (f : flags) : string :=
  foldr (λ x s,
    "  -" +:+ x.1 +:+
    match formal (fs_set f) !! x.1 with Some (FString _) => " string" | _ => "" end +:+ nl +:+
    "    " +:+ String (ascii_of_N 9) "" +:+ x.2 +:+ nl +:+ s) "" (fs_usage f).

(** What a failed [fs.Parse] writes to standard error. *)
Definition flag_error (f : flags) (e : string) : string :=
  (if String.eqb e "flag: help requested" then "" else e +:+ nl) +:+
  "Usage of " +:+ f_name (fs_set f) +:+ ":" +:+ nl +:+ flag_defaults f.

Definition no_flags (name : string) : flags := mkFlags (newFlagSet name) [].

Definition send_flags : flags :=
  mkFlags (f_bool "auto" false (f_string "name" "" (f_bool "file" false (f_bool "image" false
             (f_bool "text" false (newFlagSet "send"))))))
    [("auto", "sniff type (default)"); ("file", "force file (arbitrary bytes)");
     ("image", "force image (PNG/JPEG)"); ("name", "filename for image/file items (advisory)");
     ("text", "force text")].
Definition recv_flags : flags :=
  mkFlags (f_string "out" "" (f_bool "emit-path" false (f_bool "latest-image" false
             (f_bool "follow" false (newFlagSet "recv")))))
    [("emit-path", "print the image file path"); ("follow", "stream until interrupted");
     ("latest-image", "return the latest image"); ("out", "write image to this path")].
Definition clear_flags : flags :=
  mkFlags (f_bool "yes" false (f_bool "all" false (newFlagSet "clear")))
    [("all", "also revert this session's sink writes (text_file + save_dir)");
     ("yes", "skip the confirmation prompt for --all")].
Definition daemon_flags : flags :=
  mkFlags (f_bool "foreground" false (newFlagSet "daemon"))
    [("foreground", "run in the foreground (default when launched directly)")].

(** The loop of [cmdSend]: flags may follow the positional arguments.  [None]: the fuel ran out. *)
Fixpoint parse_loop (fuel : nat) (f : flagSet) (positionals rest : list string)
    : option (result string (flagSet * list string)) :=
  match fuel with
  | O => None
  | S fuel =>
      match parse_args (formal f) rest with
      | Err e => Some (Err e)
      | Ok (m, rest) =>
          let f := mkFlagSet (f_name f) m rest in
          match rest with
          | [] => Some (Ok (f, positionals))
          | p :: rest => parse_loop fuel f (positionals ++ [p]) rest
          end
      end
  end.

Definition short (s : string) : string :=
  if (len s <=? 20)%Z then s else str_take 20 s +:+ "…".

Section cli.
Context {T : Type}.
Implicit Types g : Globals T.

Definition parseGlobals (a : App T) (args : list string) : Globals T * list string :=
  let '(Cli.mkGlobals cd so rm js qu vb, rest) := Cli.parseGlobals args in
  (mkGlobals a cd so rm js qu vb, rest).

Definition spawnArgs g : list string :=
  (if negb (String.eqb (ConfigDir g) "") then ["--config-dir"; ConfigDir g] else []) ++
  (if negb (String.eqb (Socket g) "") then ["--socket"; Socket g] else []) ++
  (if negb (String.eqb (Room g) "") then ["--room"; Room g] else []).

Definition effectiveRoom g (c : Store) : string :=
  if negb (String.eqb (Room g) "") then Room g
  else if negb (String.eqb (Room_ (Get c)) "") then Room_ (Get c) else "default".

Definition new_request (op : string) : Request := mkRequest IPCVersion op "" "" "" "" false false "" "".

Context {P : Type} `{Proc.Peer P} `{Cbor Request} `{Cbor Response} `{Json}.
Context (E : Env).

Definition socketPath g : M P (result string string) :=
  os_call (SocketPath (e_runtime E) (e_tmp E) (Socket g) (BinName (app g))).

Definition openConfig g : M P (result string Store) :=
  os_call (Open (e_host E) (e_base E) (ConfigDir g) (BinName (app g))).

Definition fail g (code : Z) (err : string) : M P Z :=
  eprint (BinName (app g) +:+ ": " +:+ err +:+ nl);; mret code.

(** [ipc.Dial]: room-go's, with a deadline of six seconds. *)
Definition ipc_dial (sock : string) (autoSpawn : bool) (spawnArgs : list string)
    : result string (option nat) :=
  match Dial (e_dial E sock) (e_start E) (e_now E) 68 sock autoSpawn
          (spawnDaemon (e_exe E) (e_log E) (e_spawn E) spawnArgs) with
  | Some r => r
  | None => Err ""
  end.

Definition send_req (lim : option nat) (req : Request) : M P (result string reader) :=
  let '(res, w) := WriteReq (mkWriter "" lim) req in
  r ← exchange (w_buf w);
  mret (match res with Ok _ => Ok r | Err e => Err (msg_err_string e) end).

(** One request on a connection of its own: the bytes that come back. *)
Definition open_call (sock : string) (autoSpawn : bool) (args : list string) (req : Request)
    : M P (result string reader) :=
  match ipc_dial sock autoSpawn args with
  | Err e => mret (Err e)
  | Ok lim => send_req lim req
  end.

(** The response, or the exit code. *)
Definition roundtrip g (req : Request) : M P (result Z Response) :=
  sock ← socketPath g;
  match sock with
  | Err e => c ← fail g 1 e; mret (Err c)
  | Ok sock =>
      r ← open_call sock true (spawnArgs g) req;
      match r with
      | Err e => c ← fail g 3 e; mret (Err c)
      | Ok rd =>
          match (ReadResp rd).1 with
          | Err e => c ← fail g 3 (msg_err_string e); mret (Err c)
          | Ok resp => mret (Ok resp)
          end
      end
  end.

(** What nearly every command does with it. *)
Definition call g (req : Request) (k : Response → M P Z) : M P Z :=
  r ← roundtrip g req;
  match r with
  | Err code => mret code
  | Ok resp =>
      if String.eqb (rs_Kind resp) RespErr then fail g (rs_Code resp) (rs_Message resp) else k resp
  end.

Definition with_flags (f : flags) (args : list string) (k : flagSet → M P Z) : M P Z :=
  match parse_args (formal (fs_set f)) args with
  | Err e => eprint (flag_error f e);; mret 2%Z
  | Ok (m, rest) => k (mkFlagSet (f_name (fs_set f)) m rest)
  end.

(** ** send *)

Definition send_force (fs : flagSet) : string :=
  if get_bool fs "text" then "text"
  else if get_bool fs "image" then "image"
  else if get_bool fs "file" then "file" else "".

(** The input and the file name, or the error. *)
Definition send_input (name : string) (pos : list string) : M P (result string (string * string)) :=
  match pos with
  | path :: _ =>
      r ← os_read (λ f, ReadFile f path);
      mret (match r with
            | Ok data => Ok (data, if String.eqb name "" then Base path else name)
            | Err e => Err (Error e)
            end)
  | [] => mret (match ReadAll E with Ok data => Ok (data, name) | Err e => Err e end)
  end.

Definition cmdSend g (args : list string) : M P Z :=
  match parse_loop (S (length args)) (fs_set send_flags) [] args with
  | None => mret 0%Z
  | Some (Err e) => eprint (flag_error send_flags e);; mret 2%Z
  | Some (Ok (fs, positionals)) =>
      inp ← send_input (get_string fs "name") positionals;
      match inp with
      | Err e => fail g 1 e
      | Ok (data, filename) =>
          if (len data =? 0)%Z then fail g 2 "send: empty input"
          else
            call g (mkRequest IPCVersion OpSend data (send_force fs) filename "" false false "" "")
              (λ resp,
            (if (rs_Code resp =? 4)%Z && negb (Quiet g)
             then eprint (BinName (app g) +:+ ": warning: " +:+ rs_Message resp +:+ nl)
             else mret ());;
            mret 0%Z)
      end
  end.

(** ** recv *)

(** One item on standard output; [panic]: [env.Blob] is nil. *)
Definition printItem (resp : Response) (emitPath : bool) (out : string) : M P () :=
  match rs_Item resp with
  | Some item =>
      if negb (String.eqb (rs_Kind resp) RespItem) then mret ()
      else
        let env := it_Envelope item in
        if String.eqb (Type_ env) "text" then println (Text env)
        else
          let path := it_LocalPath item in
          path ← (if negb (String.eqb out "") && negb (String.eqb path "") then
                    r ← Cli.copyFile path out;
                    mret (match r with Ok _ => out | Err _ => path end)
                  else mret path);
          if emitPath || negb (String.eqb out "") then println path
          else if String.eqb (Type_ env) "file" then
            let name := if String.eqb (Filename env) "" then
                          match Blob_ env with Some b => short (Hash b) | None => "" end
                        else Filename env in
            let size := match Blob_ env with Some b => Size b | None => 0%Z end in
            println ("[file " +:+ name +:+ " " +:+ itoa size +:+ "B " +:+ path +:+ "]")
          else
            match Blob_ env with
            | None => panic
            | Some b =>
                println ("[image " +:+ itoa (Blob_W b) +:+ "x" +:+ itoa (Blob_H b) +:+ " " +:+
                         path +:+ "]")
            end
  | None => mret ()
  end.

Fixpoint printItems (resps : list Response) (emitPath : bool) (out : string) : M P () :=
  match resps with
  | [] => mret ()
  | resp :: resps => printItem resp emitPath out;; printItems resps emitPath out
  end.

Definition cmdRecv g (args : list string) : M P Z :=
  with_flags recv_flags args (λ fs,
  let kind := if get_bool fs "latest-image" then "image" else "any" in
  let emit := get_bool fs "emit-path" || get_bool fs "latest-image" in
  let out := get_string fs "out" in
  let req := mkRequest IPCVersion OpRecv "" "" "" kind (get_bool fs "follow") false "" "" in
  sock ← socketPath g;
  match sock with
  | Err e => fail g 1 e
  | Ok sock =>
      r ← open_call sock true (spawnArgs g) req;
      match r with
      | Err e => fail g 3 e
      | Ok rd =>
          if get_bool fs "follow" then
            printItems (Ipc.read_msgs (S (String.length (r_buf rd))) rd).1 emit out;;
            mret 0%Z
          else
            match (ReadResp rd).1 with
            | Err e => fail g 3 (msg_err_string e)
            | Ok resp =>
                if String.eqb (rs_Kind resp) RespErr
                then fail g (rs_Code resp) (rs_Message resp)
                else printItem resp emit out;; mret 0%Z
            end
      end
  end).

(** ** paste and clear *)

Definition say g (s : string) : M P () := if negb (Quiet g) then println s else mret ().

Definition cmdPaste g (args : list string) : M P Z :=
  call g (new_request OpPaste) (λ _, say g "pasted latest item to clipboard";; mret 0%Z).

Definition promptLine (prompt : string) : M P string :=
  eprint prompt;; mret (ToLower (TrimSpace (ReadLine E))).

Definition promptYesNo (prompt : string) : M P bool :=
  a ← promptLine prompt; mret (String.eqb a "y" || String.eqb a "yes").

Definition promptChoice (prompt : string) : M P string :=
  a ← promptLine prompt; mret (match a with "" => "" | String c _ => String c "" end).

Definition clear_prompt : string :=
  "revert this session's sink writes (truncate text_file, delete save_dir files written this session)? [y/N] ".

(** Whether the sinks are reverted too. *)
Definition clear_consent g (all yes : bool) : M P bool :=
  if all then
    if yes then mret true
    else if e_tty E then
      a ← promptYesNo clear_prompt;
      (if negb a && negb (Quiet g)
       then eprint (BinName (app g) +:+ ": sinks kept; clearing transient only" +:+ nl) else mret ());;
      mret a
    else
      eprint (BinName (app g) +:+ ": --all needs --yes without a TTY; clearing transient only" +:+ nl);;
      mret false
  else mret false.

Definition cmdClear g (args : list string) : M P Z :=
  with_flags clear_flags args (λ fs,
  reqAll ← clear_consent g (get_bool fs "all") (get_bool fs "yes");
  call g (mkRequest IPCVersion OpClear "" "" "" "" false reqAll "" "") (λ _,
  say g (if reqAll : bool then "cleared this session (transient + sink writes)"
         else "cleared this session (transient)");;
  mret 0%Z)).

(** ** status and peers *)

Definition peer_line (p : Peer) : string :=
  "  - " +:+ Name p +:+ "  " +:+ short (ID p) +:+ "  " +:+ Addr p +:+ nl.

Definition status_text (s : Status) : string :=
  "identity:   " +:+ st_Identity s +:+ nl +:+ "device:     " +:+ st_DeviceName s +:+ nl +:+
  "room:       " +:+ st_Room s +:+ nl +:+ "transport:  " +:+ st_Transport s +:+ nl +:+
  "auto_copy:  " +:+ st_AutoCopy s +:+ nl +:+
  (if negb (String.eqb (st_Clipboard s) "") then "clipboard:  " +:+ st_Clipboard s +:+ nl else "") +:+
  "peers:      " +:+ itoa (Z.of_nat (length (st_Peers s))) +:+ " connected" +:+ nl +:+
  foldr (λ p t, peer_line p +:+ t) "" (st_Peers s) +:+
  "buffer:     " +:+ itoa (st_Buffer s) +:+ " item(s)" +:+ nl.

Definition tab : string := String (ascii_of_N 9) "".

Definition peers_text (l : list Peer) : string :=
  match l with
  | [] => "no peers connected" +:+ nl
  | _ => foldr (λ p t, Name p +:+ tab +:+ ID p +:+ tab +:+ Addr p +:+ nl +:+ t) "" l
  end.

Context `{ProbeJson}.

(** The status of a response to [status] or [peers], or the exit code. *)
Definition with_status g (op what : string) (k : Status → M P Z) : M P Z :=
  r ← roundtrip g (new_request op);
  match r with
  | Err code => mret code
  | Ok resp =>
      match rs_Status resp with
      | Some s => if String.eqb (rs_Kind resp) RespErr then fail g 1 (what +:+ " unavailable") else k s
      | None => fail g 1 (what +:+ " unavailable")
      end
  end.

Definition cmdStatus g (args : list string) : M P Z :=
  with_status g OpStatus "status" (λ s,
  (if JSON g then println (json_Status s) else print (status_text s));; mret 0%Z).

Definition cmdPeers g (args : list string) : M P Z :=
  with_status g OpPeers "peers" (λ s,
  (if JSON g then println (json_Peers (st_Peers s)) else print (peers_text (st_Peers s)));; mret 0%Z).

(** ** config and pair *)

Definition cmdConfig g (args : list string) : M P Z :=
  let bin := BinName (app g) in
  match args with
  | action :: key :: more =>
      if String.eqb action "set" then
        match more with
        | [] => fail g 2 "usage: config set KEY VALUE"
        | value :: _ =>
            call g (mkRequest IPCVersion OpConfigSet "" "" "" "" false false key value) (λ _,
            say g (key +:+ " = " +:+ value);; mret 0%Z)
        end
      else if String.eqb action "get" then
        call g (mkRequest IPCVersion OpConfigGet "" "" "" "" false false key "")
          (λ resp, println (rs_Value resp);; mret 0%Z)
      else fail g 2 ("config: unknown action " +:+ Quote action)
  | _ => fail g 2 ("usage: " +:+ bin +:+ " config set KEY VALUE | " +:+ bin +:+ " config get KEY")
  end.

Definition cmdPair g (args : list string) : M P Z :=
  (if negb (Quiet g) then
     eprint (BinName (app g) +:+ ": discovery is automatic (mDNS in room " +:+ Quote (Room g) +:+
             "); no pairing needed." +:+ nl) else mret ());;
  mret 0%Z.

(** ** daemon *)

Definition resolveExitPolicy g : M P string :=
  cfg ← openConfig g;
  let policy :=
    match cfg with
    | Ok cfg => if String.eqb (ClearOnExit (Get cfg)) "" then "ask" else ClearOnExit (Get cfg)
    | Err _ => "ask"
    end in
  if negb (String.eqb policy "ask") then mret policy
  else if negb (e_tty E) then mret "transient"
  else
    c ← promptChoice "clear this session on exit? [t]ransient / [a]ll incl sinks / [n]o: ";
    mret (if String.eqb c "a" then "all" else if String.eqb c "n" then "never" else "transient").

(** It never spawns a daemon. *)
Definition cmdDaemonStop g (args : list string) : M P Z :=
  with_flags (no_flags "daemon stop") args (λ _,
  sock ← socketPath g;
  match sock with
  | Err e => fail g 1 e
  | Ok sock =>
      match ipc_dial sock false [] with
      | Err _ =>
          (if negb (Quiet g) then eprint (BinName (app g) +:+ ": no daemon running" +:+ nl)
           else mret ());;
          mret 3%Z
      | Ok lim =>
          policy ← resolveExitPolicy g;
          r ← send_req lim (mkRequest IPCVersion OpDaemonStop "" "" "" "" false false "" policy);
          match r with
          | Err e => fail g 3 e
          | Ok rd =>
              match (ReadResp rd).1 with
              | Err e => fail g 3 (msg_err_string e)
              | Ok resp =>
                  if String.eqb (rs_Kind resp) RespErr
                  then fail g (rs_Code resp) (rs_Message resp)
                  else say g ("daemon stopping (clear_on_exit: " +:+ policy +:+ ")");; mret 0%Z
              end
          end
      end
  end).

Context `{Transport T}.

(** [cmdDaemon] up to the accept loop of [Run]: an exit code, or the daemon that serves and its
    socket.  [order] and [listen] as in [ProbeDaemon.Run_start]. *)
Definition daemon_boot (order : gmap string Z → list (string * Z)) (listen : option string) g
    (args : list string) : M P (Z + Daemon T * string) :=
  match parse_args (formal (fs_set daemon_flags)) args with
  | Err e => eprint (flag_error daemon_flags e);; mret (inl 2%Z)
  | Ok _ =>
      cfg ← openConfig g;
      match cfg with
      | Err e => c ← fail g 1 e; mret (inl c)
      | Ok cfg =>
          let room := effectiveRoom g cfg in
          tr ← os_call (NewTransport (app g) cfg room (DeviceName_ (Get cfg)));
          match tr with
          | Err e => c ← fail g 1 ("init transport: " +:+ e); mret (inl c)
          | Ok tr =>
              sock ← socketPath g;
              match sock with
              | Err e => c ← fail g 1 e; mret (inl c)
              | Ok sock =>
                  run ← os_call (λ f,
                    let '(err, d) :=
                      Run_start order (New_ cfg f clip_init room (TransportTag (app g)) tr) sock listen in
                    ((err, d), fs d));
                  match run with
                  | (Some e, _) => c ← fail g 1 e; mret (inl c)
                  | (None, d) => mret (inr (d, sock))
                  end
              end
          end
      end
  end.

Definition cmdDaemon (order : gmap string Z → list (string * Z)) (listen : option string) g
    (args : list string) : M P Z :=
  match args with
  | "stop" :: args' => cmdDaemonStop g args'
  | _ =>
      r ← daemon_boot order listen g args;
      mret (match r with inl code => code | inr _ => 0%Z end)
  end.

(** ** tui *)

(** One request of the terminal UI's client. *)
Definition client_do (sock : string) (spawn : list string) (req : Request)
    : M P (result string Response) :=
  r ← open_call sock true spawn req;
  mret (match r with
        | Err e => Err e
        | Ok rd => match (ReadResp rd).1 with Ok resp => Ok resp | Err e => Err (msg_err_string e) end
        end).

Definition client_Status (sock : string) (spawn : list string) : M P (result string Status) :=
  r ← client_do sock spawn (new_request OpStatus);
  mret (match r with
        | Err e => Err e
        | Ok resp =>
            match rs_Status resp with
            | Some s => if String.eqb (rs_Kind resp) RespErr then Err "status unavailable" else Ok s
            | None => Err "status unavailable"
            end
        end).

(** [p_Run]: what the bubbletea program makes of the first status and of the bytes of the
    subscription, and its error. *)
Definition cmdTUI (p_Run : string → Status → reader → M P (option string)) g (args : list string)
    : M P Z :=
  sock ← socketPath g;
  match sock with
  | Err e => fail g 1 e
  | Ok sock =>
      st ← client_Status sock (spawnArgs g);
      match st with
      | Err e => fail g 3 e
      | Ok st =>
          sub ← open_call sock true (spawnArgs g) (new_request OpSubscribe);
          match sub with
          | Err e => fail g 3 e
          | Ok rd =>
              err ← p_Run (BinName (app g)) st rd;
              match err with Some e => fail g 1 e | None => mret 0%Z end
          end
      end
  end.

(** ** remote *)

(** $CPC_REMOTE_HELPER, [os.Executable], the user's home and working directory, [exec.LookPath] of
    bash, and the error of [syscall.Exec], which does not return when it succeeds ([None]). *)
Record Around := mkAround {
  a_helper : string;
  a_exe : result string string;
  a_home : result string string;
  a_wd : result string string;
  a_bash : result string string;
  a_exec : string → list string → option string;
}.

(** A regular file. *)
Definition is_regular (f : FS) (p : string) : bool :=
  match Stat f p with Ok (File _) => true | _ => false end.

Definition helper_candidates (a : Around) : list string :=
  match a_exe a with
  | Ok exe =>
      let dir := Dir exe in
      [Join dir "remote.sh"; Join dir "../libexec/cpc/remote.sh"]
  | Err _ => []
  end ++
  match a_home a with Ok home => [Join home ".local/libexec/cpc/remote.sh"] | Err _ => [] end.

(** The environment first, then beside the program, then at home, then up from the working directory;
    the fuel is enough ([GoPath.walk_up_fuel]). *)
Definition findRemoteHelper (a : Around) (f : FS) : string :=
  if negb (String.eqb (a_helper a) "") then a_helper a
  else
    match filter (λ c, is_regular f c = true) (helper_candidates a) with
    | c :: _ => c
    | [] =>
        match a_wd a with
        | Err _ => ""
        | Ok wd =>
            let test d := let c := Join d "scripts/remote.sh" in if is_regular f c then Some c else None in
            match walk_up test (length (resolve wd).2 + 3) wd with Some c => c | None => "" end
        end
    end.

(** The arguments of the program that replaces the process. *)
Definition remote_argv g (bash helper : string) (args : list string) : list string :=
  [bash; helper; BinName (app g)] ++ args ++
  ["--room"; if String.eqb (Room g) "" then "default" else Room g].

(** 0 also stands for the process having been replaced. *)
Definition cmdRemote (a : Around) g (args : list string) : M P Z :=
  let bin := BinName (app g) in
  match args with
  | [] => eprint ("usage: " +:+ bin +:+ " remote <ssh-host> [up|down] [--room R]" +:+ nl);; mret 2%Z
  | _ :: _ =>
      helper ← os_read (findRemoteHelper a);
      if String.eqb helper "" then
        eprint (bin +:+ " remote: could not locate remote.sh — set CPC_REMOTE_HELPER, " +:+
                "run scripts/install.sh (installs it to ~/.local/libexec/cpc/), or run from the repo" +:+ nl);;
        mret 1%Z
      else
        let bash := match a_bash a with Ok b => b | Err _ => "/bin/bash" end in
        match a_exec a bash (remote_argv g bash helper args) with
        | Some e => eprint (bin +:+ " remote: exec failed: " +:+ e +:+ nl);; mret 1%Z
        | None => mret 0%Z
        end
  end.

(** ** Dispatch *)

Definition usage_text (a : App T) : string :=
  BinName a +:+ " — " +:+ Tagline a +:+ " (experiments track, Phase 0)" +:+ nl +:+ nl +:+
  "Usage:" +:+ nl +:+
  "  " +:+ BinName a +:+ " [global flags] <command> [command flags]" +:+ nl +:+ nl +:+
  "Global flags:" +:+ nl +:+
  "  --config-dir PATH   config/identity directory" +:+ nl +:+
  "  --socket PATH       IPC socket path" +:+ nl +:+
  "  --room NAME         room to join (default " +:+ Cli.dq +:+ "default" +:+ Cli.dq +:+ ")" +:+ nl +:+
  "  --json              machine-readable output (status/peers)" +:+ nl +:+
  "  -q, --quiet         quieter output" +:+ nl +:+
  "  -v, --verbose       debug logging" +:+ nl +:+ nl +:+
  "Commands:" +:+ nl +:+
  "  daemon   [--foreground] | daemon stop     run/stop the resident daemon (auto-spawned)" +:+ nl +:+
  "  send     [PATH] [--text|--image|--file|--auto] [--name NAME]" +:+ nl +:+
  "  recv     [--follow] [--latest-image --emit-path] [--out PATH]" +:+ nl +:+
  "  paste                                   write latest received item to OS clipboard" +:+ nl +:+
  "  clear    [--all] [--yes]                clear this session (transient; --all also reverts sinks)" +:+ nl +:+
  "  tui                                     launch the messenger-style chat TUI (SPEC §4)" +:+ nl +:+
  "  status   [--json]" +:+ nl +:+
  "  peers    [--json]" +:+ nl +:+
  "  config   set KEY VALUE | get KEY        keys: auto_copy, save_dir, text_file, clear_on_exit, …" +:+ nl +:+
  "  pair                                    no-op: discovery is automatic (mDNS)" +:+ nl +:+
  "  remote   <ssh-host> [up|down]            bootstrap + connect a remote over SSH (shared engine)" +:+ nl.

Definition usage (a : App T) : M P () := eprint (usage_text a).

Context (order : gmap string Z → list (string * Z)) (listen : option string) (ar : Around).
Context (p_Run : string → Status → reader → M P (option string)).

Definition dispatch g (sub : string) (args : list string) : M P Z :=
  if String.eqb sub "daemon" then cmdDaemon order listen g args
  else if String.eqb sub "send" then cmdSend g args
  else if String.eqb sub "recv" then cmdRecv g args
  else if String.eqb sub "paste" then cmdPaste g args
  else if String.eqb sub "clear" then cmdClear g args
  else if String.eqb sub "tui" then cmdTUI p_Run g args
  else if String.eqb sub "status" then cmdStatus g args
  else if String.eqb sub "peers" then cmdPeers g args
  else if String.eqb sub "config" then cmdConfig g args
  else if decide (sub ∈ ["pair"; "join"]) then cmdPair g args
  else if String.eqb sub "remote" then cmdRemote ar g args
  else if decide (sub ∈ ["help"; "-h"; "--help"]) then usage (app g);; mret 0%Z
  else
    eprint (BinName (app g) +:+ ": unknown command " +:+ Quote sub +:+ nl);; usage (app g);; mret 2%Z.

(** [Main]: the exit code; [None]: a panic. *)
Definition Main (a : App T) (args : list string) : M P Z :=
  let '(g, rest) := parseGlobals a args in
  match rest with
  | [] => usage a;; mret 2%Z
  | sub :: args => dispatch g sub args
  end.
End cli.

(** ** The flags of [send] *)

(** The loop comes to an end: every round takes a positional. *)
Lemma parse_loop_total fuel f pos rest :
  (length rest < fuel)%nat → is_Some (parse_loop fuel f pos rest).
Proof.
  revert f pos rest. induction fuel as [|fuel IH]; intros f pos rest Hf; [lia|]. cbn [parse_loop].
  destruct (parse_args (formal f) rest) as [[m r]|e] eqn:E; [|by eexists].
  apply parse_args_suffix with (n := length rest) in E; [|done].
  destruct r as [|p r]; [by eexists|]. apply IH. apply suffix_length in E. cbn [length] in *. lia.
Qed.

(** Flags may stand before or behind the positional argument. *)
Lemma parse_loop_swap fuel f l m p :
  (S (length l) < fuel)%nat → parse_args (formal f) l = Ok (m, []) → tokenize p = TPositional →
  parse_loop fuel f [] (p :: l) = Some (Ok (mkFlagSet (f_name f) m [], [p])) ∧
  parse_loop fuel f [] (l ++ [p]) = Some (Ok (mkFlagSet (f_name f) m [], [p])).
Proof.
  intros Hf Hl Hp. destruct fuel as [|[|fuel]]; [lia..|]. cbn [parse_loop parse_args]. rewrite Hp.
  cbn [formal f_name app]. rewrite Hl. split; [done|].
  rewrite (parse_args_snoc (length l) _ _ m) by done. done.
Qed.
