(* ===== verification/ProbeLocal.v ===== *)
(** * The experiments: the daemon as the peer of its clients

    Joins handlers.go and the command line of [experiments/shared-go]: [probe_serve] runs
    [ProbeHandlers.handleConn] on the bytes a client sent and lets a waiting or streaming handler go
    on with what comes in meanwhile; the theorems on the commands are about this instance of
    [Proc.Peer]. *)
From S2P Require Import Prelude GoStr GoPath GoOS Wire Codec Dedupe Clip Flags Proc ProbeConfig ProbeIpc ProbeCodec ProbeDaemon ProbeHandlers ProbeCli.
From S2P Require Ipc Cli Handlers Daemon.
Open Scope string_scope.
Open Scope list_scope.

(** What a connection finds: the next message id, the clock, the transport after the wait of
    [send], the order in which Go goes through the map of baselines, and the envelopes that come in
    before the connection ends. *)
Class Moment (T : Type) := mkMoment {
  m_ulid : string;
  m_now : Z;
  m_waited : T → T;
  m_order : gmap string Z → list (string * Z);
  m_later : list Envelope;
}.

Section local.
Context {T : Type} `{Transport T} `{Blake3} `{ImageCodec} `{MimeTable} `{Clipboard} `{Json}.
Context `{Cbor Request} `{Cbor Response} `{!Moment T}.
Implicit Types d : Daemon T.

Definition probe_serve d (sent : string) : reader * Daemon T :=
  let '(o, d, w) := handleConn m_ulid m_now m_waited (m_order (textBaseline d)) d
                      (mkReader sent EOF) (mkWriter "" None) in
  match o with
  | Reply _ | Closed => (mkReader (w_buf w) EOF, d)
  | Waiting ch kind =>
      match resume_wait (foldl ingest d m_later) ch kind with
      | (Reply r, d) => (mkReader (w_buf (WriteResp w r).2) EOF, d)
      | (_, d) => (mkReader (w_buf w) EOF, d)
      end
  | Streaming ch kind =>
      let '(rs, d) := resume_stream (foldl ingest d m_later) ch kind in
      (mkReader (w_buf (Ipc.write_msgs w rs).2) EOF, d)
  end.

#[export] Instance probe_peer : Proc.Peer (Daemon T) := {|
  peer_fs := fs;
  peer_set_fs d f := set_fs d f;
  serve := probe_serve |}.

#[export] Instance probe_peer_laws : PeerLaws (Daemon T).
Proof. split; [done|by intros []]. Qed.

(** ** What it answers *)

Definition error_response (r : Response) : Prop := rs_Kind r = RespErr → rs_Code r ∈ [1; 2; 5]%Z.

Lemma probe_errResp_codes c m : c ∈ [1; 2; 5]%Z → error_response (errResp c m).
Proof. by intros Hc _. Qed.

Ltac refuses := apply probe_errResp_codes; set_solver.

Lemma probe_handleSend_response ulid ms waited d req : error_response (handleSend ulid ms waited d req).1.
Proof.
  unfold handleSend, build_envelope. repeat (case_match; simplify_eq/=); try done; refuses.
Qed.

Lemma probe_handleReq_response ulid now waited order d req r d' :
  handleReq ulid now waited order d req = (Reply r, d') → error_response r.
Proof.
  intros Hr. assert (Reply r = (handleReq ulid now waited order d req).1) as Hq by (by rewrite Hr).
  revert Hq. clear Hr.
  assert (∀ x : Response * Daemon T, error_response x.1 → Reply r = (reply x).1 → error_response r)
    as Hreply by (by intros [] ? [= ->]).
  unfold handleReq, version_error. destruct (negb _); [intros [= ->]; refuses|].
  repeat first
    [ match goal with |- context [if String.eqb (rq_Op req) ?o then _ else _] =>
        destruct (String.eqb (rq_Op req) o) end
    | case_decide ]; try (apply Hreply); try done; try (unfold handleStatus; by case_match).
  1, 8: intros [= ->]; first [done|refuses].
  - apply probe_handleSend_response.
  - unfold handleRecv, handleSubscribe. repeat case_match; simplify_eq/=; by intros [= ->].
  - unfold handlePaste. repeat case_match; try done; refuses.
  - unfold handleCopy. repeat case_match; try done; refuses.
  - unfold handleConfigSet. repeat case_match; try done; refuses.
  - unfold handleConfigGet. repeat case_match; try done; refuses.
Qed.

Lemma probe_resume_wait_response d ch kind r d' :
  resume_wait d ch kind = (Reply r, d') → error_response r.
Proof. unfold resume_wait. repeat case_match; by intros [= <-]. Qed.

(** What a client can read: some of the first of a list of responses. *)
Lemma probe_serve_responses d sent :
  ∃ rs, Forall error_response rs ∧
    (probe_serve d sent).1 = mkReader (w_buf (Ipc.write_msgs (mkWriter "" None) rs).2) EOF.
Proof.
  assert (∀ r, error_response r → ∃ rs, Forall error_response rs ∧
    mkReader (w_buf (WriteResp (mkWriter "" None) r).2) EOF =
    mkReader (w_buf (Ipc.write_msgs (mkWriter "" None) rs).2) EOF) as Hone.
  { intros r Hr. exists [r]. split; [by constructor|]. cbn [Ipc.write_msgs]. unfold WriteResp.
    by destruct (Ipc.write_msg _ r) as [[[]|] ?]. }
  assert (∃ rs : list Response, Forall error_response rs ∧
    mkReader "" EOF = mkReader (w_buf (Ipc.write_msgs (mkWriter "" None) rs).2) EOF) as Hnone.
  { exists []. by split. }
  unfold probe_serve, handleConn. destruct (ReadReq _).1 as [req|e]; [|exact Hnone].
  destruct (handleReq _ _ _ _ d req) as [o d'] eqn:E. destruct o as [r| |ch kind|ch kind].
  - apply Hone. by eapply probe_handleReq_response.
  - exact Hnone.
  - destruct (resume_wait _ ch kind) as [o' d2] eqn:Ew. destruct o'; try exact Hnone.
    apply Hone. by eapply probe_resume_wait_response.
  - unfold resume_stream. destruct (subs _ !! ch) as [c|]; [|exact Hnone].
    eexists. split; [|done]. apply Forall_map. by apply Forall_forall.
Qed.

#[export] Instance probe_sends `{!CborSound Response} : PeerSends (Daemon T) error_response.
Proof.
  intros d sent n. unfold serve, probe_peer.
  destruct (probe_serve_responses d sent) as (rs & Hrs & ->).
  destruct (Ipc.read_written rs n) as [k ->]. by apply Forall_take.
Qed.
End local.

(** ** Calls that arrive *)

(** The socket is given and a daemon answers there at once. *)
Record probe_at {T} (E : Env) (g : Globals T) : Prop := {
  at_socket : Socket g ≠ "";
  at_dial : e_dial E (Socket g) 0 = Ok None;
}.

Section calls.
Context {T : Type} `{Transport T} `{Blake3} `{ImageCodec} `{MimeTable} `{Clipboard} `{Json}.
Context `{Cbor Request} `{Cbor Response} `{!Moment T}.
Implicit Types d : Daemon T.
Implicit Types g : Globals T.

Lemma probe_socketPath_run E g (w : World (Daemon T)) :
  Socket g ≠ "" → socketPath E g w = (Some (Ok (Socket g)), w).
Proof.
  intros Hs. unfold socketPath, os_call, SocketPath. apply String.eqb_neq in Hs. rewrite Hs.
  cbn [negb]. rewrite peer_set_get. by destruct w.
Qed.

(** The bytes of a response. *)
Definition answered (r : Response) : reader :=
  mkReader (w_buf (WriteResp (mkWriter "" None) r).2) EOF.

Lemma probe_answered_read r : Ipc.transmits r → (ReadResp (answered r)).1 = Ok r.
Proof.
  intros Hr. destruct (Ipc.write_transmits r "" Hr) as (b & _ & _ & Hw & Hb).
  unfold answered, ReadResp, WriteResp. rewrite Hw. cbn [snd w_buf String.append]. by rewrite Hb.
Qed.

Lemma open_call_run E g auto args req r d d' so se :
  probe_at E g → Ipc.transmits req →
  handleReq m_ulid m_now m_waited (m_order (textBaseline d)) d req = (Reply r, d') →
  open_call E (Socket g) auto args req (mkWorld d so se) =
    (Some (Ok (answered r)), mkWorld d' so se).
Proof.
  intros [_ Hd] Hq Hh. destruct (Ipc.write_transmits req "" Hq) as (b & _ & _ & Hw & Hb).
  unfold open_call, ipc_dial, Dial. rewrite Hd. unfold send_req, WriteReq. rewrite Hw.
  cbn [w_buf String.append]. unfold mbind, M_bind, exchange. cbn [peer serve probe_peer].
  unfold probe_serve, handleConn, ReadReq. rewrite Hb. cbn [fst]. by rewrite Hh.
Qed.

(** A call of a running daemon is its handler. *)
Lemma probe_call_run E g req k r d d' so se :
  probe_at E g → Ipc.transmits req →
  handleReq m_ulid m_now m_waited (m_order (textBaseline d)) d req = (Reply r, d') →
  Ipc.transmits r → rs_Kind r ≠ RespErr →
  call E g req k (mkWorld d so se) = k r (mkWorld d' so se).
Proof.
  intros Hat Hq Hh Hr Hk. unfold call, roundtrip. unfold mbind, M_bind.
  rewrite probe_socketPath_run by apply Hat. rewrite (open_call_run E g true _ req r d d') by done.
  rewrite probe_answered_read by done. unfold mret, M_ret. by rewrite (proj2 (String.eqb_neq _ _) Hk).
Qed.
End calls.

(** ** What the commands end with *)

Section codes.
Context {T P : Type} `{Proc.Peer P} `{Cbor Request} `{Cbor Response} `{Json} `{ProbeJson} `{Transport T}.
Context `{Clipboard} `{!PeerSends P error_response} (E : Env) (N : Prop).
Implicit Types g : Globals T.

Lemma cli_runs_fail g c e : exit_code c → runs N (ProbeCli.fail g c e : M P Z) exit_code.
Proof. by intros Hc w. Qed.

(** A failure that is not the end of the command. *)
Lemma runs_bail {A} g c e (f : Z → A) (Q : A → Prop) :
  Q (f c) → runs N (x ← ProbeCli.fail g c e; mret (f x) : M P A) Q.
Proof. by intros HQ w. Qed.

Lemma cli_runs_socketPath g : runs N (socketPath E g : M P (result string string)) (λ _, True).
Proof. unfold socketPath. auto with runs. Qed.
Lemma cli_runs_openConfig g : runs N (openConfig E g : M P (result string Store)) (λ _, True).
Proof. unfold openConfig. auto with runs. Qed.
Lemma cli_runs_copyFile s d : runs N (Cli.copyFile s d : M P (result string ())) (λ _, True).
Proof. unfold Cli.copyFile. repeat first [solve [auto with runs nocore] | run_step]. Qed.
Lemma cli_runs_say g x : runs N (say g x : M P ()) (λ _, True).
Proof. unfold say. run_step; [auto with runs|by apply runs_ret]. Qed.
#[local] Hint Resolve cli_runs_fail cli_runs_socketPath cli_runs_openConfig cli_runs_copyFile cli_runs_say : runs.

Definition good (r : result string reader) : Prop :=
  match r with Ok rd => ∀ n, Forall error_response (Ipc.read_msgs n rd).1 | Err _ => True end.

Lemma cli_runs_send_req lim req : runs N (send_req lim req : M P (result string reader)) good.
Proof.
  unfold send_req. destruct (WriteReq _ _) as [res wr].
  eapply runs_bind; [apply (runs_exchange error_response)|]. intros rd Hrd.
  apply runs_ret. by destruct res.
Qed.

Lemma runs_open_call sock auto args req :
  runs N (open_call E sock auto args req : M P (result string reader)) good.
Proof. unfold open_call. destruct (ipc_dial _ _ _ _); [apply cli_runs_send_req|by apply runs_ret]. Qed.

Lemma read_code rd resp :
  good (Ok rd) → (ReadResp rd).1 = Ok resp → rs_Kind resp = RespErr → exit_code (rs_Code resp).
Proof. intros Hg Hr Hk. apply exit_error. by apply (read_one error_response rd resp Hg Hr). Qed.

Lemma cli_runs_roundtrip g req :
  runs N (roundtrip E g req : M P (result Z Response))
    (λ r, match r with
          | Ok resp => rs_Kind resp = RespErr → exit_code (rs_Code resp)
          | Err c => exit_code c
          end).
Proof.
  unfold roundtrip. eapply runs_bind; [apply cli_runs_socketPath|].
  intros [sock|e] _; [|apply runs_bail, exit_1].
  eapply runs_bind; [apply runs_open_call|]. intros [rd|e] Hrd; [|apply runs_bail, exit_3].
  destruct (ReadResp rd).1 as [resp|e] eqn:Er; [|apply runs_bail, exit_3].
  apply runs_ret. by apply (read_code rd).
Qed.

Lemma cli_runs_call g req k :
  (∀ resp, runs N (k resp) exit_code) → runs N (call E g req k : M P Z) exit_code.
Proof.
  intros Hk. unfold call. eapply runs_bind; [apply cli_runs_roundtrip|]. intros [resp|c] Hr.
  - destruct (String.eqb_spec (rs_Kind resp) RespErr); [|apply Hk]. by apply cli_runs_fail, Hr.
  - by apply runs_ret.
Qed.

Lemma cli_runs_flags f args k :
  (∀ f, runs N (k f) exit_code) → runs N (with_flags f args k : M P Z) exit_code.
Proof.
  intros Hk. unfold with_flags. destruct (parse_args _ _) as [[m rest]|e]; [apply Hk|].
  eapply runs_bind; [apply runs_eprint|]. intros _ _. apply runs_ret, exit_2.
Qed.

Ltac run_cmd :=
  repeat first
    [ solve [auto with runs nocore]
    | apply cli_runs_flags; intros ?
    | apply cli_runs_call; intros ?
    | apply runs_bail; solve [auto with runs nocore]
    | run_step ].

(** The answer to a request, and what to do with one that is not an error. *)
Lemma runs_answer g rd (k : Response → M P Z) :
  good (Ok rd) → (∀ resp, runs N (k resp) exit_code) →
  runs N (match (ReadResp rd).1 with
          | Err e => ProbeCli.fail g 3 (msg_err_string e)
          | Ok resp =>
              if String.eqb (rs_Kind resp) RespErr
              then ProbeCli.fail g (rs_Code resp) (rs_Message resp) else k resp
          end : M P Z) exit_code.
Proof.
  intros Hg Hk. destruct (ReadResp rd).1 as [resp|e] eqn:Er; [|run_cmd].
  destruct (String.eqb_spec (rs_Kind resp) RespErr); [|apply Hk].
  apply cli_runs_fail. by apply (read_code rd).
Qed.

Lemma runs_with_status g op what k :
  (∀ s, runs N (k s) exit_code) → runs N (with_status E g op what k : M P Z) exit_code.
Proof.
  intros Hk. unfold with_status. eapply runs_bind; [apply cli_runs_roundtrip|].
  intros [resp|c] Hr; [|by apply runs_ret]. run_step; [|run_cmd]. run_step; [run_cmd|apply Hk].
Qed.

Lemma cli_runs_send g args : runs N (cmdSend E g args : M P Z) exit_code.
Proof. unfold cmdSend, send_input. run_cmd. Qed.
Lemma cli_runs_clear g args : runs N (cmdClear E g args : M P Z) exit_code.
Proof. unfold cmdClear, clear_consent, promptYesNo, promptLine. run_cmd. Qed.
Lemma cli_runs_config g args : runs N (cmdConfig E g args : M P Z) exit_code.
Proof. unfold cmdConfig. run_cmd. Qed.

Lemma cli_runs_stop g args : runs N (cmdDaemonStop E g args : M P Z) exit_code.
Proof.
  unfold cmdDaemonStop. apply cli_runs_flags; intros f.
  eapply runs_bind; [apply cli_runs_socketPath|]. intros [sock|e] _; [|run_cmd].
  destruct (ipc_dial _ _ _ _) as [lim|e]; [|run_cmd].
  eapply (runs_bind N _ _ (λ _, True)).
  { unfold resolveExitPolicy, promptChoice, promptLine. run_cmd. }
  intros policy _. eapply runs_bind; [apply cli_runs_send_req|]. intros [rd|e] Hrd; [|run_cmd].
  apply runs_answer; [done|]. intros resp. run_cmd.
Qed.

Lemma cli_runs_daemon order listen g args : runs N (cmdDaemon E order listen g args : M P Z) exit_code.
Proof.
  assert (runs N (daemon_boot E order listen g args : M P (Z + Daemon T * string))
    (λ r, match r with inl c => exit_code c | inr _ => True end)) as Hb.
  { unfold daemon_boot. run_cmd. }
  assert (runs N (r ← daemon_boot E order listen g args;
    mret (match r with inl code => code | inr _ => 0%Z end) : M P Z) exit_code) as Hboot.
  { eapply runs_bind; [exact Hb|]. intros [c|x] Hx; by apply runs_ret, Hx || apply runs_ret, exit_0. }
  unfold cmdDaemon. destruct args as [|a args]; [exact Hboot|].
  by repeat case_match; try exact Hboot; apply cli_runs_stop.
Qed.

(** [recv] may panic: [printItem] follows a nil blob. *)
Lemma cli_runs_printItem resp emit out : N → runs N (printItem resp emit out : M P ()) (λ _, True).
Proof.
  intros HN. unfold printItem. repeat first [run_step | by intros w | solve [auto with runs nocore]].
Qed.

Lemma cli_runs_recv g args : N → runs N (cmdRecv E g args : M P Z) exit_code.
Proof.
  intros HN. unfold cmdRecv. apply cli_runs_flags; intros f. cbv zeta.
  eapply runs_bind; [apply cli_runs_socketPath|]. intros [sock|e] _; [|run_cmd].
  eapply runs_bind; [apply runs_open_call|]. intros [rd|e] Hrd; [|run_cmd].
  destruct (get_bool f "follow").
  - run_step; [|run_cmd]. generalize ((Ipc.read_msgs (A := Response) (S (String.length (r_buf rd))) rd).1).
    induction l as [|resp l IH]; cbn [printItems]; [run_cmd|].
    run_step; [by apply cli_runs_printItem|exact IH].
  - apply runs_answer; [done|]. intros resp. run_step; [by apply cli_runs_printItem|run_cmd].
Qed.

Lemma cli_runs_remote ar g args : runs N (cmdRemote ar g args : M P Z) exit_code.
Proof. unfold cmdRemote. run_cmd. Qed.

Lemma runs_tui p_Run g args :
  (∀ n s r, runs N (p_Run n s r) (λ _, True)) → runs N (cmdTUI E p_Run g args : M P Z) exit_code.
Proof.
  intros Hrun. unfold cmdTUI, client_Status, client_do.
  assert (∀ sock sp req, runs N (open_call E sock true sp req : M P (result string reader)) (λ _, True))
    as Hopen by (intros; by eapply runs_weaken; [apply runs_open_call|]).
  repeat first [apply Hopen | apply Hrun | run_cmd; fail | run_step].
Qed.

Context (order : gmap string Z → list (string * Z)) (listen : option string) (ar : Around).
Context (p_Run : string → Status → reader → M P (option string)).

(** Whatever the command line, as long as the terminal UI does not panic. *)
Lemma runs_Main (a : App T) args :
  (∀ n s r, runs N (p_Run n s r) (λ _, True)) → ((parseGlobals a args).2 !! 0%nat = Some "recv" → N) →
  runs N (Main E order listen ar p_Run a args) exit_code.
Proof.
  intros Htui Hrecv. unfold Main. destruct (parseGlobals a args) as [g [|sub rest]].
  { unfold usage. run_cmd. }
  cbn [snd lookup list_lookup] in Hrecv. unfold dispatch.
  repeat match goal with |- runs _ (if String.eqb sub ?s then _ else _) _ =>
    destruct (String.eqb_spec sub s) as [->|] end.
  all: auto using cli_runs_daemon, cli_runs_send, cli_runs_clear, cli_runs_config, cli_runs_recv, runs_tui.
  - unfold cmdPaste. run_cmd.
  - apply runs_with_status. intros s. run_cmd.
  - apply runs_with_status. intros s. run_cmd.
  - unfold cmdPair, usage. repeat first [run_cmd; fail | case_decide | apply cli_runs_remote | run_step].
Qed.
End codes.

(** ** Properties *)

(** Where the flags of [send] stand does not matter.  For every list of flags that parses and
    every path, [send PATH FLAGS] does exactly what [send FLAGS PATH] does, in every world; it is
    not so in room-go, whose [send] ignores flags behind the path. *)
Theorem probe_send_any_order {T P} `{Proc.Peer P} `{Cbor Request} `{Cbor Response} `{Json}
    (E : Env) (g : Globals T) path l m (w : World P) :
  tokenize path = TPositional → parse_args (formal (fs_set send_flags)) l = Ok (m, []) →
  cmdSend E g (path :: l) w = cmdSend E g (l ++ [path]) w.
Proof.
  intros Hp Hl. unfold cmdSend.
  destruct (parse_loop_swap (S (length (path :: l))) (fs_set send_flags) l m path) as [-> _];
    [cbn [length]; lia|done..|].
  destruct (parse_loop_swap (S (length (l ++ [path]))) (fs_set send_flags) l m path) as [_ ->];
    [rewrite length_app; cbn [length]; lia|done..|].
  done.
Qed.

(** Every command line of a probe ends with one of the documented exit codes: 0, 1, 2, 3 or 5,
    whatever the arguments, the files, the terminal, the connections, the transport and the state of
    the daemon are; and only [recv] can panic. *)
Theorem probe_exit_codes {T} `{Transport T} `{Blake3} `{ImageCodec} `{MimeTable} `{Clipboard} `{Json}
    `{Cbor Request} `{Cbor Response} `{!CborSound Response} `{ProbeJson} `{!Moment T}
    E order listen ar p_Run (a : App T) args (w : World (Daemon T)) :
  (∀ n s r, runs False (p_Run n s r) (λ _, True)) →
  match (Main E order listen ar p_Run a args w).1 with
  | Some code => code ∈ [0; 1; 2; 3; 5]%Z
  | None => (parseGlobals a args).2 !! 0%nat = Some "recv"
  end.
Proof.
  intros Htui.
  apply (runs_Main E ((parseGlobals a args).2 !! 0%nat = Some "recv") order listen ar p_Run a args); [|done].
  intros n s r w'. specialize (Htui n s r w'). by destruct (p_Run n s r w').1.
Qed.

(** ** Examples *)

#[local] Existing Instance pad_blake3.
#[local] Existing Instance Handlers.no_images.
#[local] Existing Instance Handlers.no_mime.
#[local] Existing Instance Daemon.clipboard_works.
#[local] Existing Instance probe_req.
#[local] Existing Instance probe_resp.
#[local] Existing Instance probe_resp_sound.
#[local] Existing Instance probe_json.
#[local] Instance plain_json : ProbeJson := {| json_Status s := st_Identity s; json_Peers _ := "[]" |}.

(** A transport without peers. *)
#[local] Instance no_transport : Transport unit := {|
  Identity _ := "me"; Start t := (None, t); Broadcast t _ := (None, t); Peers _ := []; Close t := t |}.
#[local] Instance demo_moment : Moment unit := mkMoment _ "01" 5 (λ t, t) map_to_list [].

Definition demo_env : Env :=
  mkEnv (Err "") "host" "/run" "/tmp" false "" None (λ _ _, Ok None) (Ok "/bin/lan") (Err "") (λ _, Ok ()) 0
    (λ i, 75 * Z.of_nat i)%Z.
Definition demo_app : App unit := mkApp "lan" "LAN probe" "LAN" (λ _ _ _ f, (Ok (), f)).
Definition demo_globals : Globals unit := mkGlobals demo_app "" "/run/lan.sock" "" false false false.
Definition demo_daemon : Daemon unit :=
  mkDaemon (mkStore "/cfg" (defaultSettings "dev")) "default" "LAN" () "me" "dev" (NewDedupe 4096) []
    ∅ "" [] ∅ false "" false Daemon.demo_tree clip_init.
Definition demo_around : Around :=
  mkAround "" (Ok "/bin/lan") (Ok "/home/u") (Ok "/src") (Ok "/bin/bash") (λ _ _, None).

Definition demo_main (args : list string) : option Z :=
  (Main demo_env map_to_list None demo_around (λ _ _ _, mret None) demo_app args
     (mkWorld demo_daemon "" "")).1.

Definition demo_lines : list (list string) :=
  [["--socket"; "/s"; "status"]; ["send"]; ["config"; "get"; "nope"; "--socket=/s"]; ["bogus"];
   ["--socket"; "/s"; "paste"]; ["remote"; "host"]].

Lemma probe_demo_main_runs :
  map demo_main demo_lines = [Some 0; Some 2; Some 2; Some 2; Some 5; Some 1]%Z.
Proof. vm_compute. reflexivity. Qed.

Lemma probe_demo_main_status :
  (Main demo_env map_to_list None demo_around (λ _ _ _, mret None) demo_app ["--socket"; "/s"; "status"]
     (mkWorld demo_daemon "" "")).1 = Some 0%Z.
Proof. vm_compute. reflexivity. Qed.

Lemma probe_exit_codes_witness : 0%Z ∈ [0; 1; 2; 3; 5]%Z.
Proof.
  pose proof (probe_exit_codes demo_env map_to_list None demo_around (λ _ _ _, mret None) demo_app
    ["--socket"; "/s"; "status"] (mkWorld demo_daemon "" "")) as Hc.
  rewrite probe_demo_main_status in Hc. apply Hc. intros n s r w. exact I.
Defined.

(** Flags of every kind, with and without a value. *)
Definition demo_send_args : list string := ["--file"; "-name=a.txt"; "--auto=false"].
Definition demo_send_formal : gmap string flagval :=
  match parse_args (formal (fs_set send_flags)) demo_send_args with Ok (m, _) => m | Err _ => ∅ end.

Lemma demo_send_parses :
  parse_args (formal (fs_set send_flags)) demo_send_args = Ok (demo_send_formal, []).
Proof. vm_compute. reflexivity. Qed.

Lemma probe_send_any_order_witness :
  cmdSend demo_env demo_globals ("a.txt" :: demo_send_args) (mkWorld demo_daemon "" "") =
  cmdSend demo_env demo_globals (demo_send_args ++ ["a.txt"]) (mkWorld demo_daemon "" "").
Proof. exact (probe_send_any_order demo_env demo_globals "a.txt" demo_send_args _ _ eq_refl demo_send_parses). Defined.
