(* ===== verification/ProbeTui.v ===== *)
(** * The experiments: the terminal UI

    [experiments/shared-go/cli/tui.go], the UI of every probe, on the widgets of [Tui].  [Update]
    runs in the process monad, because the answer to the quit prompt clears the session before it
    returns; [step] is what it makes of the model alone.  Times are in milliseconds. *)
From S2P Require Import Prelude GoStr GoPath GoOS GoTime Wire Tui Proc ProbeIpc ProbeCli.
From S2P Require TuiLoop.
Open Scope string_scope.
Open Scope list_scope.

(** ** The client *)

Record ipcClient := mkClient { c_socket : string; c_spawn : list string }.

Section client.
Context {P : Type} `{Proc.Peer P} `{Cbor Request} `{Cbor Response}.
Context (E : Env).
Implicit Types c : ipcClient.

Definition simple c (req : Request) : M P (option string) :=
  r ← client_do E (c_socket c) (c_spawn c) req;
  mret (match r with
        | Err e => Some e
        | Ok resp => if String.eqb (rs_Kind resp) RespErr then Some (rs_Message resp) else None
        end).

Definition c_Send c (force data : string) : M P (option string) :=
  simple c (mkRequest IPCVersion OpSend data force "" "" false false "" "").
Definition c_Copy c (force data : string) : M P (option string) :=
  simple c (mkRequest IPCVersion OpCopy data force "" "" false false "" "").
Definition c_Paste c : M P (option string) :=
  simple c (mkRequest IPCVersion OpPaste "" "" "" "" false false "" "").
Definition c_Clear c (all : bool) : M P (option string) :=
  simple c (mkRequest IPCVersion OpClear "" "" "" "" false all "" "").
Definition c_Status c : M P (result string Status) := client_Status E (c_socket c) (c_spawn c).
End client.

(** ** Small helpers *)

Definition shortID (s : string) : string :=
  if (len s <=? 10)%Z then s else str_take 10 s +:+ "…".
Definition shortHash (s : string) : string := if (len s <=? 12)%Z then s else str_take 12 s.

Definition senderLabel (env : Envelope) : string :=
  if negb (String.eqb (DeviceName env) "") then DeviceName env else shortID (Sender env).

(** [zone]: the offset of local time. *)
Definition relTime (zone : Z → Z) (now ts : Z) : string :=
  if (ts =? zero_time)%Z then "now"
  else
    let d := since now ts in
    if (d <? 5000)%Z then "now"
    else if (d <? 60000)%Z then itoa (d / 1000)%Z +:+ "s"
    else if (d <? 3600000)%Z then itoa (d / 60000)%Z +:+ "m"
    else if (d <? 24 * 3600000)%Z then itoa (d / 3600000)%Z +:+ "h"
    else Stamp zone ts.

Definition humanSize (n : Z) : string :=
  if (2 ^ 20 <=? n)%Z then fmt_tenths (float64 n) (2 ^ 20) +:+ " MB"
  else if (2 ^ 10 <=? n)%Z then fmt_tenths (float64 n) (2 ^ 10) +:+ " KB"
  else itoa n +:+ " B".

(** The inner loop of [wrap]: the words of a line, from column [col] on. *)
Fixpoint wrap_words (width col : Z) (first : bool) (words : list string) : string :=
  match words with
  | [] => ""
  | word :: words =>
      let wl := RuneCount word in
      if first then word +:+ wrap_words width (col + wl) false words
      else if (width <? col + 1 + wl)%Z then nl +:+ word +:+ wrap_words width wl false words
      else " " +:+ word +:+ wrap_words width (col + 1 + wl) false words
  end.

Definition wrap (s : string) (width : Z) : string :=
  let width := if (width <? 8)%Z then 8%Z else width in
  join_lines (map (λ line, wrap_words width 0 true (Fields line)) (split_lines s)).

(** [home]: [os.UserHomeDir]; [tmp]: [os.TempDir]. *)
Definition saveDir (home : result string string) (tmp : string) (fs : FS) : string :=
  match home with
  | Ok home =>
      let dl := Join home "Downloads" in
      match Stat fs dl with Ok Directory => dl | _ => tmp end
  | Err _ => tmp
  end.

(** ** Data *)

Record bubble := mkBubble {
  own : bool;
  sender : string;
  ts : Z;
  isImage : bool;
  isFile : bool;
  text : string;
  b_w : Z;
  b_h : Z;
  size : Z;
  path : string;
  filename : string;
}.

Section model.
Context `{Widgets}.

Record model := mkModel {
  client : ipcClient;
  binName : string;
  items : bool;             (** the channel is not nil *)
  room : string;
  self : string;
  autoCopy : string;
  clipboard : string;
  peers : Z;
  bubbles : list bubble;
  selected : Z;
  composerFocused : bool;
  gotItem : bool;
  confirmingQuit : bool;
  ta : Textarea;
  vp : Viewport;
  width : Z;
  height : Z;
  toast : string;
}.
Implicit Types m : model.

Definition set_header m (r s a c : string) (p : Z) : model :=
  mkModel (client m) (binName m) (items m) r s a c p (bubbles m) (selected m) (composerFocused m)
    (gotItem m) (confirmingQuit m) (ta m) (vp m) (width m) (height m) (toast m).
Definition set_bubbles m (b : list bubble) (i : Z) (got : bool) : model :=
  mkModel (client m) (binName m) (items m) (room m) (self m) (autoCopy m) (clipboard m) (peers m) b i
    (composerFocused m) got (confirmingQuit m) (ta m) (vp m) (width m) (height m) (toast m).
Definition set_selected m (i : Z) : model := set_bubbles m (bubbles m) i (gotItem m).
Definition set_focus m (f : bool) (t : Textarea) : model :=
  mkModel (client m) (binName m) (items m) (room m) (self m) (autoCopy m) (clipboard m) (peers m)
    (bubbles m) (selected m) f (gotItem m) (confirmingQuit m) t (vp m) (width m) (height m) (toast m).
Definition set_ta m (t : Textarea) : model := set_focus m (composerFocused m) t.
Definition set_confirming m (q : bool) : model :=
  mkModel (client m) (binName m) (items m) (room m) (self m) (autoCopy m) (clipboard m) (peers m)
    (bubbles m) (selected m) (composerFocused m) (gotItem m) q (ta m) (vp m) (width m) (height m)
    (toast m).
Definition set_size m (w h : Z) (t : Textarea) (v : Viewport) : model :=
  mkModel (client m) (binName m) (items m) (room m) (self m) (autoCopy m) (clipboard m) (peers m)
    (bubbles m) (selected m) (composerFocused m) (gotItem m) (confirmingQuit m) t v w h (toast m).
Definition set_vp m (v : Viewport) : model := set_size m (width m) (height m) (ta m) v.
Definition set_toast m (s : string) : model :=
  mkModel (client m) (binName m) (items m) (room m) (self m) (autoCopy m) (clipboard m) (peers m)
    (bubbles m) (selected m) (composerFocused m) (gotItem m) (confirmingQuit m) (ta m) (vp m)
    (width m) (height m) s.

Definition applyStatus m (st : option Status) : model :=
  match st with
  | None => m
  | Some st =>
      let clip := if negb (String.eqb (st_Clipboard st) "") then st_Clipboard st
                  else if String.eqb (clipboard m) "" then "unknown" else clipboard m in
      set_header m (st_Room st) (shortID (st_Identity st)) (st_AutoCopy st) clip
        (Z.of_nat (length (st_Peers st)))
  end.

(** ** Drawing *)

Definition headerStyle : list attr :=
  [Bold true; Foreground "15"; Background "62"; Padding 0 1; MaxHeight 1].
Definition hintStyle : list attr := [Foreground "241"; Padding 0 1; MaxHeight 1].
Definition toastStyle : list attr := [Foreground "214"; Bold true].
Definition dimStyle : list attr := [Foreground "244"].
Definition senderStyle : list attr := [Foreground "39"; Bold true].
Definition ownStyle : list attr := [Foreground "42"; Bold true].
Definition bubbleStyle : list attr :=
  [Padding 0 1; NormalBorder false false false true; BorderForeground "237"].
Definition selectedStyle : list attr :=
  [Padding 0 1; ThickBorder false false false true; BorderForeground "205"].
Definition labelStyle : list attr := [Foreground "205"; Bold true].

Definition layout m : model :=
  let w := if (width m <=? 0)%Z then 80%Z else width m in
  let h := if (height m <=? 0)%Z then 24%Z else height m in
  let vpH := (h - 5)%Z in
  let vpH := if (vpH <? 3)%Z then 3%Z else vpH in
  set_size m w h (ta_SetWidth (ta m) (w - 2)) (vp_set_size (vp m) w vpH).

Context (zone : Z → Z) (now : Z).

Definition bubble_body m (b : bubble) : string :=
  if isImage b then
    "🖼  " +:+ filename b +:+ "  " +:+ itoa (b_w b) +:+ "×" +:+ itoa (b_h b) +:+ " · " +:+
    humanSize (size b) +:+ nl +:+
    Render dimStyle "[y] copy · [s] save · [o] open   (inline preview: stubbed)"
  else if isFile b then
    "📎  " +:+ filename b +:+ " · " +:+ humanSize (size b) +:+ nl +:+
    Render dimStyle "[p] copy path · [o] open   (files land in save_dir; no clipboard image)"
  else wrap (text b) (vp_Width (vp m) - 4).

Definition renderBubble m (b : bubble) (sel : bool) : string :=
  let hdr := if own b then ownStyle else senderStyle in
  let marker := if own b then " (you)" else "" in
  let head := Render hdr (sender b +:+ marker) +:+ Render dimStyle (" · " +:+ relTime zone now (ts b)) in
  Render (if sel then selectedStyle else bubbleStyle) (head +:+ nl +:+ bubble_body m b).

(** The loop of [renderHistory]: the blocks, and where the selected one starts and its height. *)
Fixpoint history_from m (i line : Z) (bs : list bubble) (blocks : list string) (sel : Z * Z)
    : list string * (Z * Z) :=
  match bs with
  | [] => (blocks, sel)
  | b :: bs =>
      let block := renderBubble m b (i =? selected m)%Z in
      let h := Height block in
      let sel := if (i =? selected m)%Z then (line, h) else sel in
      history_from m (i + 1) (line + h) bs (blocks ++ [block]) sel
  end.

Definition empty_history : string :=
  Render dimStyle "No messages yet — type below and press Enter to send.".

Definition renderHistory m : string * Z * Z :=
  match bubbles m with
  | [] => (empty_history, 0, 0)%Z
  | bs =>
      let '(blocks, (selStart, selHeight)) := history_from m 0 0 bs [] (0, 0)%Z in
      (join_lines blocks, selStart, selHeight)
  end.

Definition last_index m : Z := (Z.of_nat (length (bubbles m)) - 1)%Z.

Definition refreshViewport m (follow : bool) : model :=
  let '(content, selStart, selHeight) := renderHistory m in
  let v := vp_SetContent (vp m) content in
  if follow || (selected m <? 0)%Z || (selected m =? last_index m)%Z then set_vp m (vp_GotoBottom v)
  else
    let top := vp_YOffset v in
    let bottom := (top + vp_Height v)%Z in
    if (selStart <? top)%Z then set_vp m (vp_SetYOffset v selStart)
    else if (bottom <? selStart + selHeight)%Z
    then set_vp m (vp_SetYOffset v (selStart + selHeight - vp_Height v))
    else set_vp m v.

Definition renderHeader m : string :=
  let parts := "room " +:+ room m +:+ " · " +:+ "id " +:+ self m +:+ " · " +:+
               "peers " +:+ itoa (peers m) +:+ " · " +:+ "auto_copy " +:+ autoCopy m +:+ " · " +:+
               "clipboard: " +:+ clipboard m in
  Render (headerStyle ++ [Width (width m)]) (binName m +:+ " tui   " +:+ parts).

Definition composerView m : string :=
  let label := if composerFocused m then "› message" else "browsing — Esc to compose" in
  Render labelStyle label +:+ nl +:+ ta_View (ta m).

Definition renderHint m : string :=
  if confirmingQuit m then
    Render (hintStyle ++ [Width (width m)])
      (Render toastStyle "clear this session before quitting?" +:+
       Render dimStyle "  [t] transient · [a] all incl sinks · [n] no · Esc cancel")
  else
    let h :=
      if composerFocused m then "Enter send · Esc browse · Ctrl-C quit"
      else "↑/↓ select · y copy · s save · o open · p paste-latest · Esc compose · q quit" in
    let h := if negb (String.eqb (toast m) "")
             then Render toastStyle (toast m) +:+ Render dimStyle ("  —  " +:+ h) else h in
    Render (hintStyle ++ [Width (width m)]) h.

Definition View m : string :=
  JoinVertical Left [renderHeader m; vp_View (vp m); composerView m; renderHint m].

(** ** Messages and commands *)

Inductive Msg :=
| KeyMsg (e : Event)
| WindowSizeMsg (w h : Z)
| itemMsg (it : Item)
| streamClosedMsg
| sentMsg (err : option string)
| copiedMsg (err : option string) (label : string)
| savedMsg (err : option string) (p : string)
| openedMsg (err : option string)
| statusTickMsg
| statusMsg (st : option Status)
| OtherMsg (e : Event).

(** A command is a closure of the code, by the function that makes it. *)
Inductive Cmd :=
| tickStatusCmd
| waitForItemCmd
| fetchStatusCmd
| sendTextCmd (text : string)
| copyTextCmd (text : string)
| copyImageCmd (path : string)
| pasteLatestCmd
| saveImageCmd (src name : string)
| openExternalCmd (path : string)
| ReturnCmd (msg : Msg)
| ExtraCmd (x : Extra)
| Quit
| Batch (cs : list Cmd).

Definition extra (c : option Extra) : option Cmd := ExtraCmd <$> c.

(** ** The model *)

Definition newTUIModel (cl : ipcClient) (bin : string) (st : option Status) (has_items : bool) : model :=
  let t := ta_New "Type a message… (Enter sends, Esc browses)" "┃ " default_CharLimit false in
  let t := (ta_Focus (ta_SetHeight t 2)).1 in
  let m := mkModel cl bin has_items "" "" "" "" 0 [] (-1) true false false t (vp_New 80 20) 80 24 "" in
  refreshViewport (layout (applyStatus m st)) true.

Definition Init m : Cmd :=
  Batch ([ExtraCmd Blink; tickStatusCmd] ++ if items m then [waitForItemCmd] else []).

Definition requestQuit m : model * option Cmd :=
  if gotItem m then (set_confirming m true, None) else (m, Some Quit).

Definition toggleFocus m : model :=
  let f := negb (composerFocused m) in
  let m :=
    if f then set_focus m f (ta_Focus (ta m)).1
    else
      let m := set_focus m f (ta_Blur (ta m)) in
      if (selected m <? 0)%Z && (0 <? length (bubbles m))%nat
      then set_selected m (last_index m) else m in
  refreshViewport m false.

Definition moveSelection m (delta : Z) : model :=
  if (length (bubbles m) =? 0)%nat then m
  else
    let i := if (selected m <? 0)%Z then last_index m else selected m in
    let i := (i + delta)%Z in
    let i := if (i <? 0)%Z then 0%Z else i in
    let i := if (Z.of_nat (length (bubbles m)) <=? i)%Z then last_index m else i in
    refreshViewport (set_selected m i) false.

(** Appends a bubble; the selection follows if it was at the end. *)
Definition append_bubble m (b : bubble) (got : bool) : model :=
  let wasLast := (selected m =? last_index m)%Z in
  let bs := bubbles m ++ [b] in
  let i := if wasLast || (selected m <? 0)%Z then (Z.of_nat (length bs) - 1)%Z else selected m in
  set_bubbles m bs i got.

Definition appendOwnText m (text : string) : model :=
  append_bubble m (mkBubble true "you" now false false text 0 0 0 "" "") (gotItem m).

Definition item_bubble (it : Item) : bubble :=
  let env := it_Envelope it in
  let s := senderLabel env in
  let t := int64 (TS env) in
  let plain := mkBubble false s t false false (Text env) 0 0 0 "" "" in
  match Blob_ env with
  | Some b =>
      if String.eqb (Type_ env) TypeImage then
        mkBubble false s t true false "" (Blob_W b) (Blob_H b) (Size b) (it_LocalPath it)
          (shortHash (Hash b) +:+ ".png")
      else if String.eqb (Type_ env) TypeFile then
        mkBubble false s t false true "" 0 0 (Size b) (it_LocalPath it)
          (if String.eqb (Filename env) "" then shortHash (Hash b) else Filename env)
      else plain
  | None => plain
  end.

Definition appendItem m (it : Item) : model := append_bubble m (item_bubble it) true.

Definition currentBubble m : option bubble :=
  if (length (bubbles m) =? 0)%nat then None
  else
    let i := selected m in
    let i := if (i <? 0)%Z || (Z.of_nat (length (bubbles m)) <=? i)%Z then last_index m else i in
    bubbles m !! Z.to_nat i.

(** ** Actions *)

Definition copySelected m : option Cmd :=
  match currentBubble m with
  | None => None
  | Some b =>
      Some (if isImage b then copyImageCmd (path b)
            else if isFile b then copyTextCmd (path b) else copyTextCmd (text b))
  end.

Definition saveSelected m : Cmd :=
  match currentBubble m with
  | Some b => if isImage b then saveImageCmd (path b) (filename b)
              else ReturnCmd (savedMsg (Some "selected item is not an image") "")
  | None => ReturnCmd (savedMsg (Some "selected item is not an image") "")
  end.

Definition openSelected m : Cmd :=
  match currentBubble m with
  | Some b => if isImage b || isFile b then openExternalCmd (path b)
              else ReturnCmd (openedMsg (Some "selected item has no file to open"))
  | None => ReturnCmd (openedMsg (Some "selected item has no file to open"))
  end.

(** ** Update *)

(** A jump to the first or the last bubble. *)
Definition select_at m (i : Z) : model :=
  if (0 <? length (bubbles m))%nat then refreshViewport (set_selected m i) false else m.

(** [handleKey] in browse mode. *)
Definition browse_key m (e : Event) : model * option Cmd :=
  let key := key_String e in
  if String.eqb key "q" then requestQuit m
  else if decide (key ∈ ["up"; "k"]) then (moveSelection m (-1), None)
  else if decide (key ∈ ["down"; "j"]) then (moveSelection m 1, None)
  else if decide (key ∈ ["g"; "home"]) then (select_at m 0, None)
  else if decide (key ∈ ["G"; "end"]) then (select_at m (last_index m), None)
  else if String.eqb key "y" then (m, copySelected m)
  else if String.eqb key "s" then (m, Some (saveSelected m))
  else if String.eqb key "o" then (m, Some (openSelected m))
  else if String.eqb key "p" then (m, Some pasteLatestCmd)
  else let '(v, cmd) := vp_Update (vp m) e in (set_vp m v, extra cmd).

(** [handleKey] in the composer. *)
Definition compose_key m (e : Event) : model * option Cmd :=
  if String.eqb (key_String e) "enter" then
    let text := TrimSpace (ta_Value (ta m)) in
    if String.eqb text "" then (m, None)
    else
      let m := appendOwnText m text in
      let m := set_ta m (ta_Reset (ta m)) in
      (refreshViewport m true, Some (sendTextCmd text))
  else let '(t, cmd) := ta_Update (ta m) e in (set_ta m t, extra cmd).

(** [handleKey] when the quit prompt is not up. *)
Definition plain_key m (e : Event) : model * option Cmd :=
  let key := key_String e in
  if String.eqb key "ctrl+c" then requestQuit m
  else if String.eqb key "esc" then (toggleFocus m, None)
  else if composerFocused m then compose_key m e else browse_key m e.

(** What the answer to the quit prompt makes of the model, and the clear it asks for. *)
Definition prompt_key m (key : string) : model * option Cmd * option bool :=
  if String.eqb key "t" then (m, Some Quit, Some false)
  else if String.eqb key "a" then (m, Some Quit, Some true)
  else if String.eqb key "n" then (m, Some Quit, None)
  else if String.eqb key "esc" then (set_confirming m false, None, None)
  else (m, None, None).

(** The model and the command after a message, and the clear that is run meanwhile. *)
Definition step m (msg : Msg) : model * option Cmd * option bool :=
  match msg with
  | KeyMsg e =>
      if confirmingQuit m then prompt_key m (key_String e) else (plain_key m e, None)
  | WindowSizeMsg w h =>
      (refreshViewport (layout (set_size m w h (ta m) (vp m))) false, None, None)
  | itemMsg it =>
      (refreshViewport (appendItem m it) true,
       if items m then Some waitForItemCmd else None, None)
  | streamClosedMsg => (set_toast m "event stream closed (daemon gone?)", None, None)
  | sentMsg err =>
      (match err with Some e => set_toast m ("send failed: " +:+ e) | None => m end, None, None)
  | copiedMsg err label =>
      (match err with
       | Some e => set_toast m ("copy failed: " +:+ e)
       | None => if negb (String.eqb label "") then set_toast m label else m
       end, None, None)
  | savedMsg err p =>
      (match err with
       | Some e => set_toast m ("save failed: " +:+ e)
       | None => set_toast m ("saved → " +:+ p)
       end, None, None)
  | openedMsg err =>
      (match err with
       | Some e => set_toast m ("open failed: " +:+ e)
       | None => set_toast m "opened externally"
       end, None, None)
  | statusTickMsg => (m, Some (Batch [fetchStatusCmd; tickStatusCmd]), None)
  | statusMsg st => (applyStatus m st, None, None)
  | OtherMsg e =>
      (if composerFocused m then let '(t, cmd) := ta_Update (ta m) e in (set_ta m t, extra cmd)
       else let '(v, cmd) := vp_Update (vp m) e in (set_vp m v, extra cmd), None)
  end.
End model.

(** ** What runs outside the model *)

Section exec.
Context `{Widgets} {P : Type} `{Proc.Peer P} `{Cbor Request} `{Cbor Response}.
Context (E : Env) (D : TuiLoop.Desk) (zone : Z → Z).

Definition Update (now : Z) (m : model) (msg : Msg) : M P (model * option Cmd) :=
  let '(m', cmd, cl) := step zone now m msg in
  (match cl with Some all => c_Clear E (client m) all;; mret () | None => mret () end);;
  mret (m', cmd).

(** Messages with their times, one after the other: the last model and the commands asked for. *)
Fixpoint run_msgs (m : model) (msgs : list (Z * Msg)) : M P (model * list Cmd) :=
  match msgs with
  | [] => mret (m, [])
  | (now, msg) :: msgs =>
      r ← Update now m msg;
      r' ← run_msgs r.1 msgs;
      mret (r'.1, option_list r.2 ++ r'.2)
  end.

Definition no_file : string := "no image file for this item".

Definition copyImage (cl : ipcClient) (p : string) : M P Msg :=
  if String.eqb p "" then mret (copiedMsg (Some no_file) "")
  else
    r ← os_read (λ f, ReadFile f p);
    match r with
    | Err e => mret (copiedMsg (Some (Error e)) "")
    | Ok data => err ← c_Copy E cl "image" data; mret (copiedMsg err "copied image to clipboard")
    end.

(** The destination, which is written over, or the error. *)
Definition save_image (src name : string) (f : FS) : result string string * FS :=
  match ReadFile f src with
  | Err e => (Err (Error e), f)
  | Ok data =>
      let name := if String.eqb name "" then "image.png" else name in
      let dst := Join (saveDir (TuiLoop.k_home D) (e_tmp E) f) name in
      match WriteFile f dst data with
      | (Err e, f) => (Err (Error e), f)
      | (Ok _, f) => (Ok dst, f)
      end
  end.

Definition saveImage (src name : string) : M P Msg :=
  if String.eqb src "" then mret (savedMsg (Some no_file) "")
  else
    r ← os_call (save_image src name);
    mret (match r with Ok dst => savedMsg None dst | Err e => savedMsg (Some e) "" end).

Definition openExternal (p : string) : Msg :=
  if String.eqb p "" then openedMsg (Some no_file)
  else
    openedMsg
      (if String.eqb (TuiLoop.k_goos D) "darwin" then TuiLoop.k_start D "open" [p]
       else if String.eqb (TuiLoop.k_goos D) "windows"
       then TuiLoop.k_start D "rundll32" ["url.dll,FileProtocolHandler"; p]
       else TuiLoop.k_start D "xdg-open" [p]).

Definition fetchStatus (cl : ipcClient) : M P Msg :=
  r ← c_Status E cl; mret (statusMsg (match r with Ok st => Some st | Err _ => None end)).

(** The messages that come of a command; [next]: what the channel of items gives, [None] when it
    is closed.  [tea.Quit] ends the program instead. *)
Fixpoint exec (cl : ipcClient) (next : option Item) (c : Cmd) : M P (list Msg) :=
  let all := fix all (cs : list Cmd) : M P (list Msg) :=
    match cs with
    | [] => mret []
    | c :: cs => ms ← exec cl next c; ms' ← all cs; mret (ms ++ ms')
    end in
  match c with
  | tickStatusCmd => mret [statusTickMsg]
  | waitForItemCmd => mret [match next with Some it => itemMsg it | None => streamClosedMsg end]
  | fetchStatusCmd => msg ← fetchStatus cl; mret [msg]
  | sendTextCmd text => err ← c_Send E cl "text" text; mret [sentMsg err]
  | copyTextCmd text => err ← c_Copy E cl "text" text; mret [copiedMsg err "copied text to clipboard"]
  | copyImageCmd p => msg ← copyImage cl p; mret [msg]
  | pasteLatestCmd => err ← c_Paste E cl; mret [copiedMsg err "pasted latest item to clipboard"]
  | saveImageCmd src name => msg ← saveImage src name; mret [msg]
  | openExternalCmd p => mret [openExternal p]
  | ReturnCmd msg => mret [msg]
  | ExtraCmd x => mret (match Extra_msg x with Some e => [OtherMsg e] | None => [] end)
  | Quit => mret []
  | Batch cs => all cs
  end.

(** The items the pump of [cmdTUI] puts into the channel. *)
Definition pump (rd : reader) : list Item :=
  omap (λ resp : Response, if String.eqb (rs_Kind resp) RespItem then rs_Item resp else None)
    (Ipc.read_msgs (S (String.length (r_buf rd))) rd).1.
End exec.
