(* ===== verification/ProbeTuiProps.v ===== *)
(** * The experiments: what the terminal UI promises

    Theorems on [ProbeTui]: its word wrapper, the shape of its model, what the selection shows, and
    how it ends. *)
From S2P Require Import Prelude GoStr GoPath GoOS Wire Tui Proc ProbeIpc ProbeCodec ProbeCli ProbeTui.
From S2P Require TuiProps.
Open Scope string_scope.
Open Scope list_scope.

(** ** The word wrapper *)

(** What follows a word of a line: the words, the rest of the present line, and the other lines. *)
Lemma wrap_rest width col words :
  Forall is_word words →
  let out := wrap_words width col false words in
  (out = "" ∨ ∃ c s, out = String c s ∧ is_space c = true) ∧ Fields out = words ∧
  ∃ l ls, split_lines out = l :: ls ∧
    (l = "" ∨ (∃ s, l = String " " s) ∧ (col + RuneCount l <= width)%Z) ∧
    Forall (λ line, (RuneCount line <= width)%Z ∨ line ∈ words) ls.
Proof.
  intros Hw. revert col. induction Hw as [|w words Hword Hwords IH]; intros col; cbn [wrap_words].
  { split_and!; [by left|done|]. exists "", []. split_and!; [done|by left|constructor]. }
  assert (∀ out, out = "" ∨ (∃ c s, out = String c s ∧ is_space c = true) → spaced_off out) as Hoff
    by (by intros out [->|(c & s & -> & ?)]).
  assert (∀ l, l = "" ∨ (∃ s, l = String " " s) → RuneCount (w +:+ l) = (RuneCount w + RuneCount l)%Z)
    as Hadd.
  { intros l [->|[s ->]]; [by rewrite str_app_nil_r, Z.add_0_r|by apply RuneCount_app]. }
  pose proof (λ out l ls, split_lines_prefix w out l ls (word_no_newline w Hword)) as Hsplit.
  destruct (Z.ltb_spec width (col + 1 + RuneCount w)) as [Hlt|Hle].
  - destruct (IH (RuneCount w)) as (Hsp & Hf & l & ls & Hs & Hl & Hls). split_and!.
    + right. by eexists _, _.
    + unfold nl. cbn [String.append]. rewrite Fields_space, Fields_word by auto. by rewrite Hf.
    + exists "", ((w +:+ l) :: ls). unfold nl. cbn [String.append split_lines Ascii.eqb].
      split_and!; [cbn; by rewrite (Hsplit _ _ _ Hs)|by left|]. constructor.
      * destruct Hl as [->|[Hl Hc]]; [right; rewrite str_app_nil_r; by left|].
        left. rewrite Hadd; [done|by right].
      * eapply Forall_impl; [exact Hls|]. cbn. intros x [?|?]; [by left|right; by right].
  - destruct (IH (col + 1 + RuneCount w)%Z) as (Hsp & Hf & l & ls & Hs & Hl & Hls). split_and!.
    + right. by eexists _, _.
    + cbn [String.append]. rewrite Fields_space, Fields_word by auto. by rewrite Hf.
    + exists (String " " (w +:+ l)), ls. cbn [String.append]. split_and!.
      * change (split_lines (String " " (w +:+ wrap_words width (col + 1 + RuneCount w) false words)))
          with (match split_lines (w +:+ wrap_words width (col + 1 + RuneCount w) false words) with
                | l :: ls => String " " l :: ls | [] => [String " " ""] end).
        by rewrite (Hsplit _ _ _ Hs).
      * right. split; [by eexists|]. rewrite RuneCount_ascii by done.
        destruct Hl as [->|[Hl Hc]]; rewrite Hadd; [|by left|lia|by right]. cbn. lia.
      * eapply Forall_impl; [exact Hls|]. cbn. intros x [?|?]; [by left|right; by right].
Qed.

(** One line of the text. *)
Lemma wrap_line width line :
  Fields (wrap_words width 0 true (Fields line)) = Fields line ∧
  Forall (λ l, (RuneCount l <= width)%Z ∨ l = "" ∨ l ∈ Fields line)
    (split_lines (wrap_words width 0 true (Fields line))).
Proof.
  pose proof (Fields_words line) as Hw. destruct (Fields line) as [|w words].
  { split; [done|]. apply Forall_cons. split; [right; by left|constructor]. }
  apply Forall_cons in Hw as [Hword Hw]. cbn [wrap_words].
  destruct (wrap_rest width (0 + RuneCount w) words Hw) as (Hsp & Hf & l & ls & Hs & Hl & Hls).
  split.
  - rewrite Fields_word; [by rewrite Hf|done|]. by destruct Hsp as [->|(c & s & -> & ?)].
  - rewrite (split_lines_prefix w _ l ls); [|by apply word_no_newline|done]. constructor.
    + destruct Hl as [->|[[s ->] Hc]]; [right; right; rewrite str_app_nil_r; by left|].
      left. rewrite RuneCount_app by done. lia.
    + eapply Forall_impl; [exact Hls|]. cbn. intros x [?|?]; [by left|right; right; by right].
Qed.

(** ** The shape of the model *)

Section shape.
Context `{WidgetLaws} (zone : Z → Z).
Implicit Types m : model.

(** The user's own messages are text; what is neither an image nor a file has no path. *)
Record bubble_ok (b : bubble) : Prop := {
  bo_own : own b = true → isImage b = false ∧ isFile b = false ∧ sender b = "you";
  bo_kind : isImage b && isFile b = false;
  bo_path : isImage b = false → isFile b = false → path b = "" ∧ filename b = "";
}.

Record ui_pre m : Prop := {
  up_selected : bubbles m = [] ∧ selected m = (-1)%Z ∨
    (0 ≤ selected m < Z.of_nat (length (bubbles m)))%Z;
  up_focus : ta_Focused (ta m) = composerFocused m;
  up_size : (0 < width m ∧ 0 < height m ∧ vp_Width (vp m) = width m ∧
             vp_Height (vp m) = Z.max 3 (height m - 5))%Z;
  up_got : gotItem m = existsb (λ b, negb (own b)) (bubbles m);
  up_bubbles : Forall bubble_ok (bubbles m);
}.

(** The viewport has the lines of the history, as it was drawn at some time. *)
Definition drawn m : Prop :=
  ∃ t, vp_lines (vp m) = Z.of_nat (length (split_lines (renderHistory zone t m).1.1)).

Definition ui_ok m : Prop := ui_pre m ∧ drawn m.

(** What the drawing looks at. *)
Lemma renderHistory_frame t m m' :
  bubbles m' = bubbles m → selected m' = selected m → vp_Width (vp m') = vp_Width (vp m) →
  renderHistory zone t m' = renderHistory zone t m.
Proof.
  intros Hb Hs Hv. unfold renderHistory. rewrite Hb.
  assert (∀ bs i line blocks sel,
    history_from zone t m' i line bs blocks sel = history_from zone t m i line bs blocks sel) as Hf.
  { induction bs as [|b bs IH]; intros i line blocks sel; [done|]. cbn [history_from].
    rewrite Hs. rewrite IH. unfold renderBubble, bubble_body. by rewrite Hv. }
  destruct (bubbles m); [done|]. by rewrite Hf.
Qed.

Lemma drawn_frame m m' :
  bubbles m' = bubbles m → selected m' = selected m → vp_dims (vp m') = vp_dims (vp m) →
  drawn m → drawn m'.
Proof.
  intros Hb Hs [= Hw Hh Hl] [t Ht]. exists t. rewrite Hl, Ht. by rewrite (renderHistory_frame t m m').
Qed.

(** [refreshViewport] only moves the viewport. *)
Lemma refresh_eq now m follow :
  ∃ v, refreshViewport zone now m follow = set_vp m v ∧
    vp_dims v = (vp_Width (vp m), vp_Height (vp m),
                 Z.of_nat (length (split_lines (renderHistory zone now m).1.1))).
Proof.
  unfold refreshViewport. destruct (renderHistory zone now m) as [[content st] h] eqn:E. cbn [fst].
  pose proof (dims_SetContent (vp m) content) as Hd.
  repeat case_match; (eexists; split; [done|]); by rewrite ?dims_GotoBottom, ?dims_SetYOffset.
Qed.

Lemma refresh_ok now m follow : ui_pre m → ui_ok (refreshViewport zone now m follow).
Proof.
  intros [Hs Hf Hz Hg Hb]. destruct (refresh_eq now m follow) as (v & -> & [= Hw Hh Hl]). split.
  - split; try done. cbn. by rewrite Hw, Hh.
  - exists now. cbn [vp set_vp set_size]. rewrite Hl. do 3 f_equal. symmetry.
    by rewrite (renderHistory_frame now m).
Qed.

(** A change of something else. *)
Lemma ui_ok_frame m m' :
  bubbles m' = bubbles m → selected m' = selected m → vp_dims (vp m') = vp_dims (vp m) →
  ta_Focused (ta m') = composerFocused m' → width m' = width m → height m' = height m →
  gotItem m' = gotItem m → ui_ok m → ui_ok m'.
Proof.
  intros Hb Hs Hv Hf Hw Hh Hg [[Us Uf Uz Ug Ub] Hd]. split; [|by eapply drawn_frame].
  injection Hv as Hvw Hvh _. split; rewrite ?Hb, ?Hs, ?Hg, ?Hw, ?Hh, ?Hvw, ?Hvh; done.
Qed.

Lemma ui_ok_toast m s : ui_ok m → ui_ok (set_toast m s).
Proof. intros Hu. eapply ui_ok_frame; [..|exact Hu]; try done. apply Hu. Qed.

Lemma ui_ok_status m st : ui_ok m → ui_ok (applyStatus m st).
Proof.
  destruct st as [st|]; [|done]. intros Hu. eapply ui_ok_frame; [..|exact Hu]; try done. apply Hu.
Qed.

Lemma ui_ok_confirming m q : ui_ok m → ui_ok (set_confirming m q).
Proof. intros Hu. eapply ui_ok_frame; [..|exact Hu]; try done. apply Hu. Qed.

Lemma ui_ok_vp m e : ui_ok m → ui_ok (set_vp m (vp_Update (vp m) e).1).
Proof.
  intros Hu. eapply ui_ok_frame; [..|exact Hu]; try done; [apply dims_Update|apply Hu].
Qed.

Lemma ui_ok_ta m t : ta_Focused t = composerFocused m → ui_ok m → ui_ok (set_ta m t).
Proof. intros Ht Hu. by eapply ui_ok_frame; [..|exact Hu]. Qed.

Lemma update_focus t e : ta_Focused (ta_Update t e).1 = ta_Focused t.
Proof.
  destruct (ta_Focused t) eqn:E; [by apply update_focused|]. by apply update_unfocused.
Qed.

Lemma layout_ok m :
  bubbles m = [] ∧ selected m = (-1)%Z ∨ (0 ≤ selected m < Z.of_nat (length (bubbles m)))%Z →
  ta_Focused (ta m) = composerFocused m → gotItem m = existsb (λ b, negb (own b)) (bubbles m) →
  Forall bubble_ok (bubbles m) → ui_pre (layout m).
Proof.
  intros Hs Hf Hg Hb.
  unfold layout. split; cbn; try done; [by rewrite (proj2 (value_SetWidth _ _))|].
  set (w := if (width m <=? 0)%Z then _ else _). set (h := if (height m <=? 0)%Z then _ else _).
  set (v := if (h - 5 <? 3)%Z then _ else _).
  pose proof (dims_set_size (vp m) w v) as [= -> -> _].
  assert (v = Z.max 3 (h - 5)) as -> by (unfold v; destruct (Z.ltb_spec (h - 5) 3); lia).
  unfold w, h. destruct (Z.leb_spec (width m) 0), (Z.leb_spec (height m) 0); split_and!; lia.
Qed.

Lemma newTUIModel_ok now cl bin st has : ui_ok (newTUIModel zone now cl bin st has).
Proof.
  unfold newTUIModel. apply refresh_ok.
  assert (∀ m, bubbles (applyStatus m st) = bubbles m ∧ selected (applyStatus m st) = selected m ∧
    ta (applyStatus m st) = ta m ∧ composerFocused (applyStatus m st) = composerFocused m ∧
    gotItem (applyStatus m st) = gotItem m) as Ha by (by destruct st).
  match goal with |- context [applyStatus ?m st] =>
    destruct (Ha m) as (E1 & E2 & E3 & E4 & E5) end.
  apply layout_ok; rewrite ?E1, ?E2, ?E3, ?E4, ?E5; cbn; try done; [by left|]. apply value_Focus.
Qed.

Lemma append_ok m b got :
  bubble_ok b → got = gotItem m || negb (own b) → ui_pre m → ui_pre (append_bubble m b got).
Proof.
  intros Hb -> [Hs Hf Hz Hg Hbs]. unfold append_bubble, last_index. split; cbn; try done.
  - rewrite length_app. cbn [length]. right.
    destruct (Z.eqb_spec (selected m) (Z.of_nat (length (bubbles m)) - 1)); cbn [orb]; [lia|].
    destruct (Z.ltb_spec (selected m) 0); [lia|]. destruct Hs as [[_ ?]|?]; lia.
  - rewrite existsb_app, Hg. cbn. by rewrite orb_false_r.
  - apply Forall_app. by split; [|constructor].
Qed.

Lemma item_bubble_ok it : bubble_ok (item_bubble it) ∧ own (item_bubble it) = false.
Proof.
  unfold item_bubble. split; [|by repeat case_match].
  split; repeat case_match; cbn; try done; by intros [=].
Qed.

Lemma selected_ok m i :
  ui_pre m → (0 ≤ i < Z.of_nat (length (bubbles m)))%Z → ui_pre (set_selected m i).
Proof. intros [Hs Hf Hz Hg Hb] Hi. split; try done. by right. Qed.

Lemma moveSelection_keeps m now delta : ui_ok m → ui_ok (moveSelection zone now m delta).
Proof.
  intros Hu. unfold moveSelection, last_index. destruct (Nat.eqb_spec (length (bubbles m)) 0) as [|Hn];
    [done|]. apply refresh_ok, selected_ok; [apply Hu|].
  set (n := length (bubbles m)) in *. set (i := if (selected m <? 0)%Z then _ else _).
  set (j := (i + delta)%Z). set (k := if (j <? 0)%Z then 0%Z else j).
  destruct (Z.leb_spec (Z.of_nat n) k); [lia|]. unfold k in *. destruct (Z.ltb_spec j 0); lia.
Qed.

Lemma select_at_ok now m i :
  ui_ok m → (i = 0 ∨ i = last_index m)%Z → ui_ok (select_at zone now m i).
Proof.
  intros Hu Hi. unfold select_at. destruct (Nat.ltb_spec 0 (length (bubbles m))); [|done].
  apply refresh_ok, selected_ok; [apply Hu|]. unfold last_index in Hi. lia.
Qed.

Lemma toggleFocus_ok now m : ui_ok m → ui_ok (toggleFocus zone now m).
Proof.
  intros [[Hs Hf Hz Hg Hb] _]. unfold toggleFocus. apply refresh_ok.
  destruct (composerFocused m) eqn:Ef; cbn [negb].
  - assert (ui_pre (set_focus m false (ta_Blur (ta m)))) as Hm.
    { split; try done. cbn. apply value_Blur. }
    destruct (Z.ltb_spec (selected (set_focus m false (ta_Blur (ta m)))) 0); cbn [andb]; [|done].
    destruct (Nat.ltb_spec 0 (length (bubbles (set_focus m false (ta_Blur (ta m)))))); [|done].
    apply selected_ok; [done|]. unfold last_index. cbn in *. lia.
  - split; try done. cbn. apply value_Focus.
Qed.

Lemma requestQuit_ok m : ui_ok m → ui_ok (requestQuit m).1.
Proof. unfold requestQuit. destruct (gotItem m); [apply ui_ok_confirming|done]. Qed.

Lemma compose_key_ok now m e : ui_ok m → ui_ok (compose_key zone now m e).1.
Proof.
  intros Hu. unfold compose_key. destruct (String.eqb (key_String e) "enter").
  - destruct (String.eqb _ ""); [done|]. cbn [fst]. apply refresh_ok.
    destruct (append_ok m (mkBubble true "you" now false false (TrimSpace (ta_Value (ta m))) 0 0 0 "" "")
      (gotItem m)) as [Hs Hf Hz Hg Hb]; [by split|by rewrite orb_false_r|apply Hu|].
    split; try done. cbn. by rewrite (proj2 (value_Reset _)).
  - destruct (ta_Update (ta m) e) as [t x] eqn:E. cbn [fst]. apply ui_ok_ta; [|done].
    pose proof (update_focus (ta m) e) as Hf. rewrite E in Hf. cbn in Hf. rewrite Hf. apply Hu.
Qed.

Lemma browse_key_ok now m e : ui_ok m → ui_ok (browse_key zone now m e).1.
Proof.
  intros Hu. unfold browse_key.
  repeat match goal with |- ui_ok (fst (if ?b then _ else _)) => destruct b end; cbn [fst];
    auto using requestQuit_ok, moveSelection_keeps, select_at_ok.
  pose proof (ui_ok_vp m e Hu). by destruct (vp_Update (vp m) e).
Qed.

(** Every message keeps the shape. *)
Lemma step_ok now m msg : ui_ok m → ui_ok (step zone now m msg).1.1.
Proof.
  intros Hu. destruct msg as [e|w h|it| |err|err l|err p|err| |st|e]; cbn [step fst];
    try (repeat case_match; auto using ui_ok_toast, ui_ok_status; done).
  - destruct (confirmingQuit m); cbn [fst].
    + unfold prompt_key. repeat case_match; cbn [fst]; auto using ui_ok_confirming.
    + unfold plain_key. repeat case_match; cbn [fst];
        auto using requestQuit_ok, toggleFocus_ok, compose_key_ok, browse_key_ok.
  - destruct Hu as [[] _]. by apply refresh_ok, layout_ok.
  - destruct (item_bubble_ok it) as [Hb Ho]. apply refresh_ok, append_ok; [done| |apply Hu].
    by rewrite Ho, orb_true_r.
  - destruct (composerFocused m) eqn:Ef; cbn [fst].
    + pose proof (update_focus (ta m) e) as Hf. destruct (ta_Update (ta m) e) as [t x]. cbn [fst] in *.
      apply ui_ok_ta; [|done]. rewrite Hf. apply Hu.
    + pose proof (ui_ok_vp m e Hu). by destruct (vp_Update (vp m) e).
Qed.

(** No bubble is lost. *)
Lemma refresh_bubbles now m follow : bubbles (refreshViewport zone now m follow) = bubbles m.
Proof. by destruct (refresh_eq now m follow) as (v & -> & _). Qed.

Lemma plain_key_bubbles now m e : bubbles m `prefix_of` bubbles (plain_key zone now m e).1.
Proof.
  unfold plain_key, requestQuit, toggleFocus, compose_key, browse_key, moveSelection, select_at.
  repeat (case_match; cbn [fst]); try (rewrite refresh_bubbles); try done.
  - cbn. by eexists.
  - unfold requestQuit. by case_match.
Qed.

Lemma step_bubbles now m msg : bubbles m `prefix_of` bubbles (step zone now m msg).1.1.
Proof.
  destruct msg as [e|w h|it| |err|err l|err p|err| |st|e]; cbn [step fst];
    try (by repeat case_match); try (by rewrite refresh_bubbles).
  - destruct (confirmingQuit m); [|apply plain_key_bubbles].
    unfold prompt_key. by repeat case_match.
  - rewrite refresh_bubbles. cbn. by eexists.
  - by destruct st.
Qed.

(** ** What the selection shows *)

Definition heights (t : Z) m (i : Z) (bs : list bubble) : Z :=
  foldr (λ x n, (Height (renderBubble zone t m x.2 (x.1 =? selected m)%Z) + n)%Z) 0%Z
    (zip (seqZ i (Z.of_nat (length bs))) bs).

Lemma height_pos s : (0 < Height s)%Z.
Proof. rewrite height_lines. pose proof (split_lines_nonempty s). by destruct (split_lines s). Qed.

Lemma heights_nil t m i : heights t m i [] = 0%Z.
Proof. unfold heights. by destruct (seqZ _ _). Qed.

Lemma heights_cons t m i b bs :
  heights t m i (b :: bs) =
    (Height (renderBubble zone t m b (i =? selected m)) + heights t m (i + 1) bs)%Z.
Proof.
  unfold heights. cbn [length]. rewrite seqZ_cons by lia. cbn [zip zip_with foldr fst snd].
  replace (Z.pred (Z.of_nat (S (length bs)))) with (Z.of_nat (length bs)) by lia. done.
Qed.

Lemma heights_nonneg t m i bs : (0 <= heights t m i bs)%Z.
Proof.
  revert i. induction bs as [|b bs IH]; intros i; [done|]. rewrite heights_cons.
  pose proof (height_pos (renderBubble zone t m b (i =? selected m)%Z)). specialize (IH (i + 1)%Z). lia.
Qed.

(** The loop of [renderHistory]: as many lines as the blocks are high, and the place of the selected
    bubble among them. *)
Lemma history_spec t m bs i line blocks sel :
  ∃ more sel', history_from zone t m i line bs blocks sel = (blocks ++ more, sel') ∧
    length more = length bs ∧
    Z.of_nat (length (flat_map split_lines more)) = heights t m i bs ∧
    ((i <= selected m < i + Z.of_nat (length bs))%Z →
     ∃ b, bs !! Z.to_nat (selected m - i) = Some b ∧ sel'.2 = Height (renderBubble zone t m b true) ∧
       (line <= sel'.1 ∧ sel'.1 + sel'.2 <= line + heights t m i bs)%Z ∧
       (selected m = i + Z.of_nat (length bs) - 1 → sel'.1 + sel'.2 = line + heights t m i bs)%Z) ∧
    (¬ (i <= selected m < i + Z.of_nat (length bs))%Z → sel' = sel).
Proof.
  revert i line blocks sel. induction bs as [|b bs IH]; intros i line blocks sel; cbn [history_from].
  { exists [], sel. rewrite app_nil_r. split_and!; [done..| |done]. cbn. lia. }
  set (block := renderBubble zone t m b (i =? selected m)%Z).
  destruct (IH (i + 1)%Z (line + Height block)%Z (blocks ++ [block])
    (if (i =? selected m)%Z then (line, Height block) else sel)) as (more & sel' & -> & Hl & Hh & Hin & Hout).
  exists (block :: more), sel'. rewrite <-app_assoc, heights_cons. fold block.
  pose proof (heights_nonneg t m (i + 1) bs). pose proof (height_pos block).
  split_and!; [done|by cbn; rewrite Hl| | |].
  - cbn [flat_map]. rewrite length_app, Nat2Z.inj_add, Hh. by rewrite height_lines.
  - cbn [length]. intros Hi. destruct (Z.eqb_spec i (selected m)) as [->|Hne].
    + rewrite Hout by lia. exists b. rewrite Z.sub_diag. unfold block in *.
      cbn [fst snd]. split_and!; [done..|lia|lia|]. intros Hx. assert (bs = []) as ->.
      { destruct bs; [done|]. cbn [length] in Hx. lia. }
      rewrite heights_nil. lia.
    + destruct Hin as (b' & Hb & Hs & Hr & He); [lia|]. exists b'. split_and!; [|done|lia|lia|lia].
      replace (Z.to_nat (selected m - i)) with (S (Z.to_nat (selected m - (i + 1)))) by lia. done.
  - cbn [length]. intros Hn. rewrite Hout by lia. destruct (Z.eqb_spec i (selected m)); [lia|done].
Qed.

Lemma renderHistory_spec t m :
  (0 <= selected m < Z.of_nat (length (bubbles m)))%Z →
  ∃ content st h b, renderHistory zone t m = (content, st, h) ∧
    bubbles m !! Z.to_nat (selected m) = Some b ∧ h = Height (renderBubble zone t m b true) ∧
    (0 <= st ∧ st + h <= Z.of_nat (length (split_lines content)))%Z ∧
    (selected m = last_index m → st + h = Z.of_nat (length (split_lines content)))%Z.
Proof.
  intros Hs. unfold renderHistory, last_index.
  destruct (history_spec t m (bubbles m) 0 0 [] (0, 0)%Z) as (more & [st h] & Hf & Hl & Hh & Hin & _).
  destruct Hin as (b & Hb & Hx & Hr & He); [lia|]. cbn [fst snd app] in *.
  destruct (bubbles m) as [|b0 bs] eqn:Eb; [cbn in Hs; lia|]. rewrite Hf.
  exists (join_lines more), st, h, b. rewrite Z.sub_0_r in Hb.
  rewrite split_lines_join by (by destruct more). rewrite Hh.
  split_and!; [done..|lia|lia|]. intros Hi. apply He. lia.
Qed.

(** After a refresh that does not follow, the selected bubble is in the viewport if it fits. *)
Lemma refresh_shows now m content st h :
  (0 <= selected m < Z.of_nat (length (bubbles m)))%Z →
  let m' := refreshViewport zone now m false in
  renderHistory zone now m' = (content, st, h) → (h <= vp_Height (vp m'))%Z →
  (vp_YOffset (vp m') <= st ∧ st + h <= vp_YOffset (vp m') + vp_Height (vp m'))%Z.
Proof.
  intros Hs m' Hr Hh. assert (renderHistory zone now m = (content, st, h)) as Hr0.
  { rewrite <-Hr. unfold m'. destruct (refresh_eq now m false) as (v & -> & [= Hw _ _]).
    symmetry. by apply renderHistory_frame. }
  destruct (renderHistory_spec now m Hs) as (c & s' & h' & b & Hc & _ & _ & Hb & He).
  rewrite Hr0 in Hc. injection Hc as <- <- <-.
  unfold m', refreshViewport in *. rewrite Hr0 in *. cbn [orb] in *.
  set (v := vp_SetContent (vp m) content) in *.
  pose proof (dims_SetContent (vp m) content) as [= Hw Hht Hl]. fold v in Hw, Hht, Hl.
  destruct (Z.ltb_spec (selected m) 0); [lia|]. cbn [orb] in *.
  destruct (Z.eqb_spec (selected m) (last_index m)) as [Hlast|]; cbn [vp set_vp set_size] in *.
  { pose proof (dims_GotoBottom v) as [= _ Hg _]. rewrite yoffset_GotoBottom, Hg in *.
    specialize (He Hlast). lia. }
  destruct (Z.ltb_spec st (vp_YOffset v)); cbn [vp set_vp set_size] in *.
  { pose proof (dims_SetYOffset v st) as [= _ Hg _]. rewrite yoffset_SetYOffset, Hg in *. lia. }
  destruct (Z.ltb_spec (vp_YOffset v + vp_Height v) (st + h)); cbn [vp set_vp set_size] in *; [|lia].
  pose proof (dims_SetYOffset v (st + h - vp_Height v)) as [= _ Hg _].
  rewrite yoffset_SetYOffset, Hg in *. lia.
Qed.
End shape.

(** The keys that move the selection. *)
Lemma move_key `{WidgetLaws} zone now m e :
  ui_ok zone m → bubbles m ≠ [] → composerFocused m = false →
  key_String e ∈ ["up"; "k"; "down"; "j"; "g"; "home"; "G"; "end"] →
  ∃ i, (0 <= i < Z.of_nat (length (bubbles m)))%Z ∧
    (plain_key zone now m e).1 = refreshViewport zone now (set_selected m i) false.
Proof.
  intros Hu Hne Hf Hk.
  assert (0 < length (bubbles m))%nat as Hl by (destruct (bubbles m); [done|cbn; lia]).
  assert (∀ d, ∃ i, (0 <= i < Z.of_nat (length (bubbles m)))%Z ∧
    moveSelection zone now m d = refreshViewport zone now (set_selected m i) false) as Hmove.
  { intros d. unfold moveSelection, last_index. rewrite (proj2 (Nat.eqb_neq _ _)) by lia.
    eexists. split; [|done]. set (n := length (bubbles m)) in *.
    set (i := if (selected m <? 0)%Z then _ else _). set (j := (i + d)%Z).
    set (k := if (j <? 0)%Z then 0%Z else j).
    destruct (Z.leb_spec (Z.of_nat n) k); [lia|]. unfold k in *. destruct (Z.ltb_spec j 0); lia. }
  assert (∀ i, select_at zone now m i = refreshViewport zone now (set_selected m i) false) as Hat.
  { intros i. unfold select_at. by rewrite (proj2 (Nat.ltb_lt _ _)) by lia. }
  unfold plain_key. rewrite Hf. unfold browse_key. rewrite !elem_of_cons, elem_of_nil in Hk.
  destruct Hk as [->|[->|[->|[->|[->|[->|[->|[->|[]]]]]]]]]; simpl; try apply Hmove; rewrite Hat;
    eexists; (split; [|done]); unfold last_index; lia.
Qed.

(** ** How it ends *)

Section ending.
Context `{WidgetLaws} (zone : Z → Z) (now : Z).
Implicit Types m : model.

Definition no_quit (c : option Cmd) : Prop := c ≠ Some Quit.

Lemma extra_no_quit x : no_quit (extra x).
Proof. by destruct x. Qed.

Lemma requestQuit_quit m : (requestQuit m).2 = Some Quit → gotItem m = false.
Proof. unfold requestQuit. by destruct (gotItem m). Qed.

Lemma compose_no_quit m e : no_quit (compose_key zone now m e).2.
Proof.
  unfold compose_key. repeat case_match; try done; cbn [snd]; apply extra_no_quit.
Qed.

Lemma browse_quit m e :
  (browse_key zone now m e).2 = Some Quit → key_String e = "q" ∧ gotItem m = false.
Proof.
  unfold browse_key. destruct (String.eqb_spec (key_String e) "q") as [->|].
  { intros Hq. split; [done|]. by apply requestQuit_quit. }
  repeat case_match; cbn [snd]; try done; try (by intros Hx%extra_no_quit).
  all: unfold copySelected, saveSelected, openSelected; by repeat case_match.
Qed.

(** When the program may end, and when the session is cleared. *)
Lemma step_quit m msg m' cmd cl :
  step zone now m msg = (m', cmd, cl) →
  (cmd = Some Quit → ∃ e, msg = KeyMsg e ∧
     (confirmingQuit m = false ∧ gotItem m = false ∧ cl = None ∧
        (key_String e = "ctrl+c" ∨ key_String e = "q" ∧ composerFocused m = false) ∨
      confirmingQuit m = true ∧
        (key_String e, cl) ∈ [("t", Some false); ("a", Some true); ("n", None)])) ∧
  (cmd ≠ Some Quit → cl = None).
Proof.
  destruct msg as [e|w h|it| |err|err l|err p|err| |st|e]; cbn [step];
    try (intros [= <- <- <-]; split; [|done]; repeat case_match; done).
  - destruct (confirmingQuit m) eqn:Ec.
    + unfold prompt_key.
      repeat match goal with |- context [String.eqb (key_String e) ?k] =>
        destruct (String.eqb_spec (key_String e) k) as [Ek|] end; intros [= <- <- <-];
        (split; [intros Hq|done]); try done; exists e; (split; [done|]); right; rewrite Ek;
        (split; [done|]); set_solver.
    + intros [= Hp <-]. split; [|done]. intros Hq. exists e. split; [done|]. left.
      assert ((plain_key zone now m e).2 = Some Quit) as Hq' by (by rewrite Hp). clear Hp Hq.
      rename Hq' into Hq. unfold plain_key in Hq. destruct (String.eqb_spec (key_String e) "ctrl+c") as [Ek|].
      { apply requestQuit_quit in Hq. split_and!; auto. }
      destruct (String.eqb (key_String e) "esc"); [done|].
      destruct (composerFocused m); [by apply compose_no_quit in Hq|].
      apply browse_quit in Hq as [? ?]. split_and!; auto.
  - destruct (composerFocused m).
    + destruct (ta_Update (ta m) e) as [t x]. intros [= <- <- <-].
      split; [by intros Hx%extra_no_quit|done].
    + destruct (vp_Update (vp m) e) as [v x]. intros [= <- <- <-].
      split; [by intros Hx%extra_no_quit|done].
Qed.
End ending.

(** ** The process *)

Section process.
Context `{WidgetLaws} {P : Type} `{Proc.Peer P} `{Cbor Request} `{Cbor Response}.
Context (E : Env) (zone : Z → Z).

Lemma runs_client c req : runs False (simple E c req : M P _) (λ _, True).
Proof.
  unfold simple, client_do, open_call, send_req. repeat first [solve [auto with runs nocore] | run_step].
Qed.

(** [Update] never panics; what it makes of the model is [step], and what it does outside the model
    is the clear. *)
Lemma Update_run now m msg (w : World P) m' cmd cl :
  step zone now m msg = (m', cmd, cl) →
  Update E zone now m msg w =
    (Some (m', cmd),
     match cl with Some all => (c_Clear E (client m) all w).2 | None => w end).
Proof.
  intros Hs. unfold Update. rewrite Hs. unfold mbind, M_bind. destruct cl as [all|]; [|done].
  pose proof (runs_client (client m) (mkRequest IPCVersion OpClear "" "" "" "" false all "" "") w) as Hr.
  unfold c_Clear. destruct (simple E (client m) _ w) as [[r|] w']; [|done]. done.
Qed.

Lemma run_msgs_ok m msgs (w : World P) :
  ui_ok zone m →
  ∃ m' cmds w', run_msgs E zone m msgs w = (Some (m', cmds), w') ∧ ui_ok zone m' ∧
    bubbles m `prefix_of` bubbles m'.
Proof.
  revert m w. induction msgs as [|[now msg] msgs IH]; intros m w Hu; cbn [run_msgs].
  { by exists m, [], w. }
  destruct (step zone now m msg) as [[m1 cmd] cl] eqn:Es.
  pose proof (step_ok zone now m msg Hu) as Hu1. rewrite Es in Hu1. cbn [fst] in Hu1.
  unfold mbind at 1, M_bind at 1. rewrite (Update_run now m msg w m1 cmd cl Es). cbn [fst snd].
  destruct (IH m1 (match cl with Some all => (c_Clear E (client m) all w).2 | None => w end) Hu1)
    as (m' & cmds & w' & Hr & Hu' & Hp).
  unfold mbind, M_bind. rewrite Hr. eexists m', _, w'. split_and!; [done|done|].
  etrans; [|exact Hp]. pose proof (step_bubbles zone now m msg) as Hb. by rewrite Es in Hb.
Qed.
End process.

(** ** Properties *)


Example wrap_ex : wrap ("one two  three four" +:+ nl +:+ "incomprehensibilities a") 9 =
  "one two" +:+ nl +:+ "three" +:+ nl +:+ "four" +:+ nl +:+ "incomprehensibilities" +:+ nl +:+ "a".
Proof. vm_compute. reflexivity. Qed.

(** C23. The terminal UI of the experiments never leaves its shape and loses no message.  It starts in
    the shape, and any messages, at any times, keep it: the selection is an index of the list of
    bubbles, or -1 when there is none; the textarea has the focus exactly in compose mode; the
    viewport fills the terminal but for five lines, and has the lines of the history as it was drawn;
    the UI remembers that it received something exactly when a bubble is not the user's own; and the
    bubbles there were are still there, in their places. *)
Theorem probe_tui_ok `{WidgetLaws} {P} `{Proc.Peer P} `{Cbor Request} `{Cbor Response} E zone :
  (∀ now cl bin st has, ui_ok zone (newTUIModel zone now cl bin st has)) ∧
  ∀ m msgs (w : World P), ui_ok zone m →
    ∃ m' cmds w', run_msgs E zone m msgs w = (Some (m', cmds), w') ∧ ui_ok zone m' ∧
      bubbles m `prefix_of` bubbles m'.
Proof. split; [intros; by apply newTUIModel_ok|intros; by apply run_msgs_ok]. Qed.

(** Moving the selection shows it.  In browse mode, each of the keys that move the selection
    leaves a bubble selected; and if the bubble, as it is drawn, is not higher than the viewport, all
    of its lines are in the viewport. *)
Theorem probe_selection_shown `{WidgetLaws} zone now m e :
  ui_ok zone m → bubbles m ≠ [] → confirmingQuit m = false → composerFocused m = false →
  key_String e ∈ ["up"; "k"; "down"; "j"; "g"; "home"; "G"; "end"] →
  let m' := (step zone now m (KeyMsg e)).1.1 in
  ∃ content st h b, renderHistory zone now m' = (content, st, h) ∧
    bubbles m' !! Z.to_nat (selected m') = Some b ∧ h = Height (renderBubble zone now m' b true) ∧
    (h <= vp_Height (vp m') → vp_YOffset (vp m') <= st ∧ st + h <= vp_YOffset (vp m') + vp_Height (vp m'))%Z.
Proof.
  intros Hu Hne Hc Hf Hk m'.
  assert (∃ i, (0 <= i < Z.of_nat (length (bubbles m)))%Z ∧
    m' = refreshViewport zone now (set_selected m i) false) as (i & Hi & Hm).
  { unfold m'. cbn [step]. rewrite Hc. by apply move_key. }
  rewrite Hm. destruct (renderHistory_spec zone now (refreshViewport zone now (set_selected m i) false))
    as (content & st & h & b & Hr & Hb & Hh & _).
  { by destruct (refresh_eq zone now (set_selected m i) false) as (v & -> & _). }
  exists content, st, h, b. split_and!; [done..|]. intros Hle.
  by apply (refresh_shows zone now (set_selected m i) content st h).
Qed.

(** The terminal UI of the experiments asks before it ends.  [Update] asks the runtime to end
    the program only on ctrl+c, or q in browse mode, when nothing was received, or on the answer to
    the prompt; it clears the session only on the answers t and a, of what was asked, before the
    program ends; and it does nothing else outside its model. *)
Theorem probe_quit_asks `{WidgetLaws} {P} `{Proc.Peer P} `{Cbor Request} `{Cbor Response}
    E zone now m msg (w : World P) :
  ui_ok zone m →
  ∃ m' cmd w', Update E zone now m msg w = (Some (m', cmd), w') ∧
    (cmd ≠ Some Quit → w' = w) ∧
    (cmd = Some Quit → ∃ e, msg = KeyMsg e ∧
      (confirmingQuit m = false ∧ Forall (λ b, own b = true) (bubbles m) ∧ w' = w ∧
         (key_String e = "ctrl+c" ∨ key_String e = "q" ∧ composerFocused m = false) ∨
       confirmingQuit m = true ∧
         (key_String e = "t" ∧ w' = (c_Clear E (client m) false w).2 ∨
          key_String e = "a" ∧ w' = (c_Clear E (client m) true w).2 ∨
          key_String e = "n" ∧ w' = w))).
Proof.
  intros [Hu _]. destruct (step zone now m msg) as [[m' cmd] cl] eqn:Es.
  destruct (step_quit zone now m msg m' cmd cl Es) as [Hq Hn].
  eexists m', cmd, _. split; [by apply Update_run|]. split; [intros Hc; by rewrite Hn|].
  intros Hc. destruct (Hq Hc) as (e & -> & [(Hf & Hg & -> & Hk)|(Hf & Hin)]); exists e.
  - split; [done|]. left. split_and!; [done| |done|done].
    rewrite (up_got _ Hu) in Hg. apply Forall_forall. intros b Hb. apply list_elem_of_In in Hb.
    destruct (own b) eqn:Eo; [done|]. rewrite <-Hg. apply existsb_exists. exists b.
    by rewrite Eo.
  - split; [done|]. right. split; [done|]. rewrite !elem_of_cons, elem_of_nil in Hin.
    destruct Hin as [[= -> ->]|[[= -> ->]|[[= -> ->]|[]]]]; auto.
Qed.

(** ** An example *)

#[local] Existing Instance TuiProps.toy_widgets.
#[local] Existing Instance TuiProps.toy_widgets_laws.
#[local] Existing Instance probe_req.
#[local] Existing Instance probe_resp.

(** A daemon that closes every connection. *)
#[local] Instance mute_peer : Proc.Peer FS := {|
  peer_fs f := f; peer_set_fs _ f := f; serve f _ := (mkReader "" EOF, f) |}.

Definition press (k : string) : Msg := @KeyMsg TuiProps.toy_widgets k.
Definition utc : Z → Z := λ _, 0%Z.
Definition no_env : Env :=
  mkEnv (Err "") "host" "/run" "/tmp" false "" None (λ _ _, Ok None) (Ok "/bin/lan") (Err "") (λ _, Ok ()) 0 (λ i, 0%Z).
Definition mute : World FS := mkWorld (mkFS ∅ ∅) "" "".
Definition demo_status : Status := mkStatus "12D3KooWabcdef" "dev" "lab" "LAN" "notify" "" [] 0.
Definition fresh_ui : model :=
  newTUIModel utc 0 (mkClient "/s" []) "lan" (Some demo_status) true.
Definition demo_item (text : string) : Item :=
  mkItem (mkEnvelope 1 text TypeText MimeText "12D3KooWpeer" "laptop" 0 "" text None "") "".
Definition ui_msgs : list (Z * Msg) :=
  [(0%Z, WindowSizeMsg 80 9); (1%Z, itemMsg (demo_item "one")); (2%Z, itemMsg (demo_item "two"));
   (3%Z, itemMsg (demo_item "three")); (4%Z, press "esc")].
Definition browsing : model :=
  match (run_msgs no_env utc fresh_ui ui_msgs mute).1 with Some r => r.1 | None => fresh_ui end.

Lemma browsing_ok : ui_ok utc browsing.
Proof.
  destruct (run_msgs_ok no_env utc fresh_ui ui_msgs mute (newTUIModel_ok utc _ _ _ _ _))
    as (m' & cmds & w' & Hr & Hu & _).
  unfold browsing. by rewrite Hr.
Qed.

Lemma browsing_facts :
  map text (bubbles browsing) = ["one"; "two"; "three"] ∧ bubbles browsing ≠ [] ∧
  selected browsing = 2%Z ∧
  confirmingQuit browsing = false ∧ composerFocused browsing = false ∧ gotItem browsing = true ∧
  room browsing = "lab" ∧ self browsing = "12D3KooWab…" ∧ vp_Height (vp browsing) = 4%Z.
Proof. vm_compute. split_and!; try reflexivity. discriminate. Qed.

Lemma probe_tui_ok_witness :
  ∃ m' cmds w', run_msgs no_env utc fresh_ui ui_msgs mute = (Some (m', cmds), w') ∧ ui_ok utc m'.
Proof.
  destruct (probe_tui_ok no_env utc) as [Hn Hr].
  destruct (Hr fresh_ui ui_msgs mute (Hn 0%Z _ _ _ _)) as (m' & cmds & w' & H1 & H2 & _).
  exists m', cmds, w'. split; assumption.
Defined.

Lemma topped_facts :
  let m' := (step utc 5 browsing (@KeyMsg TuiProps.toy_widgets "g")).1.1 in
  match renderHistory utc 5 m' with (_, st, h) => st = 0%Z ∧ h = 2%Z end ∧ vp_Height (vp m') = 4%Z.
Proof. vm_compute. split_and!; reflexivity. Qed.

Lemma g_moves : "g" ∈ ["up"; "k"; "down"; "j"; "g"; "home"; "G"; "end"].
Proof. apply (bool_decide_unpack _). vm_compute. exact I. Qed.

Lemma probe_selection_shown_witness :
  (vp_YOffset (vp (step utc 5 browsing (@KeyMsg TuiProps.toy_widgets "g")).1.1) <= 0)%Z.
Proof.
  destruct browsing_facts as (_ & Hb & _ & Hc & Hf & _). destruct topped_facts as [Hr Hv].
  destruct (probe_selection_shown utc 5 browsing "g" browsing_ok Hb Hc Hf g_moves)
    as (content & st & h & b & Hh & _ & _ & Hs).
  cbv zeta in *. rewrite Hh in Hr. destruct Hr as [-> ->]. rewrite Hv in Hs.
  apply Hs. discriminate.
Defined.

Lemma browsing_q :
  (λ r, (confirmingQuit r.1, r.2)) <$> (Update no_env utc 5 browsing (press "q") mute).1 = Some (true, None).
Proof. vm_compute. reflexivity. Qed.

(** Quitting with something received only raises the prompt. *)
Lemma probe_quit_asks_witness :
  ∃ m' cmd w', Update no_env utc 5 browsing (press "q") mute = (Some (m', cmd), w') ∧
    confirmingQuit m' = true ∧ w' = mute.
Proof.
  destruct (probe_quit_asks no_env utc 5 browsing (press "q") mute browsing_ok)
    as (m' & cmd & w' & Hu & Hn & _).
  pose proof browsing_q as Hq. rewrite Hu in Hq. cbn in Hq. injection Hq as Hc ->.
  exists m', None, w'. split; [exact Hu|]. split; [exact Hc|]. apply Hn. discriminate.
Defined.
