(* ===== verification/ProbeServe.v ===== *)
(** * The experiments: the process of the daemon

    [Serve] around the daemon of [experiments/shared-go]: the accept loop and the end of
    [Daemon.Run], over any transport. *)
From S2P Require Import Prelude GoStr GoPath GoOS Wire Codec Chan Dedupe Clip ProbeConfig ProbeIpc ProbeCodec ProbeDaemon ProbeHandlers Serve.
From S2P Require Ipc.
Open Scope string_scope.
Open Scope list_scope.

(** What a handler is given besides the request: the next message id, the clock, the transport
    after the wait of [send], and the order in which Go goes through the map of baselines. *)
Record Given (T : Type) := mkGiven {
  x_ulid : string;
  x_now : Z;
  x_waited : T → T;
  x_order : gmap string Z → list (string * Z);
}.
Arguments mkGiven {T}.
Arguments x_ulid {T}.
Arguments x_now {T}.
Arguments x_waited {T}.
Arguments x_order {T}.

(** What else happens: the transport hands an envelope to the daemon, or moves by itself. *)
Inductive arrival (T : Type) := Received (env : Envelope) | Moved (t : T).
Arguments Received {T}.
Arguments Moved {T}.

Section probe.
Context {T : Type} `{Transport T} `{Blake3} `{ImageCodec} `{MimeTable} `{Clipboard} `{Json}.
Context `{Cbor Request} `{Cbor Response}.
Implicit Types d : Daemon T.

(** ** The daemon as a server *)

Definition probe_handleConn (x : Given T) d (rd : reader) (w : writer) : held * Daemon T * writer :=
  let '(o, d, w) :=
    handleConn (x_ulid x) (x_now x) (x_waited x) (x_order x (textBaseline d)) d rd w in
  (match o with
   | Reply _ | Closed => Answered
   | Waiting ch kind => Held false ch kind
   | Streaming ch kind => Held true ch kind
   end, d, w).

Definition new_items d (env : Envelope) : list Item :=
  if (Seen (d_dedupe d) (MsgID env)).1 || String.eqb (Sender env) (fp d) then []
  else option_list (materialize d env).1.

#[export] Instance probe_server (socketPath : string) :
    Server (Daemon T) (Given T) (arrival T) Item Response := {
  sv_subs := subs;
  sv_set_subs d s := set_buffer d (buffer d) s (gotReceive d);
  sv_handleConn := probe_handleConn;
  sv_cap := subCap;
  sv_matches := matchesKind;
  sv_itemResp := itemResp;
  sv_background l d := Some match l with Received env => ingest d env | Moved t => set_tr d t end;
  sv_accepted l d := match l with Received env => new_items d env | Moved _ => [] end;
  sv_stopping := cancelled;
  sv_watch _ d := d;
  sv_return x d := Run_end (x_order x (textBaseline d)) d socketPath;
}.

(** ** Its laws *)

(** What the files, the clipboard and the settings do not touch. *)
Definition same_core d d' : Prop :=
  subs d' = subs d ∧ tr d' = tr d ∧ fp d' = fp d ∧ d_dedupe d' = d_dedupe d.

Lemma same_core_trans d d' d'' : same_core d d' → same_core d' d'' → same_core d d''.
Proof. unfold same_core. intros; destruct_and!; split_and!; congruence. Qed.

Lemma clear_core order d all : same_core d (clear order d all).
Proof.
  assert (same_core d (clearTransient d)) as Ht
    by (unfold clearTransient; by destruct (ReadDir _ _)).
  unfold clear. destruct all; [|done]. eapply same_core_trans; [exact Ht|done].
Qed.

Lemma applyExitPolicy_core order d : same_core d (applyExitPolicy order d).
Proof. unfold applyExitPolicy. repeat case_match; try done; apply clear_core. Qed.

Lemma recordTextBaseline_core d path : same_core d (recordTextBaseline d path).
Proof. unfold recordTextBaseline. by repeat case_match. Qed.

Lemma writeClipboard_core d item : same_core d (writeClipboard d item).2.
Proof. unfold writeClipboard. by repeat case_match. Qed.

Lemma applyAutoCopy_core d item : same_core d (applyAutoCopy d item).
Proof. unfold applyAutoCopy. by repeat case_match. Qed.

Lemma saveToDir_core d dir name data : same_core d (saveToDir d dir name data).
Proof. unfold saveToDir. by repeat case_match. Qed.

Lemma routeSinks_core d item : same_core d (routeSinks d item).
Proof.
  unfold routeSinks, appendTextFile.
  repeat case_match; try done; try apply saveToDir_core;
    (eapply same_core_trans; [apply (recordTextBaseline_core d)|done]).
Qed.

(** A handler that answers leaves the subscribers alone; one that holds on has a new channel. *)
Definition held_ok d (x : outcome * Daemon T) : Prop :=
  match x.1 with
  | Reply _ | Closed => subs x.2 = subs d
  | Waiting ch _ | Streaming ch _ =>
      subs d !! ch = None ∧ subs x.2 = <[ch := make_chan subCap]> (subs d)
  end.

(** Nor does it touch the transport, the identity or the message ids. *)
Definition quiet_ok d (x : outcome * Daemon T) : Prop :=
  held_ok d x ∧ tr x.2 = tr d ∧ fp x.2 = fp d ∧ d_dedupe x.2 = d_dedupe d.

Lemma reply_quiet d (x : Response * Daemon T) : same_core d x.2 → quiet_ok d (reply x).
Proof. by intros (? & ? & ? & ?). Qed.

Lemma handleSubscribe_quiet d kind : quiet_ok d (handleSubscribe d kind).
Proof. split; [|done]. split; [apply not_elem_of_dom, is_fresh|done]. Qed.

Lemma handleRecv_quiet d req : quiet_ok d (handleRecv d req).
Proof.
  unfold handleRecv. cbv zeta. destruct (rq_Follow req); [apply handleSubscribe_quiet|].
  destruct (latest d _); [done|]. split; [|done]. split; [apply not_elem_of_dom, is_fresh|done].
Qed.

Lemma handlePaste_core d : same_core d (handlePaste d).2.
Proof.
  unfold handlePaste. destruct (latest d "any") as [it|]; [|done].
  pose proof (writeClipboard_core d it). by destruct (writeClipboard d it) as [[e|] d1].
Qed.

Lemma handleCopy_core d req : same_core d (handleCopy d req).2.
Proof.
  unfold handleCopy. destruct (_ =? _)%Z; [done|]. by destruct (if String.eqb _ _ then _ else _) as [[e|] c].
Qed.

Lemma handleConfigSet_core d req : same_core d (handleConfigSet d req).2.
Proof.
  unfold handleConfigSet. destruct (SetKey _ _ _ _) as [[[u|e] c] f]; [|done].
  repeat case_match; try done; cbn [snd]; match goal with
  | |- same_core d (recordTextBaseline ?x _) => apply (same_core_trans d x); [done|apply recordTextBaseline_core]
  end.
Qed.

(** Only [send] does. *)
Lemma handleReq_quiet ulid now waited order d req :
  ((rq_IPCVersion req =? IPCVersion)%Z && String.eqb (rq_Op req) OpSend = true ∧
   handleReq ulid now waited order d req = reply (handleSend ulid now waited d req)) ∨
  ((rq_IPCVersion req =? IPCVersion)%Z && String.eqb (rq_Op req) OpSend = false ∧
   quiet_ok d (handleReq ulid now waited order d req)).
Proof.
  unfold handleReq. destruct (rq_IPCVersion req =? IPCVersion)%Z; [|by right]. cbv zeta. cbn [negb andb].
  destruct (String.eqb_spec (rq_Op req) OpPing) as [->|]; [by right|].
  destruct (String.eqb _ OpSend); [by left|]. right. split; [done|].
  destruct (String.eqb _ OpRecv); [apply handleRecv_quiet|].
  destruct (String.eqb _ OpPaste); [apply reply_quiet, handlePaste_core|].
  destruct (String.eqb _ OpCopy); [apply reply_quiet, handleCopy_core|].
  destruct (String.eqb _ OpClear); [apply reply_quiet, clear_core|].
  destruct (String.eqb _ OpSubscribe); [apply handleSubscribe_quiet|].
  case_decide; [unfold handleStatus; by destruct (Available _)|].
  destruct (String.eqb _ OpConfigSet); [apply reply_quiet, handleConfigSet_core|].
  destruct (String.eqb _ OpConfigGet); [unfold handleConfigGet; by destruct (GetKey _ _)|].
  by destruct (String.eqb _ OpDaemonStop).
Qed.

Lemma handleReq_held ulid now waited order d req : held_ok d (handleReq ulid now waited order d req).
Proof.
  destruct (handleReq_quiet ulid now waited order d req) as [[_ ->]|[_ [Hh _]]]; [|exact Hh].
  unfold held_ok, handleSend. by repeat case_match; simplify_eq/=.
Qed.

Lemma ingest_core d env :
  tr (ingest d env) = tr d ∧ fp (ingest d env) = fp d ∧
  d_dedupe (ingest d env) = (Seen (d_dedupe d) (MsgID env)).2.
Proof.
  unfold ingest. destruct (Seen _ _) as [[] dd]; [done|]. destruct (String.eqb _ _); [done|].
  destruct (materialize _ _) as [[item|] f]; [|done].
  match goal with |- context [routeSinks ?x item] => destruct (routeSinks_core x item) as (_ & -> & -> & ->) end.
  match goal with |- context [applyAutoCopy ?x item] => destruct (applyAutoCopy_core x item) as (_ & -> & -> & ->) end.
  done.
Qed.

Lemma probe_ingest_feeds d env : fed (subs d) (subs (ingest d env)) (new_items d env).
Proof.
  unfold ingest, new_items. destruct (Seen (d_dedupe d) (MsgID env)) as [[] dd]; cbn [fst orb];
    [by apply fed_same|].
  change (fp (set_dedupe d dd)) with (fp d). destruct (String.eqb (Sender env) (fp d)); [by apply fed_same|].
  change (materialize (set_dedupe d dd) env) with (materialize d env).
  destruct (materialize d env) as [[item|] f]; cbn [fst option_list]; [|by apply fed_same].
  match goal with |- context [routeSinks ?x item] => rewrite (proj1 (routeSinks_core x item)) end.
  match goal with |- context [applyAutoCopy ?x item] => rewrite (proj1 (applyAutoCopy_core x item)) end.
  apply fed_notify.
Qed.

#[export] Instance probe_server_laws socketPath :
  @ServerLaws (Daemon T) (Given T) (arrival T) Item Response _ (probe_server socketPath).
Proof.
  split; cbn.
  - done.
  - intros x d rd w d' w'. unfold probe_handleConn, handleConn. destruct (ReadReq rd).1 as [req|e].
    2:{ intros [= <- <-]. split; [done|]. exists []. split; [cbn; lia|done]. }
    pose proof (handleReq_held (x_ulid x) (x_now x) (x_waited x) (x_order x (textBaseline d)) d req) as E.
    destruct (handleReq _ _ _ _ d req) as [o d1]. cbn in E.
    destruct o as [r| |ch kind|ch kind]; intros Hx; simplify_eq; (split; [done|]).
    + exists [r]. split; [cbn; lia|]. cbn. unfold WriteResp. by destruct (Ipc.write_msg w r) as [[[]|e] w1].
    + exists []. split; [cbn; lia|done].
  - intros x d rd w follow ch kind d' w'. unfold probe_handleConn, handleConn.
    destruct (ReadReq rd).1 as [req|e]; [|done].
    pose proof (handleReq_held (x_ulid x) (x_now x) (x_waited x) (x_order x (textBaseline d)) d req) as E.
    destruct (handleReq _ _ _ _ d req) as [o d1]. cbn in E.
    destruct o as [r| |ch' kind'|ch' kind']; intros Hx; simplify_eq; destruct E as [E1 E2];
      by split_and!.
  - intros [env|t] d d' [= <-]; [apply probe_ingest_feeds|by apply fed_same].
  - done.
  - intros x d. unfold Run_end.
    match goal with |- context [applyExitPolicy ?o ?y] => by rewrite (proj1 (applyExitPolicy_core o y)) end.
Qed.
End probe.

(** A daemon of the experiments as a process, over any transport and under every interleaving: as
    [RoomServe.room_process_ok]. *)
Theorem probe_process_ok {T} `{Transport T} `{Blake3} `{ImageCodec} `{MimeTable} `{Clipboard} `{Json}
    `{Cbor Request} `{Cbor Response} socketPath (d : Daemon T) ls st :
  subs d = ∅ → @srun _ _ _ _ _ _ (probe_server socketPath) (sv_start d) ls = Some st →
  (∀ ch, is_Some (subs (sv_d st) !! ch) ↔ ∃ c, owner (conns st) c = Some ch) ∧
  (∀ c1 c2 ch, owner (conns st) c1 = Some ch → owner (conns st) c2 = Some ch → c1 = c2) ∧
  (∀ c cl, conns st !! c = Some cl →
     match g_hold cl with
     | None => ∃ rs : list Response, (length rs ≤ 1)%nat ∧ g_w cl = (Ipc.write_msgs (g_w0 cl) rs).2
     | Some (follow, kind) =>
         let said := map itemResp (filter (λ it, matchesKind it kind = true) (g_taken cl)) in
         g_taken cl `sublist_of` drop (g_from cl) (hist st) ∧
         (follow = false → (length said ≤ 1)%nat) ∧
         g_w cl = (Ipc.write_msgs (g_w0 cl) said).2
     end) ∧
  (returned st = Some None → done st = true).
Proof. intros Hs Hr. exact (@serve_spec _ _ _ _ _ _ (probe_server socketPath) _ d ls st Hs Hr). Qed.
