(* ===== verification/GoNet.v ===== *)
(** * Go's net and strconv, for addresses

    What the transports of the experiments use of [net] and [strconv]: decimal numbers, IP
    addresses as text, host and port. *)
From S2P Require Import Prelude GoStr.
Open Scope string_scope.
Open Scope list_scope.

(** ** strconv.Atoi *)

Inductive atoi_err := AtoiSyntax | AtoiRange.

Definition digit_val (c : ascii) : option Z :=
  let z := of_byte c in if ((48 <=? z) && (z <=? 57))%Z then Some (z - 48)%Z else None.

(** [ParseUint(s, 10, 64)] from the value read so far. *)
Fixpoint digits10 (acc : Z) (s : string) : atoi_err + Z :=
  match s with
  | "" => inr acc
  | String c s =>
      match digit_val c with
      | None => inl AtoiSyntax
      | Some d =>
          let acc := (10 * acc + d)%Z in
          if (2 ^ 64 <=? acc)%Z then inl AtoiRange else digits10 acc s
      end
  end.

(** The value [Atoi] returns; with an error beside it, it is 0 or the end of the range. *)
Definition Atoi_value (s : string) : Z :=
  let '(neg, t) :=
    match s with
    | String "+" t => (false, t)
    | String "-" t => (true, t)
    | _ => (false, s)
    end in
  if String.eqb t "" then 0%Z
  else
    match digits10 0 t with
    | inl AtoiSyntax => 0%Z
    | inl AtoiRange => if neg : bool then (- 2 ^ 63)%Z else (2 ^ 63 - 1)%Z
    | inr un => if neg : bool then Z.max (- un) (- 2 ^ 63) else Z.min un (2 ^ 63 - 1)
    end.

Example Atoi_values :
  map Atoi_value ["4433"; "-7"; "+12"; ""; "-"; "0x1"; "1_0"; "99999999999999999999x"; "9223372036854775808"]
  = [4433; -7; 12; 0; 0; 0; 0; 2 ^ 63 - 1; 2 ^ 63 - 1]%Z.
Proof. vm_compute. reflexivity. Qed.

(** A number printed by [strconv.Itoa] is read back. *)
Lemma digit_val_pretty m : (m < 10)%N → digit_val (pretty_N_char m) = Some (Z.of_N m).
Proof.
  intros Hm. assert (m ∈ [0; 1; 2; 3; 4; 5; 6; 7; 8; 9]%N) as Hin.
  { destruct (decide (m = 0%N)); [subst; set_solver|]. repeat (rewrite elem_of_cons). lia. }
  repeat (apply elem_of_cons in Hin as [->|Hin]; [reflexivity|]). by apply elem_of_nil in Hin.
Qed.

Lemma digits10_pretty (x : N) s :
  (Z.of_N x < 2 ^ 64)%Z → digits10 0 (pretty_N_go x s) = digits10 (Z.of_N x) s.
Proof.
  revert s. induction (N.lt_wf_0 x) as [x _ IH]; intros s Hx. destruct (decide (0 < x)%N) as [Hp|Hp].
  - rewrite pretty_N_go_step by done. rewrite IH; [|by apply N.div_lt|].
    2: { pose proof (N.Div0.div_le_mono x x 10). pose proof (N.div_lt x 10). lia. }
    cbn [digits10]. rewrite digit_val_pretty by (apply N.mod_lt; lia).
    assert (10 * Z.of_N (x / 10) + Z.of_N (x mod 10) = Z.of_N x)%Z as ->.
    { rewrite <- N2Z.inj_mul with (n := 10%N), <- N2Z.inj_add. f_equal.
      symmetry. apply N.div_mod. lia. }
    by rewrite (proj2 (Z.leb_gt _ _)).
  - assert (x = 0)%N as -> by lia. by rewrite pretty_N_go_0.
Qed.

Lemma Atoi_itoa z : (0 ≤ z < 2 ^ 63)%Z → Atoi_value (itoa z) = z.
Proof.
  intros Hz. unfold itoa. destruct (decide (z = 0%Z)) as [->|Hne]; [done|].
  assert (pretty z = pretty_N_go (Z.to_N z) "") as ->.
  { unfold pretty, pretty_Z. destruct z as [|p|p]; [done| |lia].
    cbn. unfold pretty, pretty_N. by destruct (decide _). }
  assert (∃ c t, pretty_N_go (Z.to_N z) "" = String c t ∧ is_Some (digit_val c)) as (c & t & E & Hc).
  { pose proof (digits10_pretty (Z.to_N z) "") as Hd.
    destruct (pretty_N_go (Z.to_N z) "") as [|c t]; [cbn in Hd; injection Hd; lia|].
    exists c, t. split; [done|]. cbn [digits10] in Hd. destruct (digit_val c); [by eexists|].
    assert (inl AtoiSyntax = inr (Z.of_N (Z.to_N z)) :> atoi_err + Z); [apply Hd; lia|done]. }
  pose proof (digits10_pretty (Z.to_N z) "") as Hd. rewrite E in Hd |- *.
  assert (Atoi_value (String c t) =
    match digits10 0 (String c t) with
    | inl AtoiSyntax => 0%Z | inl AtoiRange => (2 ^ 63 - 1)%Z | inr un => Z.min un (2 ^ 63 - 1)
    end) as ->.
  { destruct c as [[] [] [] [] [] [] [] []]; try reflexivity; by destruct Hc. }
  rewrite Hd by lia. cbn [digits10]. lia.
Qed.

(** ** net.IP *)

(** The bytes of an address. *)
Definition IP : Type := list Z.

(** [ip.To4()]: the four bytes, also of an IPv4 address in its IPv6 form. *)
Definition To4 (ip : IP) : option IP :=
  if decide (length ip = 4%nat) then Some ip
  else if decide (length ip = 16%nat ∧ take 12 ip = replicate 10 0%Z ++ [255; 255]%Z)
  then Some (drop 12 ip)
  else None.

(** A number in lower-case hexadecimal, without leading zeros. *)
Definition hex16 (z : Z) : string :=
  let digit n := String (hexdigit (Z.to_N ((z / 16 ^ n) mod 16)%Z)) "" in
  (if (4096 <=? z)%Z then digit 3%Z else "") +:+ (if (256 <=? z)%Z then digit 2%Z else "") +:+
  (if (16 <=? z)%Z then digit 1%Z else "") +:+ digit 0%Z.

Fixpoint groups16 (ip : IP) : list Z :=
  match ip with a :: b :: ip => (256 * a + b)%Z :: groups16 ip | _ => [] end.

Fixpoint zero_run (l : list Z) : nat :=
  match l with 0%Z :: l => S (zero_run l) | _ => 0%nat end.

(** Where the first of the longest runs of two or more zeros starts, and its length. *)
Fixpoint longest_run (i : nat) (l : list Z) (best : nat * nat) : nat * nat :=
  match l with
  | [] => best
  | _ :: l' =>
      let n := zero_run l in
      longest_run (S i) l' (if ((2 <=? n) && (best.2 <? n))%nat then (i, n) else best)
  end.

Fixpoint join_with (sep : string) (l : list string) : string :=
  match l with [] => "" | [x] => x | x :: l => x +:+ sep +:+ join_with sep l end.

Definition ip6_string (ip : IP) : string :=
  let g := groups16 ip in
  let '(i, n) := longest_run 0 g (0%nat, 0%nat) in
  if (n =? 0)%nat then join_with ":" (map hex16 g)
  else join_with ":" (map hex16 (take i g)) +:+ "::" +:+ join_with ":" (map hex16 (drop (i + n) g)).

(** [ip.String()]. *)
Definition IP_String (ip : IP) : string :=
  match To4 ip with
  | Some ip4 => join_with "." (map itoa ip4)
  | None =>
      if (length ip =? 16)%nat then ip6_string ip
      else if (length ip =? 0)%nat then "<nil>"
      else "?" +:+ EncodeToString (string_of_list_ascii (map byte_of ip))
  end.

Example IP_strings :
  map IP_String [[192; 168; 1; 9]; replicate 10 0 ++ [255; 255; 10; 0; 0; 1];
                 [254; 128] ++ replicate 13 0 ++ [1]; replicate 16 0;
                 [32; 1; 13; 184; 0; 0; 0; 0; 0; 1; 0; 0; 0; 0; 0; 1]; [1; 2]; []]%Z
  = ["192.168.1.9"; "10.0.0.1"; "fe80::1"; "::"; "2001:db8::1:0:0:1"; "?0102"; "<nil>"].
Proof. vm_compute. reflexivity. Qed.

(** [net.JoinHostPort]. *)
Definition JoinHostPort (host port : string) : string :=
  match Cut ":" host with
  | Some _ => "[" +:+ host +:+ "]:" +:+ port
  | None => host +:+ ":" +:+ port
  end.
