(* ===== verification/Dialing.v ===== *)
(** * The experiments: one dial for each peer

    Both transports of the experiments keep a set of the peers they are dialing, and only the side
    with the smaller name dials.  What this comes to, on the set and on the list of the goroutines
    that dial. *)
From S2P Require Import Prelude.

(** The set [d] is what the goroutines [l] are responsible for: one goroutine for each peer, and
    only for a peer this side [may] dial. *)
Record dial_ok (may : string → Prop) (d : gset string) (l : list string) : Prop := {
  do_nodup : NoDup l;
  do_dialing : ∀ f, f ∈ d ↔ f ∈ l;
  do_larger : ∀ f, f ∈ d → may f;
}.

Lemma dial_ok_perm may d l k : l ≡ₚ k → dial_ok may d l → dial_ok may d k.
Proof.
  intros Hp [Hn Hd Hl]. split; [by rewrite <-Hp| |done]. intros f. by rewrite Hd, Hp.
Qed.

Lemma dial_ok_empty may : dial_ok may ∅ [].
Proof. split; [constructor|set_solver|set_solver]. Qed.

Lemma dial_ok_add may d l f : dial_ok may d l → f ∉ d → may f → dial_ok may ({[f]} ∪ d) (f :: l).
Proof.
  intros [Hn Hd Hl] Hf Hs. split.
  - constructor; [by rewrite <-Hd|done].
  - intros g. rewrite elem_of_union, elem_of_singleton, elem_of_cons. by rewrite Hd.
  - intros g [->%elem_of_singleton|Hg]%elem_of_union; auto.
Qed.

Lemma dial_ok_del may d l f : dial_ok may d (f :: l) → dial_ok may (d ∖ {[f]}) l.
Proof.
  intros [[Hf Hn]%NoDup_cons Hd Hl]. split; [done| |].
  - intros g. rewrite elem_of_difference, elem_of_singleton, Hd, elem_of_cons.
    destruct (decide (g = f)) as [->|]; naive_solver.
  - intros g [Hg _]%elem_of_difference. auto.
Qed.

(** Of two different names exactly one is the smaller: only one side dials. *)
Lemma leb_one_way a b : a ≠ b → String.leb a b = negb (String.leb b a).
Proof.
  intros Hab. unfold String.leb. rewrite (String.compare_antisym a b).
  destruct (String.compare b a) eqn:E; [|done..].
  by apply String.compare_eq_iff in E as ->.
Qed.

Lemma leb_refl a : String.leb a a = true.
Proof.
  assert (String.compare a a = Eq) as E; [|by unfold String.leb; rewrite E].
  induction a as [|c a IH]; [done|]. cbn. rewrite IH.
  unfold Ascii.compare. by rewrite N.compare_refl.
Qed.
