(* ===== verification/Lan.v ===== *)
(** * The LAN experiment: zero-configuration mesh

    [experiments/lan-go/internal/lantransport/lantransport.go]: discovery by mDNS, connections by
    QUIC with self-signed certificates.  One daemon is the record of its fields together with the
    goroutines that run in it: those that dial, and those that serve a connection.  A step of
    [lan_step] is one critical section of the code, caused by what the network does.  The mDNS and
    QUIC libraries are parameters: what they deliver are the events, what they answer is [Net]. *)
From S2P Require Import Prelude GoStr GoPath GoOS GoNet Wire ProbeConfig ProbeIpc Dialing.
Open Scope string_scope.
Open Scope list_scope.

(** [crypto/sha256], [crypto/tls], [crypto/x509] and [encoding/pem]: a key pair is parsed to its
    chain of certificates, the leaf first. *)
Class Tls := {
  sha256_Sum256 : string → string;
  X509KeyPair : string → string → result string (string * list string);
  pem_EncodeToMemory : string → string → string;
}.

(** ** Identity *)

Section identity.
Context `{Tls}.

Definition certFP (der : string) : string := EncodeToString (sha256_Sum256 der).

(** What the calls of [generateSelfSigned] return: the key, the serial number, the certificate
    and the encoded key. *)
Record Keygen := mkKeygen {
  kg_key : result string string;
  kg_serial : result string Z;
  kg_der : string → Z → result string string;
  kg_pkcs8 : string → result string string;
}.

Definition generateSelfSigned (g : Keygen) : result string (string * string) :=
  match kg_key g with
  | Err e => Err e
  | Ok priv =>
      match kg_serial g with
      | Err e => Err e
      | Ok serial =>
          match kg_der g priv serial with
          | Err e => Err e
          | Ok der =>
              match kg_pkcs8 g priv with
              | Err e => Err e
              | Ok keyDER => Ok (pem_EncodeToMemory "CERTIFICATE" der,
                                 pem_EncodeToMemory "PRIVATE KEY" keyDER)
              end
          end
      end
  end.

(** The certificate chain, the fingerprint, and the files left behind. *)
Definition loadOrCreateIdentity (c : Store) (fs : FS) (g : Keygen)
    : result string (string * list string * string) * FS :=
  let certPath := Path c "tls_cert.pem" in
  let keyPath := Path c "tls_key.pem" in
  match ReadFile fs certPath, ReadFile fs keyPath with
  | Ok certPEM, Ok keyPEM =>
      match X509KeyPair certPEM keyPEM with
      | Err e => (Err ("parse identity cert: " +:+ e), fs)
      | Ok cert => (Ok (cert, certFP cert.1), fs)
      end
  | _, _ =>
      match generateSelfSigned g with
      | Err e => (Err e, fs)
      | Ok (certPEM, keyPEM) =>
          match WriteFile fs certPath certPEM with
          | (Err e, fs) => (Err (Error e), fs)
          | (Ok _, fs) =>
              match WriteFile fs keyPath keyPEM with
              | (Err e, fs) => (Err (Error e), fs)
              | (Ok _, fs) =>
                  match X509KeyPair certPEM keyPEM with
                  | Err e => (Err e, fs)
                  | Ok cert => (Ok (cert, certFP cert.1), fs)
                  end
              end
          end
      end
  end.
End identity.

(** ** Discovery *)

(** A [zeroconf.ServiceEntry]. *)
Record ServiceEntry := mkEntry {
  e_Text : list string;
  e_Port : Z;
  e_AddrIPv4 : list IP;
  e_AddrIPv6 : list IP;
}.

(** Room, fingerprint and port; of a key that comes twice, the last. *)
Definition parseTXT (txt : list string) : string * string * Z :=
  foldl (λ '(room, fp, port) kv,
    match Cut "=" kv with
    | None => (room, fp, port)
    | Some (k, v) =>
        if String.eqb k "room" then (v, fp, port)
        else if String.eqb k "fp" then (room, v, port)
        else if String.eqb k "port" then (room, fp, Atoi_value v)
        else (room, fp, port)
    end) ("", "", 0%Z) txt.

Definition pickAddr (e : ServiceEntry) (port : Z) : string :=
  match omap To4 (e_AddrIPv4 e) with
  | ip4 :: _ => JoinHostPort (IP_String ip4) (itoa port)
  | [] =>
      match e_AddrIPv6 e with
      | ip :: _ => JoinHostPort (IP_String ip) (itoa port)
      | [] => ""
      end
  end.

(** ** State *)

(** A [*quic.Conn]: its address in memory, the certificates of the peer and its remote address. *)
Record Conn := mkQConn { c_id : nat; c_certs : list string; c_addr : string }.

#[export] Instance Conn_eq_dec : EqDecision Conn.
Proof. solve_decision. Defined.

Record peerConn := mkPeerConn { pc_fp : string; pc_name : string; pc_addr : string; pc_conn : Conn }.

(** What the network answers: the port of a new listener, the error of registering the service,
    and for each connection the stream it opens, if it does. *)
Record Net := mkNet {
  n_listen : result string Z;
  n_register : option string;
  n_open : Conn → option writer;
}.

Record Lan := mkLan {
  room : string;
  deviceName : string;
  fp : string;
  port : Z;
  listening : bool;
  zserver : option (list string);    (** the TXT record that is advertised *)
  peers : gmap string peerConn;
  dialing : gset string;
  cancelled : bool;                  (** [t.ctx] *)
  net : Net;
  sent : list (Conn * string);       (** the streams written so far, and their bytes *)
}.

Definition set_peers (t : Lan) (p : gmap string peerConn) : Lan :=
  mkLan (room t) (deviceName t) (fp t) (port t) (listening t) (zserver t) p (dialing t)
    (cancelled t) (net t) (sent t).
Definition set_dialing (t : Lan) (d : gset string) : Lan :=
  mkLan (room t) (deviceName t) (fp t) (port t) (listening t) (zserver t) (peers t) d
    (cancelled t) (net t) (sent t).
Definition set_net (t : Lan) (n : Net) : Lan :=
  mkLan (room t) (deviceName t) (fp t) (port t) (listening t) (zserver t) (peers t) (dialing t)
    (cancelled t) n (sent t).
Definition set_sent (t : Lan) (s : list (Conn * string)) : Lan :=
  mkLan (room t) (deviceName t) (fp t) (port t) (listening t) (zserver t) (peers t) (dialing t)
    (cancelled t) (net t) s.

(** ** Operations *)

Section lan.
Context `{Tls} `{Cbor Envelope}.

Definition New_ (c : Store) (fs : FS) (g : Keygen) (n : Net) (room deviceName : string)
    : result string Lan * FS :=
  match loadOrCreateIdentity c fs g with
  | (Err e, fs) => (Err e, fs)
  | (Ok (_, fp), fs) => (Ok (mkLan room deviceName fp 0 false None ∅ ∅ false n []), fs)
  end.

(** The TXT record of [Start]. *)
Definition txt_record (t : Lan) : list string :=
  ["room=" +:+ room t; "fp=" +:+ fp t; "port=" +:+ itoa (port t); "name=" +:+ deviceName t].

Definition lan_Start (t : Lan) : option string * Lan :=
  match n_listen (net t) with
  | Err e => (Some ("quic listen: " +:+ e), t)
  | Ok p =>
      let t := mkLan (room t) (deviceName t) (fp t) p true (zserver t) (peers t) (dialing t)
                 (cancelled t) (net t) (sent t) in
      match n_register (net t) with
      | Some e =>
          (Some ("mdns register: " +:+ e),
           mkLan (room t) (deviceName t) (fp t) (port t) false (zserver t) (peers t) (dialing t)
             (cancelled t) (net t) (sent t))
      | None =>
          (None, mkLan (room t) (deviceName t) (fp t) (port t) true (Some (txt_record t)) (peers t)
                   (dialing t) (cancelled t) (net t) (sent t))
      end
  end.

Definition clearDialing (t : Lan) (fp : string) : Lan := set_dialing t (dialing t ∖ {[fp]}).

(** [handleEntry]: the goroutine it starts, as the address and the fingerprint it dials. *)
Definition handleEntry (t : Lan) (e : ServiceEntry) : option (string * string) * Lan :=
  let '(room', fp', port') := parseTXT (e_Text e) in
  if String.eqb fp' "" || negb (String.eqb room' (room t)) then (None, t)
  else if String.eqb fp' (fp t) then (None, t)
  else
    let port' := if (port' =? 0)%Z then e_Port e else port' in
    if String.leb fp' (fp t) then (None, t)
    else if bool_decide (is_Some (peers t !! fp')) || bool_decide (fp' ∈ dialing t) then (None, t)
    else
      let t := set_dialing t ({[fp']} ∪ dialing t) in
      let addr := pickAddr e port' in
      if String.eqb addr "" then (None, clearDialing t fp')
      else (Some (addr, fp'), t).

(** [handleConn] up to its loop: the fingerprint it registered, or nothing when it closes the
    connection and returns. *)
Definition handleConn (t : Lan) (c : Conn) : option string * Lan :=
  match c_certs c with
  | [] => (None, t)
  | der :: _ =>
      let peerFP := certFP der in
      if String.eqb peerFP (fp t) then (None, t)
      else
        match peers t !! peerFP with
        | Some ex =>
            if bool_decide (c_id (pc_conn ex) ≠ c_id c) then (None, t)
            else (Some peerFP, set_peers t (<[peerFP := mkPeerConn peerFP "" (c_addr c) c]> (peers t)))
        | None =>
            (Some peerFP, set_peers t (<[peerFP := mkPeerConn peerFP "" (c_addr c) c]> (peers t)))
        end
  end.

(** Its deferred function. *)
Definition handleConn_end (t : Lan) (c : Conn) (peerFP : string) : Lan :=
  match peers t !! peerFP with
  | Some cur =>
      if (c_id (pc_conn cur) =? c_id c)%nat then set_peers t (delete peerFP (peers t)) else t
  | None => t
  end.

(** What [readStream] hands to the daemon. *)
Definition readStream (rd : reader) : option Envelope :=
  match (ReadFrame rd).1 with
  | Err _ => None
  | Ok frame => match Unmarshal frame with Err _ => None | Ok env => Some env end
  end.

(** One stream to each peer that opens one. *)
Definition broadcast_one (t : Lan) (frame : string) (p : peerConn) : list (Conn * string) :=
  match n_open (net t) (pc_conn p) with
  | None => []
  | Some w => [(pc_conn p, w_buf (WriteFrame w frame).2)]
  end.

Definition lan_Broadcast (t : Lan) (env : Envelope) : option string * Lan :=
  match Marshal env with
  | Err e => (Some e, t)
  | Ok frame =>
      (None, set_sent t (sent t ++ flat_map (broadcast_one t frame) (map snd (map_to_list (peers t)))))
  end.

Definition lan_Peers (t : Lan) : list Peer :=
  map (λ p : peerConn, mkPeer (pc_fp p) (pc_name p) (pc_addr p)) (map snd (map_to_list (peers t))).

Definition lan_Close (t : Lan) : Lan :=
  mkLan (room t) (deviceName t) (fp t) (port t) false None ∅ (dialing t) true (net t) (sent t).

(** The transport of the daemon. *)
#[export] Instance lan_transport : ProbeIpc.Transport Lan := {
  Identity := fp;
  Start := lan_Start;
  Broadcast := lan_Broadcast;
  Peers := lan_Peers;
  Close := lan_Close;
}.

(** ** The goroutines *)

(** A goroutine in the loop of [handleConn]; [h_expect]: the fingerprint [dial] was given, if it
    was [dial] that called it. *)
Record handler := mkHandler { h_conn : Conn; h_peer : string; h_expect : option string }.

Record World := mkWorld {
  tr : Lan;
  dials : list (string * string);    (** address and fingerprint of each [DialAddr] in progress *)
  handlers : list handler;
  ending : list string;              (** calls of [dial] that still have to run [clearDialing] *)
}.

Inductive event :=
| Discovered (e : ServiceEntry)
| Accepted (c : Conn)
| DialFailed (addr fp : string)
| DialOk (addr fp : string) (c : Conn)
| Dropped (h : handler)              (** [AcceptUniStream] fails *)
| Cleared (fp : string)
| Streamed (h : handler) (rd : reader)
| Network (n : Net)
| Send (env : Envelope)
| Shutdown.

(** [handleConn] called by [expect]; what [dial] defers runs at once when it returns at once. *)
Definition serve (t : Lan) (ds : list (string * string)) (hs : list handler) (en : list string)
    (c : Conn) (expect : option string) : World :=
  match handleConn t c with
  | (Some peerFP, t) => mkWorld t ds (mkHandler c peerFP expect :: hs) en
  | (None, t) =>
      mkWorld (match expect with Some f => clearDialing t f | None => t end) ds hs en
  end.

(** A connection that is new: no handler has it. *)
Definition new_conn (w : World) (c : Conn) : Prop :=
  Forall (λ h, c_id (h_conn h) ≠ c_id c) (handlers w).

Inductive lan_step (w : World) : event → World → Prop :=
| step_discovered e d t :
    handleEntry (tr w) e = (d, t) →
    lan_step w (Discovered e) (mkWorld t (option_list d ++ dials w) (handlers w) (ending w))
| step_accepted c :
    new_conn w c →
    lan_step w (Accepted c) (serve (tr w) (dials w) (handlers w) (ending w) c None)
| step_dial_failed addr f pre post :
    dials w = pre ++ (addr, f) :: post →
    lan_step w (DialFailed addr f)
      (mkWorld (clearDialing (tr w) f) (pre ++ post) (handlers w) (ending w))
| step_dial_ok addr f c pre post :
    dials w = pre ++ (addr, f) :: post → new_conn w c →
    lan_step w (DialOk addr f c) (serve (tr w) (pre ++ post) (handlers w) (ending w) c (Some f))
| step_dropped h pre post :
    handlers w = pre ++ h :: post →
    lan_step w (Dropped h)
      (mkWorld (handleConn_end (tr w) (h_conn h) (h_peer h)) (dials w) (pre ++ post)
         (option_list (h_expect h) ++ ending w))
| step_cleared f pre post :
    ending w = pre ++ f :: post →
    lan_step w (Cleared f) (mkWorld (clearDialing (tr w) f) (dials w) (handlers w) (pre ++ post))
| step_streamed h rd : h ∈ handlers w → lan_step w (Streamed h rd) w
| step_network n :
    lan_step w (Network n) (mkWorld (set_net (tr w) n) (dials w) (handlers w) (ending w))
| step_send env :
    lan_step w (Send env)
      (mkWorld (lan_Broadcast (tr w) env).2 (dials w) (handlers w) (ending w))
| step_shutdown :
    lan_step w Shutdown (mkWorld (lan_Close (tr w)) (dials w) (handlers w) (ending w)).

(** [browseOnce]: one [handleEntry] for each service found, in the order in which they come;
    [resolver]: the error of [NewResolver]. *)
Definition discovered (w : World) (e : ServiceEntry) : World :=
  let '(d, t) := handleEntry (tr w) e in
  mkWorld t (option_list d ++ dials w) (handlers w) (ending w).

Definition browseOnce (w : World) (resolver : option string) (found : list ServiceEntry) : World :=
  match resolver with
  | Some _ => w
  | None => foldl discovered w found
  end.

(** A round of [browseLoop]; [b_others]: what the other goroutines do until the next one. *)
Record Browse := mkBrowse {
  b_resolver : option string;
  b_found : list ServiceEntry;
  b_others : World → World;
}.

(** As many rounds of [browseLoop] as are given, or fewer when [t.ctx] is cancelled. *)
Fixpoint browseLoop (rounds : list Browse) (w : World) : World :=
  match rounds with
  | [] => w
  | b :: rounds =>
      if cancelled (tr w) then w
      else
        let w := b_others b (browseOnce w (b_resolver b) (b_found b)) in
        if cancelled (tr w) then w else browseLoop rounds w
  end.

(** Any number of steps from a transport that has just started. *)
Inductive reachable (t : Lan) : World → Prop :=
| reach_start : reachable t (mkWorld t [] [] [])
| reach_step w ev w' : reachable t w → lan_step w ev w' → reachable t w'.

(** ** The invariant *)

(** The fingerprints that some call of [dial] is responsible for. *)
Definition dialed (w : World) : list string :=
  map snd (dials w) ++ omap h_expect (handlers w) ++ ending w.

(** What is true of a connection that is served. *)
Definition handler_ok (t : Lan) (h : handler) : Prop :=
  (∃ der rest, c_certs (h_conn h) = der :: rest ∧ h_peer h = certFP der) ∧ h_peer h ≠ fp t.

(** The peers are the connections that are served. *)
Record conn_ok (t : Lan) (hs : list handler) : Prop := {
  co_handlers : Forall (handler_ok t) hs;
  co_ids : NoDup (map (c_id ∘ h_conn) hs);
  co_peers : ∀ f pc, peers t !! f = Some pc →
    ∃ h, h ∈ hs ∧ h_peer h = f ∧ pc = mkPeerConn f "" (c_addr (h_conn h)) (h_conn h);
  co_live : cancelled t = false → ∀ h, h ∈ hs →
    ∃ pc, peers t !! h_peer h = Some pc ∧ pc_conn pc = h_conn h;
}.

(** The map [dialing] is what the calls of [dial] are responsible for, and only for larger
    fingerprints. *)
Definition lan_ok (w : World) : Prop :=
  conn_ok (tr w) (handlers w) ∧ dial_ok (λ f, String.leb f (fp (tr w)) = false) (dialing (tr w)) (dialed w).

Lemma dialed_dials t t' ds hs en d pre post :
  ds = pre ++ d :: post →
  dialed (mkWorld t ds hs en) ≡ₚ d.2 :: dialed (mkWorld t' (pre ++ post) hs en).
Proof.
  intros ->. unfold dialed. cbn [dials handlers ending]. rewrite !map_app. cbn [map].
  rewrite <-!app_assoc. cbn [app]. by rewrite <-Permutation_middle.
Qed.

(** ** Every step keeps it *)

Lemma handleEntry_spec t e d t' :
  handleEntry t e = (d, t') →
  (∃ s, d = None ∧ t' = set_dialing t s ∧ ∀ f, f ∈ s ↔ f ∈ dialing t) ∨
  ∃ addr f, d = Some (addr, f) ∧ t' = set_dialing t ({[f]} ∪ dialing t) ∧
    f ∉ dialing t ∧ peers t !! f = None ∧ String.leb f (fp t) = false.
Proof.
  unfold handleEntry. destruct (parseTXT (e_Text e)) as [[r f] p].
  assert (∃ s, None = None :> option (string * string) ∧ t = set_dialing t s ∧ ∀ f, f ∈ s ↔ f ∈ dialing t)
    as Ht by (exists (dialing t); split_and!; [done|by destruct t|done]).
  destruct (_ || _); [intros [= <- <-]; by left|].
  destruct (String.eqb f (fp t)); [intros [= <- <-]; by left|].
  destruct (String.leb f (fp t)) eqn:El; [intros [= <- <-]; by left|].
  destruct (bool_decide (is_Some (peers t !! f))) eqn:Ep; [intros [= <- <-]; by left|].
  destruct (bool_decide (f ∈ dialing t)) eqn:Ed; [intros [= <- <-]; by left|].
  apply bool_decide_eq_false in Ep, Ed. cbn [orb].
  destruct (String.eqb _ ""); intros [= <- <-].
  - left. eexists. split_and!; [done|done|]. intros g. cbn. set_solver.
  - right. eexists _, f. split_and!; try done. by apply eq_None_not_Some.
Qed.

Lemma conn_ok_frame t t' hs :
  fp t' = fp t → peers t' = peers t → cancelled t' = cancelled t → conn_ok t hs → conn_ok t' hs.
Proof. intros Hf Hp Hc []. split; unfold handler_ok in *; by rewrite ?Hf, ?Hp, ?Hc. Qed.

Lemma handleConn_spec t c r t' :
  handleConn t c = (r, t') →
  r = None ∧ t' = t ∨
  ∃ der rest f, c_certs c = der :: rest ∧ f = certFP der ∧ f ≠ fp t ∧ r = Some f ∧
    (∀ ex, peers t !! f = Some ex → c_id (pc_conn ex) = c_id c) ∧
    t' = set_peers t (<[f := mkPeerConn f "" (c_addr c) c]> (peers t)).
Proof.
  unfold handleConn. destruct (c_certs c) as [|der rest]; [intros [= <- <-]; by left|].
  destruct (String.eqb_spec (certFP der) (fp t)); [intros [= <- <-]; by left|].
  destruct (peers t !! certFP der) as [ex|] eqn:E.
  - case_bool_decide; intros [= <- <-]; [by left|]. right. eexists der, rest, _.
    split_and!; try done. intros ex' Hx. assert (ex' = ex) as -> by congruence.
    destruct (decide (c_id (pc_conn ex) = c_id c)); tauto.
  - intros [= <- <-]. right. eexists der, rest, _. split_and!; try done. intros ex' Hx. congruence.
Qed.

(** A new connection is served. *)
Lemma conn_ok_open t hs c f e der rest :
  conn_ok t hs → Forall (λ h, c_id (h_conn h) ≠ c_id c) hs →
  c_certs c = der :: rest → f = certFP der → f ≠ fp t →
  (∀ ex, peers t !! f = Some ex → c_id (pc_conn ex) = c_id c) →
  conn_ok (set_peers t (<[f := mkPeerConn f "" (c_addr c) c]> (peers t))) (mkHandler c f e :: hs).
Proof.
  intros [Hh Hi Hp Hl] Hnew Hc Hf Hs Hex. rewrite Forall_forall in Hnew.
  assert (peers t !! f = None) as Hno.
  { destruct (peers t !! f) as [ex|] eqn:E; [|done]. specialize (Hex ex eq_refl).
    destruct (Hp f ex E) as (h & Hin & _ & ->). by destruct (Hnew h Hin). }
  split; cbn [peers set_peers cancelled].
  - constructor; [|done]. split; [by eauto|done].
  - cbn. constructor; [|done]. intros (h & Hid & Hin)%list_elem_of_fmap. by destruct (Hnew h Hin).
  - intros g pc. rewrite lookup_insert. case_decide as Hg.
    + intros [= <-]. eexists. split; [by left|]. by subst.
    + intros (h & Hin & Hr)%Hp. exists h. split; [by right|done].
  - intros Hcan h [->|Hin]%elem_of_cons; cbn [h_peer h_conn].
    + eexists. by rewrite lookup_insert_eq.
    + destruct (Hl Hcan h Hin) as (pc & Hpc & Heq). exists pc. split; [|done].
      rewrite lookup_insert_ne; [done|]. congruence.
Qed.

(** A connection ends. *)
Lemma conn_ok_close t pre h post :
  conn_ok t (pre ++ h :: post) →
  conn_ok (handleConn_end t (h_conn h) (h_peer h)) (pre ++ post).
Proof.
  intros [Hh Hi Hp Hl].
  assert (∀ g, g ∈ pre ++ h :: post → g = h ∨ g ∈ pre ++ post) as Hin by set_solver.
  assert (∀ g, g ∈ pre ++ post → g ∈ pre ++ h :: post) as Hsub by set_solver.
  rewrite map_app in Hi. cbn in Hi. rewrite <-Permutation_middle, <-map_app in Hi.
  apply NoDup_cons in Hi as [Hid Hi].
  assert (∀ g, g ∈ pre ++ post → c_id (h_conn g) ≠ c_id (h_conn h)) as Hne.
  { intros g Hg E. apply Hid, list_elem_of_fmap. by exists g. }
  assert (Forall (handler_ok t) (pre ++ post)) as Hok.
  { apply Forall_app in Hh as [H1 [_ H2]%Forall_cons]. by apply Forall_app. }
  unfold handleConn_end. destruct (peers t !! h_peer h) as [cur|] eqn:E.
  2: { split; [done|done| |].
    - intros f pc Hf. destruct (Hp f pc Hf) as (g & Hg & Hgf & Hpc). exists g. split; [|done].
      destruct (Hin g Hg) as [->|]; [congruence|done].
    - intros Hcan g Hg. by apply Hl, Hsub. }
  destruct (Nat.eqb_spec (c_id (pc_conn cur)) (c_id (h_conn h))) as [Hc|Hc].
  - split; cbn [peers set_peers cancelled]; [done|done| |].
    + intros f pc [Hf Hpc]%lookup_delete_Some. destruct (Hp f pc Hpc) as (g & Hg & Hgf & ->).
      exists g. split; [|done]. destruct (Hin g Hg) as [->|]; [congruence|done].
    + intros Hcan g Hg. destruct (Hl Hcan g (Hsub g Hg)) as (pc & Hpc & Heq). exists pc. split; [|done].
      apply lookup_delete_Some. split; [|done]. intros Hpe. destruct (Hne g Hg).
      rewrite <-Heq. rewrite <-Hpe in Hpc. congruence.
  - split; [done|done| |].
    + intros f pc Hf. destruct (Hp f pc Hf) as (g & Hg & Hgf & Hpc). exists g. split; [|done].
      destruct (Hin g Hg) as [->|]; [|done]. subst. rewrite E in Hf. by injection Hf as ->.
    + intros Hcan g Hg. by apply Hl, Hsub.
Qed.

(** A connection that [handleConn] gets, for a fingerprint [expect] was to dial. *)
Lemma serve_ok t ds hs en c :
  lan_ok (mkWorld t ds hs en) → new_conn (mkWorld t ds hs en) c →
  lan_ok (serve t ds hs en c None).
Proof.
  intros [Hc Hd] Hn. unfold serve. destruct (handleConn t c) as [r t'] eqn:E.
  apply handleConn_spec in E as [[-> ->]|(der & rest & f & Hcert & Hf & Hs & -> & Hex & ->)]; [done|].
  split; [by eapply conn_ok_open|done].
Qed.

Lemma serve_dialed_ok t pre post hs en addr f c :
  lan_ok (mkWorld t (pre ++ (addr, f) :: post) hs en) →
  Forall (λ h, c_id (h_conn h) ≠ c_id c) hs →
  lan_ok (serve t (pre ++ post) hs en c (Some f)).
Proof.
  intros [Hc Hd] Hn. cbn [tr handlers] in *.
  pose proof (dial_ok_perm _ _ _ _ (dialed_dials t t _ hs en (addr, f) pre post eq_refl) Hd) as Hd'.
  unfold serve. destruct (handleConn t c) as [r t'] eqn:E.
  apply handleConn_spec in E as [[-> ->]|(der & rest & g & Hcert & Hg & Hs & -> & Hex & ->)].
  - split; cbn [tr handlers]; [by apply (conn_ok_frame t)|]. by apply dial_ok_del.
  - split; [by eapply conn_ok_open|]. eapply dial_ok_perm; [|exact Hd'].
    unfold dialed. cbn. by rewrite <-Permutation_middle.
Qed.

Lemma lan_step_ok w ev w' : lan_ok w → lan_step w ev w' → lan_ok w'.
Proof.
  destruct w as [t ds hs en]. intros Hok Hs. destruct Hs; cbn [tr dials handlers ending] in *.
  - destruct Hok as [Hc Hd]. cbn in Hc, Hd.
    destruct (handleEntry_spec _ _ _ _ H1) as [(s & -> & -> & Hdi)|(addr & f & -> & -> & Hno & Hp & Hl)].
    + split; [by apply (conn_ok_frame t)|]. cbn. destruct Hd as [Hn Hf Hl].
      split; [done| |]; intros f; rewrite Hdi; [apply Hf|apply Hl].
    + split; [by apply (conn_ok_frame t)|]. cbn. by apply dial_ok_add.
  - by apply serve_ok.
  - subst ds. destruct Hok as [Hc Hd]. split; [by apply (conn_ok_frame t)|]. apply dial_ok_del.
    eapply dial_ok_perm; [|exact Hd]. by apply (dialed_dials _ _ _ _ _ (addr, f)).
  - subst ds. by eapply serve_dialed_ok.
  - subst hs. destruct Hok as [Hc Hd]. split; [by apply conn_ok_close|]. cbn.
    assert (dialing (handleConn_end t (h_conn h) (h_peer h)) = dialing t ∧
            fp (handleConn_end t (h_conn h) (h_peer h)) = fp t) as [-> ->].
    { unfold handleConn_end. by repeat case_match. }
    eapply dial_ok_perm; [|exact Hd]. unfold dialed. cbn [dials handlers ending].
    rewrite !omap_app. apply Permutation_app_head. cbn. destruct (h_expect h); cbn; [|done].
    rewrite <-!app_assoc. cbn. by rewrite <-!Permutation_middle.
  - subst en. destruct Hok as [Hc Hd]. split; [by apply (conn_ok_frame t)|]. apply dial_ok_del.
    eapply dial_ok_perm; [|exact Hd]. unfold dialed. cbn.
    rewrite !app_assoc. by rewrite <-Permutation_middle.
  - done.
  - destruct Hok as [Hc Hd]. by split; [apply (conn_ok_frame t)|].
  - destruct Hok as [Hc Hd]. unfold lan_Broadcast. by destruct (Marshal env); split; [apply (conn_ok_frame t)| |apply (conn_ok_frame t)|].
  - destruct Hok as [[Hh Hi _ _] Hd]. split; [|done]. split; [done|done| |done].
    intros f pc Hf. by apply (lookup_empty_Some (M := gmap string) f pc) in Hf.
Qed.
End lan.
