(* ===== verification/LanProps.v ===== *)
(** * The LAN experiment: what the mesh promises

    The theorems on [Lan]: the invariant of the goroutines, how two daemons find each other, what
    reaches a peer, and what nobody checks. *)
From S2P Require Import Prelude GoStr GoPath GoOS GoNet Wire Codec Chan Dedupe Clip ProbeConfig ProbeIpc ProbeDaemon ProbeHandlers Dialing Lan.
From S2P Require Daemon Handlers Sinks.
Open Scope string_scope.
Open Scope list_scope.

Lemma NoDup_map_inj {A B} (f : A → B) l x y :
  NoDup (map f l) → x ∈ l → y ∈ l → f x = f y → x = y.
Proof.
  induction l as [|a l IH]; cbn; intros Hn Hx; [by apply elem_of_nil in Hx|].
  apply NoDup_cons in Hn as [Ha Hl]. revert Hx.
  intros Hx Hy Hf. apply elem_of_cons in Hx as [->|Hx], Hy as [->|Hy]; [done| | |by apply IH].
  - destruct Ha. rewrite Hf. by apply list_elem_of_fmap_2.
  - destruct Ha. rewrite <-Hf. by apply list_elem_of_fmap_2.
Qed.

Lemma applyAutoCopy_buffer {T} `{Blake3} `{Clipboard} (d : Daemon T) it :
  buffer (applyAutoCopy d it) = buffer d.
Proof. unfold applyAutoCopy. by repeat case_match. Qed.

Lemma routeSinks_buffer {T} `{Blake3} (d : Daemon T) it : buffer (routeSinks d it) = buffer d.
Proof.
  assert (∀ dir n x, buffer (saveToDir d dir n x) = buffer d) as Hs.
  { intros. unfold saveToDir. by repeat case_match. }
  unfold routeSinks, appendTextFile, recordTextBaseline. repeat case_match; by rewrite ?Hs.
Qed.

Section lan.
Context `{Tls} `{Cbor Envelope}.

(** ** The invariant *)

Lemma lan_ok_start t : peers t = ∅ → dialing t = ∅ → lan_ok (mkWorld t [] [] []).
Proof.
  intros Hp Hd. split; cbn.
  - split; [constructor|constructor| |].
    + intros f pc Hf. rewrite Hp in Hf. by apply (lookup_empty_Some (M := gmap string) f pc) in Hf.
    + intros _ h Hh. by apply elem_of_nil in Hh.
  - rewrite Hd. split; [constructor|set_solver|set_solver].
Qed.

Lemma reachable_ok t w : peers t = ∅ → dialing t = ∅ → reachable t w → lan_ok w.
Proof.
  intros Hp Hd Hr. induction Hr as [|w ev w' _ IH Hs]; [by apply lan_ok_start|].
  by eapply lan_step_ok.
Qed.

(** C10. The mesh, whatever the network does, from a transport that has just been started.  A daemon
    is never its own peer; every peer is a connection that is being served and whose certificate
    has the peer's fingerprint, and until the transport is closed every connection that is served
    is a peer, so that there is at most one to each; and for each fingerprint at most one call of
    [dial] is in progress, only for fingerprints larger than the daemon's own. *)
Theorem lan_mesh_ok t w :
  peers t = ∅ → dialing t = ∅ → reachable t w →
  peers (tr w) !! fp (tr w) = None ∧
  (∀ f p, peers (tr w) !! f = Some p →
     pc_fp p = f ∧ (∃ der rest, c_certs (pc_conn p) = der :: rest ∧ certFP der = f) ∧
     ∃ h, h ∈ handlers w ∧ h_conn h = pc_conn p) ∧
  (cancelled (tr w) = false → NoDup (map h_peer (handlers w)) ∧
     ∀ h, h ∈ handlers w → is_Some (peers (tr w) !! h_peer h)) ∧
  NoDup (dialed w) ∧ (∀ f, f ∈ dialed w → String.leb f (fp (tr w)) = false).
Proof.
  intros Hp Hd Hr. destruct (reachable_ok t w Hp Hd Hr) as [[Hh Hi Hpe Hl] [Hn Hdi Hla]].
  rewrite Forall_forall in Hh. split_and!.
  - destruct (peers (tr w) !! fp (tr w)) as [p|] eqn:E; [|done].
    destruct (Hpe _ _ E) as (h & Hin & Hf & _). by destruct (Hh h Hin) as [_ Hne].
  - intros f p Hf. destruct (Hpe f p Hf) as (h & Hin & Hg & ->). split; [done|].
    destruct (Hh h Hin) as [(der & rest & Hc & Hder) _]. split; [|by exists h].
    exists der, rest. split; [done|congruence].
  - intros Hcan. specialize (Hl Hcan). split.
    + apply NoDup_fmap_2_strong; [|by eapply NoDup_fmap_1]. intros a b Ha Hb Hab.
      destruct (Hl a Ha) as (p & Hpa & Hca). destruct (Hl b Hb) as (q & Hqb & Hcb).
      rewrite <-Hab, Hpa in Hqb. injection Hqb as <-.
      apply (NoDup_map_inj (c_id ∘ h_conn) (handlers w)); [done..|]. cbn. congruence.
    + intros h Hin. destruct (Hl h Hin) as (p & -> & _). by eexists.
  - done.
  - intros f Hf. by apply Hla, Hdi.
Qed.

(** ** Discovery *)

Lemma parse_txt_record t :
  (0 ≤ port t < 2 ^ 63)%Z → parseTXT (txt_record t) = (room t, fp t, port t).
Proof. intros Hp. unfold parseTXT, txt_record. cbn. by rewrite Atoi_itoa. Qed.

(** An entry of the mDNS library that shows another daemon's service. *)
Definition shows (e : ServiceEntry) (t : Lan) : Prop :=
  e_Text e = txt_record t ∧ pickAddr e (port t) ≠ "".

(** The other side is not known yet. *)
Definition unknown (t : Lan) (f : string) : Prop := peers t !! f = None ∧ f ∉ dialing t.

Lemma handleEntry_shows t u e :
  shows e u → room t = room u → (0 < port u < 2 ^ 16)%Z → fp u ≠ "" → fp u ≠ fp t →
  unknown t (fp u) →
  (handleEntry t e).1 =
    if String.leb (fp u) (fp t) then None else Some (pickAddr e (port u), fp u).
Proof.
  intros [Ht Ha] Hr Hp Hne Hself [Hpe Hdi]. unfold handleEntry.
  rewrite Ht, parse_txt_record by lia. rewrite (proj2 (String.eqb_neq _ _) Hne), Hr, String.eqb_refl.
  cbn [negb orb]. rewrite (proj2 (String.eqb_neq _ _) Hself), (proj2 (Z.eqb_neq _ _)) by lia.
  destruct (String.leb (fp u) (fp t)); [done|]. rewrite Hpe.
  rewrite bool_decide_false by by intros []. rewrite bool_decide_false by done. cbn [orb].
  by rewrite (proj2 (String.eqb_neq _ _) Ha).
Qed.

Lemma handleConn_peer t c der rest :
  c_certs c = der :: rest → certFP der ≠ fp t → peers t !! certFP der = None →
  peers (handleConn t c).2 !! certFP der = Some (mkPeerConn (certFP der) "" (c_addr c) c).
Proof.
  intros Hc Hs Hp. unfold handleConn. rewrite Hc, (proj2 (String.eqb_neq _ _) Hs), Hp.
  apply lookup_insert_eq.
Qed.

(** How two daemons of a room meet.  When each sees the other's service, exactly one of them
    dials, the one with the smaller fingerprint; and the connection it makes, with the two
    certificates, makes each the other's peer. *)
Theorem lan_rendezvous t u et eu der_t der_u ct cu rt ru :
  shows eu u → shows et t → room t = room u →
  (0 < port t < 2 ^ 16)%Z → (0 < port u < 2 ^ 16)%Z →
  fp t = certFP der_t → fp u = certFP der_u → fp t ≠ "" → fp u ≠ "" → fp t ≠ fp u →
  unknown t (fp u) → unknown u (fp t) →
  c_certs ct = der_u :: ru → c_certs cu = der_t :: rt →
  (((handleEntry t eu).1 = Some (pickAddr eu (port u), fp u) ∧ (handleEntry u et).1 = None) ∨
   ((handleEntry t eu).1 = None ∧ (handleEntry u et).1 = Some (pickAddr et (port t), fp t))) ∧
  pc_conn <$> peers (handleConn t ct).2 !! fp u = Some ct ∧
  pc_conn <$> peers (handleConn u cu).2 !! fp t = Some cu.
Proof.
  intros Hsu Hst Hr Hpt Hpu Ht Hu Hnt Hnu Hne Ht' Hu' Hct Hcu. split.
  - rewrite (handleEntry_shows t u eu) by done.
    rewrite (handleEntry_shows u t et) by done. rewrite (leb_one_way (fp t) (fp u)) by done.
    destruct (String.leb (fp u) (fp t)); cbn [negb]; [by right|by left].
  - destruct Ht' as [Ht' _], Hu' as [Hu' _]. rewrite Hu in *. rewrite Ht in *. split.
    + erewrite handleConn_peer; [done|exact Hct|congruence|done].
    + erewrite handleConn_peer; [done|exact Hcu|congruence|done].
Qed.

(** ** Browsing *)

Lemma discovered_reachable t w e : reachable t w → reachable t (discovered w e).
Proof.
  intros Hr. unfold discovered. destruct (handleEntry (tr w) e) as [d t'] eqn:E.
  eapply reach_step; [exact Hr|]. by apply step_discovered.
Qed.

Lemma browseOnce_reachable t w r found : reachable t w → reachable t (browseOnce w r found).
Proof.
  unfold browseOnce. destruct r; [done|]. revert w. induction found as [|e found IH]; intros w Hr; [done|].
  cbn [foldl]. by apply IH, discovered_reachable.
Qed.

(** Browsing is nothing but discoveries: what it leads to, the theorems on the mesh are about. *)
Lemma browseLoop_reachable t rounds w :
  Forall (λ b, ∀ w, reachable t w → reachable t (b_others b w)) rounds →
  reachable t w → reachable t (browseLoop rounds w).
Proof.
  intros Hf. revert w. induction Hf as [|b rounds Hb _ IH]; intros w Hr; [done|]. cbn [browseLoop].
  destruct (cancelled _); [done|]. cbv zeta.
  assert (reachable t (b_others b (browseOnce w (b_resolver b) (b_found b)))) as Hw
    by by apply Hb, browseOnce_reachable.
  destruct (cancelled _); [done|by apply IH].
Qed.

(** The fingerprint is not a peer, and a dial that is pending for it is one of [dials]. *)
Definition sought (w : World) (f : string) : Prop :=
  peers (tr w) !! f = None ∧ (f ∈ dialing (tr w) → f ∈ map snd (dials w)).

Lemma discovered_same w e :
  fp (tr (discovered w e)) = fp (tr w) ∧ room (tr (discovered w e)) = room (tr w) ∧
  dials w ⊆ dials (discovered w e).
Proof.
  unfold discovered. destruct (handleEntry (tr w) e) as [d t'] eqn:E. cbn [tr dials].
  destruct (handleEntry_spec _ _ _ _ E) as [(s & -> & -> & _)|(a & f & -> & -> & _)]; set_solver.
Qed.

Lemma discovered_sought w e f : sought w f → sought (discovered w e) f.
Proof.
  intros [Hp Hd]. unfold discovered. destruct (handleEntry (tr w) e) as [d t'] eqn:E.
  destruct (handleEntry_spec _ _ _ _ E) as [(s & -> & -> & Hs)|(a & g & -> & -> & _)];
    (split; [exact Hp|]); cbn; [intros ?%Hs; by apply Hd|set_solver].
Qed.

(** An entry that shows a larger fingerprint has it dialed, if it was not. *)
Lemma discovered_shows w e u :
  shows e u → room (tr w) = room u → (0 < port u < 2 ^ 16)%Z → fp u ≠ "" →
  String.leb (fp u) (fp (tr w)) = false → sought w (fp u) →
  fp u ∈ map snd (dials (discovered w e)).
Proof.
  intros Hs Hr Hp Hne Hlt [Hpe Hd]. assert (fp u ≠ fp (tr w)) as Hself.
  { intros E. by rewrite E, leb_refl in Hlt. }
  destruct (decide (fp u ∈ dialing (tr w))) as [Hin|Hout].
  - apply Hd in Hin as (y & -> & Hy)%list_elem_of_fmap. apply list_elem_of_fmap. exists y.
    split; [done|]. by apply (discovered_same w e).
  - pose proof (handleEntry_shows (tr w) u e Hs Hr Hp Hne Hself (conj Hpe Hout)) as He. rewrite Hlt in He.
    unfold discovered. destruct (handleEntry (tr w) e) as [d t']. cbn [fst] in He. subst d. by left.
Qed.

Lemma discovered_all_dials w found : dials w ⊆ dials (foldl discovered w found).
Proof.
  revert w. induction found as [|e found IH]; intros w; [done|]. cbn [foldl].
  etrans; [apply (discovered_same w e)|apply IH].
Qed.

Lemma browse_dials w e u found :
  shows e u → e ∈ found → room (tr w) = room u → (0 < port u < 2 ^ 16)%Z → fp u ≠ "" →
  String.leb (fp u) (fp (tr w)) = false → sought w (fp u) →
  ∃ addr, (addr, fp u) ∈ dials (foldl discovered w found).
Proof.
  intros Hs Hin Hr Hp Hne Hlt Hso. revert w Hin Hr Hlt Hso.
  induction found as [|a found IH]; intros w Hin Hr Hlt Hso; [by apply elem_of_nil in Hin|].
  cbn [foldl]. apply elem_of_cons in Hin as [<-|Hin].
  - pose proof (discovered_shows w e u Hs Hr Hp Hne Hlt Hso) as Hd.
    apply list_elem_of_fmap in Hd as ([addr f] & -> & Hd). exists addr. by apply discovered_all_dials.
  - destruct (discovered_same w a) as (Hfp & Hro & _). apply IH; [done|by rewrite Hro|by rewrite Hfp|].
    by apply discovered_sought.
Qed.

(** C12. The mesh heals.  Whatever happened before, every round of [browseOnce] that finds the service
    of another daemon of the room, one with a larger fingerprint and no connection nor dial in
    progress, has that daemon dialed when it ends; and it leaves a state that the other theorems on
    the mesh are about, in which there is exactly one such dial. *)
Theorem lan_rediscovers t w u e found :
  peers t = ∅ → dialing t = ∅ → reachable t w →
  shows e u → e ∈ found → room (tr w) = room u → (0 < port u < 2 ^ 16)%Z → fp u ≠ "" →
  String.leb (fp u) (fp (tr w)) = false → unknown (tr w) (fp u) →
  let w' := browseOnce w None found in
  reachable t w' ∧ NoDup (dialed w') ∧ ∃ addr, (addr, fp u) ∈ dials w'.
Proof.
  intros Hp0 Hd0 Hre Hs Hin Hr Hp Hne Hlt [Hpe Hd] w'.
  assert (reachable t w') as Hre' by by apply browseOnce_reachable.
  destruct (reachable_ok t w' Hp0 Hd0 Hre') as [_ [Hn _ _]].
  split_and!; [done..|]. by eapply browse_dials.
Qed.

(** ** Nobody checks the certificate *)

Lemma handleEntry_dialing t e r f p :
  parseTXT (e_Text e) = (r, f, p) → f ∈ dialing t → handleEntry t e = (None, t).
Proof.
  intros He Hf. unfold handleEntry. rewrite He. destruct (_ || _); [done|].
  destruct (String.eqb f (fp t)); [done|]. destruct (String.leb f (fp t)); [done|].
  by rewrite (bool_decide_true (f ∈ _)), orb_true_r.
Qed.

(** [dial] takes whoever answers.  When a connection is made for a fingerprint [f] and the other
    side shows a certificate with another fingerprint [g], that side becomes the peer [g]; it does
    not become [f], and as long as it stays, [f] is not dialed again. *)
Theorem lan_any_certificate w addr f c der rest pre post e r p :
  lan_ok w → dials w = pre ++ (addr, f) :: post → new_conn w c →
  c_certs c = der :: rest → certFP der ≠ fp (tr w) → peers (tr w) !! certFP der = None →
  certFP der ≠ f → parseTXT (e_Text e) = (r, f, p) →
  ∃ w', lan_step w (DialOk addr f c) w' ∧
    pc_conn <$> peers (tr w') !! certFP der = Some c ∧ peers (tr w') !! f = peers (tr w) !! f ∧
    f ∈ dialing (tr w') ∧ handleEntry (tr w') e = (None, tr w').
Proof.
  intros [_ [_ Hdi _]] Hds Hn Hc Hs Hp Hg He. eexists. split; [by eapply step_dial_ok|].
  assert (f ∈ dialing (tr w)) as Hf.
  { apply Hdi. unfold dialed. rewrite Hds, map_app. cbn. set_solver. }
  pose proof (handleConn_peer (tr w) c der rest Hc Hs Hp) as Hpeer.
  unfold serve. destruct (handleConn (tr w) c) as [o t'] eqn:E. cbn [snd] in Hpeer.
  apply handleConn_spec in E as [[-> ->]|(d & l & g & Hd & -> & _ & -> & _ & ->)];
    [by rewrite Hp in Hpeer|]. cbn [tr]. split_and!; [by rewrite Hpeer| |done|].
  { apply lookup_insert_ne. congruence. }
  by eapply handleEntry_dialing.
Qed.

(** ** Identity *)

Lemma WriteFile_ReadFile_other fs path data r fs' p d :
  WriteFile fs path data = (r, fs') → resolve p ≠ resolve path →
  ReadFile fs p = Ok d → ReadFile fs' p = Ok d.
Proof.
  intros Hw Hne. apply WriteFile_spec in Hw as [Hd [(e & _ & ->)|(_ & _ & -> & _)]]; [done|].
  unfold ReadFile. cbn [denied put set_nodes]. case_decide; [done|]. rewrite node_at_put by done.
  by destruct (node_at fs (resolve p)) as [[]|].
Qed.

(** A device keeps its identity.  Once [loadOrCreateIdentity] has succeeded, every later call
    in the same directory, whatever its key generator would produce, gives the same certificate
    and the same fingerprint, and changes no file. *)
Theorem lan_identity_stable c fs g g' r fs' :
  Dir_ c ≠ "" → loadOrCreateIdentity c fs g = (Ok r, fs') →
  loadOrCreateIdentity c fs' g' = (Ok r, fs').
Proof.
  intros Hc. unfold loadOrCreateIdentity at 1.
  set (cp := Path c "tls_cert.pem"). set (kp := Path c "tls_key.pem").
  assert (resolve cp ≠ resolve kp) as Hne.
  { unfold cp, kp, Path. rewrite !resolve_Join by (done || by split_and!). intros [=E].
    by apply app_inv_head in E. }
  assert (∀ crt key pair f, ReadFile f cp = Ok crt → ReadFile f kp = Ok key →
    X509KeyPair crt key = Ok pair → loadOrCreateIdentity c f g' = (Ok (pair, certFP pair.1), f)) as Hload.
  { intros crt key pair f H1 H2 Hx. unfold loadOrCreateIdentity. fold cp kp. by rewrite H1, H2, Hx. }
  destruct (ReadFile fs cp) as [crt|] eqn:E1, (ReadFile fs kp) as [key|] eqn:E2.
  { destruct (X509KeyPair crt key) as [pair|] eqn:Ex; [|done]. intros [= <- <-]. by eapply Hload. }
  all: destruct (generateSelfSigned g) as [[crt' key']|]; [|done].
  all: destruct (WriteFile fs cp crt') as [[[]|] f1] eqn:W1; [|done].
  all: destruct (WriteFile f1 kp key') as [[[]|] f2] eqn:W2; [|done].
  all: destruct (X509KeyPair crt' key') as [pair|] eqn:Ex; [|done].
  all: intros [= <- <-]; apply (Hload crt' key'); [|by eapply WriteFile_ReadFile|done].
  all: eapply WriteFile_ReadFile_other; [exact W2|exact Hne|by eapply WriteFile_ReadFile].
Qed.

(** ** What reaches a peer *)

Context `{!CborSound Envelope}.

Lemma readStream_frame env frame :
  Marshal env = Ok frame → fits frame →
  readStream (mkReader (frame_bytes frame) EOF) = Some env.
Proof.
  intros Hm Hf. unfold readStream. rewrite <-(str_app_nil_r (frame_bytes frame)).
  rewrite ReadFrame_frame by done. cbn [fst]. unfold Unmarshal. by rewrite (cbor_sound env).
Qed.

Lemma broadcast_reaches t env frame f p :
  Marshal env = Ok frame → fits frame → peers t !! f = Some p →
  n_open (net t) (pc_conn p) = Some (mkWriter "" None) →
  (lan_Broadcast t env).1 = None ∧ peers (lan_Broadcast t env).2 = peers t ∧
  (pc_conn p, frame_bytes frame) ∈ sent (lan_Broadcast t env).2.
Proof.
  intros Hm Hf Hp Ho. unfold lan_Broadcast. rewrite Hm. cbn [fst snd peers set_sent sent].
  split_and!; [done..|]. apply elem_of_app. right. apply list_elem_of_In, in_flat_map. exists p. split.
  - apply list_elem_of_In, list_elem_of_fmap. exists (f, p). split; [done|].
    by apply elem_of_map_to_list.
  - unfold broadcast_one. rewrite Ho, WriteFrame_unlimited by done. by left.
Qed.

Lemma lan_Peers_some t f p : peers t !! f = Some p → lan_Peers t ≠ [].
Proof.
  intros Hp Hn. apply (f_equal length) in Hn. unfold lan_Peers in Hn.
  rewrite !length_map, length_map_to_list in Hn. apply map_size_empty_iff in Hn.
  rewrite Hn in Hp. by apply (lookup_empty_Some (M := gmap string) f p) in Hp.
Qed.

Context `{Blake3} `{ImageCodec} `{MimeTable} `{Clipboard}.

(** From one daemon to the other over the mesh.  When [send] accepts its input and a peer's
    connection opens a stream, the daemon answers with success and writes a stream that the peer's
    [readStream] turns into the very envelope that was built; a text, new to a peer that did not
    send it, is then the newest item of the peer's buffer. *)
Theorem lan_delivery {U} ulid ms (waited : Lan → Lan) (a : Daemon Lan) (b : Daemon U) req env frame f p :
  (0 < len (rq_Bytes req))%Z → build_envelope ulid ms a req = Ok env →
  Marshal env = Ok frame → fits frame →
  peers (waited (ProbeDaemon.tr a)) !! f = Some p →
  n_open (net (waited (ProbeDaemon.tr a))) (pc_conn p) = Some (mkWriter "" None) →
  (handleSend ulid ms waited a req).1 = okResp ∧
  ∃ bytes, (pc_conn p, bytes) ∈ sent (ProbeDaemon.tr (handleSend ulid ms waited a req).2) ∧
    readStream (mkReader bytes EOF) = Some env ∧
    (Type_ env = TypeText → (Seen (d_dedupe b) (MsgID env)).1 = false →
     Sender env ≠ ProbeDaemon.fp b →
     buffer (ingest b env) = push_buffer (buffer b) (mkItem env "")).
Proof.
  intros Hlen Hb Hm Hf Hp Ho.
  pose proof (broadcast_reaches _ env frame f p Hm Hf Hp Ho) as (He & Hpe & Hin).
  destruct (lan_Broadcast _ env) as [err t'] eqn:E. cbn [fst snd] in *. subst err.
  rewrite (handleSend_sent ulid ms waited a req env t'); [|done..|by eapply lan_Peers_some; rewrite Hpe].
  split; [done|].
  exists (frame_bytes frame). split_and!; [done|by apply readStream_frame|].
  intros Ht Hs Hne. unfold ingest. destruct (Seen (d_dedupe b) (MsgID env)) as [sb dd].
  cbn [fst] in Hs. rewrite Hs. cbn [ProbeDaemon.fp set_dedupe]. rewrite (proj2 (String.eqb_neq _ _) Hne).
  unfold materialize. rewrite Ht. cbn. by rewrite routeSinks_buffer, applyAutoCopy_buffer.
Qed.
End lan.

(** ** An example *)

(** A toy: a certificate is its own digest, and its own encoding. *)
#[local] Instance toy_tls : Tls := {
  sha256_Sum256 := λ s, s;
  X509KeyPair := λ c k, if String.eqb c "" then Err "no certificate" else Ok (c, []);
  pem_EncodeToMemory := λ _ der, der;
}.
#[local] Existing Instance strict_env.
#[local] Existing Instance strict_env_sound.
#[local] Existing Instance pad_blake3.
#[local] Existing Instance Handlers.no_images.
#[local] Existing Instance Handlers.no_mime.
#[local] Existing Instance Daemon.clipboard_works.

Definition open_net : Net := mkNet (Ok 4001%Z) None (λ _, Some (mkWriter "" None)).

Definition lan_demo (der : string) (port : Z) : Lan :=
  mkLan "default" "dev" (certFP der) port true None ∅ ∅ false open_net [].

Definition entry_of (t : Lan) : ServiceEntry := mkEntry (txt_record t) (port t) [[192; 168; 1; 9]%Z] [].

Definition lan_a : Lan := lan_demo "a" 4001.
Definition lan_b : Lan := lan_demo "b" 4002.
Definition conn_to (der : string) : Conn := mkQConn 7 [der] "192.168.1.9:4002".

Lemma lan_demo_shows der : shows (entry_of (lan_demo der 4001)) (lan_demo der 4001).
Proof. by split. Qed.

Lemma lan_a_b_dials :
  handleEntry lan_a (entry_of lan_b) =
    (Some ("192.168.1.9:4002", "62"), set_dialing lan_a ({["62"]} ∪ ∅)).
Proof. vm_compute. reflexivity. Qed.

Definition lan_dialing : World :=
  mkWorld (set_dialing lan_a ({["62"]} ∪ ∅)) [("192.168.1.9:4002", "62")] [] [].

Lemma lan_dialing_reachable : reachable lan_a lan_dialing.
Proof.
  eapply reach_step; [apply reach_start|]. exact (step_discovered (mkWorld lan_a [] [] []) _ _ _ lan_a_b_dials).
Qed.

Definition lan_joined : World := serve (tr lan_dialing) [] [] [] (conn_to "b") (Some "62").

Lemma lan_joined_reachable : reachable lan_a lan_joined.
Proof.
  eapply reach_step; [exact lan_dialing_reachable|].
  exact (step_dial_ok lan_dialing "192.168.1.9:4002" "62" (conn_to "b") [] [] eq_refl (Forall_nil_2 _)).
Qed.

Lemma lan_mesh_ok_witness :
  peers (tr lan_joined) !! "61" = None ∧ is_Some (peers (tr lan_joined) !! "62").
Proof.
  destruct (lan_mesh_ok lan_a lan_joined eq_refl eq_refl lan_joined_reachable) as (Hs & _ & Hl & _).
  split; [exact Hs|]. destruct (Hl eq_refl) as [_ Hl'].
  exact (Hl' (mkHandler (conn_to "b") "62" (Some "62")) (list_elem_of_here _ _)).
Defined.

Lemma lan_rendezvous_witness :
  (handleEntry lan_a (entry_of lan_b)).1 = Some ("192.168.1.9:4002", "62") ∨
  (handleEntry lan_b (entry_of lan_a)).1 = Some ("192.168.1.9:4001", "61").
Proof.
  destruct (lan_rendezvous lan_a lan_b (entry_of lan_a) (entry_of lan_b) "a" "b" (conn_to "b")
              (conn_to "a") [] []) as [[[H1 _]|[_ H1]] _]; try done; first [by left|by right].
Defined.

(** The connection drops, and [dial] returns; the next round of browsing dials again. *)
Definition lan_dropped : World := mkWorld (handleConn_end (tr lan_joined) (conn_to "b") "62") [] [] ["62"].
Definition lan_alone : World := mkWorld (clearDialing (tr lan_dropped) "62") [] [] [].

Lemma lan_alone_reachable : reachable lan_a lan_alone.
Proof.
  eapply reach_step; [eapply reach_step; [exact lan_joined_reachable|]|].
  - exact (step_dropped lan_joined (mkHandler (conn_to "b") "62" (Some "62")) [] [] eq_refl).
  - exact (step_cleared lan_dropped "62" [] [] eq_refl).
Qed.

Lemma lan_rediscovers_witness :
  ∃ addr, (addr, "62") ∈ dials (browseOnce lan_alone None [entry_of lan_a; entry_of lan_b]).
Proof.
  apply (lan_rediscovers lan_a lan_alone lan_b (entry_of lan_b) [entry_of lan_a; entry_of lan_b]
    eq_refl eq_refl lan_alone_reachable); try done.
  by right; left.
Defined.

Lemma lan_any_certificate_witness :
  ∃ w', lan_step lan_dialing (DialOk "192.168.1.9:4002" "62" (conn_to "evil")) w' ∧
    "62" ∈ dialing (tr w').
Proof.
  destruct (lan_any_certificate lan_dialing "192.168.1.9:4002" "62" (conn_to "evil") "evil" [] [] []
              (entry_of lan_b) "default" 4002) as (w' & Hs & _ & _ & Hd & _);
    [exact (reachable_ok lan_a lan_dialing eq_refl eq_refl lan_dialing_reachable)
    |reflexivity|constructor|reflexivity|done|reflexivity|done|reflexivity|].
  exists w'. split; [exact Hs|exact Hd].
Defined.

Definition lan_store : Store := mkStore "/cfg" (defaultSettings "dev").
Definition keygen_of (der : string) : Keygen :=
  mkKeygen (Ok "k") (Ok 1%Z) (λ _ _, Ok der) (λ k, Ok k).

Lemma lan_identity_created :
  (loadOrCreateIdentity lan_store Daemon.demo_tree (keygen_of "a")).1 = Ok (("a", []), "61").
Proof. vm_compute. reflexivity. Qed.

Lemma lan_identity_stable_witness :
  (loadOrCreateIdentity lan_store
     (loadOrCreateIdentity lan_store Daemon.demo_tree (keygen_of "a")).2 (keygen_of "other")).1 =
  Ok (("a", []), "61").
Proof.
  erewrite (lan_identity_stable lan_store Daemon.demo_tree (keygen_of "a") (keygen_of "other")
              (("a", []), "61")); [reflexivity|discriminate|].
  rewrite <-lan_identity_created. apply surjective_pairing.
Defined.

Definition lan_daemon (t : Lan) : Daemon Lan :=
  mkDaemon lan_store "default" "LAN" t (fp t) "dev" (NewDedupe 4096) [] ∅ "" [] ∅ false "" false
    Daemon.demo_tree clip_init.

Definition lan_text : Envelope :=
  mkEnvelope 1 "01" TypeText MimeText "61" "dev" 0 "" "hi" None "".
Definition lan_request : Request := mkRequest 1 OpSend "hi" "text" "" "" false false "" "".

Lemma lan_text_frame :
  build_envelope "01" 0 (lan_daemon (tr lan_joined)) lan_request = Ok lan_text ∧
  Marshal lan_text = Ok (enc_env lan_text) ∧ fits (enc_env lan_text).
Proof. split_and!; [reflexivity|vm_compute; reflexivity|]. apply (bool_decide_unpack _). vm_compute. exact I. Qed.

Lemma lan_delivery_witness :
  buffer (ingest (lan_daemon lan_b) lan_text) = [mkItem lan_text ""].
Proof.
  destruct lan_text_frame as (Hb & Hm & Hf).
  destruct (lan_delivery "01" 0 (λ t, t) (lan_daemon (tr lan_joined)) (lan_daemon lan_b) lan_request
              lan_text (enc_env lan_text) "62" (mkPeerConn "62" "" "192.168.1.9:4002" (conn_to "b"))
              (eq_refl : (0 < 2)%Z) Hb Hm Hf eq_refl eq_refl) as (_ & bytes & _ & _ & Hi).
  apply Hi; [reflexivity|reflexivity|discriminate].
Defined.
