(* ===== verification/Mesh.v ===== *)
(** * The libp2p experiment: a gossip mesh

    [experiments/libp2p-mesh/internal/meshtransport/meshtransport.go]: discovery by libp2p's mDNS,
    envelopes published to a gossipsub topic.  One daemon is the record of its fields together with
    the goroutines that dial; a step of [mesh_step] is one critical section of the code, or one
    round of the loop of [connectPeer].  libp2p is a parameter: keys and names are the class
    [Libp2p], what the library answers is [MeshNet], what it delivers are the events. *)
From S2P Require Import Prelude GoStr GoPath GoOS Wire Codec Chan Dedupe Clip ProbeConfig ProbeIpc ProbeDaemon ProbeHandlers Dialing.
From S2P Require Daemon Handlers.
Open Scope string_scope.
Open Scope list_scope.

(** Package core/crypto, [crypto/sha256], the peer id of a key, and how it is written. *)
Class Libp2p := {
  sha256_Sum256 : string → string;
  UnmarshalPrivateKey : string → result string string;
  MarshalPrivateKey : string → result string string;
  IDFromPrivateKey : string → string;
  ID_String : string → string;
}.

(** A digest has 32 bytes, a key that is written can be read, and two ids are not written alike. *)
Class Libp2pLaws `{Libp2p} := {
  sha256_len : ∀ s, String.length (sha256_Sum256 s) = 32;
  key_roundtrip : ∀ k b, MarshalPrivateKey k = Ok b → UnmarshalPrivateKey b = Ok k;
  ID_String_inj : ∀ i j, ID_String i = ID_String j → i = j;
}.

(** [peer.AddrInfo]. *)
Record AddrInfo := mkAddrInfo { ai_ID : string; ai_Addrs : list string }.

(** What libp2p answers: the errors of the calls of [Start], the error of publishing a message, the
    peers of the topic, and the remote addresses of the connections to a peer. *)
Record MeshNet := mkMeshNet {
  n_gossip : option string;
  n_join : option string;
  n_subscribe : option string;
  n_mdns : option string;
  n_publish : string → option string;
  n_ListPeers : list string;
  n_conns : string → list string;
}.

(** [t.ctx]: nil before [Start]. *)
Inductive context := NoCtx | Live | Cancelled.

#[export] Instance context_eq_dec : EqDecision context.
Proof. solve_decision. Defined.

(** The pointers that are nil before [Start] are flags. *)
Record Mesh := mkMesh {
  room : string;
  deviceName : string;
  host_ID : string;
  topicName : string;
  serviceTag : string;
  ps : bool;
  topic : bool;
  sub : bool;
  mdns : bool;
  connecting : gset string;
  ctx : context;
  net : MeshNet;
  published : list string;           (** the messages [Publish] took *)
  closed : bool;                     (** the host *)
}.

Definition set_ctx (t : Mesh) (c : context) : Mesh :=
  mkMesh (room t) (deviceName t) (host_ID t) (topicName t) (serviceTag t) (ps t) (topic t) (sub t)
    (mdns t) (connecting t) c (net t) (published t) (closed t).
Definition set_started (t : Mesh) (ps topic sub mdns : bool) : Mesh :=
  mkMesh (room t) (deviceName t) (host_ID t) (topicName t) (serviceTag t) ps topic sub mdns
    (connecting t) (ctx t) (net t) (published t) (closed t).
Definition set_connecting (t : Mesh) (c : gset string) : Mesh :=
  mkMesh (room t) (deviceName t) (host_ID t) (topicName t) (serviceTag t) (ps t) (topic t) (sub t)
    (mdns t) c (ctx t) (net t) (published t) (closed t).
Definition set_net (t : Mesh) (n : MeshNet) : Mesh :=
  mkMesh (room t) (deviceName t) (host_ID t) (topicName t) (serviceTag t) (ps t) (topic t) (sub t)
    (mdns t) (connecting t) (ctx t) n (published t) (closed t).
Definition set_published (t : Mesh) (p : list string) : Mesh :=
  mkMesh (room t) (deviceName t) (host_ID t) (topicName t) (serviceTag t) (ps t) (topic t) (sub t)
    (mdns t) (connecting t) (ctx t) (net t) p (closed t).

(** ** Operations *)

Section mesh.
Context `{Libp2p} `{Cbor Envelope}.

(** [gen]: what [crypto.GenerateKeyPair] returns. *)
Definition loadOrCreateKey (c : Store) (fs : FS) (gen : result string string)
    : result string string * FS :=
  let path := Path c "libp2p.key" in
  match ReadFile fs path with
  | Ok b =>
      match UnmarshalPrivateKey b with
      | Err perr => (Err ("parse libp2p key: " +:+ perr), fs)
      | Ok priv => (Ok priv, fs)
      end
  | Err _ =>
      match gen with
      | Err err => (Err err, fs)
      | Ok priv =>
          match MarshalPrivateKey priv with
          | Err err => (Err err, fs)
          | Ok b =>
              match WriteFile fs path b with
              | (Err e, fs) => (Err (Error e), fs)
              | (Ok _, fs) => (Ok priv, fs)
              end
          end
      end
  end.

(** The slice of sixteen digits is in range, a digest has sixty-four. *)
Definition topic_of (room : string) : string :=
  "clip-exp/" +:+ EncodeToString (sha256_Sum256 room).
Definition tag_of (room : string) : string :=
  "clipexp" +:+ String.substring 0 16 (EncodeToString (sha256_Sum256 room)).

(** [host]: the error of [libp2p.New], which takes the key and listens. *)
Definition New_ (c : Store) (fs : FS) (gen : result string string) (host : option string) (n : MeshNet)
    (room deviceName : string) : result string Mesh * FS :=
  match loadOrCreateKey c fs gen with
  | (Err e, fs) => (Err e, fs)
  | (Ok priv, fs) =>
      match host with
      | Some err => (Err ("libp2p host: " +:+ err), fs)
      | None =>
          (Ok (mkMesh room deviceName (IDFromPrivateKey priv) (topic_of room) (tag_of room)
                 false false false false ∅ NoCtx n [] false), fs)
      end
  end.

Definition mesh_Identity (t : Mesh) : string := ID_String (host_ID t).

Definition mesh_Start (t : Mesh) : option string * Mesh :=
  let t := set_ctx t Live in
  match n_gossip (net t) with
  | Some err => (Some ("gossipsub: " +:+ err), t)
  | None =>
      let t := set_started t true (topic t) (sub t) (mdns t) in
      match n_join (net t) with
      | Some err => (Some ("join topic: " +:+ err), t)
      | None =>
          let t := set_started t (ps t) true (sub t) (mdns t) in
          match n_subscribe (net t) with
          | Some err => (Some ("subscribe: " +:+ err), t)
          | None =>
              let t := set_started t (ps t) (topic t) true (mdns t) in
              match n_mdns (net t) with
              | Some err => (Some ("mdns start: " +:+ err), t)
              | None => (None, set_started t (ps t) (topic t) (sub t) true)
              end
          end
      end
  end.

(** [HandlePeerFound]: the peer of the goroutine it starts. *)
Definition HandlePeerFound (t : Mesh) (pi : AddrInfo) : option AddrInfo * Mesh :=
  if String.eqb (ai_ID pi) (host_ID t) then (None, t)
  else if String.leb (ID_String (ai_ID pi)) (ID_String (host_ID t)) then (None, t)
  else if bool_decide (ai_ID pi ∈ connecting t) then (None, t)
  else (Some pi, set_connecting t ({[ai_ID pi]} ∪ connecting t)).

(** One round of the loop of [connectPeer], given what [Connectedness] and [Connect] answer: the
    number of the next round, or nothing when the function returns. *)
Definition connect_round (t : Mesh) (attempt : nat) (connected : bool) (err : option string)
    : option nat :=
  if connected then None
  else
    match err with
    | None => None
    | Some _ =>
        match ctx t with
        | Cancelled => None
        | _ => if (S attempt <? 8)%nat then Some (S attempt) else None
        end
    end.

(** The loop, with the transport as it is in each round: the number of rounds it takes. *)
Fixpoint connectPeer (fuel : nat) (t : nat → Mesh) (attempt : nat)
    (answers : nat → bool * option string) : option nat :=
  match fuel with
  | O => None
  | S fuel =>
      match connect_round (t attempt) attempt (answers attempt).1 (answers attempt).2 with
      | None => Some (S attempt)
      | Some attempt => connectPeer fuel t attempt answers
      end
  end.

(** The deferred function. *)
Definition connectPeer_end (t : Mesh) (id : string) : Mesh :=
  set_connecting t (connecting t ∖ {[id]}).

(** A [pubsub.Message]. *)
Record Message := mkMessage { GetFrom : string; Data : string }.

(** One round of [readLoop]: what it hands to the daemon. *)
Definition readLoop_one (t : Mesh) (msg : Message) : option Envelope :=
  if String.eqb (GetFrom msg) (host_ID t) then None
  else match Unmarshal (Data msg) with Err _ => None | Ok env => Some env end.

Definition readLoop (t : Mesh) (msgs : list Message) : list Envelope := omap (readLoop_one t) msgs.

Definition mesh_Broadcast (t : Mesh) (env : Envelope) : option string * Mesh :=
  if negb (topic t) then (Some "topic not ready", t)
  else
    match Marshal env with
    | Err err => (Some err, t)
    | Ok frame =>
        match n_publish (net t) frame with
        | Some err => (Some err, t)
        | None => (None, set_published t (published t ++ [frame]))
        end
    end.

Definition mesh_Peers (t : Mesh) : list Peer :=
  if negb (topic t) then []
  else
    map (λ id, mkPeer (ID_String id) ""
           match n_conns (net t) id with [] => "" | addr :: _ => addr end)
      (n_ListPeers (net t)).

Definition mesh_Close (t : Mesh) : Mesh :=
  mkMesh (room t) (deviceName t) (host_ID t) (topicName t) (serviceTag t) (ps t) (topic t) (sub t)
    (mdns t) (connecting t) match ctx t with NoCtx => NoCtx | _ => Cancelled end (net t)
    (published t) true.

(** The transport of the daemon. *)
#[export] Instance mesh_transport : ProbeIpc.Transport Mesh := {
  Identity := mesh_Identity;
  Start := mesh_Start;
  Broadcast := mesh_Broadcast;
  Peers := mesh_Peers;
  Close := mesh_Close;
}.

(** ** The goroutines *)

(** The transport, and the calls of [connectPeer] with the round each is in. *)
Record World := mkWorld { tr : Mesh; dials : list (AddrInfo * nat) }.

Inductive event :=
| Found (pi : AddrInfo)
| Round (pi : AddrInfo) (attempt : nat) (connected : bool) (err : option string)
| Delivered (msg : Message)
| Send (env : Envelope)
| Network (n : MeshNet)
| CtxDone                            (** the daemon cancels the context it gave to [Start] *)
| Shutdown.

Inductive mesh_step (w : World) : event → World → Prop :=
| step_found pi d t :
    HandlePeerFound (tr w) pi = (d, t) →
    mesh_step w (Found pi) (mkWorld t (option_list ((λ pi, (pi, O)) <$> d) ++ dials w))
| step_again pi n m connected err pre post :
    dials w = pre ++ (pi, n) :: post → connect_round (tr w) n connected err = Some m →
    mesh_step w (Round pi n connected err) (mkWorld (tr w) (pre ++ (pi, m) :: post))
| step_end pi n connected err pre post :
    dials w = pre ++ (pi, n) :: post → connect_round (tr w) n connected err = None →
    mesh_step w (Round pi n connected err)
      (mkWorld (connectPeer_end (tr w) (ai_ID pi)) (pre ++ post))
| step_delivered msg : mesh_step w (Delivered msg) w
| step_send env : mesh_step w (Send env) (mkWorld (mesh_Broadcast (tr w) env).2 (dials w))
| step_network n : mesh_step w (Network n) (mkWorld (set_net (tr w) n) (dials w))
| step_ctx : mesh_step w CtxDone (mkWorld (set_ctx (tr w) Cancelled) (dials w))
| step_shutdown : mesh_step w Shutdown (mkWorld (mesh_Close (tr w)) (dials w)).

(** Any number of steps from a transport whose [Start] succeeded. *)
Inductive reachable (t : Mesh) : World → Prop :=
| reach_start : (mesh_Start t).1 = None → reachable t (mkWorld (mesh_Start t).2 [])
| reach_step w ev w' : reachable t w → mesh_step w ev w' → reachable t w'.

(** ** The invariant *)

(** [may_dial self]: this side is to dial the other. *)
Definition may_dial (self other : string) : Prop := String.leb (ID_String other) (ID_String self) = false.

Record mesh_ok (id : string) (w : World) : Prop := {
  mo_id : host_ID (tr w) = id;
  mo_ctx : ctx (tr w) ≠ NoCtx;
  mo_topic : topic (tr w) = true;
  mo_dials : dial_ok (may_dial id) (connecting (tr w)) (map (ai_ID ∘ fst) (dials w));
  mo_rounds : Forall (λ d, d.2 < 8) (dials w);
  mo_published : Forall (λ frame, ∃ env, Marshal env = Ok frame) (published (tr w));
}.

Lemma mesh_Start_ok t :
  connecting t = ∅ → published t = [] → (mesh_Start t).1 = None →
  mesh_ok (host_ID t) (mkWorld (mesh_Start t).2 []).
Proof.
  intros Hc Hp. unfold mesh_Start. repeat case_match; intros E; try done.
  split; cbn; [done..| |constructor|].
  - rewrite Hc. apply dial_ok_empty.
  - by rewrite Hp.
Qed.

Lemma HandlePeerFound_spec t pi d t' :
  HandlePeerFound t pi = (d, t') →
  d = None ∧ t' = t ∨
  d = Some pi ∧ t' = set_connecting t ({[ai_ID pi]} ∪ connecting t) ∧
    ai_ID pi ∉ connecting t ∧ may_dial (host_ID t) (ai_ID pi).
Proof.
  unfold HandlePeerFound, may_dial. destruct (String.eqb _ _); [intros [= <- <-]; by left|].
  destruct (String.leb _ _) eqn:El; [intros [= <- <-]; by left|].
  case_bool_decide as Hb; intros [= <- <-]; [by left|by right].
Qed.

Lemma connect_round_bound t n connected err m :
  connect_round t n connected err = Some m → m = S n ∧ m < 8.
Proof.
  unfold connect_round. repeat case_match; try done; intros [= <-]; breflect; lia.
Qed.

Lemma mesh_step_ok id w ev w' : mesh_ok id w → mesh_step w ev w' → mesh_ok id w'.
Proof.
  intros [Hi Hc Ht Hd Hr Hp] Hs. destruct Hs; try by split.
  - destruct (HandlePeerFound_spec _ _ _ _ H1) as [[-> ->]|(-> & -> & Hno & Hm)]; split; try done; cbn.
    + rewrite Hi in Hm. by apply dial_ok_add.
    + constructor; [cbn; lia|done].
  - destruct (connect_round_bound _ _ _ _ _ H2) as [-> Hlt]. rewrite H1 in Hd, Hr.
    split; try done; cbn.
    + rewrite map_app in *. exact Hd.
    + apply Forall_app in Hr as [H3 [_ H4]%Forall_cons]. apply Forall_app. split; [done|].
      by constructor.
  - rewrite H1 in Hd, Hr. split; try done; cbn.
    + apply dial_ok_del. rewrite map_app in *. eapply dial_ok_perm; [|exact Hd]. cbn.
      by rewrite Permutation_middle.
    + apply Forall_app in Hr as [H3 [_ H4]%Forall_cons]. by apply Forall_app.
  - unfold mesh_Broadcast. rewrite Ht. cbn [negb]. destruct (Marshal env) as [frame|] eqn:E; [|by split].
    destruct (n_publish _ _); [by split|]. split; try done. cbn. apply Forall_app. split; [done|].
    constructor; [by exists env|constructor].
  - split; try done. cbn. by destruct (ctx (tr w)).
Qed.

Lemma mesh_reachable_ok t w :
  connecting t = ∅ → published t = [] → reachable t w → mesh_ok (host_ID t) w.
Proof.
  intros Hc Hp Hr. induction Hr as [Hs|w ev w' _ IH Hs]; [by apply mesh_Start_ok|].
  by eapply mesh_step_ok.
Qed.

(** [connectPeer] ends after eight rounds at most. *)
Lemma connectPeer_ends t answers : ∃ k, connectPeer 8 t 0 answers = Some k ∧ (k ≤ 8)%nat.
Proof.
  assert (∀ fuel n, (fuel + n = 8)%nat → n < 8 →
    ∃ k, connectPeer fuel t n answers = Some k ∧ (k ≤ 8)%nat) as H'.
  { induction fuel as [|fuel IH]; intros n Hn Hlt; [lia|]. cbn.
    destruct (connect_round _ _ _ _) as [m|] eqn:E; [|exists (S n); split; [done|lia]].
    apply connect_round_bound in E as [-> Hm]. apply IH; lia. }
  apply H'; lia.
Qed.

(** ** Discovery *)

(** How two daemons of a room meet: when each finds the other, exactly one of them dials. *)
Theorem mesh_rendezvous `{!Libp2pLaws} t u pt pu :
  ai_ID pt = host_ID t → ai_ID pu = host_ID u → host_ID t ≠ host_ID u →
  host_ID u ∉ connecting t → host_ID t ∉ connecting u →
  ((HandlePeerFound t pu).1 = Some pu ∧ (HandlePeerFound u pt).1 = None) ∨
  ((HandlePeerFound t pu).1 = None ∧ (HandlePeerFound u pt).1 = Some pt).
Proof.
  intros Ht Hu Hne Hct Hcu. unfold HandlePeerFound. rewrite Ht, Hu.
  rewrite !(proj2 (String.eqb_neq _ _)) by congruence.
  rewrite (leb_one_way (ID_String (host_ID t))) by (intros E; by apply ID_String_inj in E).
  destruct (String.leb (ID_String (host_ID u)) _); cbn [negb];
    rewrite bool_decide_false by done; [by right|by left].
Qed.

Lemma length_substring n s :
  (n ≤ String.length s)%nat → String.length (String.substring 0 n s) = n.
Proof.
  revert s. induction n as [|n IH]; intros [|c s] Hn; cbn in *; [done..|lia|].
  rewrite IH by lia. done.
Qed.

(** The slice of the digits of the digest is in range. *)
Lemma tag_of_len `{!Libp2pLaws} r : String.length (tag_of r) = 23.
Proof.
  unfold tag_of. change (7 + String.length (String.substring 0 16 (EncodeToString (sha256_Sum256 r))) = 23)%nat.
  rewrite length_substring; [done|]. rewrite length_hex, sha256_len. lia.
Qed.

(** ** Identity *)

(** A device keeps its identity: once [loadOrCreateKey] has succeeded, every later call in the same
    directory, whatever its key generator would produce, gives the same key and changes no file. *)
Theorem mesh_identity_stable `{!Libp2pLaws} c fs gen gen' k fs' :
  loadOrCreateKey c fs gen = (Ok k, fs') → loadOrCreateKey c fs' gen' = (Ok k, fs').
Proof.
  unfold loadOrCreateKey. destruct (ReadFile fs _) as [b|e] eqn:E.
  - destruct (UnmarshalPrivateKey b) as [priv|] eqn:Eu; [|done]. intros [= <- <-]. by rewrite E, Eu.
  - destruct gen as [priv|]; [|done]. destruct (MarshalPrivateKey priv) as [b|] eqn:Em; [|done].
    destruct (WriteFile fs _ b) as [[[]|e'] f] eqn:Ew; [|done]. intros [= <- <-].
    by rewrite (WriteFile_ReadFile _ _ _ _ Ew), (key_roundtrip _ _ Em).
Qed.

(** ** What reaches the others *)

Context `{!CborSound Envelope}.

Lemma readLoop_frame t env frame id :
  Marshal env = Ok frame →
  readLoop_one t (mkMessage id frame) = if String.eqb id (host_ID t) then None else Some env.
Proof. intros Hm. unfold readLoop_one, Unmarshal. cbn. by rewrite (cbor_sound env). Qed.

Lemma mesh_Broadcast_sent t env frame :
  topic t = true → Marshal env = Ok frame → n_publish (net t) frame = None →
  mesh_Broadcast t env = (None, set_published t (published t ++ [frame])).
Proof. intros Ht Hm Hn. unfold mesh_Broadcast. by rewrite Ht, Hm, Hn. Qed.

End mesh.

(** ** An example *)

(** A toy: the digest is the first 32 bytes of the padded room, a key is its own encoding and id. *)
#[local] Instance toy_libp2p : Libp2p := {
  sha256_Sum256 := λ s, String.substring 0 32 (s +:+ "00000000000000000000000000000000");
  UnmarshalPrivateKey := λ b, if String.eqb b "" then Err "empty" else Ok b;
  MarshalPrivateKey := λ k, if String.eqb k "" then Err "empty" else Ok k;
  IDFromPrivateKey := λ k, k;
  ID_String := λ i, i;
}.
Lemma toy_libp2p_laws : Libp2pLaws.
Proof.
  split; cbn.
  - intros s. apply length_substring. rewrite str_length_app. cbn. lia.
  - intros k b. destruct (String.eqb k "") eqn:E; intros [= <-]. by rewrite E.
  - done.
Qed.
#[local] Existing Instance toy_libp2p_laws.
#[local] Existing Instance strict_env.
#[local] Existing Instance strict_env_sound.

Definition open_mesh : MeshNet :=
  mkMeshNet None None None None (λ _, None) ["b"] (λ _, ["/ip4/192.168.1.9/tcp/4002"]).

Definition mesh_demo (id : string) : Mesh :=
  mkMesh "default" "dev" id (topic_of "default") (tag_of "default") false false false false ∅ NoCtx
    open_mesh [] false.

Definition mesh_a : Mesh := (mesh_Start (mesh_demo "a")).2.
Definition mesh_b : AddrInfo := mkAddrInfo "b" ["/ip4/192.168.1.9/tcp/4002"].
Definition mesh_text : Envelope :=
  mkEnvelope 1 "01" TypeText MimeText "a" "dev" 0 "" "hi" None "".

(** [a] has found [b], its first attempt to connect has failed, and it has published a text. *)
Definition mesh_found : Mesh := set_connecting mesh_a ({["b"]} ∪ ∅).

Lemma mesh_a_dials : HandlePeerFound mesh_a mesh_b = (Some mesh_b, mesh_found).
Proof. vm_compute. reflexivity. Qed.

Definition mesh_trying : World := mkWorld (mesh_Broadcast mesh_found mesh_text).2 [(mesh_b, 1)].

Lemma mesh_trying_reachable : reachable (mesh_demo "a") mesh_trying.
Proof.
  eapply reach_step with (ev := Send mesh_text).
  { eapply reach_step with (ev := Round mesh_b 0 false (Some "refused")).
    { eapply reach_step with (ev := Found mesh_b); [by apply reach_start|].
      exact (step_found (mkWorld mesh_a []) mesh_b _ _ mesh_a_dials). }
    by apply (step_again _ _ _ 1 _ _ [] []). }
  apply (step_send (mkWorld mesh_found [(mesh_b, 1)]) mesh_text).
Qed.

Lemma mesh_trying_published : enc_env mesh_text ∈ published (tr mesh_trying).
Proof. vm_compute. left. Qed.


Lemma mesh_rendezvous_witness :
  (HandlePeerFound mesh_a mesh_b).1 = Some mesh_b.
Proof.
  destruct (mesh_rendezvous mesh_a (mesh_demo "b") (mkAddrInfo "a" []) mesh_b) as [[H _]|[_ H]];
    [reflexivity|reflexivity|discriminate|set_solver|set_solver|exact H|discriminate H].
Defined.
