(* ===== verification/ProbeMain.v ===== *)
(** * The experiments: the two programs

    [experiments/lan-go/cmd/lan/main.go] and [experiments/libp2p-mesh/cmd/libp2p-mesh/main.go]: the
    shared command line of [ProbeCli] over the transport of [Lan] and over that of [Mesh].  What the
    crypto libraries and the network answer to [New] is a parameter of each. *)
From S2P Require Import Prelude GoStr GoPath GoOS Wire Codec Clip Flags Proc ProbeConfig ProbeIpc ProbeCodec ProbeDaemon ProbeHandlers ProbeCli ProbeLocal.
From S2P Require Ipc Lan LanProps Mesh Handlers Daemon.
Open Scope string_scope.
Open Scope list_scope.

Definition lan_app `{Lan.Tls} (g : Lan.Keygen) (n : Lan.Net) : App Lan.Lan :=
  mkApp "lan" "clipboard hand-off over quic-go + mDNS" "quic+mdns"
    (λ cfg room deviceName f, Lan.New_ cfg f g n room deviceName).

Definition mesh_app `{Mesh.Libp2p} (gen : result string string) (host : option string) (n : Mesh.MeshNet)
    : App Mesh.Mesh :=
  mkApp "libp2p-mesh" "clipboard hand-off over go-libp2p gossipsub + mDNS" "gossipsub+mdns"
    (λ cfg room deviceName f, Mesh.New_ cfg f gen host n room deviceName).

(** The exit code of each program. *)
Definition lan_main `{Lan.Tls} `{Cbor Envelope} `{Blake3} `{ImageCodec} `{MimeTable} `{Clipboard} `{Json}
    `{Cbor Request} `{Cbor Response} `{ProbeJson} `{!Moment Lan.Lan} kg n E order listen ar p_Run args :=
  let _ := Lan.lan_transport in
  Main E order listen ar p_Run (lan_app kg n) args (P := Daemon Lan.Lan).

Definition mesh_main `{Mesh.Libp2p} `{Cbor Envelope} `{Blake3} `{ImageCodec} `{MimeTable} `{Clipboard}
    `{Json} `{Cbor Request} `{Cbor Response} `{ProbeJson} `{!Moment Mesh.Mesh} gen host n E order listen ar
    p_Run args :=
  let _ := Mesh.mesh_transport in
  Main E order listen ar p_Run (mesh_app gen host n) args (P := Daemon Mesh.Mesh).

(** ** What a booted daemon is *)

Section boot.
Context {T : Type} `{Transport T} `{Blake3} `{ImageCodec} `{MimeTable} `{Clipboard} `{Json}.
Context `{Cbor Request} `{Cbor Response} `{!Moment T}.

(** The daemon [d] runs on the transport that the program's [NewTransport] made for the settings in
    use, and that has been started. *)
Definition boots_on (g : Globals T) (d : Daemon T) : Prop :=
  ∃ f f' t, NewTransport (app g) (cfg d) (effectiveRoom g (cfg d)) (DeviceName_ (Get (cfg d))) f = (Ok t, f') ∧
    Start t = (None, tr d) ∧ fp d = Identity t.

Lemma Run_start_boots order c f cl room tag t sock listen d :
  Run_start order (New_ c f cl room tag t) sock listen = (None, d) →
  cfg d = c ∧ Start t = (None, tr d) ∧ fp d = Identity t.
Proof.
  unfold Run_start. destruct (MkdirAll _ _) as [[[]|e] f1]; [|done].
  set (d0 := recordTextBaseline _ _).
  assert (cfg d0 = c ∧ tr d0 = t ∧ fp d0 = Identity t) as (Hc & Ht & Hf).
  { unfold d0, recordTextBaseline, New_. by repeat case_match. }
  rewrite Ht. destruct (Start t) as [[e|] t'] eqn:Es; [by intros [= _ <-]|].
  destruct listen; intros [= <-]. by split_and!.
Qed.

Lemma runs_os_post {A} N (f : FS → A * FS) (Q : A → Prop) :
  (∀ fs, Q (f fs).1) → runs N (os_call f : M (Daemon T) A) Q.
Proof. intros Hf w. unfold os_call. specialize (Hf (peer_fs (peer w))). by destruct (f _). Qed.

Lemma runs_exit N {A} (g : Globals T) c e (Q : Z + A → Prop) :
  Q (inl c) → runs N (x ← fail g c e; mret (inl x) : M (Daemon T) (Z + A)) Q.
Proof.
  intros Hq. eapply (runs_bind _ _ _ (λ x, x = c)); [|intros x ->; by apply runs_ret].
  unfold fail. eapply (runs_bind _ _ _ (λ _, True)); [apply runs_eprint; done|]. intros _ _. by apply runs_ret.
Qed.

(** [daemon_boot] never panics, and the daemon it serves with is on the program's transport. *)
Lemma daemon_boot_on E order listen g args :
  runs False (daemon_boot E order listen g args : M (Daemon T) _)
    (λ r, match r with inl c => c ∈ [1; 2]%Z | inr (d, _) => boots_on g d end).
Proof.
  assert (1%Z ∈ [1; 2]%Z ∧ 2%Z ∈ [1; 2]%Z) as [Hc1 Hc2] by set_solver.
  unfold daemon_boot. destruct (parse_args _ _) as [m|e].
  2:{ eapply (runs_bind _ _ _ (λ _, True)); [by apply runs_eprint|]. intros _ _. by apply runs_ret. }
  eapply (runs_bind _ _ _ (λ _, True)); [apply runs_os_call|]. intros [c|e] _; [|by apply runs_exit].
  cbv zeta. eapply (runs_bind _ _ _ (λ r, ∀ t, r = Ok t → ∃ f f',
    NewTransport (app g) c (effectiveRoom g c) (DeviceName_ (Get c)) f = (Ok t, f'))).
  { apply runs_os_post. intros f t Ht. exists f. eexists. by rewrite <-Ht, <-surjective_pairing. }
  intros [t|e] Ht; [|by apply runs_exit]. destruct (Ht t eq_refl) as (f & f' & Hnew).
  eapply (runs_bind _ _ _ (λ _, True)); [apply runs_os_call|]. intros [sock|e] _; [|by apply runs_exit].
  eapply (runs_bind _ _ _ (λ r, ∀ d, r = (None, d) → boots_on g d)).
  { apply runs_os_post. intros f0 d Hd. destruct (Run_start _ _ _ _) as [err d'] eqn:Er.
    cbn [fst] in Hd. injection Hd as -> ->. apply Run_start_boots in Er as (Hc & Hs & Hfp).
    exists f, f', t. by rewrite Hc. }
  intros [[e|] d] Hd; [by apply runs_exit|]. apply runs_ret. by apply Hd.
Qed.
End boot.

(** ** Properties *)

#[local] Existing Instance Lan.lan_transport.
#[local] Existing Instance Mesh.mesh_transport.


(** The same for [libp2p-mesh daemon]: its transport is on the topic of the room, under the name of the
    stored key, and keeps the invariant of its mesh. *)
Theorem mesh_boots `{Mesh.Libp2p} `{Cbor Envelope} `{Blake3} `{ImageCodec} `{MimeTable} `{Clipboard} `{Json}
    `{Cbor Request} `{Cbor Response} `{!Moment Mesh.Mesh} E order listen gen host n (g : Globals Mesh.Mesh)
    args w :
  app g = mesh_app gen host n →
  match (daemon_boot E order listen g args w).1 with
  | None => False
  | Some (inl code) => code ∈ [1; 2]%Z
  | Some (inr (d, _)) =>
      let t := tr d in
      Mesh.topicName t = Mesh.topic_of (effectiveRoom g (cfg d)) ∧
      Mesh.deviceName t = DeviceName_ (Get (cfg d)) ∧ Mesh.topic t = true ∧ Mesh.sub t = true ∧
      (∃ f f' priv, Mesh.loadOrCreateKey (cfg d) f gen = (Ok priv, f') ∧
         Mesh.host_ID t = Mesh.IDFromPrivateKey priv) ∧
      fp d = Mesh.mesh_Identity t ∧
      ∃ t0, (Mesh.mesh_Start t0).2 = t ∧ ∀ w', Mesh.reachable t0 w' → Mesh.mesh_ok (Mesh.host_ID t) w'
  end.
Proof.
  intros Hg. pose proof (daemon_boot_on E order listen g args w) as Hb.
  destruct (daemon_boot E order listen g args w).1 as [[c|[d sock]]|]; [done| |done].
  destruct Hb as (f & f' & t & Hnew & Hs & Hfp). rewrite Hg in Hnew. cbn [NewTransport mesh_app] in Hnew.
  unfold Mesh.New_ in Hnew. destruct (Mesh.loadOrCreateKey (cfg d) f gen) as [[priv|e] f1] eqn:El; [|done].
  destruct host; [done|]. injection Hnew as <- _. cbn in Hs.
  match type of Hs with Mesh.mesh_Start ?t0 = _ => set (t := t0) in * end.
  assert (tr d = (Mesh.mesh_Start t).2) as Ht by by rewrite Hs.
  cbv zeta. assert (∀ w', Mesh.reachable t w' → Mesh.mesh_ok (Mesh.host_ID t) w') as Hok.
  { intros w'. by apply Mesh.mesh_reachable_ok. }
  assert (Mesh.host_ID (tr d) = Mesh.IDFromPrivateKey priv) as Hid.
  { rewrite Ht. unfold Mesh.mesh_Start. by repeat case_match. }
  rewrite Hid. split_and!; [| | | |by exists f, f1, priv|by rewrite Hfp; cbn; unfold Mesh.mesh_Identity; rewrite Hid|by exists t].
  all: unfold Mesh.mesh_Start in Hs; repeat case_match; simplify_eq/=; rewrite <-Hs; done.
Qed.

(** ** An example *)

#[local] Existing Instance LanProps.toy_tls.
#[local] Existing Instance Codec.strict_env.
#[local] Existing Instance pad_blake3.
#[local] Existing Instance Handlers.no_images.
#[local] Existing Instance Handlers.no_mime.
#[local] Existing Instance Daemon.clipboard_works.
#[local] Existing Instance probe_req.
#[local] Existing Instance probe_resp.
#[local] Existing Instance probe_json.

Definition lan_demo_moment : Moment Lan.Lan := mkMoment _ "01" 5 (λ t, t) map_to_list [].
#[local] Existing Instance lan_demo_moment.

Definition lan_demo_app : App Lan.Lan := lan_app (LanProps.keygen_of "a") LanProps.open_net.
Definition lan_demo_globals : Globals Lan.Lan := mkGlobals lan_demo_app "/cfg" "/run/lan.sock" "" false false false.
(** What runs before there is a daemon: only its files count. *)
Definition lan_demo_world : World (Daemon Lan.Lan) :=
  mkWorld (LanProps.lan_daemon LanProps.lan_a) "" "".
Definition lan_demo_boot := (daemon_boot demo_env map_to_list None lan_demo_globals [] lan_demo_world).1.

Lemma lan_demo_boots : match lan_demo_boot with Some (inr _) => true | _ => false end = true.
Proof. vm_compute. reflexivity. Qed.


#[local] Existing Instance Mesh.toy_libp2p.

Definition mesh_demo_moment : Moment Mesh.Mesh := mkMoment _ "01" 5 (λ t, t) map_to_list [].
#[local] Existing Instance mesh_demo_moment.

Definition mesh_demo_globals : Globals Mesh.Mesh :=
  mkGlobals (mesh_app (Ok "k") None Mesh.open_mesh) "/cfg" "/run/mesh.sock" "" false false false.
Definition mesh_demo_world : World (Daemon Mesh.Mesh) :=
  mkWorld (New_ LanProps.lan_store Daemon.demo_tree clip_init "" "" (Mesh.mesh_demo "a")) "" "".
Definition mesh_demo_boot := (daemon_boot demo_env map_to_list None mesh_demo_globals [] mesh_demo_world).1.

Lemma mesh_demo_boots : match mesh_demo_boot with Some (inr _) => true | _ => false end = true.
Proof. vm_compute. reflexivity. Qed.

Lemma mesh_boots_witness :
  ∃ d sock, mesh_demo_boot = Some (inr (d, sock)) ∧ Mesh.sub (tr d) = true.
Proof.
  pose proof (mesh_boots demo_env map_to_list None (Ok "k") None Mesh.open_mesh mesh_demo_globals
    [] mesh_demo_world eq_refl) as Hb. fold mesh_demo_boot in Hb. pose proof mesh_demo_boots as Hd.
  destruct mesh_demo_boot as [[c|[d sock]]|]; [done| |done].
  destruct Hb as (_ & _ & _ & Hs & _). exists d, sock. split; [done|exact Hs].
Defined.
