(* ===== verification/ProbeHandoff.v ===== *)
(** * The experiments: a file from one machine to another

    Both ends of a probe together: [send] on one machine, what its transport leaves on the network,
    [ingest] on the other, and [recv] there.  [file_handoff] is the part every transport shares;
    then the LAN probe, with a stream on a connection of the mesh, and the libp2p probe, with a
    message on the topic. *)
From S2P Require Import Prelude GoStr GoPath GoOS Wire Codec Dedupe Clip Flags Proc ProbeConfig ProbeIpc ProbeCodec ProbeDaemon ProbeHandlers ProbeSinks ProbeCli ProbeLocal ProbeMain.
From S2P Require Ipc Cli Handlers Daemon Lan LanProps Mesh.
Open Scope string_scope.
Open Scope list_scope.

(** ** Receiving a file *)

(** Every file stays, and stays readable. *)
Definition readable_kept (f f' : FS) : Prop := denied f' = denied f ∧ files_kept f f'.

Lemma readable_kept_read f f' p data :
  readable_kept f f' → ReadFile f p = Ok data → ReadFile f' p = Ok data.
Proof.
  intros [Hd Hk]. unfold ReadFile. rewrite Hd. case_decide; [done|]. unfold node_at.
  destruct (top (resolve p)); [done|].
  destruct (nodes f !! resolve p) as [[dt|]|] eqn:E; [|done..]. by rewrite (Hk _ _ E).
Qed.

Lemma WriteFile_named f p data : is_ok (WriteFile f p data).1 = true → p ≠ "".
Proof.
  unfold WriteFile. destruct (open_create f p) as [d|e] eqn:E; [|done].
  apply open_create_top in E. by intros _ ->.
Qed.

Section receiving.
Context {T : Type} `{Blake3} `{ImageCodec} `{MimeTable} `{Clipboard}.
Implicit Types d : Daemon T.

Lemma saveToDir_readable d dir name data :
  dir ≠ "" → readable_kept (fs d) (fs (saveToDir d dir name data)).
Proof.
  intros Hd. split.
  - destruct (saveToDir_spec d dir name data Hd) as (_ & _ & r & f & Hm & Hs).
    apply MkdirAll_spec in Hm as [Hm _].
    by destruct Hs as [[_ ->]|(p & _ & _ & _ & _ & _ & ->)].
  - intros q dt. apply (saveToDir_keeps d dir name data Hd).
Qed.

Lemma routeSinks_readable d item :
  Type_ (it_Envelope item) = TypeFile → readable_kept (fs d) (fs (routeSinks d item)).
Proof.
  intros Ht. unfold routeSinks. rewrite Ht. change (String.eqb TypeFile TypeText) with false. change (String.eqb TypeFile TypeImage) with false.
  rewrite (String.eqb_refl TypeFile).
  destruct (String.eqb_spec (SaveDir (Get (cfg d))) ""); cbn [negb]; [by split; [|intros q dt]|].
  by apply saveToDir_readable.
Qed.

(** Where the bytes of a file are kept. *)
Definition file_path d (env : Envelope) : string :=
  let h := HashHex (BlobData env) in
  Join (BlobDir (cfg d)) (if String.eqb (Ext (Filename env)) "" then h else h +:+ Ext (Filename env)).

(** A file that is new is the newest item, and its bytes are at the item's path. *)
Lemma ingest_file d env b :
  Type_ env = TypeFile → Blob_ env = Some b → Hash b = HashHex (BlobData env) →
  (Seen (d_dedupe d) (MsgID env)).1 = false → Sender env ≠ fp d →
  is_ok (WriteFile (fs d) (file_path d env) (BlobData env)).1 = true →
  buffer (ingest d env) = push_buffer (buffer d) (mkItem env (file_path d env)) ∧
  ReadFile (fs (ingest d env)) (file_path d env) = Ok (BlobData env).
Proof.
  intros Ht Hb Hh Hs Hne Hw. unfold ingest. destruct (Seen (d_dedupe d) (MsgID env)) as [sb dd].
  cbn [fst] in Hs. rewrite Hs. cbn [fp set_dedupe]. rewrite (proj2 (String.eqb_neq _ _) Hne).
  assert (materialize (set_dedupe d dd) env =
    match WriteFile (fs d) (file_path d env) (BlobData env) with
    | (Err _, f) => (None, f)
    | (Ok _, f) => (Some (mkItem env (file_path d env)), f)
    end) as ->.
  { unfold materialize, file_path. rewrite Ht, Hb, Hh, (String.eqb_refl (HashHex _)).
    change (String.eqb TypeFile TypeImage) with false. rewrite String.eqb_refl. cbn [orb negb].
    by destruct (String.eqb (Ext (Filename env)) ""). }
  destruct (WriteFile (fs d) (file_path d env) (BlobData env)) as [[[]|e] f] eqn:E; [|done].
  rewrite LanProps.routeSinks_buffer, LanProps.applyAutoCopy_buffer. split; [done|].
  eapply readable_kept_read; [by apply routeSinks_readable|].
  assert (∀ d item, fs (applyAutoCopy d item) = fs d) as ->.
  { intros d0 item. unfold applyAutoCopy. by repeat case_match. }
  by eapply WriteFile_ReadFile.
Qed.

Lemma latest_push d b item : buffer d = push_buffer b item → latest d "any" = Some item.
Proof.
  intros Hb. unfold latest. rewrite Hb.
  assert (∃ k, push_buffer b item = k ++ [item]) as [k ->].
  { unfold push_buffer. destruct (Nat.ltb _ _); [|by eexists]. rewrite drop_app_le; [by eexists|].
    rewrite length_app. cbn [length]. unfold bufferCap. lia. }
  by rewrite reverse_app.
Qed.
End receiving.

(** ** The two commands *)

Definition file_request (data name : string) : Request :=
  mkRequest IPCVersion OpSend data "file" name "" false false "" "".
Definition recv_request : Request :=
  mkRequest IPCVersion OpRecv "" "" "" "any" false false "" "".

Section commands.
Context {T : Type} `{Transport T} `{Blake3} `{ImageCodec} `{MimeTable} `{Clipboard} `{Json}.
Context `{Cbor Request} `{Cbor Response}.
Implicit Types d : Daemon T.
Implicit Types g : Globals T.

Lemma set_fs_same d : set_fs d (fs d) = d.
Proof. by destruct d. Qed.

(** The envelope of a file. *)
Definition file_envelope (m : Moment T) d (data name : string) : Envelope :=
  fillFile (mkEnvelope Version m_ulid "" "" (fp d) (deviceName d) (uint64 m_now) "" "" None "")
    data name.

Lemma build_file (m : Moment T) d data name :
  build_envelope m_ulid m_now d (file_request data name) = Ok (file_envelope m d data name).
Proof. done. Qed.

Definition send_file_formal : gmap string flagval :=
  match parse_args (formal (fs_set send_flags)) ["--file"] with Ok (m, _) => m | Err _ => ∅ end.
Lemma parse_send_file : parse_args (formal (fs_set send_flags)) ["--file"] = Ok (send_file_formal, []).
Proof. vm_compute. reflexivity. Qed.

(** [send PATH --file]. *)
Lemma cmdSend_file (m : Moment T) E g d path data d' so se :
  probe_at E g → tokenize path = TPositional → ReadFile (fs d) path = Ok data → data ≠ "" →
  Ipc.transmits (file_request data (Base path)) → Ipc.transmits okResp →
  handleSend m_ulid m_now m_waited d (file_request data (Base path)) = (okResp, d') →
  cmdSend E g [path; "--file"] (mkWorld d so se) = (Some 0%Z, mkWorld d' so se).
Proof.
  intros Hat Hp Hr Hne Hq Hok Hh. unfold cmdSend.
  destruct (parse_loop_swap (S (length [path; "--file"])) (fs_set send_flags) ["--file"] _ path
    ltac:(cbn; lia) parse_send_file Hp) as [-> _].
  change (get_string (mkFlagSet (f_name (fs_set send_flags)) send_file_formal []) "name") with "".
  change (send_force (mkFlagSet (f_name (fs_set send_flags)) send_file_formal [])) with "file".
  unfold mbind at 1, M_bind at 1, send_input, os_read, os_call, mbind at 1, M_bind at 1.
  cbn [peer peer_fs probe_peer]. rewrite Hr. unfold mret at 1, M_ret at 1.
  cbn [stdout stderr]. change (peer_set_fs d (fs d)) with (set_fs d (fs d)). rewrite set_fs_same.
  destruct (Z.eqb_spec (len data) 0) as [Hz|_]; [by apply len_zero in Hz|].
  rewrite (probe_call_run E g (file_request data (Base path)) _ okResp d d'); [done|done|done| |done|done].
  change (handleReq m_ulid m_now m_waited (m_order (textBaseline d)) d (file_request data (Base path)))
    with (reply (handleSend m_ulid m_now m_waited d (file_request data (Base path)))).
  by rewrite Hh.
Qed.

Definition recv_out_flags (out : string) : flagSet :=
  mkFlagSet "recv" (<["out" := FString out]> (formal (fs_set recv_flags))) [].

Lemma parse_recv_out out :
  parse_args (formal (fs_set recv_flags)) ["--out"; out] = Ok (formal (recv_out_flags out), []).
Proof. done. Qed.

(** [recv --out OUT] of a file. *)
Lemma cmdRecv_file (m : Moment T) E g d out item data so se :
  probe_at E g → Ipc.transmits recv_request → Ipc.transmits (itemResp item) →
  latest d "any" = Some item → Type_ (it_Envelope item) = TypeFile → it_LocalPath item ≠ "" →
  ReadFile (fs d) (it_LocalPath item) = Ok data → out ≠ "" →
  is_ok (WriteFile (fs d) out data).1 = true →
  cmdRecv E g ["--out"; out] (mkWorld d so se) =
    (Some 0%Z, mkWorld (set_fs d (WriteFile (fs d) out data).2) (so +:+ (out +:+ nl)) se).
Proof.
  intros Hat Hq Hr Hl Ht Hlp Hrd Hout Hw. unfold cmdRecv, with_flags. rewrite parse_recv_out.
  set (fl := mkFlagSet _ (formal (recv_out_flags out)) []). cbv zeta.
  change (get_bool fl "latest-image") with false. change (get_bool fl "follow") with false.
  change (get_bool fl "emit-path") with false. change (get_string fl "out") with out.
  unfold mbind at 1, M_bind at 1. rewrite probe_socketPath_run by apply Hat.
  unfold mbind at 1, M_bind at 1.
  rewrite (open_call_run E g true _ recv_request (itemResp item) d d); [|done|done|].
  2:{ change (handleReq m_ulid m_now m_waited (m_order (textBaseline d)) d recv_request)
        with (handleRecv d recv_request).
      unfold handleRecv. cbn [recv_request rq_Kind rq_Follow String.eqb Ascii.eqb Bool.eqb].
      by rewrite Hl. }
  rewrite probe_answered_read by done. change (String.eqb (rs_Kind (itemResp item)) RespErr) with false.
  cbv iota. unfold printItem. cbn [itemResp rs_Item rs_Kind].
  rewrite String.eqb_refl, Ht. change (String.eqb TypeFile "text") with false. cbn [negb orb].
  rewrite (proj2 (String.eqb_neq _ _) Hout), (proj2 (String.eqb_neq _ _) Hlp). cbn [negb andb].
  unfold Cli.copyFile, os_read, os_call, mbind, M_bind, mret, M_ret.
  cbn [peer peer_fs probe_peer]. rewrite Hrd. cbn [peer stdout stderr].
  change (peer_set_fs d (fs d)) with (set_fs d (fs d)). rewrite set_fs_same. cbn [peer_fs probe_peer].
  destruct (WriteFile (fs d) out data) as [[[]|e] f]; [|done]. done.
Qed.

End commands.

(** ** Both machines *)

Lemma len_pos s : s ≠ "" → (0 < len s)%Z.
Proof.
  intros Hs. destruct (Z.eqb_spec (len s) 0) as [Hz|Hz]; [by apply len_zero in Hz|].
  unfold len in *. lia.
Qed.

Section handoff.
Context `{Blake3} `{ImageCodec} `{MimeTable} `{Clipboard} `{Json} `{Cbor Request} `{Cbor Response}.

(** [send PATH --file] on one machine, when its transport takes the envelope, and
    [recv --out OUT] on a machine that was given the same envelope. *)
Lemma file_handoff {T U} `{Transport T} `{Transport U} (mA : Moment T) (mB : Moment U)
    EA EB (gA : Globals T) (gB : Globals U) (a : Daemon T) (b : Daemon U) path out data t' :
  let env := file_envelope mA a data (Base path) in
  probe_at EA gA → tokenize path = TPositional → ReadFile (fs a) path = Ok data → data ≠ "" →
  Broadcast (@m_waited _ mA (tr a)) env = (None, t') → Peers t' ≠ [] →
  Ipc.transmits (file_request data (Base path)) → Ipc.transmits okResp →
  (Seen (d_dedupe b) (MsgID env)).1 = false → fp a ≠ fp b →
  is_ok (WriteFile (fs b) (file_path b env) data).1 = true →
  probe_at EB gB → Ipc.transmits recv_request →
  Ipc.transmits (itemResp (mkItem env (file_path b env))) →
  is_ok (WriteFile (fs (ingest b env)) out data).1 = true →
  cmdSend EA gA [path; "--file"] (mkWorld a "" "") =
    (Some 0%Z, mkWorld (set_tr (set_dedupe a (Seen (d_dedupe a) (MsgID env)).2) t') "" "") ∧
  ∃ b', cmdRecv EB gB ["--out"; out] (mkWorld (ingest b env) "" "") =
          (Some 0%Z, mkWorld b' (out +:+ nl) "") ∧
        ReadFile (fs b') out = Ok data.
Proof.
  intros env HatA Hp Hr Hne Hsent Hpe Hq Hok Hs Hfp Hw HatB Hrq Hrs Hwo. split.
  - apply (cmdSend_file mA EA gA a path data _ "" ""); try done.
    apply handleSend_sent; [exact (len_pos _ Hne)|by apply build_file|done|done].
  - destruct (ingest_file b env _ eq_refl eq_refl eq_refl Hs Hfp Hw) as [Hb Hread].
    apply latest_push in Hb.
    pose proof (WriteFile_named _ _ _ Hw) as Hfile. pose proof (WriteFile_named _ _ _ Hwo) as Hout.
    destruct (WriteFile (fs (ingest b env)) out data) as [[[]|e] fo] eqn:Eo; [|done].
    exists (set_fs (ingest b env) fo). split.
    + rewrite (cmdRecv_file mB EB gB (ingest b env) out _ data "" "" HatB Hrq Hrs Hb);
        [by rewrite Eo|done..|by rewrite Eo].
    + cbn [fs set_fs set_files]. by eapply WriteFile_ReadFile.
Qed.
End handoff.


(** ** Properties *)

#[local] Existing Instance Lan.lan_transport.

Definition lan_send `{Lan.Tls} `{Cbor Envelope} `{Blake3} `{ImageCodec} `{MimeTable} `{Clipboard} `{Json}
    `{Cbor Request} `{Cbor Response} (m : Moment Lan.Lan) E (g : Globals Lan.Lan) args d :=
  cmdSend E g args (mkWorld d "" "").
Definition lan_recv `{Lan.Tls} `{Cbor Envelope} `{Blake3} `{ImageCodec} `{MimeTable} `{Clipboard} `{Json}
    `{Cbor Request} `{Cbor Response} (m : Moment Lan.Lan) E (g : Globals Lan.Lan) args d :=
  cmdRecv E g args (mkWorld d "" "").

(** C7. A file arrives whole.  [lan send PATH --file] exits with 0 and leaves a stream on the
    connection to a peer; the peer's [readStream] and [ingest] turn the stream into its newest item;
    and [lan recv --out OUT] there exits with 0, prints OUT, and leaves in OUT exactly the bytes
    that PATH had on the first machine, whatever the sinks of the daemon did in between. *)
Theorem lan_file_handoff `{Lan.Tls} `{Cbor Envelope} `{Blake3} `{ImageCodec} `{MimeTable} `{Clipboard}
    `{Json} `{Cbor Request} `{Cbor Response} `{!CborSound Envelope}
    (mA mB : Moment Lan.Lan) EA EB gA gB a b path out data frame f p :
  let env := file_envelope mA a data (Base path) in
  probe_at EA gA → tokenize path = TPositional → ReadFile (fs a) path = Ok data → data ≠ "" →
  Marshal env = Ok frame → fits frame →
  Lan.peers (@m_waited _ mA (tr a)) !! f = Some p →
  Lan.n_open (Lan.net (@m_waited _ mA (tr a))) (Lan.pc_conn p) = Some (mkWriter "" None) →
  Ipc.transmits (file_request data (Base path)) → Ipc.transmits okResp →
  (Seen (d_dedupe b) (MsgID env)).1 = false → fp a ≠ fp b →
  is_ok (WriteFile (fs b) (file_path b env) data).1 = true →
  probe_at EB gB → Ipc.transmits recv_request →
  Ipc.transmits (itemResp (mkItem env (file_path b env))) →
  is_ok (WriteFile (fs (ingest b env)) out data).1 = true →
  ∃ a' b' bytes env',
    lan_send mA EA gA [path; "--file"] a = (Some 0%Z, mkWorld a' "" "") ∧
    (Lan.pc_conn p, bytes) ∈ Lan.sent (tr a') ∧
    Lan.readStream (mkReader bytes EOF) = Some env' ∧
    lan_recv mB EB gB ["--out"; out] (ingest b env') = (Some 0%Z, mkWorld b' (out +:+ nl) "") ∧
    ReadFile (fs b') out = Ok data.
Proof.
  intros env HatA Hp Hr Hne Hm Hf Hpe Ho Hq Hok Hs Hfp Hw HatB Hrq Hrs Hwo.
  destruct (LanProps.broadcast_reaches _ env frame f p Hm Hf Hpe Ho) as (He & Hpe' & Hin).
  destruct (Lan.lan_Broadcast (@m_waited _ mA (tr a)) env) as [err t'] eqn:E. cbn [fst snd] in *. subst err.
  change (Broadcast (@m_waited _ mA (tr a)) env = (None, t')) in E. rewrite <-Hpe' in Hpe.
  destruct (file_handoff mA mB EA EB gA gB a b path out data t' HatA Hp Hr Hne E
    (LanProps.lan_Peers_some _ _ _ Hpe) Hq Hok Hs Hfp Hw HatB Hrq Hrs Hwo) as (Hsend & b' & Hrecv & Hout).
  eexists _, b', (frame_bytes frame), env. split_and!; [exact Hsend|done| |exact Hrecv|done].
  by apply LanProps.readStream_frame.
Qed.

#[local] Existing Instance Mesh.mesh_transport.

Definition mesh_send `{Mesh.Libp2p} `{Cbor Envelope} `{Blake3} `{ImageCodec} `{MimeTable} `{Clipboard}
    `{Json} `{Cbor Request} `{Cbor Response} (m : Moment Mesh.Mesh) E (g : Globals Mesh.Mesh) args d :=
  cmdSend E g args (mkWorld d "" "").
Definition mesh_recv `{Mesh.Libp2p} `{Cbor Envelope} `{Blake3} `{ImageCodec} `{MimeTable} `{Clipboard}
    `{Json} `{Cbor Request} `{Cbor Response} (m : Moment Mesh.Mesh) E (g : Globals Mesh.Mesh) args d :=
  cmdRecv E g args (mkWorld d "" "").

(** C8. A file arrives whole over libp2p too.  [libp2p-mesh send PATH --file] exits with 0 and
    leaves a message on the topic; when gossipsub hands it to another machine, [readLoop] there does
    not take it for one of its own, [ingest] makes it the newest item, and
    [libp2p-mesh recv --out OUT] exits with 0, prints OUT, and leaves in OUT exactly the bytes that
    PATH had on the first machine. *)
Theorem mesh_file_handoff `{Mesh.Libp2p} `{Cbor Envelope} `{Blake3} `{ImageCodec} `{MimeTable}
    `{Clipboard} `{Json} `{Cbor Request} `{Cbor Response} `{!CborSound Envelope}
    (mA mB : Moment Mesh.Mesh) EA EB gA gB a b path out data frame :
  let env := file_envelope mA a data (Base path) in
  let net_a := @m_waited _ mA (tr a) in
  probe_at EA gA → tokenize path = TPositional → ReadFile (fs a) path = Ok data → data ≠ "" →
  Marshal env = Ok frame → Mesh.topic net_a = true →
  Mesh.n_publish (Mesh.net net_a) frame = None → Mesh.n_ListPeers (Mesh.net net_a) ≠ [] →
  fp a = Identity net_a → fp b = Identity (tr b) → fp a ≠ fp b →
  Ipc.transmits (file_request data (Base path)) → Ipc.transmits okResp →
  (Seen (d_dedupe b) (MsgID env)).1 = false →
  is_ok (WriteFile (fs b) (file_path b env) data).1 = true →
  probe_at EB gB → Ipc.transmits recv_request →
  Ipc.transmits (itemResp (mkItem env (file_path b env))) →
  is_ok (WriteFile (fs (ingest b env)) out data).1 = true →
  ∃ a' b' msg env',
    mesh_send mA EA gA [path; "--file"] a = (Some 0%Z, mkWorld a' "" "") ∧
    Mesh.GetFrom msg = Mesh.host_ID (tr a') ∧ Mesh.Data msg ∈ Mesh.published (tr a') ∧
    Mesh.readLoop_one (tr b) msg = Some env' ∧
    mesh_recv mB EB gB ["--out"; out] (ingest b env') = (Some 0%Z, mkWorld b' (out +:+ nl) "") ∧
    ReadFile (fs b') out = Ok data.
Proof.
  intros env na HatA Hp Hr Hne Hm Ht Hpub Hpe Hia Hib Hfp Hq Hok Hs Hw HatB Hrq Hrs Hwo.
  pose proof (Mesh.mesh_Broadcast_sent na env frame Ht Hm Hpub) as Hb.
  set (t' := Mesh.set_published _ _) in Hb. change (Broadcast na env = (None, t')) in Hb.
  assert (Peers t' ≠ []) as Hpe'.
  { cbn. unfold Mesh.mesh_Peers, t'. cbn. rewrite Ht. cbn. by destruct (Mesh.n_ListPeers (Mesh.net na)). }
  destruct (file_handoff mA mB EA EB gA gB a b path out data t' HatA Hp Hr Hne Hb Hpe' Hq Hok Hs Hfp
    Hw HatB Hrq Hrs Hwo) as (Hsend & b' & Hrecv & Hout).
  exists (set_tr (set_dedupe a (Seen (d_dedupe a) (MsgID env)).2) t'), b',
    (Mesh.mkMessage (Mesh.host_ID t') frame), env.
  split_and!; [exact Hsend|done| | |exact Hrecv|done].
  - cbn. apply elem_of_app. right. by left.
  - rewrite (Mesh.readLoop_frame (tr b) env frame) by done. rewrite (proj2 (String.eqb_neq _ _)); [done|].
    intros E. destruct Hfp. rewrite Hia, Hib. cbn. unfold Mesh.mesh_Identity. by rewrite <-E.
Qed.

(** ** An example *)

#[local] Existing Instance LanProps.toy_tls.
#[local] Existing Instance strict_env.
#[local] Existing Instance strict_env_sound.
#[local] Existing Instance pad_blake3.
#[local] Existing Instance Handlers.no_images.
#[local] Existing Instance Handlers.no_mime.
#[local] Existing Instance Daemon.clipboard_works.
#[local] Existing Instance probe_req.
#[local] Existing Instance probe_resp.
#[local] Existing Instance probe_json.

Definition lan_moment : Moment Lan.Lan := mkMoment _ "01" 5 (λ t, t) map_to_list [].
Definition lan_globals : Globals Lan.Lan :=
  mkGlobals (lan_app (LanProps.keygen_of "a") LanProps.open_net) "" "/run/lan.sock" "" false false false.
Definition here : Daemon Lan.Lan := LanProps.lan_daemon (Lan.tr LanProps.lan_joined).
Definition there : Daemon Lan.Lan := LanProps.lan_daemon LanProps.lan_b.
Definition sent_file : Envelope := file_envelope lan_moment here "old" "log.txt".

Lemma lan_at : probe_at demo_env lan_globals.
Proof. by split. Qed.

Lemma sent_file_frame : Marshal sent_file = Ok (enc_env sent_file) ∧ fits (enc_env sent_file).
Proof. split; [vm_compute; reflexivity|]. apply (bool_decide_unpack _). vm_compute. exact I. Qed.

Lemma sent_file_transmits :
  Ipc.transmits (file_request "old" "log.txt") ∧ Ipc.transmits okResp ∧ Ipc.transmits recv_request ∧
  Ipc.transmits (itemResp (mkItem sent_file (file_path there sent_file))).
Proof.
  split_and!; (eapply Ipc.transmits_dec; [vm_compute; reflexivity|vm_compute; reflexivity|]);
    vm_compute; reflexivity.
Qed.

Lemma sent_file_written :
  (Seen (d_dedupe there) (MsgID sent_file)).1 = false ∧
  is_ok (WriteFile (fs there) (file_path there sent_file) "old").1 = true ∧
  is_ok (WriteFile (fs (ingest there sent_file)) "/out.txt" "old").1 = true.
Proof. split_and!; vm_compute; reflexivity. Qed.

Lemma lan_file_handoff_witness :
  ∃ a' b' bytes env',
    lan_send lan_moment demo_env lan_globals ["/log.txt"; "--file"] here =
      (Some 0%Z, mkWorld a' "" "") ∧
    Lan.readStream (mkReader bytes EOF) = Some env' ∧
    lan_recv lan_moment demo_env lan_globals ["--out"; "/out.txt"] (ingest there env') =
      (Some 0%Z, mkWorld b' ("/out.txt" +:+ nl) "") ∧
    ReadFile (fs b') "/out.txt" = Ok "old".
Proof.
  destruct sent_file_frame as [Hm Hf]. destruct sent_file_transmits as (Hq & Hok & Hrq & Hrs).
  destruct sent_file_written as (Hs & Hw & Hwo).
  destruct (lan_file_handoff lan_moment lan_moment demo_env demo_env lan_globals lan_globals here there
    "/log.txt" "/out.txt" "old" (enc_env sent_file) "62"
    (Lan.mkPeerConn "62" "" "192.168.1.9:4002" (LanProps.conn_to "b"))
    lan_at eq_refl eq_refl ltac:(discriminate) Hm Hf eq_refl eq_refl Hq Hok Hs ltac:(discriminate) Hw
    lan_at Hrq Hrs Hwo) as (a' & b' & bytes & env' & H1 & _ & H2 & H3 & H4).
  exists a', b', bytes, env'. split_and!; assumption.
Defined.

#[local] Existing Instance Mesh.toy_libp2p.

Definition mesh_daemon (id : string) : Daemon Mesh.Mesh :=
  let t := (Mesh.mesh_Start (Mesh.mesh_demo id)).2 in
  mkDaemon LanProps.lan_store "default" "mesh" t (Mesh.mesh_Identity t) "dev" (NewDedupe 4096) [] ∅ ""
    [] ∅ false "" false Daemon.demo_tree clip_init.
Definition mesh_moment : Moment Mesh.Mesh := mkMoment _ "01" 5 (λ t, t) map_to_list [].
Definition mesh_globals : Globals Mesh.Mesh :=
  mkGlobals (mesh_app (Ok "k") None Mesh.open_mesh) "" "/run/mesh.sock" "" false false false.
Definition mesh_file : Envelope := file_envelope mesh_moment (mesh_daemon "a") "old" "log.txt".

Lemma mesh_at : probe_at demo_env mesh_globals.
Proof. by split. Qed.

Lemma mesh_file_frame : Marshal mesh_file = Ok (enc_env mesh_file).
Proof. vm_compute. reflexivity. Qed.

Lemma mesh_file_transmits :
  Ipc.transmits (itemResp (mkItem mesh_file (file_path (mesh_daemon "b") mesh_file))).
Proof. eapply Ipc.transmits_dec; [vm_compute; reflexivity..|]; vm_compute; reflexivity. Qed.

Lemma mesh_file_written :
  (Seen (d_dedupe (mesh_daemon "b")) (MsgID mesh_file)).1 = false ∧
  is_ok (WriteFile (fs (mesh_daemon "b")) (file_path (mesh_daemon "b") mesh_file) "old").1 = true ∧
  is_ok (WriteFile (fs (ingest (mesh_daemon "b") mesh_file)) "/out.txt" "old").1 = true.
Proof. split_and!; vm_compute; reflexivity. Qed.

Lemma mesh_file_handoff_witness :
  ∃ a' b' msg env',
    mesh_send mesh_moment demo_env mesh_globals ["/log.txt"; "--file"] (mesh_daemon "a") =
      (Some 0%Z, mkWorld a' "" "") ∧
    Mesh.readLoop_one (tr (mesh_daemon "b")) msg = Some env' ∧
    mesh_recv mesh_moment demo_env mesh_globals ["--out"; "/out.txt"] (ingest (mesh_daemon "b") env') =
      (Some 0%Z, mkWorld b' ("/out.txt" +:+ nl) "") ∧
    ReadFile (fs b') "/out.txt" = Ok "old".
Proof.
  destruct sent_file_transmits as (Hq & Hok & Hrq & _). destruct mesh_file_written as (Hs & Hw & Hwo).
  destruct (mesh_file_handoff mesh_moment mesh_moment demo_env demo_env mesh_globals mesh_globals
    (mesh_daemon "a") (mesh_daemon "b") "/log.txt" "/out.txt" "old" (enc_env mesh_file)
    mesh_at eq_refl eq_refl ltac:(discriminate) mesh_file_frame eq_refl eq_refl ltac:(discriminate)
    eq_refl eq_refl ltac:(discriminate) Hq Hok Hs Hw mesh_at Hrq mesh_file_transmits Hwo)
    as (a' & b' & msg & env' & H1 & _ & _ & H2 & H3 & H4).
  exists a', b', msg, env'. split_and!; assumption.
Defined.
