(* ===== verification/ProbeRoom.v ===== *)
(** * The experiments: a room of processes

    Daemons of [experiments/shared-go], each a process of [ProbeServe], over any transport: what a
    client of one of them is shown, and what it is sure to be shown.  What a transport puts on the
    network, and what the other end makes of it, is the class [Ledger]; [MeshRoom] and [LanRoom] have
    its instances. *)
From S2P Require Import Prelude GoStr GoPath GoOS Wire Codec Chan Dedupe Clip ProbeConfig ProbeIpc ProbeDaemon ProbeHandlers Serve ProbeServe.
From S2P Require Ipc Delivery.
Open Scope string_scope.
Open Scope list_scope.

(** What a transport leaves on the network. *)
Class Ledger (T : Type) := {
  l_msg : Type;
  l_ok : T → Prop;                               (** what the laws need of it *)
  l_out : T → list l_msg;                        (** the messages that left (history) *)
  l_reads : T → l_msg → option Envelope;         (** what the end that gets one makes of it *)
  l_casts : string → Envelope → list l_msg → Prop; (** the messages of one [Broadcast] *)
  l_drifts : T → T → Prop;                       (** what it does by itself *)
}.

(** Only [Broadcast] makes messages leave, and they carry its envelope or nothing. *)
Class LedgerLaws (T : Type) `{Transport T} `{!Ledger T} := {
  drift_out : ∀ t u, l_drifts t u → l_ok t → l_ok u ∧ Identity u = Identity t ∧ l_out u = l_out t;
  close_out : ∀ t, l_ok t → l_ok (Close t) ∧ Identity (Close t) = Identity t ∧ l_out (Close t) = l_out t;
  cast_out : ∀ t env err u, l_ok t → Broadcast t env = (err, u) →
    l_ok u ∧ Identity u = Identity t ∧
    match err with
    | None => ∃ k, l_out u = l_out t ++ k ∧ l_casts (Identity t) env k
    | Some _ => l_out u = l_out t
    end;
  casts_read : ∀ id env k x v env', l_casts id env k → x ∈ k → l_reads v x = Some env' → env' = env;
}.

Section room.
Context {T : Type} `{Transport T} `{!Ledger T} `{!LedgerLaws T}.
Context `{Blake3} `{ImageCodec} `{MimeTable} `{Clipboard} `{Json}.
Context `{Cbor Request} `{Cbor Response}.
Notation Node := (Srv (Daemon T) Item).
Notation label := (slabel (Given T) (arrival T)).

(** ** What a node sent *)

Lemma build_envelope_head ulid ms (d : Daemon T) req env :
  build_envelope ulid ms d req = Ok env → MsgID env = ulid ∧ Sender env = fp d.
Proof.
  assert (∀ e0 data name env, fillImage e0 data name = Ok env → MsgID env = MsgID e0 ∧ Sender env = Sender e0) as Hi.
  { intros e0 data name env'. unfold fillImage. repeat case_match; try done; by intros [= <-]. }
  unfold build_envelope. cbv zeta. repeat case_match; try done; intros [= <-]; try done;
    match goal with E : fillImage _ _ _ = _ |- _ => by apply Hi in E end.
Qed.

(** The envelope of a request to [send] that is not answered with an error. *)
Definition acked (ulid : string) (ms : Z) (waited : T → T) (d : Daemon T) (req : Request)
    : list Envelope :=
  match build_envelope ulid ms d req with
  | Ok env => if String.eqb (rs_Kind (handleSend ulid ms waited d req).1) RespOK then [env] else []
  | Err _ => []
  end.

Definition step_posts (st : Node) (l : label) : list Envelope :=
  match l with
  | SRequest c x rd =>
      match (ReadReq rd).1 with
      | Ok req =>
          if (rq_IPCVersion req =? IPCVersion)%Z && String.eqb (rq_Op req) OpSend
          then acked (x_ulid x) (x_now x) (x_waited x) (sv_d st) req else []
      | Err _ => []
      end
  | _ => []
  end.

Fixpoint posts (socketPath : string) (st : Node) (ls : list label) : list Envelope :=
  match ls with
  | [] => []
  | l :: ls =>
      match @sstep _ _ _ _ _ _ (probe_server socketPath) st l with
      | Some st' => step_posts st l ++ posts socketPath st' ls
      | None => []
      end
  end.

(** In a step the transport only does what it does by itself: when it moves, and while [send] waits
    for peers. *)
Definition step_drifts (st : Node) (l : label) : Prop :=
  match l with
  | SBack (Moved t) => l_drifts (tr (sv_d st)) t
  | SRequest _ x _ => l_drifts (tr (sv_d st)) (x_waited x (tr (sv_d st)))
  | _ => True
  end.

Fixpoint drifting (socketPath : string) (st : Node) (ls : list label) : Prop :=
  match ls with
  | [] => True
  | l :: ls =>
      step_drifts st l ∧
      match @sstep _ _ _ _ _ _ (probe_server socketPath) st l with
      | Some st' => drifting socketPath st' ls
      | None => True
      end
  end.

(** The messages that left are those of these envelopes, in order. *)
Definition has_sent (t : T) (envs : list Envelope) : Prop :=
  l_ok t ∧ ∃ groups, Forall2 (l_casts (Identity t)) envs groups ∧ l_out t = concat groups.

Lemma has_sent_drift t u envs : l_drifts t u → has_sent t envs → has_sent u envs ∧ Identity u = Identity t.
Proof.
  intros Hd [Hok Hs]. destruct (drift_out t u Hd Hok) as (Hu & Hi & Ho). unfold has_sent. by rewrite Hi, Ho.
Qed.

Lemma has_sent_cast t envs env err u :
  has_sent t envs → Broadcast t env = (err, u) →
  has_sent u (envs ++ if err is None then [env] else []) ∧ Identity u = Identity t.
Proof.
  intros [Hok (groups & Hg & Ho)] Hb. destruct (cast_out t env err u Hok Hb) as (Hu & Hi & Hk).
  split; [|done]. split; [done|]. rewrite Hi. destruct err as [e|].
  - exists groups. by rewrite app_nil_r, Hk.
  - destruct Hk as (k & -> & Hk). exists (groups ++ [k]). split; [|by rewrite concat_app, Ho; cbn; rewrite app_nil_r].
    apply Forall2_app; [done|by repeat constructor].
Qed.

(** [handleSend] sends the envelope it built, or answers with an error. *)
Lemma handleSend_has_sent ulid ms waited (d : Daemon T) req envs :
  has_sent (tr d) envs → l_drifts (tr d) (waited (tr d)) →
  let d' := (handleSend ulid ms waited d req).2 in
  has_sent (tr d') (envs ++ acked ulid ms waited d req) ∧
  Identity (tr d') = Identity (tr d) ∧ fp d' = fp d ∧
  (d_dedupe d' = d_dedupe d ∨ d_dedupe d' = (Seen (d_dedupe d) ulid).2).
Proof.
  intros HP Hdr. unfold acked. destruct (has_sent_drift _ _ _ Hdr HP) as [HP' Hi].
  destruct (build_envelope ulid ms d req) as [env|e] eqn:Eb.
  2:{ rewrite app_nil_r. unfold handleSend. rewrite Eb. destruct (_ =? 0)%Z; cbn; auto. }
  assert (MsgID env = ulid) as Hid by by apply build_envelope_head in Eb as [].
  unfold handleSend. rewrite Eb. destruct (_ =? 0)%Z; [cbn; rewrite app_nil_r; auto|].
  rewrite Hid. cbn [tr set_dedupe]. destruct (Broadcast (waited (tr d)) env) as [err u] eqn:Ebr.
  destruct (has_sent_cast _ _ _ _ _ HP' Ebr) as [HP2 Hi2]. rewrite Hi in Hi2.
  destruct err as [e|]; [cbn; auto 6|].
  destruct (length (Peers u) =? 0)%nat; cbn; auto 6.
Qed.

(** The ids a step may mark. *)
Definition marks (l : label) : list string :=
  match l with
  | SRequest _ x _ => [x_ulid x]
  | SBack (Received env) => [MsgID env]
  | _ => []
  end.

Lemma step_keeps socketPath st l st' envs :
  @sstep _ _ _ _ _ _ (probe_server socketPath) st l = Some st' → step_drifts st l →
  has_sent (tr (sv_d st)) envs →
  has_sent (tr (sv_d st')) (envs ++ step_posts st l) ∧
  Identity (tr (sv_d st')) = Identity (tr (sv_d st)) ∧ fp (sv_d st') = fp (sv_d st) ∧
  (d_dedupe (sv_d st') = d_dedupe (sv_d st) ∨
   ∃ id, id ∈ marks l ∧ d_dedupe (sv_d st') = (Seen (d_dedupe (sv_d st)) id).2).
Proof.
  intros Hs Hdr HP. apply (sstep_daemon (Server0 := probe_server socketPath)) in Hs.
  destruct l as [c w|e x|c x rd|c|c|signalled| |[env|t]]; cbn [step_posts marks step_drifts] in *;
    rewrite ?app_nil_r; try (rewrite Hs; by auto).
  - rewrite Hs. cbn. unfold Run_end.
    match goal with |- context [applyExitPolicy ?o ?y] =>
      destruct (applyExitPolicy_core o y) as (_ & -> & -> & ->) end. cbn.
    destruct HP as [Hok (groups & Hg & Ho)]. destruct (close_out _ Hok) as (Hc & Hi & Hco).
    split_and!; [|done|done|by left]. split; [done|]. exists groups. by rewrite Hi, Hco.
  - destruct Hs as (w & h & w' & Hs). revert Hs. cbn. unfold probe_handleConn, handleConn.
    destruct (ReadReq rd).1 as [req|e]; [|intros [= _ <- _]; rewrite app_nil_r; auto].
    destruct (handleReq_quiet (x_ulid x) (x_now x) (x_waited x) (x_order x (textBaseline (sv_d st))) (sv_d st) req)
      as [[-> ->]|[-> (_ & Ht & Hf & Hd)]].
    + destruct (handleSend_has_sent (x_ulid x) (x_now x) (x_waited x) (sv_d st) req envs HP Hdr)
        as (HP' & Hh & Hf & Hd).
      unfold reply. destruct (handleSend _ _ _ _ _) as [r d]. cbn [fst snd] in *. intros [= _ <- _].
      split_and!; [done..|]. destruct Hd as [->| ->]; [by left|right]. eexists. split; [by left|done].
    + destruct (handleReq _ _ _ _ _ _) as [o d]. cbn [snd] in *. intros [= _ <- _]. rewrite app_nil_r, Ht, Hf, Hd.
      auto.
  - destruct Hs as [s ->]. cbn. auto.
  - destruct Hs as [s ->]. cbn. auto.
  - injection Hs as <-. destruct (ingest_core (sv_d st) env) as (-> & -> & ->). split_and!; [done..|right].
    eexists. split; [by left|done].
  - injection Hs as <-. cbn. destruct (has_sent_drift _ _ _ Hdr HP) as [HP' Hi]. auto.
Qed.

Lemma srun_keeps_room socketPath st ls st' envs :
  @srun _ _ _ _ _ _ (probe_server socketPath) st ls = Some st' → drifting socketPath st ls →
  has_sent (tr (sv_d st)) envs →
  has_sent (tr (sv_d st')) (envs ++ posts socketPath st ls) ∧
  Identity (tr (sv_d st')) = Identity (tr (sv_d st)).
Proof.
  revert st envs. induction ls as [|l ls IH]; intros st envs; cbn [srun drifting posts];
    [intros [= <-]; by rewrite app_nil_r|].
  destruct (sstep st l) as [st1|] eqn:E; [|done]. intros Hr [Hd Hds] HP.
  destruct (step_keeps _ _ _ _ _ E Hd HP) as (HP' & Hh & _ & _).
  destruct (IH st1 _ Hr Hds HP') as (HP2 & Hh2). rewrite app_assoc. split; [done|congruence].
Qed.

Lemma step_seen socketPath st l st' envs :
  @sstep _ _ _ _ _ _ (probe_server socketPath) st l = Some st' → step_drifts st l →
  has_sent (tr (sv_d st)) envs → dedupe_wf (d_dedupe (sv_d st)) →
  dedupe_wf (d_dedupe (sv_d st')) ∧
  ∀ x, x ∈ seen (d_dedupe (sv_d st')) → x ∈ seen (d_dedupe (sv_d st)) ∨ x ∈ marks l.
Proof.
  intros Hs Hd HP Hw. destruct (step_keeps _ _ _ _ _ Hs Hd HP) as (_ & _ & _ & [->|(id & Hid & ->)]); [auto|].
  split; [by apply Seen_wf|]. intros x [Hx|Hx]%Seen_only; [by left|by right; rewrite Hx|done].
Qed.

(** ** What a node accepts *)

Definition received (ls : list label) : list Envelope :=
  omap (λ l, match l with SBack (Received env) => Some env | _ => None end) ls.

Lemma received_cons l ls : received (l :: ls) = received [l] ++ received ls.
Proof. unfold received. change (l :: ls) with ([l] ++ ls). by rewrite omap_app. Qed.

Lemma items_envelope (d : Daemon T) env : map it_Envelope (new_items d env) `sublist_of` [env].
Proof.
  unfold new_items, materialize. repeat case_match; try apply sublist_nil_l; done.
Qed.

Lemma node_hist socketPath st ls st' :
  @srun _ _ _ _ _ _ (probe_server socketPath) st ls = Some st' →
  ∃ k, hist st' = hist st ++ k ∧ map it_Envelope k `sublist_of` received ls.
Proof.
  revert st. induction ls as [|l ls IH]; intros st; cbn [srun].
  { intros [= <-]. exists []. by rewrite app_nil_r. }
  destruct (sstep st l) as [st1|] eqn:E; [|done]. intros (k & Hk & Hs)%IH.
  pose proof (sstep_hist (Server0 := probe_server socketPath) st l st1 E) as Eh.
  eexists. rewrite Hk, Eh, <-app_assoc. split; [done|]. rewrite map_app, received_cons.
  apply sublist_app; [|done]. destruct l as [| | | | | | |[env|t]]; cbn; try apply sublist_nil_l.
  apply items_envelope.
Qed.

(** Of what others send under fresh ids, a node accepts every text. *)
Lemma node_accepts socketPath st ls st' envs :
  @srun _ _ _ _ _ _ (probe_server socketPath) st ls = Some st' → drifting socketPath st ls →
  has_sent (tr (sv_d st)) envs → dedupe_wf (d_dedupe (sv_d st)) →
  NoDup (map MsgID (received ls)) →
  (∀ env, env ∈ received ls → MsgID env ∉ seen (d_dedupe (sv_d st))) →
  (∀ c x rd env, SRequest c x rd ∈ ls → env ∈ received ls → x_ulid x ≠ MsgID env) →
  ∃ k, hist st' = hist st ++ k ∧
       filter (λ env, Delivery.is_text env ∧ Sender env ≠ fp (sv_d st)) (received ls) `sublist_of`
       map it_Envelope k.
Proof.
  revert st envs. induction ls as [|l ls IH]; intros st envs; cbn [srun drifting].
  { intros [= <-] _ _ _ _ _ _. exists []. by rewrite app_nil_r. }
  destruct (sstep st l) as [st1|] eqn:E; [|done]. intros Hr [Hd Hds] HP Hw Hn Hf Hx.
  pose proof (sstep_hist (Server0 := probe_server socketPath) st l st1 E) as Eh.
  destruct (step_keeps _ _ _ _ _ E Hd HP) as (HP' & _ & Hfp & _).
  destruct (step_seen _ _ _ _ _ E Hd HP Hw) as [Hw' Hsn].
  rewrite received_cons, map_app in Hn. apply NoDup_app in Hn as (_ & Hdis & Hn).
  destruct (IH st1 _ Hr Hds HP' Hw' Hn) as (k & Hk & Hs).
  { intros env Hin. assert (MsgID env ∉ seen (d_dedupe (sv_d st))) as Hns
      by (apply Hf; rewrite received_cons; apply elem_of_app; by right). intros [?|Hm]%Hsn; [done|].
    destruct l as [| |c x rd| | | | |[env'|t]]; cbn in Hm; try by apply elem_of_nil in Hm.
    - apply list_elem_of_singleton in Hm. eapply (Hx c x rd env); [by left| |done].
      rewrite received_cons; apply elem_of_app; by right.
    - apply list_elem_of_singleton in Hm. eapply (Hdis (MsgID env)); [rewrite Hm; by left|].
      by apply list_elem_of_fmap_2. }
  { intros c x rd env Hc Hin. eapply Hx; [by right|]. rewrite received_cons; apply elem_of_app; by right. }
  exists (news (Server0 := probe_server socketPath) (sv_d st) l ++ k). rewrite Hk, Eh, app_assoc. split; [done|].
  rewrite received_cons, filter_app, map_app. apply sublist_app; [|by rewrite <-Hfp].
  destruct l as [| | | | | | |[env|t]]; try apply sublist_nil_l.
  change (received [SBack (Received env)]) with [env] in *. rewrite filter_cons, filter_nil.
  case_decide as Ht; [|apply sublist_nil_l]. destruct Ht as [Ht Hse].
  assert (MsgID env ∉ seen (d_dedupe (sv_d st))) as Hns by (apply Hf; by left). cbn [news sv_accepted probe_server]. unfold new_items.
  destruct (Seen_fresh (d_dedupe (sv_d st)) (MsgID env) Hw Hns) as (dd & -> & _). cbn [fst orb].
  rewrite (proj2 (String.eqb_neq _ _) Hse). unfold materialize. by rewrite Ht.
Qed.

(** ** Nodes *)

(** A daemon from its start, and the state it has come to. *)
Record node := mkNode {
  n_socket : string;
  n_daemon : Daemon T;
  n_steps : list label;
  n_state : Node;
}.

Record node_ok (n : node) : Prop := {
  no_dedupe : dedupe_wf (d_dedupe (n_daemon n));
  no_subs : subs (n_daemon n) = ∅;
  no_fp : fp (n_daemon n) = Identity (tr (n_daemon n));
  no_ok : l_ok (tr (n_daemon n));
  no_out : l_out (tr (n_daemon n)) = [];
  no_drifting : drifting (n_socket n) (sv_start (n_daemon n)) (n_steps n);
  no_run : @srun _ _ _ _ _ _ (probe_server (n_socket n)) (sv_start (n_daemon n)) (n_steps n) = Some (n_state n);
}.

(** What a node was asked to [send], and did; and what left it. *)
Definition n_sent (n : node) : list Envelope := posts (n_socket n) (sv_start (n_daemon n)) (n_steps n).
Definition n_out (n : node) : list l_msg := l_out (tr (sv_d (n_state n))).

Lemma node_has_sent n : node_ok n → has_sent (tr (n_daemon n)) [].
Proof. intros Hn. split; [apply (no_ok n Hn)|]. exists []. by rewrite (no_out n Hn). Qed.

(** The messages that left a node are those of what it sent. *)
Lemma node_out n :
  node_ok n → ∃ groups, Forall2 (l_casts (fp (n_daemon n))) (n_sent n) groups ∧ n_out n = concat groups.
Proof.
  intros Hn. destruct (srun_keeps_room _ _ _ _ [] (no_run n Hn) (no_drifting n Hn) (node_has_sent n Hn))
    as [[_ (groups & Hg & Ho)] Hi]. cbn in Hg, Hi. rewrite Hi, <-(no_fp n Hn) in Hg. by exists groups.
Qed.

Lemma node_reads n x v env : node_ok n → x ∈ n_out n → l_reads v x = Some env → env ∈ n_sent n.
Proof.
  intros Hn Hx Hr. destruct (node_out n Hn) as (groups & Hg & Ho). rewrite Ho in Hx.
  apply list_elem_of_In, in_concat in Hx as (k & Hk & Hx). apply list_elem_of_In in Hk, Hx.
  destruct (Forall2_elem_r _ _ _ _ Hg Hk) as (env' & He & Hc). by rewrite (casts_read _ _ _ _ _ _ Hc Hx Hr).
Qed.

Lemma posts_sender socketPath st ls st' envs :
  @srun _ _ _ _ _ _ (probe_server socketPath) st ls = Some st' → drifting socketPath st ls →
  has_sent (tr (sv_d st)) envs → Forall (λ env, Sender env = fp (sv_d st)) (posts socketPath st ls).
Proof.
  revert st envs. induction ls as [|l ls IH]; intros st envs; cbn [srun drifting posts]; [done|].
  destruct (sstep st l) as [st1|] eqn:E; [|done]. intros Hr [Hd Hds] HP.
  destruct (step_keeps _ _ _ _ _ E Hd HP) as (HP' & _ & Hf & _).
  apply Forall_app. split; [|rewrite <-Hf; by eapply IH].
  unfold step_posts, acked. repeat case_match; try constructor; [|constructor].
  by eapply (build_envelope_head _ _ _ _ _).
Qed.

Lemma node_sender n env : node_ok n → env ∈ n_sent n → Sender env = fp (n_daemon n).
Proof.
  intros Hn Hin. pose proof (posts_sender _ (sv_start (n_daemon n)) _ _ [] (no_run n Hn) (no_drifting n Hn)
    (node_has_sent n Hn)) as HF. rewrite Forall_forall in HF. by apply HF.
Qed.

(** ** What its clients are shown *)

(** The network, between [nodes]: what [n] received is what its end made of [msgs], each of which
    left one of the nodes. *)
Record delivers (nodes : list node) (n : node) (msgs : list l_msg) : Prop := {
  de_read : received (n_steps n) = omap (l_reads (tr (n_daemon n))) msgs;
  de_from : ∀ x, x ∈ msgs → ∃ m, m ∈ nodes ∧ x ∈ n_out m;
}.

Lemma received_sent nodes n msgs env :
  Forall node_ok nodes → delivers nodes n msgs → env ∈ received (n_steps n) →
  ∃ m, m ∈ nodes ∧ env ∈ n_sent m ∧ Sender env = fp (n_daemon m).
Proof.
  intros Hok [Hr Hs]. rewrite Hr. intros (x & Hin & Hm)%list_elem_of_omap.
  destruct (Hs x Hin) as (m & Hm' & Hx). rewrite Forall_forall in Hok. pose proof (Hok m Hm') as Hmok.
  pose proof (node_reads m x _ env Hmok Hx Hm) as He. exists m. auto using node_sender.
Qed.

(** What a node accepts is not its own. *)
Lemma accepted_others socketPath st ls st' envs it :
  @srun _ _ _ _ _ _ (probe_server socketPath) st ls = Some st' → drifting socketPath st ls →
  has_sent (tr (sv_d st)) envs → it ∈ hist st' → it ∈ hist st ∨ Sender (it_Envelope it) ≠ fp (sv_d st).
Proof.
  revert st envs. induction ls as [|l ls IH]; intros st envs; cbn [srun drifting];
    [intros [= <-] _ _ ?; by left|].
  destruct (sstep st l) as [st1|] eqn:E; [|done]. intros Hr [Hd Hds] HP Hin.
  destruct (step_keeps _ _ _ _ _ E Hd HP) as (HP' & _ & Hf & _).
  destruct (IH st1 _ Hr Hds HP' Hin) as [Hh|Hh]; [|right; by rewrite <-Hf].
  rewrite (sstep_hist (Server0 := probe_server socketPath) st l st1 E) in Hh.
  apply elem_of_app in Hh as [|Hh]; [by left|right].
  destruct l as [| | | | | | |[env|t]]; cbn in Hh; try by apply elem_of_nil in Hh.
  revert Hh. unfold new_items. destruct (Seen _ _).1; cbn [orb]; [by intros ?%elem_of_nil|].
  destruct (String.eqb_spec (Sender env) (fp (sv_d st))) as [|Hne]; [by intros ?%elem_of_nil|].
  intros Hh.
  assert (it_Envelope it = env) as ->; [|done].
  revert Hh. unfold materialize. repeat case_match; cbn; intros Hh; apply elem_of_cons in Hh as [->|?%elem_of_nil] || apply elem_of_nil in Hh; done.
Qed.

(** No id comes twice: none of those received, none that was known, none that the node itself made. *)
Record fresh_ids (n : node) : Prop := {
  fi_once : NoDup (map MsgID (received (n_steps n)));
  fi_new : ∀ env, env ∈ received (n_steps n) → MsgID env ∉ seen (d_dedupe (n_daemon n));
  fi_own : ∀ c x rd env, SRequest c x rd ∈ n_steps n → env ∈ received (n_steps n) → x_ulid x ≠ MsgID env;
}.

(** A client that follows from the start, whose channel had room, and is empty by now. *)
Record follows_all (n : node) (cl : client Item) (kind : string) (ch : nat) : Prop := {
  fo_at : g_at cl = Holding true ch kind;
  fo_from : g_from cl = 0%nat;
  fo_empty : queue (default (make_chan 0) (subs (sv_d (n_state n)) !! ch)) = [];
  fo_room : (length (received (n_steps n)) ≤ subCap)%nat;
}.

(** Such a client has taken everything. *)
Lemma took_all n c cl kind ch :
  node_ok n → conns (n_state n) !! c = Some cl → follows_all n cl kind ch → g_taken cl = hist (n_state n).
Proof.
  intros Hn Hc [Hat Hf Hq Hl]. pose proof (no_run n Hn) as Hrun.
  destruct (node_hist _ _ _ _ Hrun) as (k & Hk & Hsub). cbn in Hk. subst k.
  destruct (@serve_lossless _ _ _ _ _ _ (probe_server (n_socket n)) _ (n_daemon n) (n_steps n)
    (n_state n) c cl true ch kind (no_subs n Hn) Hrun Hc Hat) as (q & Hch & Hq' & _).
  - apply sublist_length in Hsub. rewrite length_map in Hsub. cbn. lia.
  - change (subs (sv_d (n_state n)) !! ch = Some (mkChan q subCap false)) in Hch. rewrite Hch in Hq.
    cbn in Hq. subst q. by rewrite app_nil_r, Hf in Hq'.
Qed.

(** A text of another daemon that comes in is accepted. *)
Lemma text_accepted n env :
  node_ok n → fresh_ids n → env ∈ received (n_steps n) → Delivery.is_text env →
  Sender env ≠ fp (n_daemon n) → env ∈ map it_Envelope (hist (n_state n)).
Proof.
  intros Hn [Ho Hnew Hown] Hin Ht Hne.
  destruct (node_accepts _ _ _ _ [] (no_run n Hn) (no_drifting n Hn) (node_has_sent n Hn) (no_dedupe n Hn)
    Ho Hnew Hown) as (k & Hk & Hacc). cbn in Hk. rewrite Hk.
  eapply elem_of_subseteq; [by eapply sublist_subseteq|]. by apply list_elem_of_filter.
Qed.

(** What a client that follows or waits is shown of a [kind]. *)
Definition shown (cl : client Item) (kind : string) : list Item :=
  filter (λ it, matchesKind it kind = true) (g_taken cl).

Lemma client_shown nodes n msgs c cl follow kind :
  Forall node_ok nodes → node_ok n → delivers nodes n msgs →
  conns (n_state n) !! c = Some cl → g_hold cl = Some (follow, kind) →
  g_w cl = (Ipc.write_msgs (g_w0 cl) (map itemResp (shown cl kind))).2 ∧
  (follow = false → (length (shown cl kind) ≤ 1)%nat) ∧
  (∀ it, it ∈ shown cl kind → matchesKind it kind = true ∧
     ∃ m, m ∈ nodes ∧ fp (n_daemon m) ≠ fp (n_daemon n) ∧ it_Envelope it ∈ n_sent m ∧
       Sender (it_Envelope it) = fp (n_daemon m)).
Proof.
  intros Hok Hn Hd Hc Hhold. pose proof (no_run n Hn) as Hrun.
  destruct (@serve_spec _ _ _ _ _ _ (probe_server (n_socket n)) _ (n_daemon n) (n_steps n) (n_state n)
    (no_subs n Hn) Hrun) as (_ & _ & Hcl & _).
  specialize (Hcl c cl Hc). rewrite Hhold in Hcl. destruct Hcl as (Htaken & Hone & Hw).
  destruct (node_hist _ _ _ _ Hrun) as (k & Hk & Hsub). cbn in Hk. subst k. unfold shown. split_and!; [done| |].
  - intros Hf. specialize (Hone Hf). unfold said in Hone. by rewrite length_map in Hone.
  - intros it [Hm Hin]%list_elem_of_filter. split; [done|].
    assert (it ∈ hist (n_state n)) as Hh.
    { eapply elem_of_subseteq; [eapply sublist_subseteq; etrans; [exact Htaken|apply sublist_drop]|done]. }
    assert (it_Envelope it ∈ received (n_steps n)) as Hrec
      by (eapply elem_of_subseteq; [by eapply sublist_subseteq|by apply list_elem_of_fmap_2]).
    destruct (received_sent nodes n msgs _ Hok Hd Hrec) as (m & Hm' & Hs & Hse). exists m. split_and!; [done| |done..].
    rewrite <-Hse. destruct (accepted_others _ _ _ _ [] it Hrun (no_drifting n Hn) (node_has_sent n Hn) Hh)
      as [?%elem_of_nil|]; done.
Qed.

Lemma client_shown_all n c cl kind ch env :
  node_ok n → fresh_ids n → conns (n_state n) !! c = Some cl → follows_all n cl kind ch →
  kind ≠ TypeImage → kind ≠ TypeFile →
  env ∈ received (n_steps n) → Delivery.is_text env → Sender env ≠ fp (n_daemon n) →
  env ∈ map it_Envelope (shown cl kind).
Proof.
  intros Hn Hfr Hc Hfo Hi Hk Hin Ht Hne. unfold shown. rewrite (took_all n c cl kind ch) by done.
  eapply elem_of_subseteq; [eapply sublist_subseteq, (sublist_filter_map it_Envelope Delivery.is_text)|].
  - intros it. unfold Delivery.is_text, matchesKind. intros ->.
    rewrite (proj2 (String.eqb_neq kind TypeImage)), (proj2 (String.eqb_neq kind TypeFile)) by done.
    by repeat case_match.
  - apply list_elem_of_filter. split; [done|]. by apply text_accepted.
Qed.

(** A node by its steps, when the transport stays as it is while it is waited for. *)
Definition node_at (socketPath : string) (d : Daemon T) (ls : list label) : node :=
  mkNode socketPath d ls
    (default (sv_start d) (@srun _ _ _ _ _ _ (probe_server socketPath) (sv_start d) ls)).

Definition still (l : label) : Prop :=
  match l with
  | SBack (Moved _) => False
  | SRequest _ x _ => ∀ t, x_waited x t = t
  | _ => True
  end.

Lemma still_drifting socketPath st ls : (∀ t, l_drifts t t) → Forall still ls → drifting socketPath st ls.
Proof.
  intros Hd Hf. revert st. induction Hf as [|l ls Hl _ IH]; intros st; [exact I|]. split; [|by destruct (sstep st l)].
  destruct l as [| |c x rd| | | | |[env|t]]; try done. cbn. by rewrite Hl.
Qed.

Lemma node_at_ok socketPath d ls :
  (∀ t, l_drifts t t) → dedupe_wf (d_dedupe d) → subs d = ∅ → fp d = Identity (tr d) → l_ok (tr d) →
  l_out (tr d) = [] → is_Some (@srun _ _ _ _ _ _ (probe_server socketPath) (sv_start d) ls) →
  Forall still ls → node_ok (node_at socketPath d ls).
Proof.
  intros Hdr Hw Hs Hf Ho Hl [st Hst] Hd. split; try done; [by apply still_drifting|].
  unfold node_at. cbn [n_socket n_daemon n_steps n_state]. by rewrite Hst.
Qed.

(** ** For the examples: one node is asked to send a text, another, which a client follows, receives
    it *)

Definition demo_asks (op data : string) : reader :=
  mkReader (w_buf (Ipc.write_msg (mkWriter "" None) (mkRequest 1 op data "" "" "" false false "" "")).2) EOF.
Definition demo_given (ulid : string) : Given T := mkGiven ulid 5 (λ t, t) (λ _, []).

Definition demo_sender (d : Daemon T) : node :=
  node_at "/run/clip.sock" d
    [SAccept 1 (mkWriter "" None); SRequest 1 (demo_given "01") (demo_asks OpSend "hi")].
Definition demo_follower (d : Daemon T) (envs : list Envelope) : node :=
  node_at "/run/clip.sock" d
    ([SAccept 1 (mkWriter "" None); SRequest 1 (demo_given "02") (demo_asks OpSubscribe "")] ++
     map (SBack ∘ Received) envs ++ [STake 1]).
Definition demo_client (n : node) : client Item :=
  default (mkClient Finished (mkWriter "" None) (mkWriter "" None) None 0 []) (conns (n_state n) !! 1%nat).

Lemma demo_still d envs :
  Forall still (n_steps (demo_sender d)) ∧ Forall still (n_steps (demo_follower d envs)).
Proof.
  split; [by repeat constructor|]. apply Forall_app. split; [by repeat constructor|].
  apply Forall_app. split; [|by repeat constructor]. by apply Forall_map, Forall_true.
Qed.

Lemma demo_received d envs : received (n_steps (demo_follower d envs)) = envs.
Proof.
  unfold demo_follower, node_at, received. cbn [n_steps]. rewrite !omap_app. cbn. rewrite app_nil_r.
  induction envs as [|env envs IH]; [done|]. cbn. by rewrite IH.
Qed.

Lemma demo_fresh d envs :
  map MsgID envs = ["01"] → seen (d_dedupe d) = ∅ → fresh_ids (demo_follower d envs).
Proof.
  intros Hids Hs. split; rewrite demo_received.
  - rewrite Hids. apply NoDup_singleton.
  - intros env _. cbn. rewrite Hs. apply not_elem_of_empty.
  - intros c x rd env Hx He%(list_elem_of_fmap_2 MsgID). change (MsgID <$> envs) with (map MsgID envs) in He.
    rewrite Hids in He. apply list_elem_of_singleton in He as ->.
    assert (x_ulid x = "02") as ->; [|done]. revert Hx. unfold demo_follower, node_at. cbn [n_steps].
    intros [Hin|[Hin|Hin]%elem_of_app]%elem_of_app.
    + apply elem_of_cons in Hin as [?|[?|[]%elem_of_nil]%elem_of_cons]; [done|]. by simplify_eq.
    + by apply list_elem_of_fmap in Hin as (? & ? & _).
    + by apply elem_of_cons in Hin as [?|[]%elem_of_nil].
Qed.
End room.
