(* ===== verification/MeshRoom.v ===== *)
(** * A room of processes on the libp2p mesh

    The daemons of [experiments/libp2p-mesh] in [ProbeRoom]: the messages are those of one topic of
    gossipsub, each naming the daemon that published it. *)
From S2P Require Import Prelude GoStr GoPath GoOS Wire Codec Chan Dedupe Clip Mesh ProbeConfig ProbeIpc ProbeCodec ProbeDaemon ProbeHandlers Serve ProbeServe ProbeRoom.
From S2P Require Ipc Daemon Handlers Delivery ProbeHandoff.
Open Scope string_scope.
Open Scope list_scope.

Section room.
Context `{Libp2p} `{Cbor Envelope}.

(** What the transport does by itself: every step but a [Broadcast]. *)
Definition own_step (w w' : World) : Prop := ∃ ev, (∀ env, ev ≠ Send env) ∧ mesh_step w ev w'.
Definition drifts (t u : Mesh) : Prop := ∃ w w', Mesh.tr w = t ∧ Mesh.tr w' = u ∧ rtc own_step w w'.

Lemma mesh_own_keeps w w' :
  own_step w w' → host_ID (Mesh.tr w') = host_ID (Mesh.tr w) ∧ published (Mesh.tr w') = published (Mesh.tr w).
Proof.
  intros (ev & Hev & Hs). destruct Hs; try done.
  - by apply HandlePeerFound_spec in H1 as [[-> ->]|(-> & -> & _)].
  - by destruct (Hev env).
Qed.

Lemma mesh_drifts_keeps t u : drifts t u → host_ID u = host_ID t ∧ published u = published t.
Proof.
  intros (w & w' & <- & <- & Hs). induction Hs as [|w w1 w' Hs _ (H1' & H2')]; [done|].
  apply mesh_own_keeps in Hs as (? & ?). split; congruence.
Qed.

#[export] Instance mesh_ledger : Ledger Mesh := {
  l_msg := Message;
  l_ok _ := True;
  l_out t := map (mkMessage (host_ID t)) (published t);
  l_reads := readLoop_one;
  l_casts id env k :=
    ∃ host frame, ID_String host = id ∧ Marshal env = Ok frame ∧ k = [mkMessage host frame];
  l_drifts := drifts;
}.

#[export] Instance mesh_ledger_laws `{!CborSound Envelope} : LedgerLaws Mesh.
Proof.
  split; cbn.
  - intros t u (Hh & Hp)%mesh_drifts_keeps _. unfold mesh_Identity. by rewrite Hh, Hp.
  - done.
  - intros t env err u _. unfold mesh_Broadcast. destruct (negb _); [by intros [= <- <-]|].
    destruct (Marshal env) as [frame|] eqn:E; [|by intros [= <- <-]].
    destruct (n_publish _ _); intros [= <- <-]; (split_and!; [done|done|]); [done|]. cbn. rewrite map_app.
    eexists. split; [done|]. by exists (host_ID t), frame.
  - intros id env k x v env' (host & frame & _ & Hm & ->) ->%list_elem_of_singleton.
    rewrite (readLoop_frame v env frame host Hm). destruct (String.eqb _ _); [done|]. by intros [= <-].
Qed.

Context `{Blake3} `{ImageCodec} `{MimeTable} `{Clipboard} `{Json} `{Cbor Request} `{Cbor Response}.
Context `{!CborSound Envelope}.

(** What another node sent comes in, when all its messages are delivered. *)
Lemma sent_received nodes (n m : node (T := Mesh)) msgs env :
  node_ok n → node_ok m → delivers nodes n msgs → fp (n_daemon m) ≠ fp (n_daemon n) → n_out m ⊆ msgs →
  env ∈ n_sent m → env ∈ received (n_steps n).
Proof.
  intros Hn Hm [Hr _] Hne Hall Hin. rewrite Hr. destruct (node_out m Hm) as (groups & Hg & Ho).
  destruct (Forall2_elem_l _ _ _ _ Hg Hin) as (k & Hk & host & frame & Hid & Hmar & ->).
  apply list_elem_of_omap. exists (mkMessage host frame). split.
  - apply Hall. rewrite Ho. apply list_elem_of_In, in_concat. exists [mkMessage host frame].
    split; [by apply list_elem_of_In|by left].
  - cbn. rewrite (readLoop_frame _ env frame host Hmar).
    destruct (String.eqb_spec host (host_ID (tr (n_daemon n)))) as [E|]; [|done]. destruct Hne.
    by rewrite (no_fp n Hn), <-Hid, E.
Qed.
End room.

(** ** Properties *)


(** ** An example *)

#[local] Existing Instance toy_libp2p.
#[local] Existing Instance strict_env.
#[local] Existing Instance strict_env_sound.
#[local] Existing Instance pad_blake3.
#[local] Existing Instance Handlers.no_images.
#[local] Existing Instance Handlers.no_mime.
#[local] Existing Instance Daemon.clipboard_works.
#[local] Existing Instance probe_req.
#[local] Existing Instance probe_resp.
#[local] Existing Instance probe_json.

Definition mesh_node_a : node (T := Mesh) := demo_sender (ProbeHandoff.mesh_daemon "a").
Definition mesh_msgs : list Message := n_out mesh_node_a.
Definition mesh_heard : list Envelope := readLoop (tr (ProbeHandoff.mesh_daemon "b")) mesh_msgs.
Definition mesh_node_b : node (T := Mesh) := demo_follower (ProbeHandoff.mesh_daemon "b") mesh_heard.
Definition mesh_client : client Item := demo_client mesh_node_b.
Definition mesh_sent : Envelope := default mesh_text (head (n_sent mesh_node_a)).

Lemma mesh_drifts_refl t : drifts t t.
Proof. by exists (mkWorld t []), (mkWorld t []). Qed.

Lemma mesh_nodes_ok : node_ok mesh_node_a ∧ node_ok mesh_node_b.
Proof.
  destruct (demo_still (ProbeHandoff.mesh_daemon "a") []) as [Ha _]. destruct (demo_still (ProbeHandoff.mesh_daemon "b") mesh_heard) as [_ Hb].
  split; (apply node_at_ok; [apply mesh_drifts_refl|apply NewDedupe_wf|reflexivity|reflexivity|exact I|reflexivity| |assumption]);
    vm_compute; by eexists.
Qed.

Lemma mesh_delivered : delivers [mesh_node_a; mesh_node_b] mesh_node_b mesh_msgs.
Proof.
  split; [vm_compute; reflexivity|]. intros x Hx. exists mesh_node_a. split; [by left|exact Hx].
Qed.

Lemma mesh_ids : map MsgID mesh_heard = ["01"].
Proof. vm_compute. reflexivity. Qed.

Lemma mesh_fresh : fresh_ids mesh_node_b.
Proof. apply demo_fresh; [exact mesh_ids|reflexivity]. Qed.

Lemma mesh_client_states :
  conns (n_state mesh_node_b) !! 1%nat = Some mesh_client ∧ g_hold mesh_client = Some (true, "any") ∧
  g_w0 mesh_client = mkWriter "" None.
Proof. split_and!; vm_compute; reflexivity. Qed.

Lemma mesh_follows : follows_all mesh_node_b mesh_client "any" 0.
Proof.
  split; [vm_compute; reflexivity..|]. unfold mesh_node_b. rewrite demo_received, <-(length_map MsgID), mesh_ids.
  apply (bool_decide_unpack _). vm_compute. exact I.
Qed.

Lemma mesh_sent_states :
  mesh_sent ∈ n_sent mesh_node_a ∧ Delivery.is_text mesh_sent ∧ Text mesh_sent = "hi" ∧
  fp (n_daemon mesh_node_a) ≠ fp (n_daemon mesh_node_b).
Proof.
  split_and!; [|vm_compute; reflexivity|vm_compute; reflexivity|vm_compute; discriminate].
  assert (n_sent mesh_node_a = [mesh_sent]) as -> by (vm_compute; reflexivity). by left.
Qed.

Lemma mesh_all : n_out mesh_node_a ⊆ mesh_msgs.
Proof. unfold mesh_msgs. reflexivity. Qed.

