(* ===== verification/LanRoom.v ===== *)
(** * A room of processes on the LAN

    The daemons of [experiments/lan-go] in [ProbeRoom]: a message is a stream on a connection, with
    the bytes that were written to it. *)
From S2P Require Import Prelude GoStr GoPath GoOS Wire Codec Chan Dedupe Clip Lan LanProps ProbeConfig ProbeIpc ProbeCodec ProbeDaemon ProbeHandlers Serve ProbeServe ProbeRoom.
From S2P Require Ipc Daemon Handlers Delivery Rooms ProbeHandoff.
Open Scope string_scope.
Open Scope list_scope.

Section room.
Context `{Tls} `{Cbor Envelope}.

(** A stream that opens is new. *)
Definition streams_fresh (n : Net) : Prop := ∀ c w, n_open n c = Some w → w_buf w = "".

(** What the transport does by itself: every step but a [Broadcast]. *)
Definition own_step (w w' : World) : Prop :=
  ∃ ev, match ev with Send _ => False | Network n => streams_fresh n | _ => True end ∧ lan_step w ev w'.
Definition drifts (t u : Lan) : Prop := ∃ w w', Lan.tr w = t ∧ Lan.tr w' = u ∧ rtc own_step w w'.

(** It leaves alone the identity and the streams. *)
Definition keeps (t u : Lan) : Prop :=
  Lan.fp u = Lan.fp t ∧ sent u = sent t ∧ (streams_fresh (net t) → streams_fresh (net u)).

Lemma handleEntry_keeps t e : keeps t (handleEntry t e).2.
Proof. unfold handleEntry. by repeat case_match; simplify_eq/=. Qed.

Lemma serve_keeps t ds hs en c expect : keeps t (Lan.tr (serve t ds hs en c expect)).
Proof.
  unfold serve. assert (keeps t (Lan.handleConn t c).2) as Hk by (unfold Lan.handleConn; by repeat case_match).
  destruct (Lan.handleConn t c) as [[f|] u]; [done|]. by destruct expect.
Qed.

Lemma lan_own_keeps w w' : own_step w w' → keeps (Lan.tr w) (Lan.tr w').
Proof.
  intros (ev & Hev & Hs). destruct Hs; try done.
  - pose proof (handleEntry_keeps (Lan.tr w) e) as Hk. by rewrite H1 in Hk.
  - apply serve_keeps.
  - apply serve_keeps.
  - cbn. unfold handleConn_end. by repeat case_match.
Qed.

Lemma lan_drifts_keeps t u : drifts t u → keeps t u.
Proof.
  intros (w & w' & <- & <- & Hs). induction Hs as [|w w1 w' Hs _ (H1' & H2' & H3')]; [done|].
  apply lan_own_keeps in Hs as (? & ? & ?). split_and!; [congruence..|auto].
Qed.

(** The stream of a frame, as far as it got. *)
Definition stream_of (env : Envelope) (x : Conn * string) : Prop :=
  ∃ frame w, Marshal env = Ok frame ∧ w_buf w = "" ∧ x.2 = w_buf (WriteFrame w frame).2.

#[export] Instance lan_ledger : Ledger Lan := {
  l_msg := Conn * string;
  l_ok t := streams_fresh (net t);
  l_out := sent;
  l_reads _ x := readStream (mkReader x.2 EOF);
  l_casts _ env k := Forall (stream_of env) k;
  l_drifts := drifts;
}.

(** What is read of it is the envelope, or nothing. *)
Lemma stream_reads `{!CborSound Envelope} env x env' :
  stream_of env x → readStream (mkReader x.2 EOF) = Some env' → env' = env.
Proof.
  intros (frame & w & Hm & Hw & ->). destruct (WriteFrame w frame) as [res w'] eqn:E. cbn [snd].
  destruct res as [u|[n|e]].
  - destruct (Rooms.WriteFrame_wrote _ _ _ _ E) as [Hf ->]. rewrite Hw. cbn [String.append].
    rewrite (readStream_frame env frame Hm Hf). by intros [= <-].
  - rewrite (Rooms.WriteFrame_large _ _ _ _ E), Hw. done.
  - destruct (WriteFrame_torn _ _ _ _ E) as (a & b & Hab & Hne & ->). rewrite Hw. cbn [String.append].
    assert (fits frame) as Hf.
    { revert E. unfold WriteFrame, fits. by destruct (Z.ltb_spec MaxFrame (len frame)). }
    destruct (ReadFrame_prefix_err frame a b EOF Hf Hab Hne) as (err & r & Hr). unfold readStream. by rewrite Hr.
Qed.

#[export] Instance lan_ledger_laws `{!CborSound Envelope} : LedgerLaws Lan.
Proof.
  split; cbn.
  - intros t u (Hf & Hs & Hn)%lan_drifts_keeps Hok. auto.
  - done.
  - intros t env err u Hok. unfold lan_Broadcast. destruct (Marshal env) as [frame|] eqn:E; [|by intros [= <- <-]].
    intros [= <- <-]. split_and!; [done..|]. eexists. split; [done|]. apply Forall_forall.
    intros x (p & Hp & Hx)%list_elem_of_In%in_flat_map. revert Hx. unfold broadcast_one.
    destruct (n_open _ _) as [w|] eqn:Ew; [|done]. intros [<-|[]]. exists frame, w. by eauto.
  - intros id env k x v env' Hk Hx Hr. rewrite Forall_forall in Hk. by eapply stream_reads; [apply Hk|].
Qed.

Context `{Blake3} `{ImageCodec} `{MimeTable} `{Clipboard} `{Json} `{Cbor Request} `{Cbor Response}.
Context `{!CborSound Envelope}.

(** A stream that arrives whole comes in. *)
Lemma stream_received nodes (n : node (T := Lan)) msgs env frame conn :
  delivers nodes n msgs → Marshal env = Ok frame → fits frame → (conn, frame_bytes frame) ∈ msgs →
  env ∈ received (n_steps n).
Proof.
  intros [Hr _] Hm Hf Hin. rewrite Hr. apply list_elem_of_omap. eexists. split; [exact Hin|].
  by apply readStream_frame.
Qed.
End room.

(** ** Properties *)


(** ** An example *)

#[local] Existing Instance toy_tls.
#[local] Existing Instance strict_env.
#[local] Existing Instance strict_env_sound.
#[local] Existing Instance pad_blake3.
#[local] Existing Instance Handlers.no_images.
#[local] Existing Instance Handlers.no_mime.
#[local] Existing Instance Daemon.clipboard_works.
#[local] Existing Instance probe_req.
#[local] Existing Instance probe_resp.
#[local] Existing Instance probe_json.

Definition lan_node_a : node (T := Lan) := demo_sender ProbeHandoff.here.
Definition lan_msgs : list (Conn * string) := n_out lan_node_a.
Definition lan_heard : list Envelope := omap (λ x, readStream (mkReader x.2 EOF)) lan_msgs.
Definition lan_node_b : node (T := Lan) := demo_follower ProbeHandoff.there lan_heard.
Definition lan_client : client Item := demo_client lan_node_b.
Definition lan_sent : Envelope := default lan_text (head (n_sent lan_node_a)).

Lemma lan_drifts_refl t : drifts t t.
Proof. by exists (mkWorld t [] [] []), (mkWorld t [] [] []). Qed.

Lemma lan_nodes_ok : node_ok lan_node_a ∧ node_ok lan_node_b.
Proof.
  destruct (demo_still ProbeHandoff.here []) as [Ha _]. destruct (demo_still ProbeHandoff.there lan_heard) as [_ Hb].
  split; (apply node_at_ok; [apply lan_drifts_refl|apply NewDedupe_wf|reflexivity|reflexivity|by intros c w [= <-]|reflexivity| |assumption]);
    vm_compute; by eexists.
Qed.

Lemma lan_delivered : delivers [lan_node_a; lan_node_b] lan_node_b lan_msgs.
Proof.
  split; [vm_compute; reflexivity|]. intros x Hx. exists lan_node_a. split; [by left|exact Hx].
Qed.

Lemma lan_ids : map MsgID lan_heard = ["01"].
Proof. vm_compute. reflexivity. Qed.

Lemma lan_fresh : fresh_ids lan_node_b.
Proof. apply demo_fresh; [exact lan_ids|reflexivity]. Qed.

Lemma lan_client_states :
  conns (n_state lan_node_b) !! 1%nat = Some lan_client ∧ g_hold lan_client = Some (true, "any") ∧
  g_w0 lan_client = mkWriter "" None.
Proof. split_and!; vm_compute; reflexivity. Qed.

Lemma lan_follows : follows_all lan_node_b lan_client "any" 0.
Proof.
  split; [vm_compute; reflexivity..|]. unfold lan_node_b. rewrite demo_received, <-(length_map MsgID), lan_ids.
  apply (bool_decide_unpack _). vm_compute. exact I.
Qed.

Lemma lan_sent_states :
  lan_sent ∈ n_sent lan_node_a ∧ Delivery.is_text lan_sent ∧ Text lan_sent = "hi" ∧
  fp (n_daemon lan_node_a) ≠ fp (n_daemon lan_node_b).
Proof.
  split_and!; [|vm_compute; reflexivity|vm_compute; reflexivity|vm_compute; discriminate].
  assert (n_sent lan_node_a = [lan_sent]) as -> by (vm_compute; reflexivity). by left.
Qed.

Lemma lan_stream :
  Marshal lan_sent = Ok (enc_env lan_sent) ∧ fits (enc_env lan_sent) ∧
  (conn_to "b", frame_bytes (enc_env lan_sent)) ∈ lan_msgs.
Proof.
  split; [vm_compute; reflexivity|]. split; [apply (bool_decide_unpack _); vm_compute; exact I|].
  assert (lan_msgs = [(conn_to "b", frame_bytes (enc_env lan_sent))]) as -> by (vm_compute; reflexivity). by left.
Qed.

